(** * Prostate Analyzer 3D: the controllers, verified

    A shallow embedding of the two controllers of the application,
    [app/controllers/prediction_controller.py] and
    [app/controllers/case_manager.py], with the parts of [config.py]
    they read.

    - [PyFloat]: Python floats (IEEE binary64) and the order facts the
      post-processing relies on.
    - [PyList]: [list.sort] as a stable sort that only uses [<].
    - [Prediction]: [PredictionWorker._process_results].
    - [PyStr]: file names, as [posixpath] and [str] treat them.
    - [Py]: Python objects on a heap of shared dictionaries and lists,
      with [json.dump] and [json.load].
    - [CaseManager]: the case manager.
    - [Controller]: [PredictionController.start_prediction] and the
      life cycle of its worker thread.
    - [PredictionFacts]: order properties of the severity rule and of
      the lesion list.
    - [CaseFacts]: what each method of the case manager does to the
      current case, to the case list and to the disk.
    - [CaseName]: [CaseManager._generate_case_name].
    - [Results]: [PredictionController.save_results].
    - [Worker]: [PredictionWorker.run] and the signals it emits.
    - [ImageLoader]: [app/utils/image_loader.py].
    - [Report]: [ReportDialog._generate_conclusion_text] of
      [app/views/report_dialog.py]. *)

From Stdlib Require Import ZArith List String Ascii Bool Lia Floats Permutation Sorted.
From stdpp Require Import base gmap strings list.

Set Warnings "-inexact-float,-register-all".
Local Open Scope Z_scope.

(* ===================================================================== *)
(** ** Python floats *)
(* ===================================================================== *)

Module PyFloat.

(** [x > y] on Python floats is IEEE [y < x]: false as soon as one side
    is NaN. *)
Definition gt (x y : float) : bool := PrimFloat.ltb y x.

(** [x >= y]. *)
Definition ge (x y : float) : bool := PrimFloat.leb y x.

(** [np.float32(x)]: the float32 number nearest to [x] (ties to even),
    as the binary64 number it denotes; every float32 number is a
    binary64 number. *)
Definition float32 (x : float) : float :=
  match Prim2SF x with
  | S754_finite s m e => SF2Prim (binary_round 24 128 s m e)
  | _ => x
  end.

(** Lexicographic comparison of integer triples. *)
Definition lex3 (p q : Z * Z * Z) : comparison :=
  let '(a, b, c) := p in
  let '(a', b', c') := q in
  match a ?= a' with
  | Eq => match b ?= b' with Eq => c ?= c' | r => r end
  | r => r
  end.

(** A rank for every float that is not NaN: comparing two floats is
    comparing their ranks. *)
Definition SFrank (f : spec_float) : Z * Z * Z :=
  match f with
  | S754_zero _ => (0, 0, 0)
  | S754_infinity s => (if s then -2 else 2, 0, 0)
  | S754_nan => (3, 0, 0)
  | S754_finite s m e => if s then (-1, - e, - Z.pos m) else (1, e, Z.pos m)
  end.

Definition rank (x : float) : Z * Z * Z := SFrank (Prim2SF x).

Definition rank_ltb (x y : float) : bool :=
  match lex3 (rank x) (rank y) with Lt => true | _ => false end.

Lemma lex3_refl p : lex3 p p = Eq.
Proof.
  destruct p as [[a b] c]. unfold lex3. now rewrite !Z.compare_refl.
Qed.

Lemma lex3_eq p q : lex3 p q = Eq -> p = q.
Proof.
  destruct p as [[a b] c], q as [[a' b'] c']. unfold lex3.
  destruct (Z.compare_spec a a'); try discriminate.
  destruct (Z.compare_spec b b'); try discriminate.
  destruct (Z.compare_spec c c'); try discriminate.
  intros _. congruence.
Qed.

Lemma lex3_antisym p q : lex3 q p = CompOpp (lex3 p q).
Proof.
  destruct p as [[a b] c], q as [[a' b'] c']. unfold lex3.
  rewrite (Z.compare_antisym a a'), (Z.compare_antisym b b'), (Z.compare_antisym c c').
  destruct (a ?= a'); simpl; trivial.
  destruct (b ?= b'); simpl; trivial.
Qed.

Lemma lex3_lt_trans p q r : lex3 p q = Lt -> lex3 q r = Lt -> lex3 p r = Lt.
Proof.
  destruct p as [[a b] c], q as [[a' b'] c'], r as [[a'' b''] c'']. unfold lex3.
  destruct (Z.compare_spec a a'); try discriminate;
  destruct (Z.compare_spec a' a''); try discriminate;
  destruct (Z.compare_spec a a''); try lia; trivial;
  destruct (Z.compare_spec b b'); try discriminate;
  destruct (Z.compare_spec b' b''); try discriminate;
  destruct (Z.compare_spec b b''); try lia; trivial;
  destruct (Z.compare_spec c c'); try discriminate;
  destruct (Z.compare_spec c' c''); try discriminate;
  destruct (Z.compare_spec c c''); try lia; trivial.
Qed.

Lemma SFcompare_rank f1 f2 :
  f1 <> S754_nan -> f2 <> S754_nan ->
  SFcompare f1 f2 = Some (lex3 (SFrank f1) (SFrank f2)).
Proof.
  intros H1 H2.
  destruct f1 as [s1|s1| |s1 m1 e1], f2 as [s2|s2| |s2 m2 e2];
    try congruence; try destruct s1; try destruct s2; try reflexivity.
  cbn [SFcompare SFrank lex3]. rewrite Z.compare_refl, Z.compare_opp.
  rewrite (Z.compare_antisym e1 e2).
  destruct (e1 ?= e2); cbn; trivial.
Qed.

Lemma not_nan_SF x : is_nan x = false -> Prim2SF x <> S754_nan.
Proof.
  unfold is_nan. rewrite FloatAxioms.eqb_spec. intros H E. rewrite E in H. discriminate.
Qed.

Lemma ltb_rank x y :
  is_nan x = false -> is_nan y = false -> PrimFloat.ltb x y = rank_ltb x y.
Proof.
  intros Hx Hy. rewrite FloatAxioms.ltb_spec. unfold SFltb, rank_ltb, rank.
  now rewrite SFcompare_rank by now apply not_nan_SF.
Qed.

Lemma eqb_rank x y :
  is_nan x = false -> is_nan y = false ->
  PrimFloat.eqb x y = match lex3 (rank x) (rank y) with Eq => true | _ => false end.
Proof.
  intros Hx Hy. rewrite FloatAxioms.eqb_spec. unfold SFeqb, rank.
  now rewrite SFcompare_rank by now apply not_nan_SF.
Qed.

Lemma leb_rank x y :
  is_nan x = false -> is_nan y = false ->
  PrimFloat.leb x y = match lex3 (rank x) (rank y) with Gt => false | _ => true end.
Proof.
  intros Hx Hy. rewrite FloatAxioms.leb_spec. unfold SFleb, rank.
  rewrite SFcompare_rank by now apply not_nan_SF.
  now destruct (lex3 _ _).
Qed.

Lemma SFcompare_nan_r f : SFcompare f S754_nan = None.
Proof. now destruct f. Qed.

Lemma SF_self_eqb f : f <> S754_nan -> SFeqb f f = true.
Proof.
  intros H. unfold SFeqb. rewrite SFcompare_rank by assumption.
  now rewrite lex3_refl.
Qed.

(** Two floats that compare equal are numbers. *)
Lemma eqb_not_nan x y :
  PrimFloat.eqb x y = true -> is_nan x = false /\ is_nan y = false.
Proof.
  unfold is_nan. rewrite !FloatAxioms.eqb_spec. intros H.
  assert (Hx : Prim2SF x <> S754_nan).
  { intros E. rewrite E in H. discriminate. }
  assert (Hy : Prim2SF y <> S754_nan).
  { intros E. rewrite E in H. unfold SFeqb in H.
    now rewrite SFcompare_nan_r in H. }
  now rewrite !SF_self_eqb.
Qed.

(** A comparison with NaN is false. *)
Lemma ltb_nan_l x y : is_nan x = true -> PrimFloat.ltb x y = false.
Proof.
  unfold is_nan. rewrite FloatAxioms.eqb_spec, FloatAxioms.ltb_spec. intros H.
  destruct (Prim2SF x) eqn:E; try reflexivity;
    rewrite SF_self_eqb in H by discriminate; discriminate.
Qed.

Lemma ltb_nan_r x y : is_nan y = true -> PrimFloat.ltb x y = false.
Proof.
  unfold is_nan. rewrite FloatAxioms.eqb_spec, FloatAxioms.ltb_spec. intros H.
  destruct (Prim2SF y) eqn:E;
    try (rewrite SF_self_eqb in H by discriminate; discriminate).
  unfold SFltb. now rewrite SFcompare_nan_r.
Qed.

(** [>] is strict: a value equal to the bound is not above it. *)
Lemma gt_strict x t : PrimFloat.eqb x t = true -> gt x t = false.
Proof.
  intros H. destruct (eqb_not_nan _ _ H) as [Hx Ht].
  unfold gt. rewrite ltb_rank by assumption.
  rewrite eqb_rank in H by assumption. unfold rank_ltb.
  rewrite lex3_antisym. now destruct (lex3 (rank x) (rank t)).
Qed.

(** On numbers [<] is a strict total order up to [==]. *)
Lemma rank_ltb_irrefl x : rank_ltb x x = false.
Proof. unfold rank_ltb. now rewrite lex3_refl. Qed.

Lemma rank_ltb_trans x y z :
  rank_ltb x y = true -> rank_ltb y z = true -> rank_ltb x z = true.
Proof.
  unfold rank_ltb. intros H1 H2.
  destruct (lex3 (rank x) (rank y)) eqn:E1; try discriminate.
  destruct (lex3 (rank y) (rank z)) eqn:E2; try discriminate.
  now rewrite (lex3_lt_trans _ _ _ E1 E2).
Qed.

Lemma rank_ltb_cotrans x y z :
  rank_ltb x y = true -> rank_ltb x z = true \/ rank_ltb z y = true.
Proof.
  unfold rank_ltb. intros H.
  destruct (lex3 (rank x) (rank y)) eqn:E1; try discriminate.
  destruct (lex3 (rank x) (rank z)) eqn:E2; [ | now left | ].
  - right. apply lex3_eq in E2. rewrite <- E2. now rewrite E1.
  - right.
    assert (E3 : lex3 (rank z) (rank x) = Lt).
    { rewrite lex3_antisym, E2. reflexivity. }
    now rewrite (lex3_lt_trans _ _ _ E3 E1).
Qed.

Lemma ge_rank x y :
  is_nan x = false -> is_nan y = false -> ge x y = negb (rank_ltb x y).
Proof.
  intros Hx Hy. unfold ge, rank_ltb. rewrite leb_rank by assumption.
  rewrite (lex3_antisym (rank x) (rank y)).
  now destruct (lex3 (rank x) (rank y)).
Qed.

Lemma eqb_ties x v :
  is_nan x = false -> is_nan v = false ->
  PrimFloat.eqb x v = negb (rank_ltb v x) && negb (rank_ltb x v).
Proof.
  intros Hx Hv. unfold rank_ltb. rewrite eqb_rank by assumption.
  rewrite (lex3_antisym (rank x) (rank v)).
  now destruct (lex3 (rank x) (rank v)).
Qed.

Lemma eqb_nan_r x v : is_nan v = true -> PrimFloat.eqb x v = false.
Proof.
  intros Hv. destruct (PrimFloat.eqb x v) eqn:E; trivial.
  apply eqb_not_nan in E as [_ E]. congruence.
Qed.

End PyFloat.

(* ===================================================================== *)
(** ** Python lists: [list.sort] *)
(* ===================================================================== *)

Module PyList.

Section Sort.
Context {A : Type}.
Variable lt : A -> A -> bool.

(** One step of the insertion sort that [list.sort] runs: [x] goes to the
    right of every element it is not smaller than, so it never overtakes
    an element it ties with. Only [<] is ever asked. *)
Fixpoint insert_sorted (x : A) (l : list A) : list A :=
  match l with
  | [] => [x]
  | y :: l' => if lt x y then x :: l else y :: insert_sorted x l'
  end.

Definition sort_ascending (l : list A) : list A :=
  fold_left (fun acc x => insert_sorted x acc) l [].

(** [l.sort(reverse=r)]: with [reverse=True] the list is reversed, sorted,
    and reversed again, which keeps ties in their original order. *)
Definition sort (reverse : bool) (l : list A) : list A :=
  if reverse then rev (sort_ascending (rev l)) else sort_ascending l.

(** Two elements tie when neither is smaller. *)
Definition ties (a b : A) : bool := negb (lt a b) && negb (lt b a).

Definition ascending : list A -> Prop := StronglySorted (fun a b => lt b a = false).
Definition descending : list A -> Prop := StronglySorted (fun a b => lt a b = false).

Lemma insert_sorted_perm x l : Permutation (insert_sorted x l) (x :: l).
Proof.
  induction l as [|y l IH]; simpl; [reflexivity|].
  destruct (lt x y); [reflexivity|].
  rewrite IH. apply perm_swap.
Qed.

Lemma fold_insert_perm l acc :
  Permutation (fold_left (fun acc x => insert_sorted x acc) l acc) (acc ++ l).
Proof.
  revert acc. induction l as [|x l IH]; intros acc; simpl.
  - now rewrite app_nil_r.
  - rewrite IH, insert_sorted_perm. apply Permutation_middle.
Qed.

Lemma sort_ascending_perm l : Permutation (sort_ascending l) l.
Proof. apply (fold_insert_perm l []). Qed.

Lemma sort_perm r l : Permutation (sort r l) l.
Proof.
  destruct r; simpl; [|apply sort_ascending_perm].
  rewrite <- Permutation_rev, sort_ascending_perm.
  symmetry. apply Permutation_rev.
Qed.

Hypothesis lt_irrefl : forall a, lt a a = false.
Hypothesis lt_trans : forall a b c, lt a b = true -> lt b c = true -> lt a c = true.
Hypothesis lt_cotrans : forall a b c, lt a b = true -> lt a c = true \/ lt c b = true.

Lemma lt_asym a b : lt a b = true -> lt b a = false.
Proof.
  intros H. destruct (lt b a) eqn:E; trivial.
  now rewrite <- (lt_irrefl a), (lt_trans _ _ _ H E).
Qed.

(** In an ascending list headed by [y], an [x] below [y] is below
    everything. *)
Lemma below_head x y l :
  ascending (y :: l) -> lt x y = true -> Forall (fun z => lt x z = true) (y :: l).
Proof.
  intros Hs Hxy. inversion Hs as [|? ? _ Hall]; subst.
  constructor; [assumption|].
  eapply List.Forall_impl; [|exact Hall]. cbn. intros z Hzy.
  destruct (lt_cotrans _ _ z Hxy) as [H|H]; [assumption|congruence].
Qed.

Lemma insert_sorted_ascending x l : ascending l -> ascending (insert_sorted x l).
Proof.
  induction l as [|y l IH]; intros Hs; simpl.
  - constructor; constructor.
  - destruct (lt x y) eqn:Hxy.
    + constructor; [assumption|].
      eapply List.Forall_impl; [|apply (below_head x y l Hs Hxy)].
      cbn. intros z. apply lt_asym.
    + inversion Hs as [|? ? Hs' Hall]; subst.
      constructor; [now apply IH|].
      eapply Permutation_Forall; [symmetry; apply insert_sorted_perm|].
      now constructor.
Qed.

Lemma fold_insert_ascending l acc :
  ascending acc -> ascending (fold_left (fun acc x => insert_sorted x acc) l acc).
Proof.
  revert acc. induction l as [|x l IH]; intros acc Hs; simpl; [assumption|].
  apply IH. now apply insert_sorted_ascending.
Qed.

Lemma sort_ascending_ascending l : ascending (sort_ascending l).
Proof. apply fold_insert_ascending. constructor. Qed.

(** What lies above [x] does not tie with what ties with [x]. *)
Lemma filter_ties_above a x l :
  ties a x = true -> Forall (fun z => lt x z = true) l ->
  List.filter (ties a) l = [].
Proof.
  intros Hax. unfold ties in Hax.
  apply andb_true_iff in Hax as [H1 H2]. apply negb_true_iff in H1, H2.
  induction 1 as [|z l' Hz _ IHb]; [reflexivity|].
  cbn [List.filter]. unfold ties at 1.
  destruct (lt_cotrans _ _ a Hz) as [H|H]; [congruence|].
  now rewrite H.
Qed.

(** Stability of one insertion: among the elements that tie with [a], the
    new one comes last. *)
Lemma insert_sorted_ties a x l :
  ascending l ->
  List.filter (ties a) (insert_sorted x l)
  = List.filter (ties a) l ++ (if ties a x then [x] else []).
Proof.
  induction l as [|y l IH]; intros Hs.
  - simpl. now destruct (ties a x).
  - cbn [insert_sorted]. destruct (lt x y) eqn:Hxy.
    + destruct (ties a x) eqn:Hax.
      * assert (Hnone : List.filter (ties a) (y :: l) = []).
        { apply (filter_ties_above a x); [assumption|].
          now apply below_head. }
        change (List.filter (ties a) (x :: y :: l))
          with (if ties a x then x :: List.filter (ties a) (y :: l)
                else List.filter (ties a) (y :: l)).
        now rewrite Hax, Hnone.
      * change (List.filter (ties a) (x :: y :: l))
          with (if ties a x then x :: List.filter (ties a) (y :: l)
                else List.filter (ties a) (y :: l)).
        rewrite Hax. now rewrite app_nil_r.
    + inversion Hs as [|? ? Hs' Hall]; subst.
      cbn [List.filter]. rewrite (IH Hs').
      now destruct (ties a y).
Qed.

Lemma fold_insert_ties a l acc :
  ascending acc ->
  List.filter (ties a) (fold_left (fun acc x => insert_sorted x acc) l acc)
  = List.filter (ties a) acc ++ List.filter (ties a) l.
Proof.
  revert acc. induction l as [|x l IH]; intros acc Hs; simpl.
  - now rewrite app_nil_r.
  - rewrite IH by now apply insert_sorted_ascending.
    rewrite insert_sorted_ties by assumption.
    rewrite <- app_assoc. now destruct (ties a x).
Qed.

Lemma sort_ascending_stable a l :
  List.filter (ties a) (sort_ascending l) = List.filter (ties a) l.
Proof. apply (fold_insert_ties a l []). constructor. Qed.

Lemma StronglySorted_snoc (R : A -> A -> Prop) l x :
  StronglySorted R l -> Forall (fun a => R a x) l -> StronglySorted R (l ++ [x]).
Proof.
  induction 1 as [|y l Hs IH Hall]; intros Hx; simpl.
  - constructor; constructor.
  - inversion Hx; subst. constructor; [now apply IH|].
    apply List.Forall_app. split; [assumption|]. now constructor.
Qed.

Lemma StronglySorted_rev (R : A -> A -> Prop) l :
  StronglySorted R l -> StronglySorted (fun a b => R b a) (rev l).
Proof.
  induction 1 as [|y l Hs IH Hall]; simpl; [constructor|].
  apply StronglySorted_snoc; [assumption|].
  apply List.Forall_rev. assumption.
Qed.

Lemma filter_rev_comm (f : A -> bool) l :
  List.filter f (rev l) = rev (List.filter f l).
Proof.
  induction l as [|x l IH]; simpl; [reflexivity|].
  rewrite List.filter_app, IH. simpl.
  destruct (f x); simpl; [reflexivity|now rewrite app_nil_r].
Qed.

(** [sort] with [reverse=True] gives a descending list... *)
Lemma sort_reverse_descending l : descending (sort true l).
Proof.
  unfold sort, descending.
  apply (StronglySorted_rev (fun a b => lt b a = false)).
  apply sort_ascending_ascending.
Qed.

(** ... and it is stable: elements that tie keep their order. *)
Lemma sort_stable r a l : List.filter (ties a) (sort r l) = List.filter (ties a) l.
Proof.
  destruct r; simpl; [|apply sort_ascending_stable].
  rewrite filter_rev_comm, sort_ascending_stable, filter_rev_comm.
  apply rev_involutive.
Qed.

End Sort.

(** The sort only looks at its comparison on the elements of the list. *)
Lemma insert_sorted_ext {A} (lt1 lt2 : A -> A -> bool) x l :
  (forall y, In y l -> lt1 x y = lt2 x y) ->
  insert_sorted lt1 x l = insert_sorted lt2 x l.
Proof.
  induction l as [|y l IH]; intros H; simpl; [reflexivity|].
  rewrite (H y) by now left.
  destruct (lt2 x y); [reflexivity|].
  f_equal. apply IH. intros z Hz. apply H. now right.
Qed.

Lemma fold_insert_ext {A} (lt1 lt2 : A -> A -> bool) l acc :
  (forall a b, In a (acc ++ l) -> In b (acc ++ l) -> lt1 a b = lt2 a b) ->
  fold_left (fun acc x => insert_sorted lt1 x acc) l acc
  = fold_left (fun acc x => insert_sorted lt2 x acc) l acc.
Proof.
  revert acc. induction l as [|x l IH]; intros acc H; simpl; [reflexivity|].
  rewrite (insert_sorted_ext lt1 lt2 x acc).
  - apply IH. intros a b Ha Hb.
    assert (Hin : forall c, In c (insert_sorted lt2 x acc ++ l) -> In c (acc ++ x :: l)).
    { intros c Hc. eapply Permutation_in; [|exact Hc].
      rewrite insert_sorted_perm. apply Permutation_middle. }
    apply H; now apply Hin.
  - intros y Hy. apply H; apply in_or_app; [right; now left|now left].
Qed.

Lemma sort_ext {A} (lt1 lt2 : A -> A -> bool) r l :
  (forall a b, In a l -> In b l -> lt1 a b = lt2 a b) ->
  sort lt1 r l = sort lt2 r l.
Proof.
  intros H. unfold sort, sort_ascending. destruct r.
  - f_equal. apply fold_insert_ext. cbn. intros a b Ha Hb.
    apply H; now apply in_rev.
  - now apply fold_insert_ext.
Qed.

End PyList.

(* ===================================================================== *)
(** ** Prediction post-processing: [PredictionWorker._process_results] *)
(* ===================================================================== *)

Module Prediction.
Import PyFloat.

(** [config.MODEL_THRESHOLD] *)
Definition MODEL_THRESHOLD : float := 0.5%float.

(** A 3-D numpy array: slices of rows of voxels. *)
Definition volume : Type := list (list (list float)).

Definition voxel (a : volume) (z y x : nat) : option float :=
  match nth_error a z with
  | Some slice =>
      match nth_error slice y with
      | Some row => nth_error row x
      | None => None
      end
  | None => None
  end.

(** A Python number: [sum] starts from the int [0]. *)
Inductive number : Type :=
  | Int (n : Z)
  | Float (f : float).

(** What the application runs on. [requirements.txt] asks for
    [numpy>=1.19.0] and [setup.py] for Python 3.6 or later, and two
    results of [_process_results] depend on the versions.
    - [numpy2]: NumPy is 2.0 or later. It compares a float32 scalar
      with a Python float in float32, after rounding the Python float
      to float32; NumPy 1.x compares the two as binary64 numbers.
    - [python312]: CPython is 3.12 or later. Its builtin [sum] carries a
      correction term along the floats it adds; earlier versions add
      them one after the other. *)
Record runtime : Type := {
  numpy2 : bool;
  python312 : bool
}.

(** A Python float literal, as NumPy compares it with a float32 scalar. *)
Definition literal (rt : runtime) (x : float) : float :=
  if numpy2 rt then float32 x else x.

(** The floats of a list added from left to right, starting from [0]:
    the builtin [sum] up to CPython 3.11. *)
Definition left_to_right (xs : list float) : float :=
  fold_left PrimFloat.add xs 0%float.

(** One step of the float loop of the builtin [sum] from CPython 3.12
    on (Neumaier's summation): [f] is the running sum and [c] the
    correction,
    [t = f + x; if fabs(f) >= fabs(x): c += (f - t) + x
     else: c += (x - t) + f; f = t]. *)
Definition compensated_step (st : float * float) (x : float) : float * float :=
  let '(f, c) := st in
  let t := (f + x)%float in
  (t, if PrimFloat.leb (PrimFloat.abs x) (PrimFloat.abs f)
      then (c + ((f - t) + x))%float
      else (c + ((x - t) + f))%float).

(** The float loop from [start], and its end:
    [if c and isfinite(c): f += c]. *)
Definition compensated (start : float) (xs : list float) : float :=
  let '(f, c) := fold_left compensated_step xs (start, 0%float) in
  if negb (PrimFloat.eqb c 0) && PrimFloat.is_finite c then (f + c)%float else f.

(** [sum(xs)] over floats. The result starts as the int [0], which is
    what an empty list gives; the first float [x] makes it the float
    [0 + x], and the float loop of the interpreter adds the others. *)
Definition sum (rt : runtime) (xs : list float) : number :=
  match xs with
  | [] => Int 0
  | x :: rest =>
      let start := (0 + x)%float in
      Float (if python312 rt then compensated start rest
             else fold_left PrimFloat.add rest start)
  end.

(** One entry of the ['lesions'] list. *)
Record lesion : Type := {
  lesion_id : Z;                (* 'id' *)
  volume_mm3 : float;
  max_diameter_mm : float;
  centroid : list float;
  probability : float;
  severity : string
}.

(** The dictionary [_process_results] returns. *)
Record results : Type := {
  segmentation : volume;
  lesions : list lesion;
  num_lesions : nat;
  has_significant_lesion : bool;
  total_lesion_volume : number;
  prediction_date : string
}.

(** What SimpleITK's label statistics give for one connected component. *)
Record label_shape : Type := {
  label : Z;
  physical_size : float;        (* GetPhysicalSize(label) *)
  max_diameter : float;         (* from GetPrincipalAxes, or from the volume *)
  shape_centroid : list float   (* GetCentroid(label) *)
}.

(** [(lesion_probability > threshold).astype(np.float32)] *)
Definition binarize (threshold : float) (lesion_probability : volume) : volume :=
  map (map (map (fun p => if gt p threshold then 1%float else 0%float)))
      lesion_probability.

(** A voxel belongs to the mask when its value is not zero. *)
Definition in_mask (mask : volume) (z y x : nat) : bool :=
  match voxel mask z y x with
  | Some v => negb (PrimFloat.eqb v 0)
  | None => false
  end.

(** The three-way classification inside the loop over the labels.
    [volume_mm3] is a Python float, compared with the ints 500 and 200 by
    Python. [mean_probability] is a numpy float32 scalar, read here as
    the binary64 number it denotes, and NumPy compares it with the
    literals 0.75 and 0.6: as binary64 numbers in NumPy 1.x, in float32
    from NumPy 2.0 on, where 0.6 becomes float32(0.6), a little above
    0.6, and 0.75 stays what it is. *)
Definition classify (rt : runtime) (volume_mm3 mean_probability : float) : string :=
  if gt volume_mm3 500 && gt mean_probability (literal rt 0.75) then "Alta"
  else if gt volume_mm3 200 || gt mean_probability (literal rt 0.6) then "Media"
  else "Baja".

(** [lesions.sort(key=lambda x: x['volume_mm3'], reverse=True)] *)
Definition volume_lt (a b : lesion) : bool :=
  PrimFloat.ltb (volume_mm3 a) (volume_mm3 b).

Definition sort_by_volume (ls : list lesion) : list lesion :=
  PyList.sort volume_lt true ls.

Section Pipeline.

(** The libraries the worker calls are parameters of the model.
    [connected_components mask] stands for [sitk.ConnectedComponent]
    followed by [LabelShapeStatisticsImageFilter]: one entry per label, in
    the order of [GetLabels()]; [None] when SimpleITK raises.
    [label_mean p l] stands for the mean of [lesion_probability] over the
    voxels of label [l]; [np.mean] gives it as a float32 scalar, the
    array being one of float32 (the softmax output of the model). [rt]
    tells the versions of NumPy and of the interpreter. *)
Variable connected_components : volume -> option (list label_shape).
Variable label_mean : volume -> Z -> float.
Variable rt : runtime.

(** The body of the loop over [stats.GetLabels()]. *)
Definition lesion_of (lesion_probability : volume) (s : label_shape) : lesion :=
  let volume_mm3 := physical_size s in
  let mean_probability := float32 (label_mean lesion_probability (label s)) in
  {| lesion_id := label s;
     volume_mm3 := volume_mm3;
     max_diameter_mm := max_diameter s;
     centroid := shape_centroid s;
     probability := mean_probability;
     severity := classify rt volume_mm3 mean_probability |}.

(** The lesion list as the loop builds it, in label order. *)
Definition lesions_in_label_order (lesion_probability : volume) : option (list lesion) :=
  match connected_components (binarize MODEL_THRESHOLD lesion_probability) with
  | Some shapes => Some (map (lesion_of lesion_probability) shapes)
  | None => None
  end.

(** [_process_results]: [None] is the [except] branch. [now] is what
    [time.strftime] returns. *)
Definition _process_results (lesion_probability : volume) (now : string)
  : option results :=
  let lesion_mask := binarize MODEL_THRESHOLD lesion_probability in
  match lesions_in_label_order lesion_probability with
  | None => None
  | Some lesions =>
      let lesions := sort_by_volume lesions in
      Some {| segmentation := lesion_mask;
              lesions := lesions;
              num_lesions := length lesions;
              has_significant_lesion :=
                existsb (fun l => String.eqb (severity l) "Alta") lesions;
              total_lesion_volume := sum rt (map volume_mm3 lesions);
              prediction_date := now |}
  end.

End Pipeline.

(** The severity rule as the specification words it. *)
Definition severity_rule (v p : float) (s : string) : Prop :=
  let alta := gt v 500 = true /\ gt p 0.75 = true in
  let media := gt v 200 = true \/ gt p 0.6 = true in
  (alta -> s = "Alta"%string) /\
  (~ alta -> media -> s = "Media"%string) /\
  (~ alta -> ~ media -> s = "Baja"%string).

(** The same rule with the two thresholds on the probability left open:
    [high] for "Alta" and [medium] for "Media". *)
Definition severity_rule_at (high medium : float) (v p : float) (s : string) : Prop :=
  let alta := gt v 500 = true /\ gt p high = true in
  let media := gt v 200 = true \/ gt p medium = true in
  (alta -> s = "Alta"%string) /\
  (~ alta -> media -> s = "Media"%string) /\
  (~ alta -> ~ media -> s = "Baja"%string).

(** float32(0.6), the float32 number nearest to 0.6: 10066330 / 2^24. *)
Definition float32_0_6 : float := 0.60000002384185791015625%float.

(** The threshold that "Media" compares the probability with. *)
Definition medium_threshold (rt : runtime) : float :=
  if numpy2 rt then float32_0_6 else 0.6%float.

Lemma literal_0_75 rt : literal rt 0.75 = 0.75%float.
Proof. unfold literal. now destruct (numpy2 rt). Qed.

Lemma literal_0_6 rt : literal rt 0.6 = medium_threshold rt.
Proof. unfold literal, medium_threshold. now destruct (numpy2 rt). Qed.

Lemma classify_rule_at rt v p :
  severity_rule_at 0.75 (medium_threshold rt) v p (classify rt v p).
Proof.
  unfold severity_rule_at, classify. rewrite literal_0_75, literal_0_6.
  destruct (gt v 500) eqn:E1, (gt p 0.75) eqn:E2, (gt v 200) eqn:E3,
    (gt p (medium_threshold rt)) eqn:E4; cbn; intuition congruence.
Qed.

Lemma classify_rule rt v p :
  gt p 0.6 = gt p (medium_threshold rt) -> severity_rule v p (classify rt v p).
Proof.
  intros H. unfold severity_rule. rewrite H. apply classify_rule_at.
Qed.

Lemma process_results_lesions cc lm rt prob now r :
  _process_results cc lm rt prob now = Some r ->
  exists ls, lesions_in_label_order cc lm rt prob = Some ls /\
             lesions r = sort_by_volume ls /\
             segmentation r = binarize MODEL_THRESHOLD prob /\
             num_lesions r = length (lesions r) /\
             has_significant_lesion r
             = existsb (fun l => String.eqb (severity l) "Alta") (lesions r) /\
             total_lesion_volume r = sum rt (map volume_mm3 (lesions r)).
Proof.
  unfold _process_results.
  destruct (lesions_in_label_order cc lm rt prob) as [ls|]; [|discriminate].
  intros [= <-]. exists ls. cbn. auto 10.
Qed.

Lemma label_order_Forall cc lm rt prob ls (P : lesion -> Prop) :
  lesions_in_label_order cc lm rt prob = Some ls ->
  (forall s, P (lesion_of lm rt prob s)) -> Forall P ls.
Proof.
  unfold lesions_in_label_order.
  destruct (cc _) as [shapes|]; [|discriminate].
  intros [= <-] H. apply List.Forall_forall. intros l Hl.
  apply in_map_iff in Hl as (s & <- & _). apply H.
Qed.

(** ** C1 *)

(** C1: every lesion of a prediction result carries the severity that a
    fixed rule gives for its own [volume_mm3] and [probability]: above 500
    and above 0.75 is "Alta", otherwise above 200 or above the medium
    threshold is "Media", otherwise "Baja". The medium threshold is 0.6
    under NumPy 1.x and float32(0.6) = 0.60000002384185791015625 under
    NumPy 2.0 and later, which compares the float32 mean with the literal
    in float32. The rule with the threshold 0.6 itself holds under NumPy
    1.x, and under any NumPy for a probability that the two thresholds
    do not separate. Whatever the NumPy, (600, 0.8), (300, 0.5) and
    (50, 0.3) are "Alta", "Media" and "Baja", and so are they with the
    probabilities in float32. *)
Theorem severity_is_function_of_volume_and_probability :
  (forall cc lm rt prob now r,
      _process_results cc lm rt prob now = Some r ->
      Forall (fun l => severity l = classify rt (volume_mm3 l) (probability l)
                       /\ severity_rule_at 0.75 (if numpy2 rt then float32_0_6 else 0.6)
                            (volume_mm3 l) (probability l) (severity l)
                       /\ (numpy2 rt = false
                           \/ gt (probability l) 0.6 = gt (probability l) float32_0_6 ->
                           severity_rule (volume_mm3 l) (probability l) (severity l)))
             (lesions r))
  /\ (forall rt,
        classify rt 600 0.8 = "Alta"%string
        /\ classify rt 300 0.5 = "Media"%string
        /\ classify rt 50 0.3 = "Baja"%string
        /\ classify rt 600 (float32 0.8) = "Alta"%string
        /\ classify rt 300 (float32 0.5) = "Media"%string
        /\ classify rt 50 (float32 0.3) = "Baja"%string).
Proof.
  split; [|intros [[|] p312]; repeat split; reflexivity].
  intros cc lm rt prob now r Hr.
  destruct (process_results_lesions _ _ _ _ _ _ Hr) as (ls & Hls & -> & _).
  eapply Permutation_Forall; [symmetry; apply PyList.sort_perm|].
  eapply label_order_Forall; [exact Hls|].
  intros s. split; [reflexivity|]. split; [apply classify_rule_at|].
  intros H. apply classify_rule. unfold medium_threshold.
  destruct H as [-> | H]; [reflexivity|]. now destruct (numpy2 rt).
Qed.

(** A small run used to exercise the statements: three components with
    volumes 300, 600 and 50 and mean probabilities 0.5, 0.8 and 0.3, under
    NumPy 1.x and CPython 3.11. *)
Definition demo_probability : volume :=
  [[[0.9; 0.5; 0.2]%float; [0.7; 0.1; 0.51]%float]].

Definition demo_components (_ : volume) : option (list label_shape) :=
  Some [ {| label := 1; physical_size := 300; max_diameter := 9;
            shape_centroid := [1; 2; 3]%float |};
         {| label := 2; physical_size := 600; max_diameter := 12;
            shape_centroid := [4; 5; 6]%float |};
         {| label := 3; physical_size := 50; max_diameter := 4;
            shape_centroid := [7; 8; 9]%float |} ].

Definition demo_mean (_ : volume) (l : Z) : float :=
  if l =? 1 then 0.5%float else if l =? 2 then 0.8%float else 0.3%float.

Definition demo_runtime : runtime := {| numpy2 := false; python312 := false |}.

Definition recent_runtime : runtime := {| numpy2 := true; python312 := true |}.

Lemma severity_witness :
  exists r, _process_results demo_components demo_mean demo_runtime demo_probability "2024-01-01 10:00:00" = Some r
            /\ map severity (lesions r) = ["Alta"; "Media"; "Baja"]%string
            /\ Forall (fun l => severity l = classify demo_runtime (volume_mm3 l) (probability l)
                                /\ severity_rule_at 0.75 0.6
                                     (volume_mm3 l) (probability l) (severity l)
                                /\ (numpy2 demo_runtime = false
                                    \/ gt (probability l) 0.6 = gt (probability l) float32_0_6 ->
                                    severity_rule (volume_mm3 l) (probability l) (severity l)))
                      (lesions r).
Proof.
  eexists. split; [reflexivity|]. split; [reflexivity|].
  apply (proj1 severity_is_function_of_volume_and_probability
           demo_components demo_mean demo_runtime demo_probability
           "2024-01-01 10:00:00").
  reflexivity.
Defined.

(** One component of volume 50 whose mean probability is float32(0.6),
    the float32 number nearest to 0.6 and a little above it. *)
Definition small_component (_ : volume) : option (list label_shape) :=
  Some [ {| label := 1; physical_size := 50; max_diameter := 4;
            shape_centroid := [1; 2; 3]%float |} ].

Definition mean_0_6 (_ : volume) (_ : Z) : float := 0.6%float.

(** C1, where the rule with the threshold 0.6 fails: under NumPy 2.0 or
    later a lesion of volume 50 and probability float32(0.6), which is
    above 0.6, is "Baja", while the same lesion is "Media" under NumPy
    1.x. *)
Lemma float32_0_6_is_not_above_the_literal :
  exists r l,
    _process_results small_component mean_0_6 recent_runtime demo_probability
      "2024-01-01 10:00:00" = Some r
    /\ lesions r = [l]
    /\ volume_mm3 l = 50%float
    /\ probability l = float32_0_6
    /\ gt (volume_mm3 l) 200 = false
    /\ gt (probability l) 0.6 = true
    /\ severity l = "Baja"%string
    /\ classify demo_runtime (volume_mm3 l) (probability l) = "Media"%string.
Proof.
  eexists _, _. split; [reflexivity|]. split; [reflexivity|].
  repeat split; reflexivity.
Qed.

(** ** C2 *)

Lemma voxel_binarize t prob z y x :
  voxel (binarize t prob) z y x
  = option_map (fun p => if gt p t then 1%float else 0%float) (voxel prob z y x).
Proof.
  unfold voxel, binarize. rewrite List.nth_error_map.
  destruct (nth_error prob z) as [slice|]; cbn; [|reflexivity].
  rewrite List.nth_error_map.
  destruct (nth_error slice y) as [row|]; cbn; [|reflexivity].
  apply List.nth_error_map.
Qed.

Lemma in_mask_binarize t prob z y x :
  in_mask (binarize t prob) z y x
  = match voxel prob z y x with Some p => gt p t | None => false end.
Proof.
  unfold in_mask. rewrite voxel_binarize.
  destruct (voxel prob z y x) as [p|]; cbn; [|reflexivity].
  unfold gt. destruct (PrimFloat.ltb t p); reflexivity.
Qed.

(** C2: with the default threshold 0.5 a voxel is in the lesion mask of a
    prediction result exactly when its probability is strictly above 0.5; a
    voxel whose probability equals the threshold is left out. *)
Theorem binarization_is_strict_threshold cc lm rt prob now r :
  _process_results cc lm rt prob now = Some r ->
  MODEL_THRESHOLD = 0.5%float /\
  (forall z y x,
      in_mask (segmentation r) z y x = true
      <-> exists p, voxel prob z y x = Some p /\ gt p 0.5 = true) /\
  (forall z y x p,
      voxel prob z y x = Some p -> PrimFloat.eqb p 0.5 = true ->
      in_mask (segmentation r) z y x = false).
Proof.
  intros Hr.
  destruct (process_results_lesions _ _ _ _ _ _ Hr) as (ls & _ & _ & Hseg & _).
  rewrite Hseg. split; [reflexivity|]. split.
  - intros z y x. rewrite in_mask_binarize.
    destruct (voxel prob z y x) as [p|]; split.
    + intros H. now exists p.
    + now intros (q & [= <-] & H).
    + discriminate.
    + now intros (q & [=] & _).
  - intros z y x p Hp Heq. rewrite in_mask_binarize, Hp.
    now apply gt_strict.
Qed.

Lemma binarization_witness :
  exists r, _process_results demo_components demo_mean demo_runtime demo_probability "2024-01-01 10:00:00" = Some r
            /\ in_mask (segmentation r) 0 0 0 = true
            /\ in_mask (segmentation r) 0 0 1 = false
            /\ in_mask (segmentation r) 0 1 2 = true.
Proof.
  eexists. split; [reflexivity|].
  pose proof (binarization_is_strict_threshold
                demo_components demo_mean demo_runtime demo_probability
                "2024-01-01 10:00:00" _ eq_refl) as (_ & Hin & Hout).
  split; [|split].
  - apply Hin. eexists. split; reflexivity.
  - apply (Hout 0%nat 0%nat 1%nat 0.5%float); reflexivity.
  - apply Hin. eexists. split; reflexivity.
Defined.

(** ** C3 *)

(** What [0 + x] is: [x] itself, but for the sign of a zero. *)
Lemma zero_add x : is_nan x = false -> PrimFloat.eqb (0 + x)%float x = true.
Proof.
  intros Hx. rewrite FloatAxioms.eqb_spec, FloatAxioms.add_spec.
  assert (Hn : Prim2SF x <> S754_nan).
  { intros H. unfold is_nan in Hx. rewrite FloatAxioms.eqb_spec, H in Hx. discriminate. }
  change (Prim2SF 0) with (S754_zero false).
  destruct (Prim2SF x) as [[|]| [|]| |s m e]; try reflexivity; [congruence|].
  unfold SF64add, SFadd, SFeqb, SFcompare.
  destruct s; rewrite Z.compare_refl, Pos.compare_refl; reflexivity.
Qed.

Lemma sum_plain rt x rest :
  python312 rt = false -> sum rt (x :: rest) = Float (left_to_right (x :: rest)).
Proof. intros H. unfold sum. now rewrite H. Qed.

(** C3: in a prediction result [num_lesions] is the length of the lesion
    list, [has_significant_lesion] holds exactly when some lesion of the
    list has severity "Alta", and [total_lesion_volume] is what the
    builtin [sum] gives for the [volume_mm3] of the lesions taken in the
    order of the list: the int [0] for no lesion, and otherwise the
    float that starts as [0 + v] for the first volume [v] and to which
    the other volumes are added one after the other, each addition
    rounded (up to CPython 3.11), or added with the correction term of
    the compensated summation (from CPython 3.12 on). For a single lesion
    the total is the number that its volume is. *)
Theorem aggregates_match_lesion_list cc lm rt prob now r :
  _process_results cc lm rt prob now = Some r ->
  num_lesions r = length (lesions r) /\
  (has_significant_lesion r = true
   <-> exists l, In l (lesions r) /\ severity l = "Alta"%string) /\
  total_lesion_volume r = sum rt (map volume_mm3 (lesions r)) /\
  (lesions r = [] -> total_lesion_volume r = Int 0) /\
  (forall l ls,
      lesions r = l :: ls ->
      total_lesion_volume r
      = Float (if python312 rt
               then compensated (0 + volume_mm3 l)%float (map volume_mm3 ls)
               else fold_left PrimFloat.add (map volume_mm3 ls)
                              (0 + volume_mm3 l)%float)) /\
  (forall l,
      lesions r = [l] -> is_nan (volume_mm3 l) = false ->
      exists t, total_lesion_volume r = Float t
                /\ PrimFloat.eqb t (volume_mm3 l) = true).
Proof.
  intros Hr.
  destruct (process_results_lesions _ _ _ _ _ _ Hr)
    as (ls & _ & _ & _ & Hnum & Hsig & Htot).
  split; [assumption|]. split; [|split; [assumption|]].
  { rewrite Hsig, existsb_exists.
    split; intros (l & Hl & H); exists l; split; trivial.
    - now apply String.eqb_eq.
    - now apply String.eqb_eq. }
  rewrite Htot. split; [|split].
  - now intros ->.
  - now intros l ls' ->.
  - intros l -> Hl. exists (0 + volume_mm3 l)%float.
    split; [|now apply zero_add].
    cbn. now destruct (python312 rt).
Qed.

(** Three components whose volumes are not whole numbers: the two
    summations of the interpreters round their total differently. *)
Definition decimal_components (_ : volume) : option (list label_shape) :=
  Some [ {| label := 1; physical_size := 300.2; max_diameter := 9;
            shape_centroid := [1; 2; 3]%float |};
         {| label := 2; physical_size := 600.7; max_diameter := 12;
            shape_centroid := [4; 5; 6]%float |};
         {| label := 3; physical_size := 50.1; max_diameter := 4;
            shape_centroid := [7; 8; 9]%float |} ].

Lemma aggregates_witness :
  (exists r, _process_results demo_components demo_mean demo_runtime demo_probability "2024-01-01 10:00:00" = Some r
             /\ num_lesions r = 3%nat
             /\ has_significant_lesion r = true
             /\ total_lesion_volume r = Float 950
             /\ map volume_mm3 (lesions r) = [600; 300; 50]%float)
  /\ (exists r, _process_results decimal_components demo_mean demo_runtime demo_probability "2024-01-01 10:00:00" = Some r
                /\ map volume_mm3 (lesions r) = [600.7; 300.2; 50.1]%float
                /\ total_lesion_volume r = Float 951.00000000000011)
  /\ (exists r, _process_results decimal_components demo_mean recent_runtime demo_probability "2024-01-01 10:00:00" = Some r
                /\ map volume_mm3 (lesions r) = [600.7; 300.2; 50.1]%float
                /\ total_lesion_volume r = Float 951).
Proof.
  split; [|split].
  - eexists. split; [reflexivity|].
    pose proof (aggregates_match_lesion_list
                  demo_components demo_mean demo_runtime demo_probability
                  "2024-01-01 10:00:00" _ eq_refl) as (Hnum & Hsig & Htot & _).
    split; [exact Hnum|]. split; [|split; [exact Htot|reflexivity]].
    apply Hsig. eexists. split; [left; reflexivity|reflexivity].
  - eexists. split; [reflexivity|]. split; [reflexivity|].
    pose proof (aggregates_match_lesion_list
                  decimal_components demo_mean demo_runtime demo_probability
                  "2024-01-01 10:00:00" _ eq_refl) as (_ & _ & _ & _ & Htot & _).
    rewrite (Htot _ _ eq_refl). reflexivity.
  - eexists. split; [reflexivity|]. split; [reflexivity|].
    pose proof (aggregates_match_lesion_list
                  decimal_components demo_mean recent_runtime demo_probability
                  "2024-01-01 10:00:00" _ eq_refl) as (_ & _ & _ & _ & Htot & _).
    rewrite (Htot _ _ eq_refl). reflexivity.
Defined.

(** ** C4 *)

(** On lesions whose volumes are numbers, [volume_lt] is the comparison
    of the volumes' ranks, a strict order that is total up to ties. *)
Definition volume_rank_lt (a b : lesion) : bool :=
  rank_ltb (volume_mm3 a) (volume_mm3 b).

Definition volume_is_number (l : lesion) : Prop := is_nan (volume_mm3 l) = false.

Lemma sort_by_volume_rank ls :
  Forall volume_is_number ls ->
  sort_by_volume ls = PyList.sort volume_rank_lt true ls.
Proof.
  intros H. apply PyList.sort_ext. intros a b Ha Hb.
  rewrite List.Forall_forall in H.
  apply ltb_rank; now apply H.
Qed.

Lemma StronglySorted_impl_in {A} (P : A -> Prop) (R R' : A -> A -> Prop) l :
  (forall a b, P a -> P b -> R a b -> R' a b) ->
  Forall P l -> StronglySorted R l -> StronglySorted R' l.
Proof.
  intros HR HP Hs. induction Hs as [|a l Hs IH Hall]; [constructor|].
  inversion HP as [|? ? Pa Pl]; subst.
  constructor; [now apply IH|].
  rewrite List.Forall_forall in *. intros b Hb.
  apply HR; auto.
Qed.

Lemma sort_by_volume_descending ls :
  Forall volume_is_number ls ->
  StronglySorted (fun a b => ge (volume_mm3 a) (volume_mm3 b) = true)
                 (sort_by_volume ls).
Proof.
  intros H.
  assert (Hs : Forall volume_is_number (sort_by_volume ls)).
  { eapply Permutation_Forall; [symmetry; apply PyList.sort_perm|exact H]. }
  apply (StronglySorted_impl_in volume_is_number
           (fun a b => volume_rank_lt a b = false)); [|exact Hs|].
  - intros a b Ha Hb Hab. rewrite ge_rank by assumption.
    unfold volume_rank_lt in Hab. now rewrite Hab.
  - rewrite sort_by_volume_rank by exact H.
    apply PyList.sort_reverse_descending; unfold volume_rank_lt; intros.
    + apply rank_ltb_irrefl.
    + eapply rank_ltb_trans; eassumption.
    + now apply rank_ltb_cotrans.
Qed.

Lemma sort_by_volume_stable ls v :
  Forall volume_is_number ls ->
  List.filter (fun l => PrimFloat.eqb (volume_mm3 l) v) (sort_by_volume ls)
  = List.filter (fun l => PrimFloat.eqb (volume_mm3 l) v) ls.
Proof.
  intros H.
  assert (Hs : Forall volume_is_number (sort_by_volume ls)).
  { eapply Permutation_Forall; [symmetry; apply PyList.sort_perm|exact H]. }
  destruct (is_nan v) eqn:Hv.
  - rewrite (List.filter_ext _ (fun _ => false)) by (intros; now apply eqb_nan_r).
    rewrite (List.filter_ext (fun l => PrimFloat.eqb (volume_mm3 l) v) (fun _ => false))
      by (intros; now apply eqb_nan_r).
    now rewrite !List.filter_false.
  - set (a := {| lesion_id := 0; volume_mm3 := v; max_diameter_mm := 0;
                 centroid := []; probability := 0; severity := "" |}).
    assert (Heq : forall l, volume_is_number l ->
                  PrimFloat.eqb (volume_mm3 l) v = PyList.ties volume_rank_lt a l).
    { intros l Hl. unfold PyList.ties, volume_rank_lt. cbn.
      now apply eqb_ties. }
    rewrite (List.filter_ext_in _ (PyList.ties volume_rank_lt a) (sort_by_volume ls)).
    2:{ intros l Hl. apply Heq. rewrite List.Forall_forall in Hs. now apply Hs. }
    rewrite (List.filter_ext_in _ (PyList.ties volume_rank_lt a) ls).
    2:{ intros l Hl. apply Heq. rewrite List.Forall_forall in H. now apply H. }
    rewrite sort_by_volume_rank by exact H.
    apply PyList.sort_stable; unfold volume_rank_lt; intros.
    + apply rank_ltb_irrefl.
    + eapply rank_ltb_trans; eassumption.
    + now apply rank_ltb_cotrans.
Qed.

(** C4: the lesion list of a prediction result is in descending order of
    [volume_mm3], and the sort has no second key: for every volume, the
    lesions of that volume come in the order in which the loop over the
    labels produced them. The volumes are taken to be numbers (a physical
    size is never NaN). *)
Theorem lesions_sorted_by_volume_ties_in_label_order cc lm rt prob now r :
  _process_results cc lm rt prob now = Some r ->
  Forall (fun l => is_nan (volume_mm3 l) = false) (lesions r) ->
  StronglySorted (fun a b => ge (volume_mm3 a) (volume_mm3 b) = true) (lesions r) /\
  exists ls,
    lesions_in_label_order cc lm rt prob = Some ls /\
    Permutation (lesions r) ls /\
    forall v,
      List.filter (fun l => PrimFloat.eqb (volume_mm3 l) v) (lesions r)
      = List.filter (fun l => PrimFloat.eqb (volume_mm3 l) v) ls.
Proof.
  intros Hr Hnum.
  destruct (process_results_lesions _ _ _ _ _ _ Hr) as (ls & Hls & Hsort & _).
  rewrite Hsort in *.
  assert (H : Forall volume_is_number ls).
  { eapply Permutation_Forall; [apply PyList.sort_perm|exact Hnum]. }
  split; [now apply sort_by_volume_descending|].
  exists ls. split; [exact Hls|]. split; [apply PyList.sort_perm|].
  intros v. now apply sort_by_volume_stable.
Qed.

(** Two components of the same volume around a larger one: the larger
    comes first, the two equal ones stay in label order. *)
Definition tie_components (_ : volume) : option (list label_shape) :=
  Some [ {| label := 1; physical_size := 120; max_diameter := 6;
            shape_centroid := [1; 1; 1]%float |};
         {| label := 2; physical_size := 700; max_diameter := 14;
            shape_centroid := [2; 2; 2]%float |};
         {| label := 3; physical_size := 120; max_diameter := 7;
            shape_centroid := [3; 3; 3]%float |} ].

Lemma sorted_witness :
  exists r, _process_results tie_components demo_mean demo_runtime demo_probability "2024-01-01 10:00:00" = Some r
            /\ map lesion_id (lesions r) = [2; 1; 3]
            /\ StronglySorted (fun a b => ge (volume_mm3 a) (volume_mm3 b) = true) (lesions r).
Proof.
  eexists. split; [reflexivity|]. split; [reflexivity|].
  apply (lesions_sorted_by_volume_ties_in_label_order
           tie_components demo_mean demo_runtime demo_probability
           "2024-01-01 10:00:00" _ eq_refl).
  repeat constructor.
Defined.

End Prediction.

(* ===================================================================== *)
(** ** Python strings and POSIX paths *)
(* ===================================================================== *)

Module PyStr.
Local Open Scope string_scope.

(** A [str] is held as its UTF-8 bytes: an ASCII character is one byte
    below 128, and the bytes of every other character are 128 or above. *)

(** [c.lower()] on an ASCII character. *)
Definition lower_ascii (c : ascii) : ascii :=
  let n := nat_of_ascii c in
  if (65 <=? n)%nat && (n <=? 90)%nat then ascii_of_nat (n + 32) else c.

(** [s.lower()]. Two characters outside ASCII have ASCII letters in their
    lower case: U+0130, the capital I with a dot (bytes 196 176), becomes
    [i] followed by U+0307 (bytes 204 135), and U+212A, the Kelvin sign
    (bytes 226 132 170), becomes [k]. Every other character outside ASCII
    becomes a character outside ASCII again; its bytes are left as they
    are, which no comparison with an ASCII text tells apart. *)
Fixpoint lower (s : string) : string :=
  match s with
  | EmptyString => EmptyString
  | String c s1 =>
      match s1 with
      | EmptyString => String (lower_ascii c) EmptyString
      | String c1 s2 =>
          if Ascii.eqb c "196" && Ascii.eqb c1 "176"
          then String "i" (String "204" (String "135" (lower s2)))
          else
            match s2 with
            | EmptyString => String (lower_ascii c) (lower s1)
            | String c2 s3 =>
                if Ascii.eqb c "226" && Ascii.eqb c1 "132" && Ascii.eqb c2 "170"
                then String "k" (lower s3)
                else String (lower_ascii c) (lower s1)
            end
      end
  end.

(** [s.startswith(sub)] *)
Fixpoint starts_with (sub s : string) : bool :=
  match sub with
  | EmptyString => true
  | String a sub' =>
      match s with
      | EmptyString => false
      | String b s' => Ascii.eqb a b && starts_with sub' s'
      end
  end.

(** [sub in s] *)
Fixpoint contains (sub s : string) : bool :=
  if starts_with sub s then true
  else match s with
       | EmptyString => false
       | String _ s' => contains sub s'
       end.

(** [os.path.basename(p)] of [posixpath]: what follows the last slash. *)
Fixpoint basename (p : string) : string :=
  match p with
  | EmptyString => EmptyString
  | String c p' => if contains "/" p then basename p' else p
  end.

(** [s.rstrip('/')] read from the left: drop a tail made of slashes only. *)
Fixpoint all_slashes (s : string) : bool :=
  match s with
  | EmptyString => true
  | String c s' => Ascii.eqb c "/" && all_slashes s'
  end.

Fixpoint rstrip_slashes (s : string) : string :=
  match s with
  | EmptyString => EmptyString
  | String c s' => if all_slashes s then EmptyString else String c (rstrip_slashes s')
  end.

(** [p[:p.rfind('/') + 1]]: up to and including the last slash. *)
Fixpoint head_of (p : string) : string :=
  match p with
  | EmptyString => EmptyString
  | String c p' => if contains "/" p then String c (head_of p') else EmptyString
  end.

(** [os.path.dirname(p)] *)
Definition dirname (p : string) : string :=
  let head := head_of p in
  if all_slashes head then head else rstrip_slashes head.

(** [os.path.splitext(name)[0]] for a name without a slash: cut at the
    last dot, unless nothing but dots comes before it. *)
Fixpoint all_dots (s : string) : bool :=
  match s with
  | EmptyString => true
  | String c s' => Ascii.eqb c "." && all_dots s'
  end.

Fixpoint before_last_dot (s : string) : option string :=
  match s with
  | EmptyString => None
  | String c s' =>
      match before_last_dot s' with
      | Some r => Some (String c r)
      | None => if Ascii.eqb c "." then Some EmptyString else None
      end
  end.

Definition splitext_root (name : string) : string :=
  match before_last_dot name with
  | Some r => if all_dots r then name else r
  | None => name
  end.

(** [os.path.join(a, b)] *)
Definition join (a b : string) : string :=
  if starts_with "/" b then b
  else if String.eqb (basename a) "" then a ++ b      (* empty, or ends with a slash *)
  else a ++ "/" ++ b.

(** A file or directory name: no slash in it. *)
Definition plain (s : string) : Prop := contains "/" s = false.

(** The base name of a path as the specification has it: the part of
    the path that follows its last slash, the whole path when it has no
    slash. *)
Definition base_name_of (p name : string) : Prop :=
  plain name /\ (p = name \/ exists dir, p = dir ++ "/" ++ name).

(** An ASCII name and the same name in lower case: the letters A to Z
    become a to z, the other characters stay. *)
Inductive lowercase_of : string -> string -> Prop :=
  | lowercase_empty : lowercase_of "" ""
  | lowercase_capital c c' s low :
      (65 <= nat_of_ascii c <= 90)%nat ->
      nat_of_ascii c' = (nat_of_ascii c + 32)%nat ->
      lowercase_of s low ->
      lowercase_of (String c s) (String c' low)
  | lowercase_other c s low :
      (nat_of_ascii c < 65 \/ 90 < nat_of_ascii c < 128)%nat ->
      lowercase_of s low ->
      lowercase_of (String c s) (String c low).

Example basename_posix : basename "/data/p01/T2W_axial.nii.gz" = "T2W_axial.nii.gz".
Proof. reflexivity. Qed.

Example dirname_posix : dirname "/data/p01/T2W_axial.nii.gz" = "/data/p01".
Proof. reflexivity. Qed.

Example splitext_posix : splitext_root "adc.nii.gz" = "adc.nii".
Proof. reflexivity. Qed.

Example splitext_hidden : splitext_root ".bashrc" = ".bashrc".
Proof. reflexivity. Qed.

Lemma starts_with_spec sub s :
  starts_with sub s = true <-> exists post, s = sub ++ post.
Proof.
  revert s. induction sub as [|c sub IH]; intros s; cbn.
  - split; [intros _; now exists s|trivial].
  - destruct s as [|c' s]; [split; [discriminate|intros [post [=]]]|].
    rewrite andb_true_iff, Ascii.eqb_eq, IH. split.
    + intros [-> [post ->]]. now exists post.
    + intros [post [= -> ->]]. split; [reflexivity|now exists post].
Qed.

(** [contains] is the substring relation. *)
Lemma contains_spec sub s :
  contains sub s = true <-> exists pre post, s = pre ++ sub ++ post.
Proof.
  induction s as [|c s IH]; cbn [contains].
  - destruct (starts_with sub "") eqn:E.
    + apply starts_with_spec in E as [post E].
      split; [intros _; now exists "", post|trivial].
    + split; [discriminate|]. intros (pre & post & H).
      destruct pre; [|discriminate]. cbn in H.
      assert (starts_with sub "" = true) by (apply starts_with_spec; eauto).
      congruence.
  - destruct (starts_with sub (String c s)) eqn:E.
    + apply starts_with_spec in E as [post E].
      split; [intros _; now exists "", post|trivial].
    + rewrite IH. split.
      * intros (pre & post & ->). now exists (String c pre), post.
      * intros (pre & post & H). destruct pre as [|c' pre].
        -- cbn in H.
           assert (starts_with sub (String c s) = true) by (apply starts_with_spec; eauto).
           congruence.
        -- injection H as _ ->. now exists pre, post.
Qed.

Lemma append_assoc (x y z : string) : (x ++ y) ++ z = x ++ y ++ z.
Proof.
  induction x as [|c x IH]; [reflexivity|].
  change ((String c x ++ y) ++ z) with (String c ((x ++ y) ++ z)).
  now rewrite IH.
Qed.

Lemma contains_slash_app pre post : contains "/" (pre ++ "/" ++ post) = true.
Proof. apply contains_spec. now exists pre, post. Qed.

Lemma contains_slash_head f : contains "/" (String "/" f) = true.
Proof. exact (contains_slash_app "" f). Qed.

Lemma contains_slash_cons c pre f :
  contains "/" (String c (pre ++ "/" ++ f)) = true.
Proof. exact (contains_slash_app (String c pre) f). Qed.

Lemma basename_plain f : plain f -> basename f = f.
Proof. unfold plain. destruct f as [|c f]; [reflexivity|]. cbn [basename]. now intros ->. Qed.

Lemma basename_app pre f : plain f -> basename (pre ++ "/" ++ f) = f.
Proof.
  intros Hf. induction pre as [|c pre IH].
  - change ("" ++ "/" ++ f) with (String "/" f). cbn [basename].
    rewrite contains_slash_head. now apply basename_plain.
  - change (String c pre ++ "/" ++ f) with (String c (pre ++ "/" ++ f)).
    cbn [basename]. rewrite contains_slash_cons. exact IH.
Qed.

(** [basename] gives the base name of the specification, and a path has
    no other. *)
Lemma basename_is_base_name p : base_name_of p (basename p).
Proof.
  induction p as [|c p IH]; [split; [reflexivity|now left]|].
  cbn [basename]. destruct (contains "/" (String c p)) eqn:E.
  - destruct IH as [Hplain IH]. split; [exact Hplain|]. right.
    destruct IH as [Hp | [dir Hp]].
    + exists "". change ("" ++ "/" ++ basename p) with (String "/" (basename p)).
      rewrite <- Hp. f_equal. cbn [contains starts_with] in E.
      destruct (Ascii.eqb_spec "/" c) as [<-|_]; [reflexivity|].
      cbn [andb] in E. unfold plain in Hplain. rewrite <- Hp in Hplain. congruence.
    + exists (String c dir). rewrite Hp at 1. reflexivity.
  - split; [exact E|now left].
Qed.

Lemma base_name_unique p name : base_name_of p name -> name = basename p.
Proof.
  intros [Hplain [-> | [dir ->]]].
  - now rewrite basename_plain.
  - now rewrite basename_app.
Qed.

(** [lower] on a name that starts with an ASCII character, and on an
    ASCII name. *)
Lemma lower_String c s :
  (nat_of_ascii c < 128)%nat -> lower (String c s) = String (lower_ascii c) (lower s).
Proof.
  intros Hc.
  assert (H1 : Ascii.eqb c "196" = false).
  { destruct (Ascii.eqb_spec c "196") as [->|]; [apply Nat.ltb_lt in Hc; discriminate Hc|reflexivity]. }
  assert (H2 : Ascii.eqb c "226" = false).
  { destruct (Ascii.eqb_spec c "226") as [->|]; [apply Nat.ltb_lt in Hc; discriminate Hc|reflexivity]. }
  destruct s as [|c1 [|c2 s]]; cbn [lower]; rewrite ?H1, ?H2; reflexivity.
Qed.

Lemma lowercase_of_lower name low : lowercase_of name low -> lower name = low.
Proof.
  induction 1 as [|c c' s low Hc Hc' _ IH|c s low Hc _ IH].
  - reflexivity.
  - rewrite lower_String by lia. rewrite IH. f_equal.
    unfold lower_ascii.
    destruct (Nat.leb_spec 65 (nat_of_ascii c)); [|lia].
    destruct (Nat.leb_spec (nat_of_ascii c) 90); [|lia].
    cbn [andb]. rewrite <- Hc'. apply ascii_nat_embedding.
  - rewrite lower_String by lia. rewrite IH. f_equal.
    unfold lower_ascii.
    destruct (Nat.leb_spec 65 (nat_of_ascii c)), (Nat.leb_spec (nat_of_ascii c) 90);
      cbn [andb]; try reflexivity; lia.
Qed.

End PyStr.

(* ===================================================================== *)
(** ** Python objects: a heap of dictionaries, lists, tuples and arrays *)
(* ===================================================================== *)

Module Py.

Abbreviation loc := nat.

(** A value is immediate or a reference to an object of the heap. Two
    names for the same dictionary are two copies of the same [VRef]. *)
Inductive value : Type :=
  | VNone
  | VBool (b : bool)
  | VInt (n : Z)
  | VFloat (f : float)
  | VStr (s : string)
  | VRef (l : loc).

(** A dictionary keeps its keys (strings here) in insertion order. *)
Definition dict : Type := list (string * value).

Inductive object : Type :=
  | ODict (d : dict)
  | OList (vs : list value)
  | OTuple (vs : list value)
  | OArray.                       (* a numpy ndarray; its voxels are not modelled *)

Abbreviation heap := (list object).

Inductive exn : Type :=
  | ValueError (msg : string)
  | TypeError
  | KeyError
  | IndexError
  | AttributeError
  | OSError.

Inductive result (A : Type) : Type :=
  | Ok (a : A)
  | Raise (e : exn).
Arguments Ok {A} a.
Arguments Raise {A} e.

(** *** Statements: state passing with exceptions

    An exception keeps the state reached when it was raised. *)
Definition M (St A : Type) : Type := St -> result A * St.

Definition ret {St A} (a : A) : M St A := fun s => (Ok a, s).
Definition raise {St A} (e : exn) : M St A := fun s => (Raise e, s).

Definition bind {St A B} (m : M St A) (k : A -> M St B) : M St B :=
  fun s => match m s with
           | (Ok a, s') => k a s'
           | (Raise e, s') => (Raise e, s')
           end.

(** [try: m  except Exception as e: handler e] *)
Definition try_except {St A} (m : M St A) (handler : exn -> M St A) : M St A :=
  fun s => match m s with
           | (Ok a, s') => (Ok a, s')
           | (Raise e, s') => handler e s'
           end.

(** [for x in xs: body x] over a list already read. *)
Fixpoint for_each {St A} (xs : list A) (body : A -> M St unit) : M St unit :=
  match xs with
  | [] => ret tt
  | x :: xs' => bind (body x) (fun _ => for_each xs' body)
  end.

Declare Scope py_scope.
Delimit Scope py_scope with py.
Notation "'let*' x ':=' m 'in' k" := (bind m (fun x => k))
  (at level 10, x name, m at level 100, k at level 200) : py_scope.
Notation "m ';;' k" := (bind m (fun _ => k))
  (at level 100, k at level 200, right associativity) : py_scope.
Local Open Scope py_scope.

(** *** Dictionaries *)

Fixpoint dict_get (k : string) (d : dict) : option value :=
  match d with
  | [] => None
  | (k', v) :: d' => if String.eqb k k' then Some v else dict_get k d'
  end.

Definition dict_has (k : string) (d : dict) : bool :=
  match dict_get k d with Some _ => true | None => false end.

(** [d[k] = v]: a present key keeps its place. *)
Fixpoint dict_set (k : string) (v : value) (d : dict) : dict :=
  match d with
  | [] => [(k, v)]
  | (k', v') :: d' =>
      if String.eqb k k' then (k, v) :: d' else (k', v') :: dict_set k v d'
  end.

(** [del d[k]] for a key that is there. *)
Definition dict_del (k : string) (d : dict) : dict :=
  List.filter (fun kv => negb (String.eqb k (fst kv))) d.

(** [d.update(other)] *)
Definition dict_update (d other : dict) : dict :=
  fold_left (fun acc kv => dict_set (fst kv) (snd kv) acc) other d.

(** *** The heap *)

Definition alloc (o : object) : M heap value :=
  fun h => (Ok (VRef (length h)), h ++ [o]).

(** The object a value refers to, if it refers to one. *)
Definition object_of (h : heap) (v : value) : option object :=
  match v with
  | VRef l => h !! l
  | _ => None
  end.

(** [seq[i]] with Python's negative indices. *)
Definition index_list {A} (xs : list A) (i : Z) : option A :=
  let n := Z.of_nat (length xs) in
  if (0 <=? i) && (i <? n) then nth_error xs (Z.to_nat i)
  else if (- n <=? i) && (i <? 0) then nth_error xs (Z.to_nat (i + n))
  else None.

(** [c[k]] for a string [k] *)
Definition getitem (c : value) (k : string) : M heap value :=
  fun h => match object_of h c with
           | Some (ODict d) =>
               match dict_get k d with
               | Some v => (Ok v, h)
               | None => (Raise KeyError, h)
               end
           | Some OArray => (Raise IndexError, h)
           | _ => (Raise TypeError, h)
           end.

(** [c[i]] for an integer [i] *)
Definition getitem_int (c : value) (i : Z) : M heap value :=
  fun h => match object_of h c with
           | Some (ODict d) => (Raise KeyError, h)
           | Some (OList vs) | Some (OTuple vs) =>
               match index_list vs i with
               | Some v => (Ok v, h)
               | None => (Raise IndexError, h)
               end
           | Some OArray => (Raise IndexError, h)
           | None =>
               match c with
               | VStr s =>
                   match index_list (list_ascii_of_string s) i with
                   | Some a => (Ok (VStr (String a EmptyString)), h)
                   | None => (Raise IndexError, h)
                   end
               | _ => (Raise TypeError, h)
               end
           end.

(** [c[k] = v] *)
Definition setitem (c : value) (k : string) (v : value) : M heap unit :=
  fun h => match c, object_of h c with
           | VRef l, Some (ODict d) => (Ok tt, <[l := ODict (dict_set k v d)]> h)
           | _, Some OArray => (Raise IndexError, h)
           | _, _ => (Raise TypeError, h)
           end.

(** [del c[k]] *)
Definition delitem (c : value) (k : string) : M heap unit :=
  fun h => match c, object_of h c with
           | VRef l, Some (ODict d) =>
               if dict_has k d then (Ok tt, <[l := ODict (dict_del k d)]> h)
               else (Raise KeyError, h)
           | _, Some OArray => (Raise IndexError, h)
           | _, _ => (Raise TypeError, h)
           end.

(** [del c[i]] with [0 <= i < len(c)] checked by the caller. *)
Definition delitem_int (c : value) (i : nat) : M heap unit :=
  fun h => match c, object_of h c with
           | VRef l, Some (OList vs) =>
               if (i <? length vs)%nat
               then (Ok tt, <[l := OList (firstn i vs ++ skipn (S i) vs)]> h)
               else (Raise IndexError, h)
           | VRef l, Some (ODict d) => (Raise KeyError, h)
           | _, _ => (Raise TypeError, h)
           end.

Definition is_str (k : string) (v : value) : bool :=
  match v with VStr s => String.eqb k s | _ => false end.

(** [k in c] for a string [k]: a key of a dictionary, an element of a list
    or tuple, a substring of a string. *)
Definition contains (k : string) (c : value) : M heap bool :=
  fun h => match object_of h c with
           | Some (ODict d) => (Ok (dict_has k d), h)
           | Some (OList vs) | Some (OTuple vs) => (Ok (existsb (is_str k) vs), h)
           | Some OArray => (Ok false, h)         (* no voxel is a string *)
           | None =>
               match c with
               | VStr s => (Ok (PyStr.contains k s), h)
               | _ => (Raise TypeError, h)
               end
           end.

(** [c.append(v)] *)
Definition append (c v : value) : M heap unit :=
  fun h => match c, object_of h c with
           | VRef l, Some (OList vs) => (Ok tt, <[l := OList (vs ++ [v])]> h)
           | _, _ => (Raise AttributeError, h)
           end.

(** [len(c)] *)
Definition len (c : value) : M heap Z :=
  fun h => match object_of h c with
           | Some (ODict d) => (Ok (Z.of_nat (length d)), h)
           | Some (OList vs) | Some (OTuple vs) => (Ok (Z.of_nat (length vs)), h)
           | Some OArray => (Raise TypeError, h)
           | None =>
               match c with
               | VStr s => (Ok (Z.of_nat (String.length s)), h)
               | _ => (Raise TypeError, h)
               end
           end.

(** [bool(v)], as in [if v:] and [not v]. numpy gives no truth value to an
    array of several voxels. *)
Definition truthy (v : value) : M heap bool :=
  fun h => match v with
           | VNone => (Ok false, h)
           | VBool b => (Ok b, h)
           | VInt n => (Ok (negb (n =? 0)), h)
           | VFloat f => (Ok (negb (PrimFloat.eqb f 0)), h)
           | VStr s => (Ok (negb (String.eqb s "")), h)
           | VRef l =>
               match h !! l with
               | Some (ODict d) => (Ok (negb (Nat.eqb (length d) 0)), h)
               | Some (OList vs) | Some (OTuple vs) =>
                   (Ok (negb (Nat.eqb (length vs) 0)), h)
               | Some OArray => (Raise (ValueError "ambiguous truth value"), h)
               | None => (Raise TypeError, h)
               end
           end.

(** What [for x in c] visits. *)
Definition iterate (c : value) : M heap (list value) :=
  fun h => match object_of h c with
           | Some (ODict d) => (Ok (map (fun kv => VStr (fst kv)) d), h)
           | Some (OList vs) | Some (OTuple vs) => (Ok vs, h)
           | Some OArray => (Raise TypeError, h)
           | None =>
               match c with
               | VStr s =>
                   (Ok (map (fun a => VStr (String a EmptyString))
                            (list_ascii_of_string s)), h)
               | _ => (Raise TypeError, h)
               end
           end.

(** [c.copy()]: a new object with the same entries; what the entries
    refer to is shared. *)
Definition copy (c : value) : M heap value :=
  fun h => match object_of h c with
           | Some (ODict d) => alloc (ODict d) h
           | Some (OList vs) => alloc (OList vs) h
           | Some OArray => alloc OArray h
           | _ => (Raise AttributeError, h)
           end.

(** [c.get(k, default)] *)
Definition get_default (c : value) (k : string) (default : value) : M heap value :=
  fun h => match object_of h c with
           | Some (ODict d) =>
               match dict_get k d with
               | Some v => (Ok v, h)
               | None => (Ok default, h)
               end
           | _ => (Raise AttributeError, h)
           end.

(** [c.update(other)] for two dictionaries. *)
Definition update (c other : value) : M heap unit :=
  fun h => match c, object_of h c, object_of h other with
           | VRef l, Some (ODict d), Some (ODict d') =>
               (Ok tt, <[l := ODict (dict_update d d')]> h)
           | VRef l, Some (ODict d), _ => (Raise TypeError, h)
           | _, _, _ => (Raise AttributeError, h)
           end.

(** *** Literals and JSON documents *)

(** A Python literal, and what a JSON text denotes (a JSON text has no
    tuple). *)
Inductive tree : Type :=
  | TNone
  | TBool (b : bool)
  | TInt (n : Z)
  | TFloat (f : float)
  | TStr (s : string)
  | TList (ts : list tree)
  | TTuple (ts : list tree)
  | TDict (kvs : list (string * tree)).

Fixpoint is_json (t : tree) : bool :=
  match t with
  | TList ts => forallb is_json ts
  | TTuple _ => false
  | TDict kvs => forallb (fun kv => is_json (snd kv)) kvs
  | _ => true
  end.

Fixpoint map_result {A B} (f : A -> result B) (xs : list A) : result (list B) :=
  match xs with
  | [] => Ok []
  | x :: xs' =>
      match f x with
      | Ok y => match map_result f xs' with
                | Ok ys => Ok (y :: ys)
                | Raise e => Raise e
                end
      | Raise e => Raise e
      end
  end.

(** What [json.dump] writes for [v]. Tuples are written as arrays, an
    ndarray is not serializable, and a structure that contains itself is
    refused; [fuel] bounds the nesting, and the number of objects of the
    heap is enough for every structure that does not contain itself. *)
Fixpoint dump (fuel : nat) (h : heap) (v : value) : result tree :=
  match v with
  | VNone => Ok TNone
  | VBool b => Ok (TBool b)
  | VInt n => Ok (TInt n)
  | VFloat f => Ok (TFloat f)
  | VStr s => Ok (TStr s)
  | VRef l =>
      match fuel with
      | O => Raise (ValueError "Circular reference detected")
      | S fuel' =>
          match h !! l with
          | Some (ODict d) =>
              match map_result
                      (fun kv => match dump fuel' h (snd kv) with
                                 | Ok t => Ok (fst kv, t)
                                 | Raise e => Raise e
                                 end) d with
              | Ok kvs => Ok (TDict kvs)
              | Raise e => Raise e
              end
          | Some (OList vs) | Some (OTuple vs) =>
              match map_result (dump fuel' h) vs with
              | Ok ts => Ok (TList ts)
              | Raise e => Raise e
              end
          | Some OArray => Raise TypeError
          | None => Raise TypeError
          end
      end
  end.

(** Evaluating the parts of a literal from left to right. *)
Definition build_seq (build : tree -> M heap value) : list tree -> M heap (list value) :=
  fix build_seq (ts : list tree) : M heap (list value) :=
    match ts with
    | [] => ret []
    | t :: ts' =>
        let* v := build t in
        let* vs := build_seq ts' in
        ret (v :: vs)
    end.

Definition build_items (build : tree -> M heap value)
  : list (string * tree) -> M heap dict :=
  fix build_items (kvs : list (string * tree)) : M heap dict :=
    match kvs with
    | [] => ret []
    | kv :: kvs' =>
        let* v := build (snd kv) in
        let* d := build_items kvs' in
        ret ((fst kv, v) :: d)
    end.

(** Evaluating a literal, and what [json.load] builds: the parts first,
    then the object that holds them. A key written twice keeps its first
    place and its last value. *)
Fixpoint build (t : tree) : M heap value :=
  match t with
  | TNone => ret VNone
  | TBool b => ret (VBool b)
  | TInt n => ret (VInt n)
  | TFloat f => ret (VFloat f)
  | TStr s => ret (VStr s)
  | TList ts => let* vs := build_seq build ts in alloc (OList vs)
  | TTuple ts => let* vs := build_seq build ts in alloc (OTuple vs)
  | TDict kvs => let* d := build_items build kvs in alloc (ODict (dict_update [] d))
  end.

End Py.

(* ===================================================================== *)
(** ** The case manager: [app/controllers/case_manager.py] *)
(* ===================================================================== *)

Module CaseManager.
Import Py.
Local Open Scope py_scope.
Local Open Scope string_scope.
Local Open Scope list_scope.
Local Open Scope Z_scope.

(** What a file of the disk holds: a JSON document, or the beginning of
    one ([json.dump] stopped half-way, or [open] just emptied the file). *)
Inductive content : Type :=
  | Document (t : tree)
  | Truncated.

(** The manager ([self.cases], [self.current_case_index]) with the heap
    its cases live in and the files it reads and writes. *)
Record world : Type := {
  objects : heap;
  cases : list value;
  current_case_index : Z;
  disk : gmap string content
}.

(** [CaseManager.__init__] *)
Definition init : world :=
  {| objects := []; cases := []; current_case_index := -1; disk := ∅ |}.

Definition on_heap {A} (m : M heap A) : M world A :=
  fun w => let (r, h) := m (objects w) in
           (r, {| objects := h; cases := cases w;
                  current_case_index := current_case_index w; disk := disk w |}).

Definition get_cases : M world (list value) := fun w => (Ok (cases w), w).
Definition get_index : M world Z := fun w => (Ok (current_case_index w), w).

Definition set_cases (cs : list value) : M world unit :=
  fun w => (Ok tt, {| objects := objects w; cases := cs;
                      current_case_index := current_case_index w; disk := disk w |}).

Definition set_index (i : Z) : M world unit :=
  fun w => (Ok tt, {| objects := objects w; cases := cases w;
                      current_case_index := i; disk := disk w |}).

Definition set_disk (d : gmap string content) : M world unit :=
  fun w => (Ok tt, {| objects := objects w; cases := cases w;
                      current_case_index := current_case_index w; disk := d |}).

(** [self.current_case_index < 0 or self.current_case_index >= len(self.cases)] *)
Definition no_current_case (i : Z) (cs : list value) : bool :=
  (i <? 0) || (i >=? Z.of_nat (length cs)).

(** [self.cases[self.current_case_index]] *)
Definition case_at (cs : list value) (i : Z) : M world value :=
  match index_list cs i with
  | Some c => ret c
  | None => raise IndexError
  end.

(** What [load_medical_image] returns for a file it could read: the
    format, the backend that read it, whether it got the voxels (the
    fallback that only looks at the file system leaves ['array'] at
    [None]), and the metadata. *)
Record image_info : Type := {
  image_format : string;
  image_loaded_with : string;
  image_has_array : bool;
  image_metadata : list (string * tree)
}.

(** [_generate_case_name] *)
Definition _generate_case_name (file_paths : list string) : string :=
  match file_paths with
  | [] => "Caso sin nombre"
  | first_file :: _ =>
      let dir_name := PyStr.basename (PyStr.dirname first_file) in
      if negb (String.eqb dir_name "") then String.append "Caso " dir_name
      else
        let base_name := PyStr.basename first_file in
        String.append "Caso " (PyStr.splitext_root base_name)
  end.

(** The chain of tests of [_process_file] on the lower-cased base name. *)
Definition sequence_type_of_name (file_name : string) : string :=
  if PyStr.contains "t2" file_name || PyStr.contains "t2w" file_name then "t2w"
  else if PyStr.contains "adc" file_name then "adc"
  else if PyStr.contains "dwi" file_name || PyStr.contains "hbv" file_name then "dwi"
  else if PyStr.contains "cor" file_name then "cor"
  else if PyStr.contains "sag" file_name then "sag"
  else "unknown".

(** The first key of an iteration that is a string and, lower-cased,
    contains one of the needles. *)
Fixpoint find_key (needles : list string) (keys : list value) : option string :=
  match keys with
  | [] => None
  | VStr key :: keys' =>
      if existsb (fun n => PyStr.contains n (PyStr.lower key)) needles
      then Some key else find_key needles keys'
  | _ :: keys' => find_key needles keys'
  end.

(** [all(key in case for key in keys)] *)
Fixpoint all_in (keys : list string) (case : value) : M heap bool :=
  match keys with
  | [] => ret true
  | key :: keys' =>
      let* b := contains key case in
      if b then all_in keys' case else ret false
  end.

Section Manager.

(** The world outside the manager: the image loader ([None] when it
    returns [None] or raises), which paths [open(_, 'w')] accepts,
    [config.TEMP_DIR], and [str()] on the value of a case's ['id']. *)
Variable load_medical_image : string -> option image_info.
Variable can_open_for_writing : string -> bool.
Variable TEMP_DIR : string.
Variable py_str : heap -> value -> string.

(** The dictionary [load_medical_image] returns. *)
Definition build_file_info (file_path : string) (info : image_info) : M heap value :=
  let* array := (if image_has_array info then alloc OArray else ret VNone) in
  let* metadata := build (TDict (image_metadata info)) in
  alloc (ODict [("path", VStr file_path);
                ("format", VStr (image_format info));
                ("loaded_with", VStr (image_loaded_with info));
                ("array", array);
                ("metadata", metadata)]).

(** [_process_file] *)
Definition _process_file (file_path : string) : M heap value :=
  match load_medical_image file_path with
  | None => raise (ValueError "No se pudo procesar el archivo")
  | Some info =>
      let* file_info := build_file_info file_path info in
      let file_name := PyStr.lower (PyStr.basename file_path) in
      setitem file_info "sequence_type" (VStr (sequence_type_of_name file_name)) ;;
      ret file_info
  end.

(** One of the two searches of [_extract_case_metadata]: the value under
    the first matching key, stored in the case's metadata if it is true. *)
Definition extract_field (case metadata : value) (needles : list string)
    (field : string) : M heap unit :=
  let* keys := iterate metadata in
  let* found := (match find_key needles keys with
                 | Some key => getitem metadata key
                 | None => ret VNone
                 end) in
  let* b := truthy found in
  if b then
    let* case_metadata := getitem case "metadata" in
    setitem case_metadata field found
  else ret tt.

(** [_extract_case_metadata] *)
Definition _extract_case_metadata (case : value) : M heap unit :=
  let* files := getitem case "files" in
  let* some := truthy files in
  if negb some then ret tt
  else
    let* files := getitem case "files" in
    let* first_file := getitem_int files 0 in
    let* has := contains "metadata" first_file in
    if has then
      let* metadata := getitem first_file "metadata" in
      extract_field case metadata ["patientid"; "patient id"] "patient_id" ;;
      extract_field case metadata ["study date"; "studydate"] "study_date"
    else ret tt.

(** The new case dictionary of [load_case]. *)
Definition new_case (file_paths : list string) (t_id t_created t_modified : string)
  : M heap value :=
  let* files := alloc (OList []) in
  let* metadata := alloc (ODict []) in
  alloc (ODict [("id", VStr (String.append "case_" t_id));
                ("name", VStr (_generate_case_name file_paths));
                ("files", files);
                ("metadata", metadata);
                ("created_date", VStr t_created);
                ("modified_date", VStr t_modified);
                ("has_changes", VBool false)]).

(** The body of the loop of [load_case]: a file that cannot be processed
    is skipped. *)
Definition load_one (case : value) (file_path : string) : M heap unit :=
  try_except
    (let* file_info := _process_file file_path in
     let* files := getitem case "files" in
     append files file_info)
    (fun _ => ret tt).

(** [load_case]; the three readings of the clock are arguments. *)
Definition load_case (file_paths : list string) (t_id t_created t_modified : string)
  : M world value :=
  match file_paths with
  | [] => raise (ValueError "No se proporcionaron archivos para cargar")
  | _ =>
      let* case := on_heap (new_case file_paths t_id t_created t_modified) in
      on_heap (for_each file_paths (load_one case)) ;;
      let* files := on_heap (getitem case "files") in
      let* some := on_heap (truthy files) in
      if negb some then
        raise (ValueError "No se pudo procesar ninguno de los archivos proporcionados")
      else
        on_heap (_extract_case_metadata case) ;;
        let* cs := get_cases in
        set_cases (cs ++ [case]) ;;
        let* cs := get_cases in
        set_index (Z.of_nat (length cs) - 1) ;;
        ret case
  end.

(** [get_case_count] *)
Definition get_case_count : M world Z :=
  let* cs := get_cases in ret (Z.of_nat (length cs)).

(** [has_open_cases] *)
Definition has_open_cases : M world bool :=
  let* cs := get_cases in ret (0 <? Z.of_nat (length cs)).

(** [get_current_case] *)
Definition get_current_case : M world value :=
  let* i := get_index in
  let* cs := get_cases in
  if no_current_case i cs then ret VNone else case_at cs i.

(** [close_current_case] *)
Definition close_current_case : M world unit :=
  let* i := get_index in
  let* cs := get_cases in
  if no_current_case i cs then ret tt
  else
    set_cases (firstn (Z.to_nat i) cs ++ skipn (S (Z.to_nat i)) cs) ;;
    let* cs := get_cases in
    if Z.of_nat (length cs) =? 0 then set_index (-1)
    else if i >=? Z.of_nat (length cs) then set_index (Z.of_nat (length cs) - 1)
    else ret tt.

(** [close_all_cases] *)
Definition close_all_cases : M world unit :=
  set_cases [] ;; set_index (-1).

(** [current_case_has_changes] *)
Definition current_case_has_changes : M world value :=
  let* i := get_index in
  let* cs := get_cases in
  if no_current_case i cs then ret (VBool false)
  else
    let* current_case := case_at cs i in
    on_heap (get_default current_case "has_changes" (VBool false)).

(** [open(file_path, 'w')]: the file is emptied, or the call fails. *)
Definition open_for_writing (file_path : string) : M world unit :=
  if can_open_for_writing file_path then
    fun w => set_disk (<[file_path := Truncated]> (disk w)) w
  else raise OSError.

(** [json.dump(v, f)] into the file just opened. *)
Definition json_dump (v : value) (file_path : string) : M world unit :=
  fun w => match dump (length (objects w)) (objects w) v with
           | Ok t => set_disk (<[file_path := Document t]> (disk w)) w
           | Raise e => (Raise e, w)
           end.

(** The loop of [save_current_case] over [save_data['files']]. *)
Definition strip_array (file_info : value) : M heap unit :=
  let* has := contains "array" file_info in
  if has then delitem file_info "array" else ret tt.

(** [os.path.join(TEMP_DIR, f"{current_case['id']}.json")] *)
Definition default_path (current_case : value) : M world string :=
  let* id := on_heap (getitem current_case "id") in
  fun w => ret (PyStr.join TEMP_DIR (String.append (py_str (objects w) id) ".json")) w.

(** [if not file_path: file_path = ...]; [file_path] is [None] when the
    caller gives none. *)
Definition resolve_path (file_path : option string) (current_case : value)
  : M world string :=
  match file_path with
  | Some p => if String.eqb p "" then default_path current_case else ret p
  | None => default_path current_case
  end.

(** [save_current_case] *)
Definition save_current_case (file_path : option string) (t_now : string)
  : M world bool :=
  let* i := get_index in
  let* cs := get_cases in
  if no_current_case i cs then ret false
  else
    let* current_case := case_at cs i in
    let* file_path := resolve_path file_path current_case in
    try_except
      (on_heap (setitem current_case "modified_date" (VStr t_now)) ;;
       open_for_writing file_path ;;
       let* save_data := on_heap (copy current_case) in
       let* files := on_heap (getitem save_data "files") in
       let* file_infos := on_heap (iterate files) in
       on_heap (for_each file_infos strip_array) ;;
       json_dump save_data file_path ;;
       on_heap (setitem current_case "has_changes" (VBool false)) ;;
       ret true)
      (fun _ => ret false).

(** [open(file_path, 'r')] and [json.load]. *)
Definition json_load (file_path : string) : M world value :=
  fun w => match disk w !! file_path with
           | None => (Raise OSError, w)
           | Some Truncated => (Raise (ValueError "JSONDecodeError"), w)
           | Some (Document t) =>
               if is_json t then on_heap (build t) w
               else (Raise (ValueError "JSONDecodeError"), w)
           end.

(** [load_case_from_file] *)
Definition load_case_from_file (file_path : string) : M world value :=
  try_except
    (let* case := json_load file_path in
     let* valid := on_heap (all_in ["id"; "name"; "files"; "metadata"] case) in
     if negb valid then raise (ValueError "El archivo no contiene un caso válido")
     else
       let* cs := get_cases in
       set_cases (cs ++ [case]) ;;
       let* cs := get_cases in
       set_index (Z.of_nat (length cs) - 1) ;;
       ret case)
    (fun _ => raise (ValueError "No se pudo cargar el caso"))%string.

(** The two lines that mark a case as modified. *)
Definition touch (current_case : value) (t_now : string) : M heap unit :=
  setitem current_case "modified_date" (VStr t_now) ;;
  setitem current_case "has_changes" (VBool true).

(** [add_file_to_current_case] *)
Definition add_file_to_current_case (file_path : string) (t_now : string)
  : M world bool :=
  let* i := get_index in
  let* cs := get_cases in
  if no_current_case i cs then raise (ValueError "No hay caso actual")
  else
    let* current_case := case_at cs i in
    try_except
      (on_heap (let* file_info := _process_file file_path in
                let* files := getitem current_case "files" in
                append files file_info ;;
                touch current_case t_now) ;;
       ret true)
      (fun _ => raise (ValueError "No se pudo añadir el archivo")).

(** [update_current_case_metadata] *)
Definition update_current_case_metadata (metadata : value) (t_now : string)
  : M world bool :=
  let* i := get_index in
  let* cs := get_cases in
  if no_current_case i cs then ret false
  else
    let* current_case := case_at cs i in
    on_heap (let* case_metadata := getitem current_case "metadata" in
             update case_metadata metadata ;;
             touch current_case t_now) ;;
    ret true.

(** [set_current_case_prediction_results] *)
Definition set_current_case_prediction_results (results : value) (t_now : string)
  : M world bool :=
  let* i := get_index in
  let* cs := get_cases in
  if no_current_case i cs then ret false
  else
    let* current_case := case_at cs i in
    on_heap (setitem current_case "prediction_results" results ;;
             touch current_case t_now) ;;
    ret true.

(** [get_current_case_prediction_results] *)
Definition get_current_case_prediction_results : M world value :=
  let* i := get_index in
  let* cs := get_cases in
  if no_current_case i cs then ret VNone
  else
    let* current_case := case_at cs i in
    on_heap (get_default current_case "prediction_results" VNone).

(** [get_file_paths_by_sequence(sequence_type)] for a sequence type that
    is given: the paths of the files of that type. *)
Fixpoint paths_of_type (sequence_type : string) (file_infos : list value)
  : M heap (list value) :=
  match file_infos with
  | [] => ret []
  | file_info :: rest =>
      let* seq := get_default file_info "sequence_type" VNone in
      if is_str sequence_type seq then
        let* path := getitem file_info "path" in
        let* paths := paths_of_type sequence_type rest in
        ret (path :: paths)
      else paths_of_type sequence_type rest
  end.

Definition get_file_paths_by_sequence (sequence_type : string) : M world value :=
  let* i := get_index in
  let* cs := get_cases in
  if no_current_case i cs then on_heap (alloc (OList []))
  else
    let* current_case := case_at cs i in
    on_heap (let* files := getitem current_case "files" in
             let* file_infos := iterate files in
             let* paths := paths_of_type sequence_type file_infos in
             alloc (OList paths)).

(** [remove_file_from_current_case] *)
Definition remove_file_from_current_case (file_index : Z) (t_now : string)
  : M world bool :=
  let* i := get_index in
  let* cs := get_cases in
  if no_current_case i cs then ret false
  else
    let* current_case := case_at cs i in
    let* files := on_heap (getitem current_case "files") in
    let* n := on_heap (len files) in
    if (file_index <? 0) || (file_index >=? n) then ret false
    else
      on_heap (let* files := getitem current_case "files" in
               delitem_int files (Z.to_nat file_index) ;;
               touch current_case t_now) ;;
      ret true.

End Manager.

(** *** Which statements leave [self.cases] and the index alone *)

(** A statement that only works on the heap and the disk. *)
Definition keeps_cases {A} (m : M world A) : Prop :=
  forall w, cases (snd (m w)) = cases w
            /\ current_case_index (snd (m w)) = current_case_index w.

Lemma keeps_ret {A} (a : A) : keeps_cases (ret a).
Proof. now intros w. Qed.

Lemma keeps_raise {A} e : keeps_cases (@raise world A e).
Proof. now intros w. Qed.

Lemma keeps_on_heap {A} (m : M heap A) : keeps_cases (on_heap m).
Proof. intros w. unfold on_heap. now destruct (m (objects w)). Qed.

Lemma keeps_get_cases : keeps_cases get_cases.
Proof. now intros w. Qed.

Lemma keeps_get_index : keeps_cases get_index.
Proof. now intros w. Qed.

Lemma keeps_set_disk d : keeps_cases (set_disk d).
Proof. now intros w. Qed.

Lemma keeps_case_at cs i : keeps_cases (case_at cs i).
Proof. unfold case_at. destruct (index_list cs i); now intros w. Qed.

Lemma keeps_bind {A B} (m : M world A) (k : A -> M world B) :
  keeps_cases m -> (forall a, keeps_cases (k a)) -> keeps_cases (bind m k).
Proof.
  intros Hm Hk w. unfold bind. specialize (Hm w).
  destruct (m w) as [[a|e] w1]; cbn in Hm |- *.
  - destruct Hm as [H3 H4], (Hk a w1) as [H1 H2]. split; congruence.
  - exact Hm.
Qed.

Lemma keeps_try {A} (m : M world A) (handler : exn -> M world A) :
  keeps_cases m -> (forall e, keeps_cases (handler e)) ->
  keeps_cases (try_except m handler).
Proof.
  intros Hm Hh w. unfold try_except. specialize (Hm w).
  destruct (m w) as [[a|e] w1]; cbn in Hm |- *.
  - exact Hm.
  - destruct Hm as [H3 H4], (Hh e w1) as [H1 H2]. split; congruence.
Qed.

Lemma keeps_open_for_writing cw p : keeps_cases (open_for_writing cw p).
Proof.
  unfold open_for_writing. destruct (cw p); [|apply keeps_raise]. now intros w.
Qed.

Lemma keeps_json_dump v p : keeps_cases (json_dump v p).
Proof. intros w. unfold json_dump. now destruct (dump _ _ _). Qed.

Lemma keeps_json_load p : keeps_cases (json_load p).
Proof.
  intros w. unfold json_load.
  destruct (disk w !! p) as [[t|]|]; try easy.
  destruct (is_json t); [apply keeps_on_heap|easy].
Qed.

Lemma keeps_default_path tmp ps c : keeps_cases (default_path tmp ps c).
Proof.
  unfold default_path. apply keeps_bind; [apply keeps_on_heap|].
  now intros a w.
Qed.

Lemma keeps_resolve_path tmp ps fp c : keeps_cases (resolve_path tmp ps fp c).
Proof.
  unfold resolve_path. destruct fp as [p|]; [destruct (String.eqb p "")|];
    first [apply keeps_default_path|apply keeps_ret].
Qed.

Ltac keeps :=
  repeat first
    [ apply keeps_ret | apply keeps_raise | apply keeps_on_heap
    | apply keeps_get_cases | apply keeps_get_index | apply keeps_set_disk
    | apply keeps_case_at | apply keeps_open_for_writing | apply keeps_json_dump
    | apply keeps_json_load | apply keeps_default_path | apply keeps_resolve_path
    | apply keeps_bind; [|intros ?] | apply keeps_try; [|intros ?]
    | match goal with
      | |- keeps_cases (if ?b then _ else _) => destruct b
      | |- keeps_cases (match ?x with _ => _ end) => destruct x
      end ].

Lemma keeps_get_case_count : keeps_cases get_case_count.
Proof. unfold get_case_count. keeps. Qed.

Lemma keeps_has_open_cases : keeps_cases has_open_cases.
Proof. unfold has_open_cases. keeps. Qed.

Lemma keeps_get_current_case : keeps_cases get_current_case.
Proof. unfold get_current_case. keeps. Qed.

Lemma keeps_current_case_has_changes : keeps_cases current_case_has_changes.
Proof. unfold current_case_has_changes. keeps. Qed.

Lemma keeps_save_current_case cw tmp ps fp t :
  keeps_cases (save_current_case cw tmp ps fp t).
Proof. unfold save_current_case. keeps. Qed.

Lemma keeps_add_file lmi p t : keeps_cases (add_file_to_current_case lmi p t).
Proof. unfold add_file_to_current_case. keeps. Qed.

Lemma keeps_update_metadata v t : keeps_cases (update_current_case_metadata v t).
Proof. unfold update_current_case_metadata. keeps. Qed.

Lemma keeps_set_prediction v t : keeps_cases (set_current_case_prediction_results v t).
Proof. unfold set_current_case_prediction_results. keeps. Qed.

Lemma keeps_get_prediction : keeps_cases get_current_case_prediction_results.
Proof. unfold get_current_case_prediction_results. keeps. Qed.

Lemma keeps_get_file_paths seq : keeps_cases (get_file_paths_by_sequence seq).
Proof. unfold get_file_paths_by_sequence. keeps. Qed.

Lemma keeps_remove_file i t : keeps_cases (remove_file_from_current_case i t).
Proof. unfold remove_file_from_current_case. keeps. Qed.

(** *** Which statements add a case *)

(** A statement that, when it returns [c], has appended [c] to
    [self.cases] and made it current, and that otherwise has left both
    alone. *)
Definition appends_case (m : M world value) : Prop :=
  forall w,
    match m w with
    | (Ok c, w') =>
        cases w' = (cases w ++ [c])%list
        /\ current_case_index w' = Z.of_nat (length (cases w))
        /\ c <> VNone
    | (Raise _, w') =>
        cases w' = cases w /\ current_case_index w' = current_case_index w
    end.

Lemma appends_raise e : appends_case (raise e).
Proof. now intros w. Qed.

Lemma appends_bind {A} (P : A -> Prop) (m : M world A) (k : A -> M world value) :
  keeps_cases m ->
  (forall w a w', m w = (Ok a, w') -> P a) ->
  (forall a, P a -> appends_case (k a)) ->
  appends_case (bind m k).
Proof.
  intros Hm HP Hk w. unfold bind.
  pose proof (Hm w) as [H1 H2]. pose proof (HP w) as HPw.
  destruct (m w) as [[a|e] w1]; cbn in H1, H2; [|now split].
  specialize (Hk a (HPw a w1 eq_refl) w1).
  destruct (k a w1) as [[c|e] w2];
    [rewrite H1 in Hk|rewrite H1, H2 in Hk]; exact Hk.
Qed.

Lemma appends_try_reraise (m : M world value) e' :
  appends_case m -> appends_case (try_except m (fun _ => raise e')).
Proof.
  intros Hm w. unfold try_except. specialize (Hm w).
  now destruct (m w) as [[c|e] w1].
Qed.

(** [self.cases.append(case); self.current_case_index = len(self.cases) - 1;
    return case] *)
Lemma appends_register c :
  c <> VNone ->
  appends_case (let* cs := get_cases in
                set_cases (cs ++ [c]) ;;
                let* cs := get_cases in
                set_index (Z.of_nat (length cs) - 1) ;;
                ret c).
Proof.
  intros Hc w. cbn. rewrite length_app. cbn. repeat split; trivial. lia.
Qed.

Lemma new_case_is_object ps a b c h v h' :
  new_case ps a b c h = (Ok v, h') -> v <> VNone.
Proof. unfold new_case. cbn. now intros [= <- _]. Qed.

Lemma on_heap_ok {A} (m : M heap A) w a w' :
  on_heap m w = (Ok a, w') -> exists h', m (objects w) = (Ok a, h').
Proof.
  unfold on_heap. destruct (m (objects w)) as [r h']. intros [= -> _]. now exists h'.
Qed.

Lemma all_in_is_object keys c h h' :
  keys <> [] -> all_in keys c h = (Ok true, h') -> c <> VNone.
Proof.
  destruct keys as [|k keys]; [easy|]. intros _ H ->. discriminate.
Qed.

Lemma load_case_appends lmi ps a b c : appends_case (load_case lmi ps a b c).
Proof.
  unfold load_case. destruct ps as [|p ps]; [apply appends_raise|].
  apply (appends_bind (fun v => v <> VNone)); [apply keeps_on_heap| |].
  { intros w v w' H. apply on_heap_ok in H as [h' H].
    eapply new_case_is_object, H. }
  intros case Hcase.
  apply (appends_bind (fun _ => True)); [apply keeps_on_heap|easy|]. intros _ _.
  apply (appends_bind (fun _ => True)); [apply keeps_on_heap|easy|]. intros files _.
  apply (appends_bind (fun _ => True)); [apply keeps_on_heap|easy|]. intros some _.
  destruct some; cbn [negb]; [|apply appends_raise].
  apply (appends_bind (fun _ => True)); [apply keeps_on_heap|easy|]. intros _ _.
  now apply appends_register.
Qed.

Lemma load_case_from_file_appends p : appends_case (load_case_from_file p).
Proof.
  unfold load_case_from_file. apply appends_try_reraise.
  apply (appends_bind (fun _ => True)); [apply keeps_json_load|easy|]. intros case _.
  apply (appends_bind (fun valid => valid = true -> case <> VNone));
    [apply keeps_on_heap| |].
  { intros w v w' H Hv. subst v. apply on_heap_ok in H as [h' H].
    eapply all_in_is_object; [|exact H]. discriminate. }
  intros valid Hvalid.
  destruct valid; cbn [negb]; [|apply appends_raise].
  now apply appends_register, Hvalid.
Qed.

(** *** The invariant of the manager *)

(** At most one case is current: the index is [-1] or points into
    [self.cases]. *)
Definition index_valid (w : world) : Prop :=
  current_case_index w = -1
  \/ 0 <= current_case_index w < Z.of_nat (length (cases w)).

(** A case is an object, never [None]. *)
Definition cases_are_objects (w : world) : Prop :=
  Forall (fun c => c <> VNone) (cases w).

Definition manager_ok (w : world) : Prop := index_valid w /\ cases_are_objects w.

Definition after {A} (m : M world A) (w : world) : world := snd (m w).

Lemma keeps_manager_ok {A} (m : M world A) w :
  keeps_cases m -> manager_ok w -> manager_ok (after m w).
Proof.
  intros Hm [Hi Hc]. destruct (Hm w) as [H1 H2].
  unfold manager_ok, index_valid, cases_are_objects, after. now rewrite H1, H2.
Qed.

Lemma appends_manager_ok (m : M world value) w :
  appends_case m -> manager_ok w -> manager_ok (after m w).
Proof.
  intros Hm [Hi Hc]. specialize (Hm w). unfold after.
  destruct (m w) as [[c|e] w1]; cbn.
  - destruct Hm as (H1 & H2 & H3).
    unfold manager_ok, index_valid, cases_are_objects. rewrite H1, H2. split.
    + right. rewrite length_app. cbn. lia.
    + apply List.Forall_app. split; [exact Hc|]. now constructor.
  - destruct Hm as [H1 H2].
    unfold manager_ok, index_valid, cases_are_objects. now rewrite H1, H2.
Qed.

Lemma close_all_cases_ok w : manager_ok (after close_all_cases w).
Proof. split; [now left|constructor]. Qed.

Lemma removal_length {A} (xs : list A) (n : nat) :
  (n < length xs)%nat ->
  length (firstn n xs ++ skipn (S n) xs) = (length xs - 1)%nat.
Proof.
  intros H. rewrite length_app, length_firstn, length_skipn. lia.
Qed.

Lemma removal_incl {A} (xs : list A) (n : nat) x :
  In x (firstn n xs ++ skipn (S n) xs) -> In x xs.
Proof.
  intros H. apply in_app_or in H as [H|H].
  - rewrite <- (firstn_skipn n xs). apply in_or_app. now left.
  - rewrite <- (firstn_skipn (S n) xs). apply in_or_app. now right.
Qed.

Lemma no_current_case_false i cs :
  no_current_case i cs = false <-> 0 <= i < Z.of_nat (length cs).
Proof.
  unfold no_current_case. rewrite orb_false_iff, Z.ltb_ge, Z.geb_leb, Z.leb_gt. lia.
Qed.

Lemma close_current_case_ok w : manager_ok w -> manager_ok (after close_current_case w).
Proof.
  intros [Hi Hc]. unfold after, close_current_case. cbn.
  destruct (no_current_case _ _) eqn:E; cbn; [now split|].
  apply no_current_case_false in E.
  set (i := current_case_index w) in *. set (cs := cases w) in *.
  assert (Hlen : length (firstn (Z.to_nat i) cs ++ skipn (S (Z.to_nat i)) cs)
                 = (length cs - 1)%nat) by (apply removal_length; lia).
  assert (Hobj : Forall (fun c => c <> VNone)
                        (firstn (Z.to_nat i) cs ++ skipn (S (Z.to_nat i)) cs)).
  { apply List.Forall_forall. intros c Hin. apply removal_incl in Hin.
    unfold cases_are_objects in Hc. rewrite List.Forall_forall in Hc. now apply Hc. }
  rewrite Hlen.
  destruct (Z.of_nat (length cs - 1) =? 0) eqn:E0; cbn.
  - split; [now left|exact Hobj].
  - apply Z.eqb_neq in E0.
    destruct (i >=? Z.of_nat (length cs - 1)) eqn:E1; cbn.
    + split; [|exact Hobj]. right. cbn. rewrite Hlen. lia.
    + rewrite Z.geb_leb, Z.leb_gt in E1.
      split; [|exact Hobj]. right. cbn. rewrite Hlen. fold i. lia.
Qed.

Lemma index_list_valid {A} (xs : list A) i :
  0 <= i < Z.of_nat (length xs) ->
  exists x, index_list xs i = Some x /\ In x xs.
Proof.
  intros H. unfold index_list.
  replace ((0 <=? i) && (i <? Z.of_nat (length xs))) with true
    by (symmetry; apply andb_true_iff; split; [apply Z.leb_le|apply Z.ltb_lt]; lia).
  destruct (nth_error xs (Z.to_nat i)) as [x|] eqn:E.
  - exists x. split; [reflexivity|]. eapply nth_error_In, E.
  - apply nth_error_None in E. lia.
Qed.

(** The public methods of [CaseManager], with their arguments.
    [get_file_paths_by_sequence] is the call with a sequence type. *)
Inductive call : Type :=
  | Load_case (file_paths : list string) (t_id t_created t_modified : string)
  | Get_case_count
  | Get_current_case
  | Close_current_case
  | Close_all_cases
  | Has_open_cases
  | Current_case_has_changes
  | Save_current_case (file_path : option string) (t_now : string)
  | Load_case_from_file (file_path : string)
  | Add_file_to_current_case (file_path : string) (t_now : string)
  | Update_current_case_metadata (metadata : value) (t_now : string)
  | Set_current_case_prediction_results (results : value) (t_now : string)
  | Get_current_case_prediction_results
  | Get_file_paths_by_sequence (sequence_type : string)
  | Remove_file_from_current_case (file_index : Z) (t_now : string).

Section Calls.

Variable load_medical_image : string -> option image_info.
Variable can_open_for_writing : string -> bool.
Variable TEMP_DIR : string.
Variable py_str : heap -> value -> string.

(** The manager after a call, whether the call returned or raised. *)
Definition run (c : call) (w : world) : world :=
  match c with
  | Load_case ps a b c => after (load_case load_medical_image ps a b c) w
  | Get_case_count => after get_case_count w
  | Get_current_case => after get_current_case w
  | Close_current_case => after close_current_case w
  | Close_all_cases => after close_all_cases w
  | Has_open_cases => after has_open_cases w
  | Current_case_has_changes => after current_case_has_changes w
  | Save_current_case fp t =>
      after (save_current_case can_open_for_writing TEMP_DIR py_str fp t) w
  | Load_case_from_file p => after (load_case_from_file p) w
  | Add_file_to_current_case p t =>
      after (add_file_to_current_case load_medical_image p t) w
  | Update_current_case_metadata v t => after (update_current_case_metadata v t) w
  | Set_current_case_prediction_results v t =>
      after (set_current_case_prediction_results v t) w
  | Get_current_case_prediction_results => after get_current_case_prediction_results w
  | Get_file_paths_by_sequence seq => after (get_file_paths_by_sequence seq) w
  | Remove_file_from_current_case i t => after (remove_file_from_current_case i t) w
  end.

(** The manager after a sequence of calls. *)
Definition run_all (cs : list call) (w : world) : world :=
  fold_left (fun w c => run c w) cs w.

Lemma run_ok c w : manager_ok w -> manager_ok (run c w).
Proof.
  intros H. destruct c; cbn [run].
  - now apply appends_manager_ok; [apply load_case_appends|].
  - now apply keeps_manager_ok; [apply keeps_get_case_count|].
  - now apply keeps_manager_ok; [apply keeps_get_current_case|].
  - now apply close_current_case_ok.
  - apply close_all_cases_ok.
  - now apply keeps_manager_ok; [apply keeps_has_open_cases|].
  - now apply keeps_manager_ok; [apply keeps_current_case_has_changes|].
  - now apply keeps_manager_ok; [apply keeps_save_current_case|].
  - now apply appends_manager_ok; [apply load_case_from_file_appends|].
  - now apply keeps_manager_ok; [apply keeps_add_file|].
  - now apply keeps_manager_ok; [apply keeps_update_metadata|].
  - now apply keeps_manager_ok; [apply keeps_set_prediction|].
  - now apply keeps_manager_ok; [apply keeps_get_prediction|].
  - now apply keeps_manager_ok; [apply keeps_get_file_paths|].
  - now apply keeps_manager_ok; [apply keeps_remove_file|].
Qed.

Lemma run_all_ok cs w : manager_ok w -> manager_ok (run_all cs w).
Proof.
  revert w. induction cs as [|c cs IH]; intros w H; cbn; [exact H|].
  apply IH. now apply run_ok.
Qed.

Lemma init_ok : manager_ok init.
Proof. split; [now left|constructor]. Qed.

Lemma get_current_case_none w :
  manager_ok w ->
  fst (get_current_case w) = Ok VNone
  <-> ~ (0 <= current_case_index w < Z.of_nat (length (cases w))).
Proof.
  intros [_ Hc]. unfold get_current_case. cbn.
  destruct (no_current_case _ _) eqn:E; cbn.
  - split; [intros _|reflexivity].
    intros H. apply no_current_case_false in H. congruence.
  - apply no_current_case_false in E.
    destruct (index_list_valid _ _ E) as (c & Hc1 & Hc2).
    unfold case_at. rewrite Hc1. cbn.
    unfold cases_are_objects in Hc. rewrite List.Forall_forall in Hc.
    split; [|easy]. intros [= ->]. now destruct (Hc VNone Hc2).
Qed.

Lemma close_only_case w c :
  cases w = [c] -> current_case_index w = 0 ->
  cases (after close_current_case w) = []
  /\ current_case_index (after close_current_case w) = -1.
Proof.
  intros Hc Hi. unfold after, close_current_case. cbn.
  rewrite Hc, Hi. cbn. now split.
Qed.

(** C8: the manager starts with no current case, and after every
    sequence of calls of its methods the current index is [-1] or a valid
    index into the case list. Closing the only open case leaves no case
    and the index [-1], and [get_current_case] returns [None] exactly when
    the index is not a valid one. *)
Theorem current_case_index_invariant :
  current_case_index init = -1
  /\ (forall calls, index_valid (run_all calls init))
  /\ (forall c w, manager_ok w -> manager_ok (run c w))
  /\ (forall w c,
        cases w = [c] -> current_case_index w = 0 ->
        cases (run Close_current_case w) = []
        /\ current_case_index (run Close_current_case w) = -1)
  /\ (forall calls,
        let w := run_all calls init in
        fst (get_current_case w) = Ok VNone
        <-> ~ (0 <= current_case_index w < Z.of_nat (length (cases w)))).
Proof.
  split; [reflexivity|]. split; [intros cs; apply run_all_ok, init_ok|].
  split; [apply run_ok|]. split; [apply close_only_case|].
  intros cs w. apply get_current_case_none, run_all_ok, init_ok.
Qed.

End Calls.

(** *** Running statements on a heap that is known *)

Lemma bind_ok {St A B} (m : M St A) (k : A -> M St B) s a s' :
  m s = (Ok a, s') -> bind m k s = k a s'.
Proof. unfold bind. now intros ->. Qed.

Lemma bind_raise {St A B} (m : M St A) (k : A -> M St B) s e s' :
  m s = (Raise e, s') -> bind m k s = (Raise e, s').
Proof. unfold bind. now intros ->. Qed.

Lemma lookup_alloc_old (h : heap) o l x :
  h !! l = Some x -> (h ++ [o]) !! l = Some x.
Proof. intros H. now apply lookup_app_l_Some. Qed.

Lemma lookup_alloc_new (h : heap) o : (h ++ [o]) !! length h = Some o.
Proof. now rewrite list_lookup_middle. Qed.

Lemma getitem_dict h l d k v :
  h !! l = Some (ODict d) -> dict_get k d = Some v ->
  getitem (VRef l) k h = (Ok v, h).
Proof. intros Hl Hk. unfold getitem. cbn. now rewrite Hl, Hk. Qed.

Lemma setitem_dict h l d k v :
  h !! l = Some (ODict d) ->
  setitem (VRef l) k v h = (Ok tt, <[l := ODict (dict_set k v d)]> h).
Proof. intros Hl. unfold setitem. cbn. now rewrite Hl. Qed.

Lemma append_list h l vs v :
  h !! l = Some (OList vs) ->
  append (VRef l) v h = (Ok tt, <[l := OList (vs ++ [v])]> h).
Proof. intros Hl. unfold append. cbn. now rewrite Hl. Qed.

Lemma contains_dict h l d k :
  h !! l = Some (ODict d) -> contains k (VRef l) h = (Ok (dict_has k d), h).
Proof. intros Hl. unfold contains. cbn. now rewrite Hl. Qed.

Lemma iterate_dict h l d :
  h !! l = Some (ODict d) ->
  iterate (VRef l) h = (Ok (map (fun kv => VStr (fst kv)) d), h).
Proof. intros Hl. unfold iterate. cbn. now rewrite Hl. Qed.

Lemma iterate_list h l vs :
  h !! l = Some (OList vs) -> iterate (VRef l) h = (Ok vs, h).
Proof. intros Hl. unfold iterate. cbn. now rewrite Hl. Qed.

Lemma truthy_list h l vs :
  h !! l = Some (OList vs) ->
  truthy (VRef l) h = (Ok (negb (Nat.eqb (length vs) 0)), h).
Proof. intros Hl. unfold truthy. now rewrite Hl. Qed.

Lemma getitem_int_first h l v vs :
  h !! l = Some (OList (v :: vs)) -> getitem_int (VRef l) 0 h = (Ok v, h).
Proof. intros Hl. unfold getitem_int. cbn. now rewrite Hl. Qed.

(** *** Dictionaries *)

Lemma dict_get_set_eq k v d : dict_get k (dict_set k v d) = Some v.
Proof.
  induction d as [|[k' v'] d IH]; cbn.
  - now rewrite String.eqb_refl.
  - destruct (String.eqb k k') eqn:E; cbn; rewrite ?String.eqb_refl, ?E; trivial.
Qed.

Lemma dict_get_set_ne k k' v d :
  k <> k' -> dict_get k' (dict_set k v d) = dict_get k' d.
Proof.
  intros Hne. induction d as [|[k'' v''] d IH]; cbn.
  - destruct (String.eqb k' k) eqn:E; trivial.
    apply String.eqb_eq in E. congruence.
  - destruct (String.eqb k k'') eqn:E; cbn.
    + apply String.eqb_eq in E. subst k''.
      destruct (String.eqb k' k) eqn:E'; trivial.
      apply String.eqb_eq in E'. congruence.
    + now rewrite IH.
Qed.

Lemma dict_set_values k v d kv :
  In kv (dict_set k v d) -> kv = (k, v) \/ In kv d.
Proof.
  induction d as [|[k' v'] d IH]; cbn.
  - intros [H|[]]. now left.
  - destruct (String.eqb k k'); cbn.
    + intros [H|H]; [now left|right; now right].
    + intros [H|H]; [right; now left|].
      destruct (IH H) as [H'|H']; [now left|right; now right].
Qed.

Lemma dict_update_values d other kv :
  In kv (dict_update d other) -> In kv d \/ In kv other.
Proof.
  unfold dict_update. revert d.
  induction other as [|[k v] other IH]; intros d; cbn; [now left|].
  intros H. destruct (IH _ H) as [H'|H'].
  - apply dict_set_values in H' as [->|H']; [right; now left|now left].
  - right. now right.
Qed.

Lemma dict_get_del_eq k d : dict_get k (dict_del k d) = None.
Proof.
  unfold dict_del. induction d as [|[k' v'] d IH]; cbn; trivial.
  destruct (String.eqb k k') eqn:E; cbn; [exact IH|]. now rewrite E.
Qed.

Lemma dict_get_del_ne k k' d :
  k <> k' -> dict_get k' (dict_del k d) = dict_get k' d.
Proof.
  intros Hne. unfold dict_del. induction d as [|[k'' v''] d IH]; cbn; trivial.
  destruct (String.eqb k k'') eqn:E; cbn.
  - apply String.eqb_eq in E. subst k''.
    destruct (String.eqb k' k) eqn:E'; trivial.
    apply String.eqb_eq in E'. congruence.
  - now rewrite IH.
Qed.

Lemma dict_get_in k d v : dict_get k d = Some v -> In (k, v) d.
Proof.
  induction d as [|[k' v'] d IH]; cbn; [discriminate|].
  destruct (String.eqb k k') eqn:E.
  - apply String.eqb_eq in E. intros [= ->]. left. congruence.
  - intros H. right. now apply IH.
Qed.

(** The key [find_key] returns is a key of the dictionary iterated. *)
Lemma find_key_get needles d key :
  find_key needles (map (fun kv => VStr (fst kv)) d) = Some key ->
  exists v, dict_get key d = Some v.
Proof.
  induction d as [|[k v] d IH]; cbn; [discriminate|].
  destruct (existsb _ needles).
  - intros [= <-]. rewrite String.eqb_refl. now exists v.
  - intros H. destruct (String.eqb key k); [now exists v|]. now apply IH.
Qed.

(** *** What [build] leaves on the heap *)

Lemma tree_induction (P : tree -> Prop) :
  P TNone -> (forall b, P (TBool b)) -> (forall n, P (TInt n)) ->
  (forall f, P (TFloat f)) -> (forall s, P (TStr s)) ->
  (forall ts, Forall P ts -> P (TList ts)) ->
  (forall ts, Forall P ts -> P (TTuple ts)) ->
  (forall kvs, Forall (fun kv => P (snd kv)) kvs -> P (TDict kvs)) ->
  forall t, P t.
Proof.
  intros HN HB HI HF HS HL HT HD.
  fix IH 1. intros [ |b|n|f|s|ts|ts|kvs].
  - exact HN.
  - apply HB.
  - apply HI.
  - apply HF.
  - apply HS.
  - apply HL. induction ts as [|t ts IHts]; constructor; [apply IH|exact IHts].
  - apply HT. induction ts as [|t ts IHts]; constructor; [apply IH|exact IHts].
  - apply HD. induction kvs as [|kv kvs IHkvs]; constructor; [apply IH|exact IHkvs].
Qed.

(** A value that [bool()] accepts: not an ndarray. *)
Definition safe (h : heap) (v : value) : Prop :=
  match v with
  | VRef l => exists o, h !! l = Some o /\ o <> OArray
  | _ => True
  end.

(** [h'] has every object of [h] that is not an array, perhaps changed,
    but still not an array. *)
Definition grows (h h' : heap) : Prop :=
  forall l o, h !! l = Some o -> o <> OArray ->
              exists o', h' !! l = Some o' /\ o' <> OArray.

Lemma grows_refl h : grows h h.
Proof. intros l o H1 H2. now exists o. Qed.

Lemma grows_trans h1 h2 h3 : grows h1 h2 -> grows h2 h3 -> grows h1 h3.
Proof.
  intros H12 H23 l o H1 H2.
  destruct (H12 l o H1 H2) as (o' & H3 & H4). now apply (H23 l o').
Qed.

Lemma grows_app h ext : grows h (h ++ ext).
Proof. intros l o H1 H2. exists o. split; [now apply lookup_app_l_Some|exact H2]. Qed.

Lemma grows_insert (h : heap) l o : o <> OArray -> grows h (<[l := o]> h).
Proof.
  intros Ho l' o' H1 H2.
  destruct (decide (l = l')) as [->|Hne].
  - exists o. split; [|exact Ho].
    apply list_lookup_insert_eq. now apply lookup_lt_Some in H1.
  - exists o'. split; [|exact H2]. now rewrite list_lookup_insert_ne.
Qed.

Lemma safe_grows h h' v : grows h h' -> safe h v -> safe h' v.
Proof.
  intros Hg. destruct v; cbn; trivial.
  intros (o & H1 & H2). now apply (Hg l o).
Qed.

Lemma truthy_safe h v : safe h v -> exists b, truthy v h = (Ok b, h).
Proof.
  destruct v; cbn; eauto.
  intros (o & -> & Ho). destruct o; eauto. congruence.
Qed.

(** A value built from a literal: not an array, and if it is a
    dictionary, none of its entries is one. *)
Definition sound (h : heap) (v : value) : Prop :=
  safe h v
  /\ forall l d, v = VRef l -> h !! l = Some (ODict d) ->
                 Forall (fun kv => safe h (snd kv)) d.

Definition built (h : heap) (v : value) (h' : heap) : Prop :=
  (exists ext, h' = h ++ ext) /\ sound h' v.

Lemma sound_immediate h v :
  match v with VRef _ => False | _ => True end -> sound h v.
Proof. destruct v; try easy. Qed.

Lemma build_seq_spec ts :
  Forall (fun t => forall h, exists v h', build t h = (Ok v, h') /\ built h v h') ts ->
  forall h, exists vs h',
    build_seq build ts h = (Ok vs, h')
    /\ (exists ext, h' = h ++ ext) /\ Forall (safe h') vs.
Proof.
  induction 1 as [|t ts Ht _ IH]; intros h.
  - exists [], h. split; [reflexivity|]. split; [exists []; now rewrite app_nil_r|constructor].
  - destruct (Ht h) as (v & h1 & Hv & [[e1 ->] [Hs _]]).
    destruct (IH (h ++ e1)) as (vs & h2 & Hvs & [e2 ->] & Hsafe).
    exists (v :: vs), ((h ++ e1) ++ e2). split; [|split].
    + cbn [build_seq]. erewrite bind_ok by exact Hv.
      fold (build_seq build). now erewrite bind_ok by exact Hvs.
    + exists (e1 ++ e2). now rewrite app_assoc.
    + constructor; [|exact Hsafe]. eapply safe_grows; [apply grows_app|exact Hs].
Qed.

Lemma build_items_spec kvs :
  Forall (fun kv => forall h, exists v h',
                      build (snd kv) h = (Ok v, h') /\ built h v h') kvs ->
  forall h, exists d h',
    build_items build kvs h = (Ok d, h')
    /\ (exists ext, h' = h ++ ext) /\ Forall (fun kv => safe h' (snd kv)) d.
Proof.
  induction 1 as [|kv kvs Ht _ IH]; intros h.
  - exists [], h. split; [reflexivity|]. split; [exists []; now rewrite app_nil_r|constructor].
  - destruct (Ht h) as (v & h1 & Hv & [[e1 ->] [Hs _]]).
    destruct (IH (h ++ e1)) as (d & h2 & Hd & [e2 ->] & Hsafe).
    exists ((fst kv, v) :: d), ((h ++ e1) ++ e2). split; [|split].
    + cbn [build_items]. erewrite bind_ok by exact Hv.
      fold (build_items build). now erewrite bind_ok by exact Hd.
    + exists (e1 ++ e2). now rewrite app_assoc.
    + constructor; [|exact Hsafe]. cbn. eapply safe_grows; [apply grows_app|exact Hs].
Qed.

Lemma sound_new_object h o :
  o <> OArray ->
  (forall d, o = ODict d -> Forall (fun kv => safe h (snd kv)) d) ->
  sound (h ++ [o]) (VRef (length h)).
Proof.
  intros Ho Hd. split.
  - exists o. split; [apply lookup_alloc_new|exact Ho].
  - intros l d [= <-]. rewrite lookup_alloc_new. intros [= ->].
    eapply List.Forall_impl; [|apply (Hd d eq_refl)].
    intros kv. apply safe_grows, grows_app.
Qed.

Lemma build_spec t : forall h, exists v h', build t h = (Ok v, h') /\ built h v h'.
Proof.
  induction t as [| | | | |ts IH|ts IH|kvs IH] using tree_induction; intros h;
    try (eexists _, h; split; [reflexivity|];
         split; [exists []; now rewrite app_nil_r|now apply sound_immediate]).
  - destruct (build_seq_spec ts IH h) as (vs & h1 & Hvs & [e1 ->] & Hsafe).
    exists (VRef (length (h ++ e1))), ((h ++ e1) ++ [OList vs]). split.
    + cbn [build]. now erewrite bind_ok by exact Hvs.
    + split; [exists (e1 ++ [OList vs]); now rewrite app_assoc|].
      apply sound_new_object; [discriminate|discriminate].
  - destruct (build_seq_spec ts IH h) as (vs & h1 & Hvs & [e1 ->] & Hsafe).
    exists (VRef (length (h ++ e1))), ((h ++ e1) ++ [OTuple vs]). split.
    + cbn [build]. now erewrite bind_ok by exact Hvs.
    + split; [exists (e1 ++ [OTuple vs]); now rewrite app_assoc|].
      apply sound_new_object; [discriminate|discriminate].
  - destruct (build_items_spec kvs IH h) as (d & h1 & Hd & [e1 ->] & Hsafe).
    exists (VRef (length (h ++ e1))), ((h ++ e1) ++ [ODict (dict_update [] d)]). split.
    + cbn [build]. now erewrite bind_ok by exact Hd.
    + split; [exists (e1 ++ [ODict (dict_update [] d)]); now rewrite app_assoc|].
      apply sound_new_object; [discriminate|]. intros d' [= <-].
      apply List.Forall_forall. intros kv Hkv.
      apply dict_update_values in Hkv as [[]|Hkv].
      rewrite List.Forall_forall in Hsafe. now apply Hsafe.
Qed.

Lemma build_dict_spec kvs h :
  exists lm dm ext,
    build (TDict kvs) h = (Ok (VRef lm), h ++ ext)
    /\ (h ++ ext) !! lm = Some (ODict dm)
    /\ Forall (fun kv => safe (h ++ ext) (snd kv)) dm
    /\ (length h <= lm)%nat.
Proof.
  assert (IH : Forall (fun kv => forall h, exists v h',
                         build (snd kv) h = (Ok v, h') /\ built h v h') kvs).
  { apply List.Forall_forall. intros kv _. apply build_spec. }
  destruct (build_items_spec kvs IH h) as (d & h1 & Hd & [e1 ->] & Hsafe).
  exists (length (h ++ e1)), (dict_update [] d), (e1 ++ [ODict (dict_update [] d)]).
  rewrite app_assoc. split; [|split; [|split]].
  - cbn [build]. now erewrite bind_ok by exact Hd.
  - apply lookup_alloc_new.
  - apply List.Forall_forall. intros kv Hkv.
    apply dict_update_values in Hkv as [[]|Hkv].
    rewrite List.Forall_forall in Hsafe.
    eapply safe_grows; [apply grows_app|now apply Hsafe].
  - rewrite length_app. lia.
Qed.

Lemma insert_last (h : heap) (o o' : object) :
  <[length h := o']> (h ++ [o]) = h ++ [o'].
Proof.
  induction h as [|x h IH]; cbn; [reflexivity|]. f_equal. exact IH.
Qed.

(** *** What [load_case] leaves on the heap *)

Section Loading.

Variable load_medical_image : string -> option image_info.

(** The places of the case under construction: its list of files, its
    metadata and the case itself. *)
Variable n0 : nat.
Let lmc : nat := S n0.
Let lc : nat := S (S n0).

(** A file record as [_process_file] leaves it: a dictionary whose
    ['metadata'] is a dictionary without arrays. *)
Definition file_record (h : heap) (f : value) : Prop :=
  exists l d lm dm,
    f = VRef l /\ (lc < l)%nat /\ h !! l = Some (ODict d)
    /\ dict_get "metadata" d = Some (VRef lm) /\ (lc < lm)%nat
    /\ h !! lm = Some (ODict dm)
    /\ Forall (fun kv => safe h (snd kv)) dm.

(** From [h] to [h']: nothing is lost, and what lies above the case is
    not touched. *)
Definition settled (h h' : heap) : Prop :=
  grows h h'
  /\ forall l, (lc < l)%nat -> (l < length h)%nat -> h' !! l = h !! l.

Lemma file_record_settled h h' f :
  settled h h' -> file_record h f -> file_record h' f.
Proof.
  intros [Hg Hs] (l & d & lm & dm & -> & Hl & Hd & Hm & Hlm & Hdm & Hsafe).
  exists l, d, lm, dm. repeat split; trivial.
  - rewrite Hs; trivial. now apply lookup_lt_Some in Hd.
  - rewrite Hs; trivial. now apply lookup_lt_Some in Hdm.
  - eapply List.Forall_impl; [|exact Hsafe]. intros kv. now apply safe_grows.
Qed.

Lemma process_file_spec p info h :
  load_medical_image p = Some info -> (lc < length h)%nat ->
  exists f ext,
    _process_file load_medical_image p h = (Ok f, h ++ ext)
    /\ file_record (h ++ ext) f
    /\ getitem f "sequence_type" (h ++ ext)
        = (Ok (VStr (sequence_type_of_name (PyStr.lower (PyStr.basename p)))), h ++ ext).
Proof.
  intros Hload Hlen. unfold _process_file. rewrite Hload.
  unfold build_file_info.
  set (h1 := if image_has_array info then h ++ [OArray] else h).
  set (array := if image_has_array info then VRef (length h) else VNone).
  assert (Harray : (if image_has_array info then alloc OArray else ret VNone) h
                   = (Ok array, h1)).
  { unfold h1, array. now destruct (image_has_array info). }
  assert (Hh1 : exists e0, h1 = h ++ e0).
  { unfold h1. destruct (image_has_array info); [now exists [OArray]|].
    exists []. now rewrite app_nil_r. }
  destruct Hh1 as [e0 Hh1].
  destruct (build_dict_spec (image_metadata info) h1) as (lm & dm & e1 & Hb & Hlm & Hsafe & Hge).
  set (d0 := [("path", VStr p); ("format", VStr (image_format info));
              ("loaded_with", VStr (image_loaded_with info)); ("array", array);
              ("metadata", VRef lm)]).
  set (st := VStr (sequence_type_of_name (PyStr.lower (PyStr.basename p)))).
  exists (VRef (length (h1 ++ e1))),
         (e0 ++ e1 ++ [ODict (dict_set "sequence_type" st d0)]).
  assert (Hrun :
    (let* file_info :=
       (let* array := if image_has_array info then alloc OArray else ret VNone in
        let* metadata := build (TDict (image_metadata info)) in
        alloc (ODict [("path", VStr p); ("format", VStr (image_format info));
                      ("loaded_with", VStr (image_loaded_with info));
                      ("array", array); ("metadata", metadata)])) in
     setitem file_info "sequence_type" st ;; ret file_info) h
    = (Ok (VRef (length (h1 ++ e1))),
       (h1 ++ e1) ++ [ODict (dict_set "sequence_type" st d0)])).
  { erewrite bind_ok.
    2:{ erewrite bind_ok by exact Harray. erewrite bind_ok by exact Hb.
        reflexivity. }
    erewrite bind_ok.
    2:{ apply setitem_dict. apply lookup_alloc_new. }
    now rewrite insert_last. }
  split; [|split].
  - rewrite Hrun. f_equal. rewrite Hh1. now rewrite <- !app_assoc.
  - replace (h ++ e0 ++ e1 ++ [ODict (dict_set "sequence_type" st d0)])
      with ((h1 ++ e1) ++ [ODict (dict_set "sequence_type" st d0)])
      by (rewrite Hh1; now rewrite <- !app_assoc).
    assert (Hlen1 : (length h <= length h1)%nat).
    { rewrite Hh1, length_app. lia. }
    exists (length (h1 ++ e1)), (dict_set "sequence_type" st d0), lm, dm.
    split; [reflexivity|]. split; [rewrite length_app; lia|].
    split; [apply lookup_alloc_new|].
    split; [reflexivity|]. split; [lia|].
    split; [now apply lookup_alloc_old|].
    eapply List.Forall_impl; [|exact Hsafe]. intros kv. apply safe_grows, grows_app.
  - replace (h ++ e0 ++ e1 ++ [ODict (dict_set "sequence_type" st d0)])
      with ((h1 ++ e1) ++ [ODict (dict_set "sequence_type" st d0)])
      by (rewrite Hh1; now rewrite <- !app_assoc).
    eapply getitem_dict; [apply lookup_alloc_new|]. apply dict_get_set_eq.
Qed.

(** The case dictionary, once allocated, is not written to by the loop. *)
Variable cd : dict.
Hypothesis cd_files : dict_get "files" cd = Some (VRef n0).
Hypothesis cd_metadata : dict_get "metadata" cd = Some (VRef lmc).

(** The heap while the loop of [load_case] runs, with [vs] the files
    appended so far. *)
Definition under_construction (h : heap) (vs : list value) : Prop :=
  h !! n0 = Some (OList vs)
  /\ (exists mc, h !! lmc = Some (ODict mc))
  /\ h !! lc = Some (ODict cd)
  /\ Forall (file_record h) vs.

Lemma settled_append h ext vs f :
  (lc < length h)%nat ->
  settled h (<[n0 := OList (vs ++ [f])]> (h ++ ext)).
Proof.
  intros Hlen. split.
  - eapply grows_trans; [apply grows_app|]. now apply grows_insert.
  - intros l Hl Hlt. rewrite list_lookup_insert_ne by (unfold lc in Hl; lia).
    now apply lookup_app_l.
Qed.

Lemma load_one_spec p h vs :
  under_construction h vs ->
  exists h' new,
    load_one load_medical_image (VRef lc) p h = (Ok tt, h')
    /\ under_construction h' (vs ++ new)
    /\ (new = [] <-> load_medical_image p = None).
Proof using cd_files.
  intros (Hn0 & [mc Hmc] & Hlc & Hfiles).
  assert (Hlen : (lc < length h)%nat) by now apply lookup_lt_Some in Hlc.
  unfold load_one, try_except.
  destruct (load_medical_image p) as [info|] eqn:Hload.
  - destruct (process_file_spec p info h Hload Hlen) as (f & ext & Hrun & Hrec & _).
    exists (<[n0 := OList (vs ++ [f])]> (h ++ ext)), [f].
    split; [|split].
    + erewrite bind_ok by exact Hrun.
      erewrite bind_ok
        by (eapply getitem_dict; [apply lookup_app_l_Some, Hlc|exact cd_files]).
      erewrite append_list by (apply lookup_app_l_Some, Hn0). reflexivity.
    + split; [|split; [|split]].
      * apply list_lookup_insert_eq. rewrite length_app.
        apply lookup_lt_Some in Hn0. lia.
      * exists mc. rewrite list_lookup_insert_ne by (unfold lmc; lia).
        now apply lookup_app_l_Some.
      * rewrite list_lookup_insert_ne by (unfold lc; lia).
        now apply lookup_app_l_Some.
      * apply List.Forall_app. split.
        -- eapply List.Forall_impl; [|exact Hfiles]. intros f'.
           apply file_record_settled. now apply settled_append.
        -- constructor; [|constructor].
           eapply file_record_settled; [|exact Hrec].
           replace (<[n0:=OList (vs ++ [f])]> (h ++ ext))
             with (<[n0:=OList (vs ++ [f])]> ((h ++ ext) ++ []))
             by now rewrite app_nil_r.
           apply settled_append. rewrite length_app. lia.
    + split; [discriminate|discriminate].
  - exists h, []. split; [|split].
    + unfold _process_file. rewrite Hload. reflexivity.
    + rewrite app_nil_r. repeat split; eauto.
    + easy.
Qed.

Lemma load_loop_spec ps : forall h vs,
  under_construction h vs ->
  exists h' new,
    for_each ps (load_one load_medical_image (VRef lc)) h = (Ok tt, h')
    /\ under_construction h' (vs ++ new)
    /\ (new = [] <-> Forall (fun p => load_medical_image p = None) ps).
Proof using cd_files.
  induction ps as [|p ps IH]; intros h vs Hu.
  - exists h, []. rewrite app_nil_r. split; [reflexivity|]. split; [exact Hu|].
    split; [constructor|reflexivity].
  - destruct (load_one_spec p h vs Hu) as (h1 & new1 & Hrun1 & Hu1 & Hn1).
    destruct (IH h1 (vs ++ new1) Hu1) as (h2 & new2 & Hrun2 & Hu2 & Hn2).
    exists h2, (new1 ++ new2). split; [|split].
    + cbn [for_each]. now erewrite bind_ok by exact Hrun1.
    + now rewrite app_assoc.
    + split.
      * intros H. apply app_eq_nil in H as [H1 H2].
        constructor; [now apply Hn1|now apply Hn2].
      * intros H. inversion H as [|? ? Hp Hps]; subst.
        apply Hn1 in Hp. apply Hn2 in Hps. now subst.
Qed.

Lemma extract_field_spec h mc lm dm needles field :
  h !! lc = Some (ODict cd) -> h !! lmc = Some (ODict mc) ->
  (lc < lm)%nat -> h !! lm = Some (ODict dm) ->
  Forall (fun kv => safe h (snd kv)) dm ->
  exists h' mc',
    extract_field (VRef lc) (VRef lm) needles field h = (Ok tt, h')
    /\ settled h h'
    /\ h' !! lc = Some (ODict cd) /\ h' !! lmc = Some (ODict mc').
Proof using cd_metadata.
  intros Hlc Hmc Hlt Hlm Hsafe. unfold extract_field.
  erewrite bind_ok by (apply iterate_dict, Hlm).
  assert (Hfound : exists found,
    (match find_key needles (map (fun kv => VStr (fst kv)) dm) with
     | Some key => getitem (VRef lm) key
     | None => ret VNone
     end) h = (Ok found, h) /\ safe h found).
  { destruct (find_key _ _) as [key|] eqn:Hkey.
    - destruct (find_key_get _ _ _ Hkey) as [v Hv]. exists v. split.
      + now apply (getitem_dict h lm dm).
      + rewrite List.Forall_forall in Hsafe.
        apply (Hsafe (key, v)). now apply dict_get_in.
    - now exists VNone. }
  destruct Hfound as (found & Hrun & Hsf).
  erewrite bind_ok by exact Hrun.
  destruct (truthy_safe h found Hsf) as [b Hb].
  erewrite bind_ok by exact Hb.
  destruct b.
  - erewrite bind_ok by (apply (getitem_dict h lc cd); [exact Hlc|exact cd_metadata]).
    erewrite setitem_dict by exact Hmc.
    eexists _, _. split; [reflexivity|]. split; [|split].
    + split; [now apply grows_insert|].
      intros l Hl _. apply list_lookup_insert_ne. unfold lc, lmc in *. lia.
    + rewrite list_lookup_insert_ne by (unfold lc, lmc; lia). exact Hlc.
    + apply list_lookup_insert_eq. now apply lookup_lt_Some in Hmc.
  - exists h, mc. split; [reflexivity|]. split; [|now split].
    split; [apply grows_refl|reflexivity].
Qed.

Lemma extract_case_metadata_spec h f vs :
  under_construction h (f :: vs) ->
  exists h', _extract_case_metadata (VRef lc) h = (Ok tt, h')
             /\ h' !! lc = Some (ODict cd).
Proof using cd_files cd_metadata.
  intros (Hn0 & [mc Hmc] & Hlc & Hfiles).
  inversion Hfiles as [|? ? Hf _]; subst.
  destruct Hf as (l & d & lm & dm & -> & Hl & Hd & Hm & Hlm & Hdm & Hsafe).
  unfold _extract_case_metadata.
  erewrite bind_ok by (apply (getitem_dict h lc cd); [exact Hlc|exact cd_files]).
  erewrite bind_ok by (apply truthy_list, Hn0). cbn [length Nat.eqb negb].
  erewrite bind_ok by (apply (getitem_dict h lc cd); [exact Hlc|exact cd_files]).
  erewrite bind_ok by (eapply getitem_int_first, Hn0).
  erewrite bind_ok by (apply contains_dict, Hd).
  unfold dict_has. rewrite Hm.
  erewrite bind_ok by (apply (getitem_dict h l d); [exact Hd|exact Hm]).
  destruct (extract_field_spec h mc lm dm ["patientid"; "patient id"] "patient_id"
              Hlc Hmc Hlm Hdm Hsafe) as (h1 & mc1 & Hrun1 & [Hg1 Hs1] & Hlc1 & Hmc1).
  erewrite bind_ok by exact Hrun1.
  assert (Hdm1 : h1 !! lm = Some (ODict dm)).
  { rewrite Hs1; trivial. now apply lookup_lt_Some in Hdm. }
  assert (Hsafe1 : Forall (fun kv => safe h1 (snd kv)) dm).
  { eapply List.Forall_impl; [|exact Hsafe]. intros kv. now apply safe_grows. }
  destruct (extract_field_spec h1 mc1 lm dm ["study date"; "studydate"] "study_date"
              Hlc1 Hmc1 Hlm Hdm1 Hsafe1) as (h2 & mc2 & Hrun2 & _ & Hlc2 & _).
  exists h2. split; [exact Hrun2|exact Hlc2].
Qed.

End Loading.

(** *** C5 *)

Definition with_objects (h : heap) (w : world) : world :=
  {| objects := h; cases := cases w;
     current_case_index := current_case_index w; disk := disk w |}.

Lemma on_heap_run {A} (m : M heap A) w r h' :
  m (objects w) = (r, h') -> on_heap m w = (r, with_objects h' w).
Proof. unfold on_heap. now intros ->. Qed.

Lemma on_heap_again {A} (m : M heap A) h w r h' :
  m h = (r, h') -> on_heap m (with_objects h w) = (r, with_objects h' w).
Proof. unfold on_heap. cbn. now intros ->. Qed.

(** The case dictionary [load_case] allocates on a heap of [n] objects. *)
Definition case_dict (n : nat) (ps : list string) (a b c : string) : dict :=
  [("id", VStr (String.append "case_" a));
   ("name", VStr (_generate_case_name ps));
   ("files", VRef n);
   ("metadata", VRef (S n));
   ("created_date", VStr b);
   ("modified_date", VStr c);
   ("has_changes", VBool false)].

Lemma new_case_run ps a b c h :
  new_case ps a b c h
  = (Ok (VRef (S (S (length h)))),
     h ++ [OList []; ODict []; ODict (case_dict (length h) ps a b c)]).
Proof.
  unfold new_case, bind, alloc. cbn.
  rewrite !length_app. cbn. rewrite <- !app_assoc. cbn.
  unfold case_dict.
  replace (length h + 1 + 1)%nat with (S (S (length h))) by lia.
  replace (length h + 1)%nat with (S (length h)) by lia.
  reflexivity.
Qed.

Lemma lookup_three (h : heap) (x y z : object) :
  (h ++ [x; y; z]) !! length h = Some x
  /\ (h ++ [x; y; z]) !! S (length h) = Some y
  /\ (h ++ [x; y; z]) !! S (S (length h)) = Some z.
Proof.
  repeat split; rewrite lookup_app_r by lia.
  - now rewrite Nat.sub_diag.
  - now replace (S (length h) - length h)%nat with 1%nat by lia.
  - now replace (S (S (length h)) - length h)%nat with 2%nat by lia.
Qed.

Lemma new_case_under_construction ps a b c h :
  under_construction (length h) (case_dict (length h) ps a b c)
    (h ++ [OList []; ODict []; ODict (case_dict (length h) ps a b c)]) [].
Proof.
  destruct (lookup_three h (OList []) (ODict [])
              (ODict (case_dict (length h) ps a b c))) as (H0 & H1 & H2).
  split; [exact H0|]. split; [now exists []|]. split; [exact H2|constructor].
Qed.

Lemma load_case_run lmi p ps a b c w :
  exists (h' : heap) (new : list value),
    (new = [] <-> Forall (fun p => lmi p = None) (p :: ps))
    /\ load_case lmi (p :: ps) a b c w
        = match new with
          | [] => (Raise (ValueError
                     "No se pudo procesar ninguno de los archivos proporcionados"),
                   with_objects h' w)
          | _ :: _ =>
              (Ok (VRef (S (S (length (objects w))))),
               {| objects := h';
                  cases := cases w ++ [VRef (S (S (length (objects w))))];
                  current_case_index := Z.of_nat (length (cases w));
                  disk := disk w |})
          end.
Proof.
  set (n := length (objects w)).
  set (cd := case_dict n (p :: ps) a b c).
  pose proof (new_case_under_construction (p :: ps) a b c (objects w)) as Hu.
  fold n cd in Hu.
  destruct (load_loop_spec lmi n cd eq_refl (p :: ps) _ [] Hu)
    as (h1 & new & Hloop & Hu1 & Hnew).
  cbn [app] in Hu1.
  assert (Hfiles : getitem (VRef (S (S n))) "files" h1 = (Ok (VRef n), h1)).
  { destruct Hu1 as (_ & _ & Hlc & _). now apply (getitem_dict h1 _ cd). }
  assert (Htruthy : truthy (VRef n) h1 = (Ok (negb (Nat.eqb (length new) 0)), h1)).
  { destruct Hu1 as (Hn0 & _). now apply truthy_list. }
  unfold load_case.
  erewrite bind_ok by (apply on_heap_run, new_case_run). fold n cd.
  erewrite bind_ok by (apply on_heap_run; cbn [objects with_objects]; exact Hloop).
  erewrite bind_ok by (apply on_heap_run; cbn [objects with_objects]; exact Hfiles).
  erewrite bind_ok by (apply on_heap_run; cbn [objects with_objects]; exact Htruthy).
  destruct new as [|f vs].
  - exists h1, []. split; [exact Hnew|]. reflexivity.
  - destruct (extract_case_metadata_spec n cd eq_refl eq_refl h1 f vs Hu1)
      as (h2 & Hextract & _).
    exists h2, (f :: vs). split; [exact Hnew|].
    cbn [length Nat.eqb negb].
    erewrite bind_ok by (apply on_heap_run; cbn [objects with_objects]; exact Hextract).
    cbn. rewrite length_app. cbn. do 3 f_equal. lia.
Qed.

(** C5: [load_case] raises on an empty list of paths; it raises, and
    leaves the case list and the current index as they were, when none of
    the files can be processed; and when at least one can, it returns the
    new case, having appended exactly that case to the case list and made
    it the current case. *)
Theorem load_case_outcomes (load_medical_image : string -> option image_info) :
  (forall a b c w,
      exists msg, load_case load_medical_image [] a b c w = (Raise (ValueError msg), w))
  /\ (forall ps a b c w,
        ps <> [] -> Forall (fun p => load_medical_image p = None) ps ->
        exists msg w',
          load_case load_medical_image ps a b c w = (Raise (ValueError msg), w')
          /\ cases w' = cases w
          /\ current_case_index w' = current_case_index w)
  /\ (forall ps a b c w,
        Exists (fun p => load_medical_image p <> None) ps ->
        exists case w',
          load_case load_medical_image ps a b c w = (Ok case, w')
          /\ cases w' = cases w ++ [case]
          /\ current_case_index w' = Z.of_nat (length (cases w))
          /\ get_current_case w' = (Ok case, w')).
Proof.
  split; [|split].
  - intros a b c w. eexists. reflexivity.
  - intros [|p ps] a b c w Hne Hall; [easy|].
    destruct (load_case_run load_medical_image p ps a b c w) as (h' & new & Hnew & Hrun).
    apply Hnew in Hall. subst new.
    eexists _, _. split; [exact Hrun|]. now split.
  - intros [|p ps] a b c w Hex; [now apply Exists_nil in Hex|].
    destruct (load_case_run load_medical_image p ps a b c w) as (h' & new & Hnew & Hrun).
    destruct new as [|f vs].
    + exfalso. apply List.Exists_exists in Hex as (q & Hq & Hload).
      assert (Hall : Forall (fun p => load_medical_image p = None) (p :: ps))
        by now apply Hnew.
      rewrite List.Forall_forall in Hall. now apply Hload, Hall.
    + eexists _, _. split; [exact Hrun|]. cbn [cases current_case_index].
      split; [reflexivity|]. split; [reflexivity|].
      unfold get_current_case. cbn.
      assert (Hno : no_current_case (Z.of_nat (length (cases w)))
                      (cases w ++ [VRef (S (S (length (objects w))))]) = false).
      { apply no_current_case_false. rewrite length_app. cbn. lia. }
      rewrite Hno. unfold case_at, index_list.
      rewrite length_app. cbn [length].
      replace ((0 <=? Z.of_nat (length (cases w)))
               && (Z.of_nat (length (cases w)) <? Z.of_nat (length (cases w) + 1)))
        with true by (symmetry; apply andb_true_iff; split;
                      [apply Z.leb_le|apply Z.ltb_lt]; lia).
      rewrite Nat2Z.id, nth_error_app2 by lia.
      now rewrite Nat.sub_diag.
Qed.

(** *** C10 *)

(** The keys [save_current_case] does not write. *)
Definition kept (k : string) : Prop :=
  k <> "modified_date" /\ k <> "has_changes" /\ k <> "array".

(** From [h] to [h']: every object is still there; a dictionary may have
    changed, but only at the keys that [save_current_case] writes, and
    it has not gained an ['array']; everything else is as it was. *)
Definition edited (h h' : heap) : Prop :=
  forall l o, h !! l = Some o ->
    match o with
    | ODict d =>
        exists d', h' !! l = Some (ODict d')
                   /\ (forall k, kept k -> dict_get k d' = dict_get k d)
                   /\ (dict_get "array" d = None -> dict_get "array" d' = None)
    | _ => h' !! l = Some o
    end.

Lemma kept_files : kept "files".
Proof. repeat split; discriminate. Qed.

Lemma edited_refl h : edited h h.
Proof. intros l o H. destruct o; trivial. now exists d. Qed.

Lemma edited_trans h1 h2 h3 : edited h1 h2 -> edited h2 h3 -> edited h1 h3.
Proof.
  intros H12 H23 l o H. specialize (H12 l o H). destruct o.
  - destruct H12 as (d2 & H2 & Hf2 & Ha2).
    destruct (H23 l _ H2) as (d3 & H3 & Hf3 & Ha3).
    exists d3. split; [exact H3|]. split; [|auto].
    intros k Hk. now rewrite Hf3, Hf2.
  - now apply (H23 l (OList vs)).
  - now apply (H23 l (OTuple vs)).
  - now apply (H23 l OArray).
Qed.

Lemma edited_app h ext : edited h (h ++ ext).
Proof.
  intros l o H. apply (lookup_app_l_Some _ ext) in H.
  destruct o; trivial. now exists d.
Qed.

Lemma edited_insert (h : heap) l d d' :
  h !! l = Some (ODict d) ->
  (forall k, kept k -> dict_get k d' = dict_get k d) ->
  (dict_get "array" d = None -> dict_get "array" d' = None) ->
  edited h (<[l := ODict d']> h).
Proof.
  intros Hl Hf Ha l' o H. destruct (decide (l = l')) as [<-|Hne].
  - rewrite Hl in H. injection H as <-. exists d'.
    split; [|now split]. apply list_lookup_insert_eq. now apply lookup_lt_Some in Hl.
  - rewrite <- (list_lookup_insert_ne h l l' (ODict d')) in H by exact Hne.
    destruct o; trivial. now exists d0.
Qed.

(** Writing ['modified_date'] or ['has_changes'] is such a change. *)
Lemma edited_setitem (h : heap) l d k v :
  h !! l = Some (ODict d) ->
  k = "modified_date" \/ k = "has_changes" ->
  edited h (<[l := ODict (dict_set k v d)]> h).
Proof.
  intros Hl Hk. apply (edited_insert h l d); [exact Hl| |].
  - intros k' (H1 & H2 & _). apply dict_get_set_ne. destruct Hk; congruence.
  - intros Ha. rewrite dict_get_set_ne; [exact Ha|]. destruct Hk as [->| ->]; discriminate.
Qed.

(** A reference to a dictionary, and one to a dictionary without
    ['array']. *)
Definition is_record (h : heap) (f : value) : Prop :=
  exists l d, f = VRef l /\ h !! l = Some (ODict d).

Definition has_no_array (h : heap) (f : value) : Prop :=
  exists l d, f = VRef l /\ h !! l = Some (ODict d) /\ dict_get "array" d = None.

(** A dictionary whose ['array'] is in [h'] what it was in [h]. *)
Definition keeps_array (h h' : heap) (f : value) : Prop :=
  exists l d d', f = VRef l /\ h !! l = Some (ODict d) /\ h' !! l = Some (ODict d')
                 /\ dict_get "array" d' = dict_get "array" d.

Lemma is_record_edited h h' f : edited h h' -> is_record h f -> is_record h' f.
Proof.
  intros He (l & d & -> & Hl). destruct (He l _ Hl) as (d' & Hd' & _).
  now exists l, d'.
Qed.

Lemma has_no_array_edited h h' f :
  edited h h' -> has_no_array h f -> has_no_array h' f.
Proof.
  intros He (l & d & -> & Hl & Ha). destruct (He l _ Hl) as (d' & Hd' & _ & Ha').
  exists l, d'. auto.
Qed.

Lemma strip_array_spec h f :
  is_record h f ->
  exists h', strip_array f h = (Ok tt, h') /\ edited h h' /\ has_no_array h' f.
Proof.
  intros (l & d & -> & Hl). unfold strip_array.
  erewrite bind_ok by (apply contains_dict, Hl).
  destruct (dict_has "array" d) eqn:E.
  - exists (<[l := ODict (dict_del "array" d)]> h). split; [|split].
    + unfold delitem. cbn. now rewrite Hl, E.
    + apply (edited_insert h l d); trivial.
      * intros k (_ & _ & Hk). apply dict_get_del_ne. congruence.
      * intros _. apply dict_get_del_eq.
    + exists l, (dict_del "array" d). split; [reflexivity|]. split.
      * apply list_lookup_insert_eq. now apply lookup_lt_Some in Hl.
      * apply dict_get_del_eq.
  - exists h. split; [reflexivity|]. split; [apply edited_refl|].
    exists l, d. split; [reflexivity|]. split; [exact Hl|].
    unfold dict_has in E. now destruct (dict_get "array" d).
Qed.

Lemma strip_loop_spec fs : forall h,
  Forall (is_record h) fs ->
  exists h', for_each fs strip_array h = (Ok tt, h')
             /\ edited h h' /\ Forall (has_no_array h') fs.
Proof.
  induction fs as [|f fs IH]; intros h Hfs.
  - exists h. split; [reflexivity|]. split; [apply edited_refl|constructor].
  - inversion Hfs as [|? ? Hf Hrest]; subst.
    destruct (strip_array_spec h f Hf) as (h1 & Hrun1 & He1 & Hna1).
    assert (Hrest1 : Forall (is_record h1) fs).
    { eapply List.Forall_impl; [|exact Hrest]. intros g. now apply is_record_edited. }
    destruct (IH h1 Hrest1) as (h2 & Hrun2 & He2 & Hna2).
    exists h2. split; [|split].
    + cbn [for_each]. now erewrite bind_ok by exact Hrun1.
    + now apply (edited_trans h h1 h2).
    + constructor; [|exact Hna2]. now apply (has_no_array_edited h1 h2).
Qed.

Section Saving.

Variable can_open_for_writing : string -> bool.
Variable TEMP_DIR : string.
Variable py_str : heap -> value -> string.

(** Finding the path reads the case and changes nothing. *)
Lemma resolve_path_run file_path lc cd w p :
  objects w !! lc = Some (ODict cd) ->
  fst (resolve_path TEMP_DIR py_str file_path (VRef lc) w) = Ok p ->
  resolve_path TEMP_DIR py_str file_path (VRef lc) w = (Ok p, w).
Proof.
  destruct w as [h cs i dk]. cbn [objects]. intros Hlc.
  assert (Hd : forall q w0,
             w0 = {| objects := h; cases := cs; current_case_index := i; disk := dk |} ->
             fst (default_path TEMP_DIR py_str (VRef lc) w0) = Ok q ->
             default_path TEMP_DIR py_str (VRef lc) w0 = (Ok q, w0)).
  { intros q w0 ->. unfold default_path, bind, on_heap, getitem. cbn.
    rewrite Hlc. destruct (dict_get "id" cd); cbn; [|discriminate].
    now intros [= <-]. }
  unfold resolve_path. destruct file_path as [q|]; [destruct (String.eqb q "")|];
    try (now apply Hd).
  cbn. now intros [= ->].
Qed.

(** [save_current_case] on a case whose ['files'] is a list of
    dictionaries, once the file could be opened: the heap when [json.dump]
    is called, and the two ways the call ends. *)
Lemma save_current_case_run file_path p t w lc cd lf fs :
  no_current_case (current_case_index w) (cases w) = false ->
  index_list (cases w) (current_case_index w) = Some (VRef lc) ->
  objects w !! lc = Some (ODict cd) ->
  dict_get "files" cd = Some (VRef lf) ->
  objects w !! lf = Some (OList fs) ->
  Forall (is_record (objects w)) fs ->
  fst (resolve_path TEMP_DIR py_str file_path (VRef lc) w) = Ok p ->
  can_open_for_writing p = true ->
  let cd1 := dict_set "modified_date" (VStr t) cd in
  let h2 := <[lc := ODict cd1]> (objects w) ++ [ODict cd1] in
  exists h3 cd3,
    for_each fs strip_array h2 = (Ok tt, h3)
    /\ edited h2 h3
    /\ Forall (has_no_array h3) fs
    /\ h3 !! lc = Some (ODict cd3)
    /\ save_current_case can_open_for_writing TEMP_DIR py_str file_path t w
       = match dump (length h3) h3 (VRef (length (objects w))) with
         | Ok doc =>
             (Ok true,
              {| objects := <[lc := ODict (dict_set "has_changes" (VBool false) cd3)]> h3;
                 cases := cases w;
                 current_case_index := current_case_index w;
                 disk := <[p := Document doc]> (<[p := Truncated]> (disk w)) |})
         | Raise _ =>
             (Ok false,
              {| objects := h3;
                 cases := cases w;
                 current_case_index := current_case_index w;
                 disk := <[p := Truncated]> (disk w) |})
         end.
Proof.
  intros Hcur Hcase Hlc Hfiles Hlf Hfs Hpath Hopen cd1 h2.
  set (h := objects w) in *.
  set (h1 := <[lc := ODict cd1]> h) in *.
  assert (He1 : edited h h1) by (apply edited_setitem; [exact Hlc|now left]).
  assert (Hlc1 : h1 !! lc = Some (ODict cd1)).
  { apply list_lookup_insert_eq. now apply lookup_lt_Some in Hlc. }
  assert (Hfiles1 : dict_get "files" cd1 = Some (VRef lf)).
  { unfold cd1. now rewrite dict_get_set_ne. }
  assert (Hlen1 : length h1 = length h) by apply length_insert.
  assert (Hsd : h2 !! length h = Some (ODict cd1)).
  { unfold h2. rewrite <- Hlen1. apply lookup_alloc_new. }
  assert (He2 : edited h h2).
  { eapply edited_trans; [exact He1|apply edited_app]. }
  assert (Hlf2 : h2 !! lf = Some (OList fs)) by apply (He2 lf _ Hlf).
  assert (Hfs2 : Forall (is_record h2) fs).
  { eapply List.Forall_impl; [|exact Hfs]. intros g. now apply is_record_edited. }
  destruct (strip_loop_spec fs h2 Hfs2) as (h3 & Hloop & He3 & Hna3).
  destruct (He3 lc (ODict cd1) (lookup_alloc_old h1 _ lc _ Hlc1))
    as (cd3 & Hlc3 & Hcd3f & _).
  exists h3, cd3. split; [exact Hloop|]. split; [exact He3|].
  split; [exact Hna3|]. split; [exact Hlc3|].
  set (w1 := with_objects h1 w).
  set (w2 := {| objects := h1; cases := cases w;
                current_case_index := current_case_index w;
                disk := <[p := Truncated]> (disk w) |}).
  set (w3 := with_objects h3 w2).
  assert (S0 : resolve_path TEMP_DIR py_str file_path (VRef lc) w = (Ok p, w))
    by (apply (resolve_path_run _ _ cd); [exact Hlc|exact Hpath]).
  assert (S1 : on_heap (setitem (VRef lc) "modified_date" (VStr t)) w = (Ok tt, w1))
    by (apply on_heap_run, setitem_dict, Hlc).
  assert (S2 : open_for_writing can_open_for_writing p w1 = (Ok tt, w2))
    by (unfold open_for_writing; rewrite Hopen; reflexivity).
  assert (S3 : on_heap (copy (VRef lc)) w2
               = (Ok (VRef (length h)), with_objects h2 w2)).
  { apply on_heap_run. unfold copy. cbn [object_of objects w2].
    rewrite Hlc1. unfold alloc. now rewrite Hlen1. }
  assert (S4 : on_heap (getitem (VRef (length h)) "files") (with_objects h2 w2)
               = (Ok (VRef lf), with_objects h2 w2)).
  { apply on_heap_again. apply (getitem_dict h2 _ cd1); [exact Hsd|exact Hfiles1]. }
  assert (S5 : on_heap (iterate (VRef lf)) (with_objects h2 w2)
               = (Ok fs, with_objects h2 w2)).
  { apply on_heap_again. apply iterate_list, Hlf2. }
  assert (S6 : on_heap (for_each fs strip_array) (with_objects h2 w2) = (Ok tt, w3)).
  { apply on_heap_again. exact Hloop. }
  unfold save_current_case.
  erewrite bind_ok by reflexivity. erewrite bind_ok by reflexivity.
  rewrite Hcur. unfold case_at at 1. rewrite Hcase.
  erewrite bind_ok by reflexivity.
  erewrite bind_ok by exact S0.
  unfold try_except.
  erewrite bind_ok by exact S1. erewrite bind_ok by exact S2.
  erewrite bind_ok by exact S3. erewrite bind_ok by exact S4.
  erewrite bind_ok by exact S5. erewrite bind_ok by exact S6.
  destruct (dump (length h3) h3 (VRef (length h))) as [doc|e] eqn:Hdump.
  - assert (S7 : json_dump (VRef (length h)) p w3
                 = (Ok tt, {| objects := h3; cases := cases w;
                              current_case_index := current_case_index w;
                              disk := <[p := Document doc]> (<[p := Truncated]> (disk w)) |})).
    { unfold json_dump. cbn [objects w3 with_objects]. now rewrite Hdump. }
    erewrite bind_ok by exact S7.
    erewrite bind_ok.
    2:{ apply on_heap_run. cbn [objects]. apply setitem_dict. exact Hlc3. }
    reflexivity.
  - assert (S7 : json_dump (VRef (length h)) p w3 = (Raise e, w3)).
    { unfold json_dump. cbn [objects w3 with_objects]. now rewrite Hdump. }
    erewrite bind_raise by exact S7. reflexivity.
Qed.

(** [save_current_case] when the file cannot be opened: the [except]
    branch is taken before the copy is made. *)
Lemma save_current_case_unopened file_path p t w lc cd :
  no_current_case (current_case_index w) (cases w) = false ->
  index_list (cases w) (current_case_index w) = Some (VRef lc) ->
  objects w !! lc = Some (ODict cd) ->
  fst (resolve_path TEMP_DIR py_str file_path (VRef lc) w) = Ok p ->
  can_open_for_writing p = false ->
  save_current_case can_open_for_writing TEMP_DIR py_str file_path t w
  = (Ok false,
     with_objects (<[lc := ODict (dict_set "modified_date" (VStr t) cd)]> (objects w)) w).
Proof.
  intros Hcur Hcase Hlc Hpath Hopen.
  assert (S0 : resolve_path TEMP_DIR py_str file_path (VRef lc) w = (Ok p, w))
    by (apply (resolve_path_run _ _ cd); [exact Hlc|exact Hpath]).
  unfold save_current_case.
  erewrite bind_ok by reflexivity. erewrite bind_ok by reflexivity.
  rewrite Hcur. unfold case_at at 1. rewrite Hcase.
  erewrite bind_ok by reflexivity.
  erewrite bind_ok by exact S0.
  unfold try_except.
  erewrite bind_ok by (apply on_heap_run, setitem_dict, Hlc).
  erewrite bind_raise; [reflexivity|].
  unfold open_for_writing. rewrite Hopen. reflexivity.
Qed.

(** C10: when the current case is saved to a file that can be opened, the
    ['array'] entries are removed from the file records of the case that
    stays in memory: the dictionary that is serialized is a new one, but
    its ['files'] is the list of the live case, so the records it strips
    are the live ones. This holds whether or not [json.dump] then
    succeeds, and whether the path is given or is the default one. When
    the file cannot be opened, [open] raises before the loop over the
    records: the call returns [False] and every record keeps the
    ['array'] it had. *)
Theorem save_removes_arrays_from_live_case file_path p t w lc cd lf fs :
  no_current_case (current_case_index w) (cases w) = false ->
  index_list (cases w) (current_case_index w) = Some (VRef lc) ->
  objects w !! lc = Some (ODict cd) ->
  dict_get "files" cd = Some (VRef lf) ->
  objects w !! lf = Some (OList fs) ->
  Forall (is_record (objects w)) fs ->
  fst (resolve_path TEMP_DIR py_str file_path (VRef lc) w) = Ok p ->
  let w' := after (save_current_case can_open_for_writing TEMP_DIR py_str file_path t) w in
  (can_open_for_writing p = true ->
   cases w' = cases w
   /\ current_case_index w' = current_case_index w
   /\ (exists cd', objects w' !! lc = Some (ODict cd')
                   /\ dict_get "files" cd' = Some (VRef lf))
   /\ objects w' !! lf = Some (OList fs)
   /\ Forall (has_no_array (objects w')) fs
   /\ (exists sd, objects w' !! length (objects w) = Some (ODict sd)
                  /\ length (objects w) <> lc
                  /\ dict_get "files" sd = Some (VRef lf)))
  /\ (can_open_for_writing p = false ->
      fst (save_current_case can_open_for_writing TEMP_DIR py_str file_path t w) = Ok false
      /\ objects w' !! lf = Some (OList fs)
      /\ Forall (keeps_array (objects w) (objects w')) fs).
Proof.
  intros Hcur Hcase Hlc Hfiles Hlf Hfs Hpath w'. split; intros Hopen.
  2:{ pose proof (save_current_case_unopened file_path p t w lc cd
                    Hcur Hcase Hlc Hpath Hopen) as Hrun.
      assert (Hw' : objects w'
                    = <[lc := ODict (dict_set "modified_date" (VStr t) cd)]> (objects w)).
      { unfold w', after. now rewrite Hrun. }
      assert (Hlt : (lc < length (objects w))%nat) by now apply lookup_lt_Some in Hlc.
      split; [now rewrite Hrun|]. rewrite Hw'. split.
      - rewrite list_lookup_insert_ne by congruence. exact Hlf.
      - eapply List.Forall_impl; [|exact Hfs]. intros f (l & d & -> & Hl).
        destruct (Nat.eq_dec lc l) as [<-|Hne].
        + exists lc, cd, (dict_set "modified_date" (VStr t) cd).
          split; [reflexivity|]. split; [exact Hlc|].
          split; [now apply list_lookup_insert_eq|].
          now rewrite dict_get_set_ne.
        + exists l, d, d. split; [reflexivity|]. split; [exact Hl|].
          split; [|reflexivity]. now rewrite list_lookup_insert_ne. }
  destruct (save_current_case_run file_path p t w lc cd lf fs
              Hcur Hcase Hlc Hfiles Hlf Hfs Hpath Hopen)
    as (h3 & cd3 & _ & He3 & Hna3 & Hlc3 & Hrun).
  set (cd1 := dict_set "modified_date" (VStr t) cd) in *.
  set (h1 := <[lc := ODict cd1]> (objects w)) in *.
  assert (Hlt : (lc < length (objects w))%nat) by now apply lookup_lt_Some in Hlc.
  assert (He1 : edited (objects w) (h1 ++ [ODict cd1])).
  { eapply edited_trans; [|apply edited_app].
    apply edited_setitem; [exact Hlc|now left]. }
  assert (Hsd : (h1 ++ [ODict cd1]) !! length (objects w) = Some (ODict cd1)).
  { replace (length (objects w)) with (length h1) by apply length_insert.
    apply lookup_alloc_new. }
  assert (Hfiles1 : dict_get "files" cd1 = Some (VRef lf)).
  { unfold cd1. now rewrite dict_get_set_ne. }
  assert (He4 : edited h3 (<[lc := ODict (dict_set "has_changes" (VBool false) cd3)]> h3))
    by (apply edited_setitem; [exact Hlc3|now right]).
  assert (He : edited (objects w) (objects w')).
  { unfold w', after. rewrite Hrun.
    destruct (dump _ _ _); cbn [snd objects].
    - eapply edited_trans; [exact He1|]. eapply edited_trans; [exact He3|exact He4].
    - eapply edited_trans; [exact He1|exact He3]. }
  assert (He' : edited h3 (objects w')).
  { unfold w', after. rewrite Hrun.
    destruct (dump _ _ _); cbn [snd objects]; [exact He4|apply edited_refl]. }
  destruct (keeps_save_current_case can_open_for_writing TEMP_DIR py_str file_path t w)
    as [Hc Hi].
  split; [exact Hc|]. split; [exact Hi|]. split; [|split; [|split]].
  - destruct (He lc _ Hlc) as (cd' & Hcd' & Hf' & _). exists cd'.
    split; [exact Hcd'|]. now rewrite (Hf' _ kept_files).
  - apply (He lf _ Hlf).
  - eapply List.Forall_impl; [|exact Hna3]. intros g. now apply has_no_array_edited.
  - destruct (He3 _ _ Hsd) as (sd & Hsd3 & Hsdf & _).
    destruct (He' _ _ Hsd3) as (sd' & Hsd' & Hsdf' & _).
    exists sd'. split; [exact Hsd'|]. split; [lia|].
    now rewrite (Hsdf' _ kept_files), (Hsdf _ kept_files).
Qed.

End Saving.

(** *** Saving and loading again *)

(** A key of a case as [json.dump] would write it. *)
Definition view (w : world) (case : value) (key : string) : result tree :=
  match getitem case key (objects w) with
  | (Ok v, _) => dump (length (objects w)) (objects w) v
  | (Raise e, _) => Raise e
  end.

(** The number of nodes of a literal. *)
Fixpoint nodes (t : tree) : nat :=
  match t with
  | TList ts | TTuple ts => S (list_sum (map nodes ts))
  | TDict kvs => S (list_sum (map (fun kv => nodes (snd kv)) kvs))
  | _ => 1%nat
  end.

(** No object of the document has a key twice. *)
Fixpoint distinct_keys (t : tree) : bool :=
  match t with
  | TList ts | TTuple ts => forallb distinct_keys ts
  | TDict kvs =>
      bool_decide (NoDup (map fst kvs))
      && forallb (fun kv => distinct_keys (snd kv)) kvs
  | _ => true
  end.

(** Every dictionary of the heap has its keys once, as a Python [dict]
    does. *)
Definition keys_once (h : heap) : Prop :=
  forall l d, h !! l = Some (ODict d) -> NoDup (map fst d).

(** The entry of a JSON object. *)
Fixpoint entry (k : string) (kvs : list (string * tree)) : option tree :=
  match kvs with
  | [] => None
  | (k', t) :: kvs' => if String.eqb k k' then Some t else entry k kvs'
  end.

Lemma map_result_Forall2 {A B} (f : A -> result B) xs ys :
  map_result f xs = Ok ys <-> Forall2 (fun x y => f x = Ok y) xs ys.
Proof.
  revert ys. induction xs as [|x xs IH]; intros ys; cbn.
  - split; [intros [= <-]; constructor|intros H; now inversion H].
  - destruct (f x) as [y|e] eqn:E.
    + destruct (map_result f xs) as [ys'|e] eqn:E'.
      * split.
        -- intros [= <-]. constructor; [exact E|now apply IH].
        -- intros H. inversion H as [|? y0 ? ys0 H1 H2]; subst.
           apply IH in H2. congruence.
      * split; [discriminate|].
        intros H. inversion H as [|? y0 ? ys0 H1 H2]; subst.
        apply IH in H2. discriminate.
    + split; [discriminate|].
      intros H. inversion H as [|? y0 ? ys0 H1 H2]; subst. congruence.
Qed.

Lemma map_result_impl {A B} (f g : A -> result B) xs ys :
  (forall x y, In x xs -> f x = Ok y -> g x = Ok y) ->
  map_result f xs = Ok ys -> map_result g xs = Ok ys.
Proof.
  intros Hfg H. apply map_result_Forall2 in H. apply map_result_Forall2.
  induction H as [|x y xs ys Hx _ IH]; constructor.
  - apply Hfg; [now left|exact Hx].
  - apply IH. intros x' y' Hin. apply Hfg. now right.
Qed.

(** What [dump] reads of a dictionary and of a list. *)
Lemma dump_dict f h l d t :
  h !! l = Some (ODict d) ->
  dump (S f) h (VRef l) = Ok t <->
  exists kvs, t = TDict kvs
              /\ Forall2 (fun kv kt => fst kt = fst kv /\ dump f h (snd kv) = Ok (snd kt))
                         d kvs.
Proof.
  intros Hl. cbn [dump]. rewrite Hl.
  destruct (map_result _ d) as [kvs|e] eqn:E.
  - apply map_result_Forall2 in E. split.
    + intros [= <-]. exists kvs. split; [reflexivity|].
      eapply Forall2_impl; [exact E|]. intros kv kt H. cbn in H.
      destruct (dump f h (snd kv)); [|discriminate]. injection H as <-. now cbn.
    + intros (kvs' & -> & H). f_equal. f_equal.
      clear Hl. revert kvs' H. induction E as [|kv kt d kvs Hk _ IH]; intros kvs' H.
      * now inversion H.
      * inversion H as [|? kt' ? kvs0 [H1 H2] H3]; subst. f_equal; [|now apply IH].
        cbn in Hk. rewrite H2 in Hk. injection Hk as <-.
        destruct kt'. cbn in *. now subst.
  - split; [discriminate|]. intros (kvs & -> & H). exfalso.
    assert (map_result (fun kv => match dump f h (snd kv) with
                                  | Ok t => Ok (fst kv, t) | Raise e => Raise e end) d
            = Ok kvs); [|congruence].
    apply map_result_Forall2. eapply Forall2_impl; [exact H|].
    intros kv kt [H1 H2]. cbn. rewrite H2. destruct kt. cbn in *. now subst.
Qed.

Lemma dump_list f h l vs t :
  h !! l = Some (OList vs) \/ h !! l = Some (OTuple vs) ->
  dump (S f) h (VRef l) = Ok t <->
  exists ts, t = TList ts /\ Forall2 (fun v t => dump f h v = Ok t) vs ts.
Proof.
  intros Hl. cbn [dump].
  assert (E : match h !! l with
              | Some (ODict d) => Raise TypeError
              | Some (OList vs') | Some (OTuple vs') =>
                  match map_result (dump f h) vs' with
                  | Ok ts => Ok (TList ts) | Raise e => Raise e end
              | _ => Raise TypeError
              end
              = match map_result (dump f h) vs with
                | Ok ts => Ok (TList ts) | Raise e => Raise e end).
  { destruct Hl as [-> | ->]; reflexivity. }
  assert (E' : dump (S f) h (VRef l)
               = match map_result (dump f h) vs with
                 | Ok ts => Ok (TList ts) | Raise e => Raise e end).
  { cbn [dump]. destruct Hl as [-> | ->]; reflexivity. }
  cbn [dump] in E'. rewrite E'. clear E E'.
  destruct (map_result (dump f h) vs) as [ts|e] eqn:E1.
  - apply map_result_Forall2 in E1. split.
    + intros [= <-]. now exists ts.
    + intros (ts' & -> & H). apply map_result_Forall2 in H, E1. congruence.
  - split; [discriminate|]. intros (ts & -> & H).
    apply map_result_Forall2 in H. congruence.
Qed.

Lemma dump_ref_inv f h l t :
  dump f h (VRef l) = Ok t ->
  exists f', f = S f'
    /\ ((exists d, h !! l = Some (ODict d))
        \/ (exists vs, h !! l = Some (OList vs) \/ h !! l = Some (OTuple vs))).
Proof.
  destruct f as [|f]; [discriminate|]. intros H. exists f. split; [reflexivity|].
  cbn [dump] in H. destruct (h !! l) as [[d|vs|vs| ]|]; try discriminate; eauto.
Qed.

Lemma dump_immediate f f' h v :
  match v with VRef _ => False | _ => True end -> dump f h v = dump f' h v.
Proof. destruct v; try easy; intros _; now destruct f, f'. Qed.

(** More fuel, or a longer heap, does not change what was written. *)
Lemma dump_fuel f : forall h v t f',
  dump f h v = Ok t -> (f <= f')%nat -> dump f' h v = Ok t.
Proof.
  induction f as [|f IH]; intros h v t f' H Hle.
  - destruct v; try discriminate; now rewrite <- (dump_immediate 0 f').
  - destruct v; try (now rewrite <- (dump_immediate (S f) f')).
    destruct f' as [|f']; [lia|].
    destruct (dump_ref_inv _ _ _ _ H) as (_ & _ & [[d Hl]|[vs Hl]]).
    + destruct (proj1 (dump_dict _ _ _ _ _ Hl) H) as (kvs & Ht & Hk); subst t; clear H; rename Hk into H.
      apply (dump_dict _ _ _ _ _ Hl). exists kvs. split; [reflexivity|].
      eapply Forall2_impl; [exact H|]. intros kv kt [H1 H2]. split; [exact H1|].
      apply (IH _ _ _ f' H2). lia.
    + destruct (proj1 (dump_list _ _ _ _ _ Hl) H) as (ts & Ht & Hk); subst t; clear H; rename Hk into H.
      apply (dump_list _ _ _ _ _ Hl). exists ts. split; [reflexivity|].
      eapply Forall2_impl; [exact H|]. intros v t H2. apply (IH _ _ _ f' H2). lia.
Qed.

Lemma dump_app f : forall h ext v t,
  dump f h v = Ok t -> dump f (h ++ ext) v = Ok t.
Proof.
  induction f as [|f IH]; intros h ext v t H.
  - destruct v; exact H.
  - destruct v; try exact H.
    destruct (dump_ref_inv _ _ _ _ H) as (_ & _ & [[d Hl]|[vs Hl]]).
    + destruct (proj1 (dump_dict _ _ _ _ _ Hl) H) as (kvs & Ht & Hk); subst t; clear H; rename Hk into H.
      apply (dump_dict _ (h ++ ext) _ d); [now apply lookup_app_l_Some|].
      exists kvs. split; [reflexivity|].
      eapply Forall2_impl; [exact H|]. intros kv kt [H1 H2]. split; [exact H1|].
      now apply IH.
    + destruct (proj1 (dump_list _ _ _ _ _ Hl) H) as (ts & Ht & Hk); subst t; clear H; rename Hk into H.
      apply (dump_list _ (h ++ ext) _ vs).
      { destruct Hl as [Hl|Hl]; [left|right]; now apply lookup_app_l_Some. }
      exists ts. split; [reflexivity|].
      eapply Forall2_impl; [exact H|]. intros v t H2. now apply IH.
Qed.

Lemma dump_det f f' h v t t' :
  dump f h v = Ok t -> dump f' h v = Ok t' -> t = t'.
Proof.
  intros H H'.
  apply (dump_fuel _ _ _ _ (Nat.max f f')) in H; [|lia].
  apply (dump_fuel _ _ _ _ (Nat.max f f')) in H'; [|lia]. congruence.
Qed.

Lemma Forall2_in_r {A B} (P : A -> B -> Prop) xs ys y :
  Forall2 P xs ys -> In y ys -> exists x, In x xs /\ P x y.
Proof.
  induction 1 as [|x y' xs ys Hx _ IH]; [easy|]. intros [<-|Hin].
  - exists x. split; [now left|exact Hx].
  - destruct (IH Hin) as (x' & H1 & H2). exists x'. split; [now right|exact H2].
Qed.

Lemma Forall2_in_l {A B} (P : A -> B -> Prop) xs ys x :
  Forall2 P xs ys -> In x xs -> exists y, In y ys /\ P x y.
Proof.
  induction 1 as [|x' y xs ys Hx _ IH]; [easy|]. intros [<-|Hin].
  - exists y. split; [now left|exact Hx].
  - destruct (IH Hin) as (y' & H1 & H2). exists y'. split; [now right|exact H2].
Qed.

(** What was written is a JSON document, without a repeated key. *)
Lemma dump_is_json f : forall h v t, dump f h v = Ok t -> is_json t = true.
Proof.
  induction f as [|f IH]; intros h v t H.
  - destruct v; try (injection H as <-; reflexivity). discriminate.
  - destruct v; try (injection H as <-; reflexivity).
    destruct (dump_ref_inv _ _ _ _ H) as (_ & _ & [[d Hl]|[vs Hl]]).
    + destruct (proj1 (dump_dict _ _ _ _ _ Hl) H) as (kvs & Ht & Hk); subst t; clear H; rename Hk into H. cbn [is_json].
      apply forallb_forall. intros kt Hin.
      destruct (Forall2_in_r _ _ _ _ H Hin) as (kv & _ & _ & H2). now apply (IH h (snd kv)).
    + destruct (proj1 (dump_list _ _ _ _ _ Hl) H) as (ts & Ht & Hk); subst t; clear H; rename Hk into H. cbn [is_json].
      apply forallb_forall. intros t Hin.
      destruct (Forall2_in_r _ _ _ _ H Hin) as (v & _ & H2). now apply (IH h v).
Qed.

Lemma Forall2_keys (P : value -> tree -> Prop) (d : dict) (kvs : list (string * tree)) :
  Forall2 (fun kv kt => fst kt = fst kv /\ P (snd kv) (snd kt)) d kvs ->
  map fst kvs = map fst d.
Proof. induction 1 as [|kv kt d kvs [H1 _] _ IH]; cbn; [reflexivity|]. now f_equal. Qed.

Lemma dump_distinct_keys f : forall h v t,
  keys_once h -> dump f h v = Ok t -> distinct_keys t = true.
Proof.
  induction f as [|f IH]; intros h v t Hh H.
  - destruct v; try (injection H as <-; reflexivity). discriminate.
  - destruct v; try (injection H as <-; reflexivity).
    destruct (dump_ref_inv _ _ _ _ H) as (_ & _ & [[d Hl]|[vs Hl]]).
    + destruct (proj1 (dump_dict _ _ _ _ _ Hl) H) as (kvs & -> & Hk).
      cbn [distinct_keys]. apply andb_true_iff. split.
      * apply bool_decide_eq_true. rewrite (Forall2_keys (fun v t => dump f h v = Ok t) _ _ Hk). now apply (Hh l).
      * apply forallb_forall. intros kt Hin.
        destruct (Forall2_in_r _ _ _ _ Hk Hin) as (kv & _ & _ & H2).
        now apply (IH h (snd kv)).
    + destruct (proj1 (dump_list _ _ _ _ _ Hl) H) as (ts & -> & Hk).
      cbn [distinct_keys]. apply forallb_forall. intros t Hin.
      destruct (Forall2_in_r _ _ _ _ Hk Hin) as (v & _ & H2). now apply (IH h v).
Qed.

(** [dict(pairs)] of pairs with distinct keys is the pairs. *)
Lemma dict_set_fresh k v d :
  ~ In k (map fst d) -> dict_set k v d = d ++ [(k, v)].
Proof.
  induction d as [|[k' v'] d IH]; cbn; [reflexivity|]. intros Hk.
  destruct (String.eqb_spec k k') as [->|Hne]; [tauto|].
  f_equal. apply IH. tauto.
Qed.

Lemma dict_update_distinct other : forall d,
  NoDup (map fst (d ++ other)) -> dict_update d other = d ++ other.
Proof.
  unfold dict_update. induction other as [|[k v] other IH]; intros d Hd; cbn.
  - now rewrite app_nil_r.
  - rewrite dict_set_fresh.
    + rewrite IH; rewrite <- app_assoc; [reflexivity|exact Hd].
    + rewrite map_app in Hd. cbn in Hd. apply NoDup_app in Hd as (_ & Hd & _).
      intros Hin. apply (Hd k); [now apply list_elem_of_In|left].
Qed.

(** [json.load] of a document builds a value that [json.dump] writes as
    the same document. *)
Definition reads_back (t : tree) : Prop :=
  forall h, exists v ext,
    build t h = (Ok v, h ++ ext)
    /\ forall ext', dump (length ext) ((h ++ ext) ++ ext') v = Ok t.

Lemma build_seq_dump ts :
  Forall reads_back ts ->
  forall h, exists vs ext,
    build_seq build ts h = (Ok vs, h ++ ext)
    /\ forall ext', Forall2 (fun v t => dump (length ext) ((h ++ ext) ++ ext') v = Ok t)
                            vs ts.
Proof.
  induction 1 as [|t ts Ht _ IH]; intros h.
  - exists [], []. rewrite app_nil_r. split; [reflexivity|]. constructor.
  - destruct (Ht h) as (v & e1 & Hv & Hdv).
    destruct (IH (h ++ e1)) as (vs & e2 & Hvs & Hdvs).
    exists (v :: vs), (e1 ++ e2). split.
    + cbn [build_seq]. erewrite bind_ok by exact Hv.
      fold (build_seq build). erewrite bind_ok by exact Hvs.
      now rewrite app_assoc.
    + intros ext'. rewrite length_app. constructor.
      * apply (dump_fuel (length e1)); [|lia].
        specialize (Hdv (e2 ++ ext')). now rewrite !app_assoc in *.
      * eapply Forall2_impl; [apply (Hdvs ext')|]. intros v' t' H'.
        apply (dump_fuel (length e2)); [|lia]. now rewrite !app_assoc in *.
Qed.

Lemma build_items_dump kvs :
  Forall (fun kv => reads_back (snd kv)) kvs ->
  forall h, exists d ext,
    build_items build kvs h = (Ok d, h ++ ext)
    /\ forall ext',
         Forall2 (fun kv kt => fst kt = fst kv
                               /\ dump (length ext) ((h ++ ext) ++ ext') (snd kv)
                                  = Ok (snd kt))
                 d kvs.
Proof.
  induction 1 as [|kt kvs Ht _ IH]; intros h.
  - exists [], []. rewrite app_nil_r. split; [reflexivity|]. constructor.
  - destruct (Ht h) as (v & e1 & Hv & Hdv).
    destruct (IH (h ++ e1)) as (d & e2 & Hd & Hdd).
    exists ((fst kt, v) :: d), (e1 ++ e2). split.
    + cbn [build_items]. erewrite bind_ok by exact Hv.
      fold (build_items build). erewrite bind_ok by exact Hd.
      now rewrite app_assoc.
    + intros ext'. rewrite length_app. constructor.
      * split; [reflexivity|]. cbn [snd]. apply (dump_fuel (length e1)); [|lia].
        specialize (Hdv (e2 ++ ext')). now rewrite !app_assoc in *.
      * eapply Forall2_impl; [apply (Hdd ext')|]. intros kv' kt' [H1 H2].
        split; [exact H1|].
        apply (dump_fuel (length e2)); [|lia]. now rewrite !app_assoc in *.
Qed.

Lemma forallb_Forall_impl {A} (p : A -> bool) (P : A -> Prop) xs :
  Forall (fun x => p x = true -> P x) xs -> forallb p xs = true -> Forall P xs.
Proof.
  induction 1 as [|x xs Hx _ IH]; cbn; [constructor|].
  intros [H1 H2]%andb_true_iff. constructor; auto.
Qed.

Lemma build_dump t : is_json t = true -> distinct_keys t = true -> reads_back t.
Proof.
  induction t as [| | | | |ts IH|ts IH|kvs IH] using tree_induction; intros Hj Hk;
    try (intros h; eexists _, []; rewrite app_nil_r; split; [reflexivity|];
         intros ext'; reflexivity).
  - assert (Hts : Forall reads_back ts).
    { cbn [is_json distinct_keys] in Hj, Hk.
      apply (forallb_Forall_impl distinct_keys); [|exact Hk].
      apply (forallb_Forall_impl is_json); [|exact Hj].
      eapply List.Forall_impl; [|exact IH]. auto. }
    intros h. destruct (build_seq_dump ts Hts h) as (vs & ext & Hvs & Hd).
    exists (VRef (length (h ++ ext))), (ext ++ [OList vs]). split.
    + cbn [build]. erewrite bind_ok by exact Hvs. unfold alloc. now rewrite app_assoc.
    + intros ext'. rewrite length_app, Nat.add_1_r.
      apply (dump_list _ _ _ vs).
      * left. rewrite app_assoc, <- app_assoc. apply list_lookup_middle. reflexivity.
      * exists ts. split; [reflexivity|].
        specialize (Hd ([OList vs] ++ ext')). now rewrite !app_assoc in *.
  - discriminate.
  - cbn [is_json distinct_keys] in Hj, Hk. apply andb_true_iff in Hk as [Hnd Hk].
    apply bool_decide_eq_true in Hnd.
    assert (Hts : Forall (fun kv => reads_back (snd kv)) kvs).
    { apply (forallb_Forall_impl (fun kv => distinct_keys (snd kv))); [|exact Hk].
      apply (forallb_Forall_impl (fun kv => is_json (snd kv))); [|exact Hj].
      eapply List.Forall_impl; [|exact IH]. auto. }
    intros h. destruct (build_items_dump kvs Hts h) as (d & ext & Hd & Hdd).
    assert (Hkeys : map fst kvs = map fst d).
    { apply (Forall2_keys (fun v t => dump (length ext) ((h ++ ext) ++ []) v = Ok t)).
      apply Hdd. }
    assert (Hupd : dict_update [] d = d).
    { apply (dict_update_distinct d []). cbn. now rewrite <- Hkeys. }
    exists (VRef (length (h ++ ext))), (ext ++ [ODict d]). split.
    + cbn [build]. erewrite bind_ok by exact Hd. unfold alloc.
      now rewrite Hupd, app_assoc.
    + intros ext'. rewrite length_app, Nat.add_1_r.
      apply (dump_dict _ _ _ d).
      * rewrite app_assoc, <- app_assoc. apply list_lookup_middle. reflexivity.
      * exists kvs. split; [reflexivity|].
        specialize (Hdd ([ODict d] ++ ext')). now rewrite !app_assoc in *.
Qed.

(** A part of a document has fewer nodes than the document. *)
Lemma nodes_in_list t ts : In t ts -> (nodes t < S (list_sum (map nodes ts)))%nat.
Proof.
  induction ts as [|t' ts IH]; [easy|].
  change (list_sum (map nodes (t' :: ts))) with (nodes t' + list_sum (map nodes ts))%nat.
  intros [->|Hin]; [lia|]. specialize (IH Hin). lia.
Qed.

Lemma nodes_in_dict (kt : string * tree) kvs :
  In kt kvs -> (nodes (snd kt) < S (list_sum (map (fun kv => nodes (snd kv)) kvs)))%nat.
Proof.
  induction kvs as [|kt' kvs IH]; [easy|].
  change (list_sum (map (fun kv => nodes (snd kv)) (kt' :: kvs)))
    with (nodes (snd kt') + list_sum (map (fun kv => nodes (snd kv)) kvs))%nat.
  intros [->|Hin]; [lia|]. specialize (IH Hin). lia.
Qed.

(** Writing [v] does not read an object whose own document is larger
    than the one of [v]. *)
Lemma dump_elsewhere f : forall (h : heap) v t l o F T,
  dump F h (VRef l) = Ok T -> dump f h v = Ok t -> (nodes t < nodes T)%nat ->
  dump f (<[l := o]> h) v = Ok t.
Proof.
  induction f as [|f IH]; intros h v t l o F T HT H Hlt.
  - destruct v; exact H.
  - destruct v as [ | | | | |l0]; try exact H.
    destruct (decide (l0 = l)) as [->|Hne].
    { rewrite (dump_det _ _ _ _ _ _ H HT) in Hlt. lia. }
    assert (Hsame : forall x, h !! l0 = Some x -> <[l := o]> h !! l0 = Some x).
    { intros x Hx. rewrite list_lookup_insert_ne; [exact Hx|congruence]. }
    destruct (dump_ref_inv _ _ _ _ H) as (_ & _ & [[d Hl]|[vs Hl]]).
    + destruct (proj1 (dump_dict _ _ _ _ _ Hl) H) as (kvs & -> & Hk).
      apply (dump_dict _ _ _ d); [now apply Hsame|].
      exists kvs. split; [reflexivity|].
      apply Forall2_same_length_lookup_2; [now apply Forall2_length in Hk|].
      intros i kv kt Hkv Hkt.
      destruct (Forall2_lookup_lr _ _ _ _ _ _ Hk Hkv Hkt) as [H1 H2].
      split; [exact H1|]. apply (IH _ _ _ _ _ F T HT H2).
      assert (Hin : In kt kvs) by (apply list_elem_of_In; eapply list_elem_of_lookup_2, Hkt).
      pose proof (nodes_in_dict kt kvs Hin) as Hs. cbn [nodes] in Hlt. lia.
    + destruct (proj1 (dump_list _ _ _ _ _ Hl) H) as (ts & -> & Hk).
      apply (dump_list _ _ _ vs).
      { destruct Hl as [Hl|Hl]; [left|right]; now apply Hsame. }
      exists ts. split; [reflexivity|].
      apply Forall2_same_length_lookup_2; [now apply Forall2_length in Hk|].
      intros i v' t' Hv' Ht'.
      pose proof (Forall2_lookup_lr _ _ _ _ _ _ Hk Hv' Ht') as H2.
      apply (IH _ _ _ _ _ F T HT H2).
      assert (Hin : In t' ts) by (apply list_elem_of_In; eapply list_elem_of_lookup_2, Ht').
      pose proof (nodes_in_list t' ts Hin) as Hs. cbn [nodes] in Hlt. lia.
Qed.

(** The entries of a written dictionary. *)
Lemma Forall2_entry (P : value -> tree -> Prop) (d : dict) kvs k :
  Forall2 (fun kv kt => fst kt = fst kv /\ P (snd kv) (snd kt)) d kvs ->
  match dict_get k d, entry k kvs with
  | Some v, Some t => P v t
  | None, None => True
  | _, _ => False
  end.
Proof.
  induction 1 as [|[k1 v] [k2 t] d kvs [H1 H2] _ IH]; cbn in *; [trivial|].
  subst k2. now destruct (String.eqb k k1).
Qed.

Lemma entry_in k kvs t : entry k kvs = Some t -> In (k, t) kvs.
Proof.
  induction kvs as [|[k' t'] kvs IH]; cbn; [discriminate|].
  destruct (String.eqb_spec k k') as [->|Hne].
  - intros [= ->]. now left.
  - intros H. right. now apply IH.
Qed.

(** A record of the ['files'] of a written case is written inside it. *)
Lemma dump_files_inside F h l d lf fs v T :
  dump F h (VRef l) = Ok T ->
  h !! l = Some (ODict d) ->
  dict_get "files" d = Some (VRef lf) ->
  h !! lf = Some (OList fs) ->
  In v fs ->
  exists f t, dump f h v = Ok t /\ (nodes t < nodes T)%nat.
Proof.
  intros HT Hl Hfiles Hlf Hv.
  destruct (dump_ref_inv _ _ _ _ HT) as (f1 & -> & _).
  destruct (proj1 (dump_dict _ _ _ _ _ Hl) HT) as (kvs & -> & Hk).
  pose proof (Forall2_entry (fun v t => dump f1 h v = Ok t) d kvs "files" Hk) as He.
  rewrite Hfiles in He. destruct (entry "files" kvs) as [tf|] eqn:Etf; [|easy].
  destruct (dump_ref_inv _ _ _ _ He) as (f2 & -> & _).
  destruct (proj1 (dump_list _ _ _ _ _ (or_introl Hlf)) He) as (ts & -> & Hts).
  destruct (Forall2_in_l _ _ _ _ Hts Hv) as (t & Hin & Ht).
  exists f2, t. split; [exact Ht|].
  pose proof (nodes_in_list t ts Hin) as H1.
  pose proof (nodes_in_dict _ _ (entry_in _ _ _ Etf)) as H2.
  cbn [nodes snd] in *. lia.
Qed.

(** *** What the loop of [save_current_case] touches *)

Lemma strip_array_step f h r h' :
  strip_array f h = (r, h') ->
  h' = h \/ exists l d, f = VRef l /\ h !! l = Some (ODict d)
                        /\ h' = <[l := ODict (dict_del "array" d)]> h.
Proof.
  unfold strip_array, bind, contains, delitem, object_of.
  destruct f as [ | | | |s|l]; cbn; try (intros [= _ <-]; now left).
  - destruct (PyStr.contains "array" s); cbn; intros [= _ <-]; now left.
  - destruct (h !! l) as [[d|vs|vs| ]|] eqn:El; cbn;
      try (destruct (existsb _ vs); cbn; rewrite ?El);
      try (intros [= _ <-]; now left).
    destruct (dict_has "array" d) eqn:Eh; cbn; rewrite ?El, ?Eh;
      intros [= _ <-]; [right; now exists l, d|now left].
Qed.

Lemma dict_set_keys k v d x :
  In x (map fst (dict_set k v d)) -> x = k \/ In x (map fst d).
Proof.
  induction d as [|[k' v'] d IH]; cbn.
  - intros [<-|[]]. now left.
  - destruct (String.eqb_spec k k') as [->|Hne]; cbn.
    + intros [<-|H]; [now left|right; now right].
    + intros [<-|H]; [right; now left|]. destruct (IH H); [now left|right; now right].
Qed.

Lemma dict_set_keys_once k v d : NoDup (map fst d) -> NoDup (map fst (dict_set k v d)).
Proof.
  induction d as [|[k' v'] d IH]; cbn.
  - intros _. apply NoDup_singleton.
  - intros [Hk' Hd]%NoDup_cons.
    destruct (String.eqb_spec k k') as [->|Hne]; cbn.
    + now apply NoDup_cons.
    + apply NoDup_cons. split; [|now apply IH].
      intros Hin%list_elem_of_In%dict_set_keys. destruct Hin as [->|Hin]; [easy|].
      now apply Hk', list_elem_of_In.
Qed.

Lemma dict_del_keys_once k d : NoDup (map fst d) -> NoDup (map fst (dict_del k d)).
Proof.
  unfold dict_del. induction d as [|[k' v'] d IH]; cbn; [trivial|].
  intros [Hk' Hd]%NoDup_cons.
  destruct (negb (String.eqb k k')); cbn; [|now apply IH].
  apply NoDup_cons. split; [|now apply IH].
  intros Hin%list_elem_of_In. apply Hk', list_elem_of_In.
  apply in_map_iff in Hin as (kv & <- & Hkv). apply in_map.
  now apply List.filter_In in Hkv as [Hkv _].
Qed.

Lemma keys_once_insert (h : heap) l d :
  keys_once h -> NoDup (map fst d) -> keys_once (<[l := ODict d]> h).
Proof.
  intros Hh Hd l' d' H.
  apply list_lookup_insert_Some in H as [(_ & [= <-] & _)|[_ H]]; [exact Hd|].
  now apply (Hh l').
Qed.

Lemma keys_once_alloc (h : heap) d :
  keys_once h -> NoDup (map fst d) -> keys_once (h ++ [ODict d]).
Proof.
  intros Hh Hd l' d' H.
  apply lookup_app_Some in H as [H|[_ H]]; [now apply (Hh l')|].
  destruct (l' - length h)%nat; [|destruct n; discriminate].
  now injection H as <-.
Qed.

Lemma keys_once_forallb (h : heap) :
  forallb (fun o => match o with
                    | ODict d => bool_decide (NoDup (map fst d))
                    | _ => true
                    end) h = true ->
  keys_once h.
Proof.
  intros H l d Hl. rewrite forallb_forall in H.
  assert (Hin : In (ODict d) h) by (apply list_elem_of_In; eapply list_elem_of_lookup_2, Hl).
  apply H in Hin. now apply bool_decide_eq_true in Hin.
Qed.

Lemma strip_loop_steps fs : forall h r h',
  for_each fs strip_array h = (r, h') ->
  (forall l, ~ In (VRef l) fs -> h' !! l = h !! l)
  /\ (keys_once h -> keys_once h').
Proof.
  induction fs as [|f fs IH]; intros h r h' H.
  - injection H as _ <-. now split.
  - cbn [for_each] in H. unfold bind in H.
    destruct (strip_array f h) as [[[]|e] h1] eqn:E.
    + destruct (IH _ _ _ H) as [IH1 IH2].
      apply strip_array_step in E as [->|(l0 & d & -> & Hl0 & ->)].
      * split; [|exact IH2]. intros l Hl. apply IH1. intros Hin. apply Hl. now right.
      * split.
        -- intros l Hl. rewrite IH1 by (intros Hin; apply Hl; now right).
           apply list_lookup_insert_ne. intros ->. apply Hl. now left.
        -- intros Hh. apply IH2. apply keys_once_insert; [exact Hh|].
           apply dict_del_keys_once. now apply (Hh l0).
    + injection H as _ <-.
      apply strip_array_step in E as [->|(l0 & d & -> & Hl0 & ->)]; [now split|].
      split.
      * intros l Hl. apply list_lookup_insert_ne. intros ->. apply Hl. now left.
      * intros Hh. apply keys_once_insert; [exact Hh|].
        apply dict_del_keys_once. now apply (Hh l0).
Qed.

(** *** [load_case_from_file] on a document *)

Lemma dump_TDict_inv f h v kvs :
  dump f h v = Ok (TDict kvs) ->
  exists l f' d, v = VRef l /\ f = S f' /\ h !! l = Some (ODict d)
    /\ Forall2 (fun kv kt => fst kt = fst kv /\ dump f' h (snd kv) = Ok (snd kt)) d kvs.
Proof.
  intros H. destruct v as [ | | | | |l];
    try (rewrite (dump_immediate f 0) in H by easy; discriminate).
  destruct (dump_ref_inv _ _ _ _ H) as (f' & -> & [[d Hl]|[vs Hl]]).
  - destruct (proj1 (dump_dict _ _ _ _ _ Hl) H) as (kvs' & [= <-] & Hk).
    now exists l, f', d.
  - destruct (proj1 (dump_list _ _ _ _ _ Hl) H) as (ts & [=] & _).
Qed.

Lemma all_in_dict keys h l d :
  h !! l = Some (ODict d) ->
  Forall (fun k => dict_has k d = true) keys ->
  all_in keys (VRef l) h = (Ok true, h).
Proof.
  intros Hl. induction 1 as [|k keys Hk _ IH]; [reflexivity|].
  cbn [all_in]. erewrite bind_ok by (apply contains_dict, Hl). now rewrite Hk.
Qed.

(** A document that has the four keys is loaded as a new current case,
    and the case is the document: [json.dump] would write it back. *)
Lemma load_case_from_file_document p w kvs :
  disk w !! p = Some (Document (TDict kvs)) ->
  is_json (TDict kvs) = true ->
  distinct_keys (TDict kvs) = true ->
  Forall (fun k => entry k kvs <> None) ["id"; "name"; "files"; "metadata"] ->
  exists l d ext,
    load_case_from_file p w
    = (Ok (VRef l),
       {| objects := objects w ++ ext;
          cases := cases w ++ [VRef l];
          current_case_index := Z.of_nat (length (cases w ++ [VRef l])) - 1;
          disk := disk w |})
    /\ (objects w ++ ext) !! l = Some (ODict d)
    /\ Forall2 (fun kv kt => fst kt = fst kv
                             /\ dump (length ext) (objects w ++ ext) (snd kv) = Ok (snd kt))
               d kvs.
Proof.
  intros Hdisk Hj Hk Hkeys.
  destruct (build_dump (TDict kvs) Hj Hk (objects w)) as (v & ext & Hb & Hd).
  specialize (Hd []). rewrite app_nil_r in Hd.
  destruct (dump_TDict_inv _ _ _ _ Hd) as (l & f' & d & -> & Hf & Hl & Hent).
  exists l, d, ext. split; [|split; [exact Hl|]].
  - unfold load_case_from_file, try_except.
    assert (S1 : json_load p w = (Ok (VRef l), with_objects (objects w ++ ext) w)).
    { unfold json_load. rewrite Hdisk, Hj. now apply on_heap_run. }
    assert (S2 : on_heap (all_in ["id"; "name"; "files"; "metadata"] (VRef l))
                   (with_objects (objects w ++ ext) w)
                 = (Ok true, with_objects (objects w ++ ext) w)).
    { apply on_heap_again. apply (all_in_dict _ _ _ d Hl).
      eapply List.Forall_impl; [|exact Hkeys]. intros k Hne. unfold dict_has.
      pose proof (Forall2_entry (fun v t => dump f' (objects w ++ ext) v = Ok t)
                    d kvs k Hent) as He.
      cbv beta in Hne. destruct (dict_get k d); [reflexivity|].
      destruct (entry k kvs); [destruct He|now destruct Hne]. }
    erewrite bind_ok by exact S1. erewrite bind_ok by exact S2. reflexivity.
  - eapply Forall2_impl; [exact Hent|]. intros kv kt [H1 H2]. split; [exact H1|].
    apply (dump_fuel f'); [exact H2|lia].
Qed.

(** *** Values that cannot be written *)

(** [json.dump] raises on [v], whatever the nesting it accepts. *)
Definition never_dumps (h : heap) (v : value) : Prop :=
  forall f, exists e, dump f h v = Raise e.

Lemma map_result_raise {A B} (f : A -> result B) xs x :
  In x xs -> (exists e, f x = Raise e) -> exists e, map_result f xs = Raise e.
Proof.
  intros Hin [e He]. induction xs as [|x0 xs IH]; [easy|]. cbn.
  destruct (f x0) as [y|e0] eqn:E0; [|now exists e0].
  destruct Hin as [->|Hin]; [congruence|].
  destruct (IH Hin) as [e1 ->]. now exists e1.
Qed.

Lemma never_dumps_array (h : heap) l : h !! l = Some OArray -> never_dumps h (VRef l).
Proof. intros Hl [|f]; cbn; [eauto|]. rewrite Hl. eauto. Qed.

Lemma never_dumps_entry (h : heap) l d k v :
  h !! l = Some (ODict d) -> dict_get k d = Some v ->
  never_dumps h v -> never_dumps h (VRef l).
Proof.
  intros Hl Hk Hv [|f]; cbn; [eauto|]. rewrite Hl.
  destruct (map_result_raise
              (fun kv => match dump f h (snd kv) with
                         | Ok t => Ok (fst kv, t)
                         | Raise e => Raise e
                         end) d (k, v)) as [e ->]; [|cbn|eauto].
  - now apply dict_get_in.
  - destruct (Hv f) as [e ->]. eauto.
Qed.

Section RoundTrip.

Variable can_open_for_writing : string -> bool.
Variable TEMP_DIR : string.
Variable py_str : heap -> value -> string.

(** A file record as the document has it: an object without ['array']. *)
Definition without_array (t : tree) : Prop :=
  exists kvs, t = TDict kvs /\ entry "array" kvs = None.

(** What [case[key]] reads as for a case written as the object [kvs]. *)
Definition read (kvs : list (string * tree)) (key : string) : result tree :=
  match entry key kvs with
  | Some t => Ok t
  | None => Raise KeyError
  end.

(** A save that returns [True], followed by a load of the same path: the
    document, the case that comes back, and the case that stayed. *)
Lemma save_then_load file_path p t w lc cd lf fs w1 :
  no_current_case (current_case_index w) (cases w) = false ->
  index_list (cases w) (current_case_index w) = Some (VRef lc) ->
  objects w !! lc = Some (ODict cd) ->
  dict_get "files" cd = Some (VRef lf) ->
  objects w !! lf = Some (OList fs) ->
  Forall (is_record (objects w)) fs ->
  fst (resolve_path TEMP_DIR py_str file_path (VRef lc) w) = Ok p ->
  keys_once (objects w) ->
  Forall (fun k => dict_has k cd = true) ["id"; "name"; "metadata"] ->
  save_current_case can_open_for_writing TEMP_DIR py_str file_path t w = (Ok true, w1) ->
  exists kvs case2 w2,
    disk w1 !! p = Some (Document (TDict kvs))
    /\ load_case_from_file p w1 = (Ok case2, w2)
    /\ cases w2 = cases w ++ [case2]
    /\ current_case_index w2 = Z.of_nat (length (cases w))
    /\ dump (length (objects w2)) (objects w2) case2 = Ok (TDict kvs)
    /\ (forall key, view w2 case2 key = read kvs key)
    /\ (forall key, key <> "has_changes" -> view w1 (VRef lc) key = read kvs key)
    /\ view w1 (VRef lc) "has_changes" = Ok (TBool false)
    /\ (forall b, dict_get "has_changes" cd = Some (VBool b) ->
                  entry "has_changes" kvs = Some (TBool b))
    /\ Forall (fun k => entry k kvs <> None) ["id"; "name"; "files"; "metadata"]
    /\ exists ts, entry "files" kvs = Some (TList ts) /\ Forall without_array ts.
Proof.
  intros Hcur Hcase Hlc Hfiles Hlf Hfs Hpath Hkeys Hhas Hsave.
  assert (Hopen : can_open_for_writing p = true).
  { destruct (can_open_for_writing p) eqn:E; [reflexivity|]. exfalso.
    revert Hsave. unfold save_current_case.
    erewrite bind_ok by reflexivity. erewrite bind_ok by reflexivity.
    rewrite Hcur. unfold case_at at 1. rewrite Hcase.
    erewrite bind_ok by reflexivity.
    erewrite bind_ok by (apply (resolve_path_run _ _ _ _ cd); [exact Hlc|exact Hpath]).
    unfold try_except.
    erewrite bind_ok by (apply on_heap_run, setitem_dict, Hlc).
    erewrite bind_raise; [discriminate|].
    unfold open_for_writing. rewrite E. reflexivity. }
  destruct (save_current_case_run can_open_for_writing TEMP_DIR py_str
              file_path p t w lc cd lf fs Hcur Hcase Hlc Hfiles Hlf Hfs Hpath Hopen)
    as (h3 & cd3 & Hloop & He3 & Hna3 & Hlc3 & Hrun).
  set (h := objects w) in *.
  set (cd1 := dict_set "modified_date" (VStr t) cd) in *.
  set (h1 := <[lc := ODict cd1]> h) in *.
  set (h2 := h1 ++ [ODict cd1]) in *.
  rewrite Hsave in Hrun.
  destruct (dump (length h3) h3 (VRef (length h))) as [doc|e] eqn:Hdump;
    [|discriminate].
  injection Hrun as ->.
  set (h4 := <[lc := ODict (dict_set "has_changes" (VBool false) cd3)]> h3) in *.
  (* the heap when json.dump is called *)
  assert (Hlt : (lc < length h)%nat) by now apply lookup_lt_Some in Hlc.
  assert (Hlen1 : length h1 = length h) by apply length_insert.
  assert (Hlc1 : h1 !! lc = Some (ODict cd1)) by now apply list_lookup_insert_eq.
  assert (Hlc2 : h2 !! lc = Some (ODict cd1)) by now apply lookup_alloc_old.
  assert (Hsd2 : h2 !! length h = Some (ODict cd1)).
  { unfold h2. rewrite <- Hlen1. apply lookup_alloc_new. }
  assert (Hfiles1 : dict_get "files" cd1 = Some (VRef lf)).
  { unfold cd1. now rewrite dict_get_set_ne. }
  assert (Hlf3 : h3 !! lf = Some (OList fs)).
  { apply (He3 lf (OList fs)). apply lookup_alloc_old.
    unfold h1. rewrite list_lookup_insert_ne; [exact Hlf|]. intros ->. congruence. }
  destruct (strip_loop_steps _ _ _ _ Hloop) as [Hframe Hkeys3].
  assert (Hnew : ~ In (VRef (length h)) fs).
  { intros Hin. rewrite List.Forall_forall in Hfs.
    destruct (Hfs _ Hin) as (l & d & [= <-] & Hl). apply lookup_lt_Some in Hl. lia. }
  assert (Hsd3 : h3 !! length h = Some (ODict cd1)) by now rewrite Hframe.
  assert (Hcd3f : dict_get "files" cd3 = Some (VRef lf)).
  { destruct (He3 lc _ Hlc2) as (cd3' & H1 & H2 & _).
    rewrite Hlc3 in H1. injection H1 as <-. now rewrite (H2 _ kept_files). }
  assert (Hself : ~ In (VRef lc) fs).
  { intros Hin.
    destruct (dump_files_inside _ _ _ _ _ _ _ _ Hdump Hsd3 Hfiles1 Hlf3 Hin)
      as (f1 & t1 & Ht1 & Hs1).
    destruct (dump_files_inside _ _ _ _ _ _ _ _ Ht1 Hlc3 Hcd3f Hlf3 Hin)
      as (f2 & t2 & Ht2 & Hs2).
    rewrite (dump_det _ _ _ _ _ _ Ht2 Ht1) in Hs2. lia. }
  assert (Hcd3 : cd3 = cd1).
  { rewrite Hframe in Hlc3 by exact Hself. congruence. }
  subst cd3.
  assert (Hkeys3' : keys_once h3).
  { apply Hkeys3. apply keys_once_alloc; [apply keys_once_insert|]; trivial;
      apply dict_set_keys_once; now apply (Hkeys lc). }
  (* the document *)
  assert (Hj : is_json doc = true) by apply (dump_is_json _ _ _ _ Hdump).
  assert (Hdk : distinct_keys doc = true) by apply (dump_distinct_keys _ _ _ _ Hkeys3' Hdump).
  destruct (dump_ref_inv _ _ _ _ Hdump) as (f3 & Hf3 & _).
  rewrite Hf3 in Hdump.
  destruct (proj1 (dump_dict _ _ _ _ _ Hsd3) Hdump) as (kvs & -> & Hent).
  assert (Hlive : dump (S f3) h3 (VRef lc) = Ok (TDict kvs)).
  { apply (dump_dict _ _ _ _ _ Hlc3). now exists kvs. }
  assert (Hlen4 : length h4 = length h3) by apply length_insert.
  assert (Hlc4 : h4 !! lc = Some (ODict (dict_set "has_changes" (VBool false) cd1))).
  { apply list_lookup_insert_eq. now apply lookup_lt_Some in Hlc3. }
  assert (Hwritten : forall key,
            match dict_get key cd1, entry key kvs with
            | Some v, Some tk => dump f3 h3 v = Ok tk
            | None, None => True
            | _, _ => False
            end).
  { intros key. apply (Forall2_entry (fun v t => dump f3 h3 v = Ok t) cd1 kvs key Hent). }
  (* loading it *)
  set (w1 := {| objects := h4; cases := cases w;
                current_case_index := current_case_index w;
                disk := <[p := Document (TDict kvs)]> (<[p := Truncated]> (disk w)) |}).
  assert (Hdisk : disk w1 !! p = Some (Document (TDict kvs))) by apply lookup_insert_eq.
  assert (Hfour : Forall (fun k => entry k kvs <> None) ["id"; "name"; "files"; "metadata"]).
  { assert (Hin : forall k, dict_has k cd = true -> entry k kvs <> None).
    { intros k Hk. specialize (Hwritten k).
      assert (Hk1 : dict_has k cd1 = true).
      { unfold dict_has, cd1 in *. destruct (String.eqb_spec "modified_date" k) as [<-|Hne].
        - now rewrite dict_get_set_eq.
        - rewrite dict_get_set_ne by congruence. exact Hk. }
      unfold dict_has in Hk1. destruct (dict_get k cd1); [|discriminate].
      now destruct (entry k kvs). }
    inversion Hhas as [|? ? Hid Hhas1]; subst.
    inversion Hhas1 as [|? ? Hname Hhas2]; subst.
    inversion Hhas2 as [|? ? Hmeta _]; subst.
    repeat constructor; apply Hin; trivial.
    unfold dict_has. now rewrite Hfiles. }
  destruct (load_case_from_file_document p w1 kvs Hdisk Hj Hdk Hfour)
    as (l2 & d2 & ext & Hload & Hl2 & Hent2).
  cbn [objects cases w1] in Hload, Hl2, Hent2.
  eexists kvs, (VRef l2), _.
  split; [exact Hdisk|]. split; [exact Hload|]. cbn [cases current_case_index objects].
  split; [reflexivity|]. split; [rewrite length_app; cbn; lia|].
  split; [|split; [|split; [|split; [|split; [|split; [exact Hfour|]]]]]].
  - apply (dump_fuel (S (length ext))).
    + apply (dump_dict _ _ _ _ _ Hl2). now exists kvs.
    + apply lookup_lt_Some in Hlc3. rewrite length_app. lia.
  - intros key. unfold view, read, getitem. cbn [objects object_of]. rewrite Hl2.
    pose proof (Forall2_entry (fun v t => dump (length ext) (h4 ++ ext) v = Ok t)
                  d2 kvs key Hent2) as He.
    destruct (dict_get key d2) as [v|], (entry key kvs) as [tk|]; try easy.
    apply (dump_fuel (length ext)); [exact He|]. rewrite length_app. lia.
  - intros key Hkey. specialize (Hwritten key).
    unfold view, read, getitem. cbn [objects object_of w1]. rewrite Hlc4.
    rewrite dict_get_set_ne by congruence.
    destruct (dict_get key cd1) as [v|], (entry key kvs) as [tk|] eqn:Et; try easy.
    apply (dump_fuel f3); [|lia].
    apply (dump_elsewhere _ _ _ _ _ _ (S f3) (TDict kvs) Hlive Hwritten).
    pose proof (nodes_in_dict _ _ (entry_in _ _ _ Et)) as Hs. cbn [nodes snd] in *. lia.
  - unfold view, getitem. cbn [objects object_of w1].
    rewrite Hlc4, dict_get_set_eq. now destruct (length h4).
  - intros b Hb. specialize (Hwritten "has_changes").
    unfold cd1 in Hwritten. rewrite dict_get_set_ne, Hb in Hwritten by discriminate.
    destruct (entry "has_changes" kvs) as [tk|]; [|easy].
    rewrite (dump_immediate f3 0) in Hwritten by easy. now injection Hwritten as <-.
  - specialize (Hwritten "files"). rewrite Hfiles1 in Hwritten.
    destruct (entry "files" kvs) as [tf|]; [|easy].
    destruct (dump_ref_inv _ _ _ _ Hwritten) as (f4 & -> & _).
    destruct (proj1 (dump_list _ _ _ _ _ (or_introl Hlf3)) Hwritten) as (ts & -> & Hts).
    exists ts. split; [reflexivity|].
    apply List.Forall_forall. intros ti Hti.
    destruct (Forall2_in_r _ _ _ _ Hts Hti) as (fi & Hfi & Hdi).
    rewrite List.Forall_forall in Hna3.
    destruct (Hna3 _ Hfi) as (li & di & -> & Hli & Hai).
    destruct (dump_ref_inv _ _ _ _ Hdi) as (f5 & -> & _).
    destruct (proj1 (dump_dict _ _ _ _ _ Hli) Hdi) as (kvi & -> & Hki).
    exists kvi. split; [reflexivity|].
    pose proof (Forall2_entry (fun v t => dump f5 h3 v = Ok t) di kvi "array" Hki) as Ha.
    rewrite Hai in Ha. now destruct (entry "array" kvi).
Qed.

(** When [save_current_case] returns [True], [load_case_from_file] on the
    same path returns a new current case whose ['id'], ['name'], ['files']
    and ['metadata'], and every other key but ['has_changes'], read as
    those of the case that was saved; no file record of it has an
    ['array']. *)
Theorem saved_case_is_reloaded file_path p t w lc cd lf fs w1 :
  no_current_case (current_case_index w) (cases w) = false ->
  index_list (cases w) (current_case_index w) = Some (VRef lc) ->
  objects w !! lc = Some (ODict cd) ->
  dict_get "files" cd = Some (VRef lf) ->
  objects w !! lf = Some (OList fs) ->
  Forall (is_record (objects w)) fs ->
  fst (resolve_path TEMP_DIR py_str file_path (VRef lc) w) = Ok p ->
  keys_once (objects w) ->
  Forall (fun k => dict_has k cd = true) ["id"; "name"; "metadata"] ->
  save_current_case can_open_for_writing TEMP_DIR py_str file_path t w = (Ok true, w1) ->
  exists doc case2 w2,
    disk w1 !! p = Some (Document doc)
    /\ load_case_from_file p w1 = (Ok case2, w2)
    /\ cases w2 = cases w ++ [case2]
    /\ current_case_index w2 = Z.of_nat (length (cases w))
    /\ dump (length (objects w2)) (objects w2) case2 = Ok doc
    /\ (forall key, key <> "has_changes" ->
                    view w2 case2 key = view w1 (VRef lc) key)
    /\ Forall (fun key => exists t, view w1 (VRef lc) key = Ok t)
              ["id"; "name"; "files"; "metadata"]
    /\ exists ts, view w2 case2 "files" = Ok (TList ts) /\ Forall without_array ts.
Proof.
  intros Hcur Hcase Hlc Hfiles Hlf Hfs Hpath Hkeys Hhas Hsave.
  destruct (save_then_load file_path p t w lc cd lf fs w1
              Hcur Hcase Hlc Hfiles Hlf Hfs Hpath Hkeys Hhas Hsave)
    as (kvs & case2 & w2 & Hdisk & Hload & Hcases & Hindex & Hdump & Hnew & Hold
        & _ & _ & Hfour & ts & Hts & Hna).
  exists (TDict kvs), case2, w2. repeat (split; [assumption|]).
  split; [|split].
  - intros key Hkey. now rewrite Hnew, Hold.
  - assert (Hone : forall key, entry key kvs <> None -> key <> "has_changes" ->
                             exists tk, view w1 (VRef lc) key = Ok tk).
    { intros key Hkey Hne. rewrite (Hold key Hne). unfold read.
      destruct (entry key kvs) as [tk|]; [now exists tk|easy]. }
    inversion Hfour as [|? ? Hid Hf1]; subst.
    inversion Hf1 as [|? ? Hname Hf2]; subst.
    inversion Hf2 as [|? ? Hfi Hf4]; subst.
    inversion Hf4 as [|? ? Hmeta _]; subst.
    repeat constructor; apply Hone; trivial; discriminate.
  - exists ts. split; [|exact Hna]. rewrite Hnew. unfold read. now rewrite Hts.
Qed.

(** The document of a successful save carries ['has_changes'] as it was
    before the save, which then sets it to [False] in memory only: a case
    saved with unsaved changes comes back with ['has_changes'] still
    [True]. *)
Theorem saved_document_keeps_has_changes file_path p t w lc cd lf fs w1 b :
  no_current_case (current_case_index w) (cases w) = false ->
  index_list (cases w) (current_case_index w) = Some (VRef lc) ->
  objects w !! lc = Some (ODict cd) ->
  dict_get "files" cd = Some (VRef lf) ->
  objects w !! lf = Some (OList fs) ->
  Forall (is_record (objects w)) fs ->
  fst (resolve_path TEMP_DIR py_str file_path (VRef lc) w) = Ok p ->
  keys_once (objects w) ->
  Forall (fun k => dict_has k cd = true) ["id"; "name"; "metadata"] ->
  dict_get "has_changes" cd = Some (VBool b) ->
  save_current_case can_open_for_writing TEMP_DIR py_str file_path t w = (Ok true, w1) ->
  view w1 (VRef lc) "has_changes" = Ok (TBool false)
  /\ exists case2 w2,
       load_case_from_file p w1 = (Ok case2, w2)
       /\ view w2 case2 "has_changes" = Ok (TBool b).
Proof.
  intros Hcur Hcase Hlc Hfiles Hlf Hfs Hpath Hkeys Hhas Hb Hsave.
  destruct (save_then_load file_path p t w lc cd lf fs w1
              Hcur Hcase Hlc Hfiles Hlf Hfs Hpath Hkeys Hhas Hsave)
    as (kvs & case2 & w2 & _ & Hload & _ & _ & _ & Hnew & _ & Hlive & Hflag & _).
  split; [exact Hlive|]. exists case2, w2. split; [exact Hload|].
  rewrite Hnew. unfold read. now rewrite (Hflag b Hb).
Qed.

(** C6 fails on every case that carries prediction results as
    [_process_results] makes them, with an ndarray under ['segmentation']:
    only the ['array'] of the file records is removed before [json.dump],
    so [save_current_case] returns [False], the file it opened is left
    without a document, and [load_case_from_file] raises on it. *)
Theorem save_with_prediction_results_fails file_path p t w lc cd lf fs lr rd la :
  no_current_case (current_case_index w) (cases w) = false ->
  index_list (cases w) (current_case_index w) = Some (VRef lc) ->
  objects w !! lc = Some (ODict cd) ->
  dict_get "files" cd = Some (VRef lf) ->
  objects w !! lf = Some (OList fs) ->
  Forall (is_record (objects w)) fs ->
  fst (resolve_path TEMP_DIR py_str file_path (VRef lc) w) = Ok p ->
  can_open_for_writing p = true ->
  dict_get "prediction_results" cd = Some (VRef lr) ->
  objects w !! lr = Some (ODict rd) ->
  dict_get "segmentation" rd = Some (VRef la) ->
  objects w !! la = Some OArray ->
  exists w1 msg w2,
    save_current_case can_open_for_writing TEMP_DIR py_str file_path t w = (Ok false, w1)
    /\ disk w1 !! p = Some Truncated
    /\ load_case_from_file p w1 = (Raise (ValueError msg), w2)
    /\ cases w2 = cases w
    /\ current_case_index w2 = current_case_index w.
Proof.
  intros Hcur Hcase Hlc Hfiles Hlf Hfs Hpath Hopen Hpred Hlr Hseg Hla.
  destruct (save_current_case_run can_open_for_writing TEMP_DIR py_str
              file_path p t w lc cd lf fs Hcur Hcase Hlc Hfiles Hlf Hfs Hpath Hopen)
    as (h3 & cd3 & Hloop & He3 & Hna3 & Hlc3 & Hrun).
  set (h := objects w) in *.
  set (cd1 := dict_set "modified_date" (VStr t) cd) in *.
  set (h1 := <[lc := ODict cd1]> h) in *.
  assert (He : edited h h3).
  { eapply edited_trans; [|exact He3]. eapply edited_trans; [|apply edited_app].
    apply edited_setitem; [exact Hlc|now left]. }
  assert (Hsd : (h1 ++ [ODict cd1]) !! length h = Some (ODict cd1)).
  { replace (length h) with (length h1) by apply length_insert. apply lookup_alloc_new. }
  destruct (He3 _ _ Hsd) as (sd & Hsd3 & Hsdk & _).
  destruct (He _ _ Hlr) as (rd3 & Hlr3 & Hrdk & _).
  pose proof (He _ _ Hla) as Hla3. cbn in Hla3.
  assert (Hnever : never_dumps h3 (VRef (length h))).
  { apply (never_dumps_entry h3 _ sd "prediction_results" (VRef lr)); [exact Hsd3| |].
    - rewrite Hsdk by (repeat split; discriminate).
      unfold cd1. now rewrite dict_get_set_ne.
    - apply (never_dumps_entry h3 _ rd3 "segmentation" (VRef la)); [exact Hlr3| |].
      + now rewrite Hrdk by (repeat split; discriminate).
      + now apply never_dumps_array. }
  destruct (Hnever (length h3)) as [e Hdump]. rewrite Hdump in Hrun.
  eexists _, _, _. split; [exact Hrun|]. cbn [disk cases current_case_index].
  split; [apply lookup_insert_eq|].
  split.
  { unfold load_case_from_file, try_except, bind, json_load. cbn [disk].
    rewrite lookup_insert_eq. reflexivity. }
  split; reflexivity.
Qed.

End RoundTrip.

(** *** C9 *)

(** The rule of the specification for a lower-cased base name. *)
Definition sequence_rule (name st : string) : Prop :=
  let has s := exists pre post, name = String.append pre (String.append s post) in
  let t2w := has "t2" \/ has "t2w" in
  let adc := has "adc" in
  let dwi := has "dwi" \/ has "hbv" in
  let cor := has "cor" in
  let sag := has "sag" in
  (t2w -> st = "t2w")
  /\ (~ t2w -> adc -> st = "adc")
  /\ (~ t2w -> ~ adc -> dwi -> st = "dwi")
  /\ (~ t2w -> ~ adc -> ~ dwi -> cor -> st = "cor")
  /\ (~ t2w -> ~ adc -> ~ dwi -> ~ cor -> sag -> st = "sag")
  /\ (~ t2w -> ~ adc -> ~ dwi -> ~ cor -> ~ sag -> st = "unknown").

Lemma sequence_type_of_name_rule name : sequence_rule name (sequence_type_of_name name).
Proof.
  unfold sequence_rule, sequence_type_of_name.
  pose proof (PyStr.contains_spec "t2" name) as H1.
  pose proof (PyStr.contains_spec "t2w" name) as H2.
  pose proof (PyStr.contains_spec "adc" name) as H3.
  pose proof (PyStr.contains_spec "dwi" name) as H4.
  pose proof (PyStr.contains_spec "hbv" name) as H5.
  pose proof (PyStr.contains_spec "cor" name) as H6.
  pose proof (PyStr.contains_spec "sag" name) as H7.
  destruct (PyStr.contains "t2" name), (PyStr.contains "t2w" name),
    (PyStr.contains "adc" name), (PyStr.contains "dwi" name),
    (PyStr.contains "hbv" name), (PyStr.contains "cor" name),
    (PyStr.contains "sag" name); cbn [orb];
    repeat split; intros; try reflexivity; exfalso;
    repeat match goal with
           | H : true = true <-> _ |- _ => destruct H as [H _]; specialize (H eq_refl)
           | H : false = true <-> _ |- _ => destruct H as [_ H]
           end; intuition discriminate.
Qed.

(** C9: every path has a base name, the part that follows its last
    slash, and the ['sequence_type'] that [_process_file] stores in a file
    record depends only on that name in lower case, whatever the
    directories are called, by the ordered rule: 't2' or 't2w' gives t2w,
    else 'adc' gives adc, else 'dwi' or 'hbv' gives dwi, else 'cor' gives
    cor, else 'sag' gives sag, else unknown. For an ASCII name the lower
    case is the name with a to z for A to Z. *)
Theorem sequence_type_from_file_name
    (load_medical_image : string -> option image_info) (p : string) (h : heap) :
  (exists name, PyStr.base_name_of p name)
  /\ forall name,
       PyStr.base_name_of p name ->
       match _process_file load_medical_image p h with
       | (Ok file_info, h') =>
           exists st,
             getitem file_info "sequence_type" h' = (Ok (VStr st), h')
             /\ st = sequence_type_of_name (PyStr.lower name)
             /\ sequence_rule (PyStr.lower name) st
             /\ (forall low, PyStr.lowercase_of name low -> sequence_rule low st)
       | (Raise _, h') => load_medical_image p = None /\ h' = h
       end.
Proof.
  split; [exists (PyStr.basename p); apply PyStr.basename_is_base_name|].
  intros name Hname. apply PyStr.base_name_unique in Hname. subst name.
  destruct (load_medical_image p) as [info|] eqn:Hload.
  - unfold _process_file. rewrite Hload.
    unfold build_file_info.
    destruct (build_dict_spec (image_metadata info)
                (if image_has_array info then h ++ [OArray] else h))
      as (lm & dm & e1 & Hb & _).
    assert (Harray : exists array,
      (if image_has_array info then alloc OArray else ret VNone) h
      = (Ok array, if image_has_array info then h ++ [OArray] else h)).
    { destruct (image_has_array info); eexists; reflexivity. }
    destruct Harray as [array Harray].
    erewrite bind_ok.
    2:{ erewrite bind_ok by exact Harray. erewrite bind_ok by exact Hb. reflexivity. }
    erewrite bind_ok by (apply setitem_dict, lookup_alloc_new).
    cbn [ret]. rewrite insert_last.
    eexists. split; [|split; [reflexivity|split; [apply sequence_type_of_name_rule|]]].
    + eapply getitem_dict; [apply lookup_alloc_new|]. apply dict_get_set_eq.
    + intros low Hlow. rewrite <- (PyStr.lowercase_of_lower _ _ Hlow).
      apply sequence_type_of_name_rule.
  - unfold _process_file. rewrite Hload. now split.
Qed.

(** *** A session with the manager *)

(** A loader that reads every file but the one called "missing", gets the
    voxels, and reports the size and the patient. *)
Definition demo_loader (p : string) : option image_info :=
  if PyStr.contains "missing" p then None
  else Some {| image_format := ".nii";
               image_loaded_with := "SimpleITK";
               image_has_array := true;
               image_metadata := [("dimensions", TTuple [TInt 4; TInt 4; TInt 2]);
                                  ("0010|0020 PatientID", TStr "P-17")] |}.

Definition demo_str (h : heap) (v : value) : string :=
  match v with VStr s => s | _ => "None" end.

Definition demo_paths : list string :=
  ["/data/p01/T2W_axial.nii"; "/data/p01/missing.nii"; "/data/p01/adc.nii"].

Definition demo_world : world :=
  after (load_case demo_loader demo_paths
           "20240101_100000" "2024-01-01T10:00:00" "2024-01-01T10:00:00") init.

Lemma load_case_witness :
  (exists msg,
      load_case demo_loader [] "s" "c" "m" init = (Raise (ValueError msg), init))
  /\ (exists msg w',
        load_case demo_loader ["/data/p01/missing.nii"] "s" "c" "m" demo_world
        = (Raise (ValueError msg), w')
        /\ cases w' = cases demo_world
        /\ current_case_index w' = current_case_index demo_world)
  /\ (exists case w',
        load_case demo_loader demo_paths "s" "c" "m" demo_world = (Ok case, w')
        /\ cases w' = cases demo_world ++ [case]
        /\ current_case_index w' = 1
        /\ get_current_case w' = (Ok case, w')).
Proof.
  destruct (load_case_outcomes demo_loader) as (H1 & H2 & H3).
  split; [apply H1|]. split.
  - apply H2; [discriminate|]. repeat constructor.
  - apply (H3 demo_paths "s" "c" "m" demo_world). left. discriminate.
Defined.

Lemma index_invariant_witness :
  manager_ok
    (run demo_loader (fun _ => true) "/tmp" demo_str Close_current_case demo_world)
  /\ cases (run demo_loader (fun _ => true) "/tmp" demo_str Close_current_case demo_world)
     = []
  /\ current_case_index
       (run demo_loader (fun _ => true) "/tmp" demo_str Close_current_case demo_world)
     = -1.
Proof.
  destruct (current_case_index_invariant demo_loader (fun _ => true) "/tmp" demo_str)
    as (_ & _ & Hstep & Hclose & _).
  split.
  - apply Hstep. split.
    + right. assert (E1 : current_case_index demo_world = 0) by reflexivity.
      assert (E2 : length (cases demo_world) = 1%nat) by reflexivity.
      rewrite E1, E2. lia.
    + repeat constructor. discriminate.
  - apply (Hclose demo_world (VRef 2%nat)); reflexivity.
Defined.

(** A name with the capital I with a dot, U+0130: "DW" and that letter,
    then ".nii". *)
Definition dotted_name : string :=
  String.append "DW" (String "196" (String "176" ".nii")).

Ltac lowercase :=
  repeat first
    [ apply PyStr.lowercase_empty
    | apply PyStr.lowercase_capital; [vm_compute; lia|reflexivity|]
    | apply PyStr.lowercase_other; [vm_compute; lia|] ].

Ltac stored_type H :=
  match type of H with
  | match ?run with _ => _ end =>
      let f := fresh "file_info" in
      let E := fresh "E" in
      destruct run as [[f|?] ?h'] eqn:E;
      [ destruct H as (?st & ?H1 & ?H2 & ?H3 & ?H4)
      | destruct H as [H _]; discriminate H ]
  end.

Lemma sequence_type_witness :
  (exists file_info h',
      _process_file demo_loader "/data/p01/T2W_axial.nii" [] = (Ok file_info, h')
      /\ getitem file_info "sequence_type" h' = (Ok (VStr "t2w"), h')
      /\ sequence_rule "t2w_axial.nii" "t2w")
  /\ (exists file_info h',
        _process_file demo_loader "/data/t2/adc.nii" [] = (Ok file_info, h')
        /\ getitem file_info "sequence_type" h' = (Ok (VStr "adc"), h')
        /\ sequence_rule "adc.nii" "adc")
  /\ (exists file_info h',
        _process_file demo_loader (String.append "/data/p01/" dotted_name) []
        = (Ok file_info, h')
        /\ getitem file_info "sequence_type" h' = (Ok (VStr "dwi"), h')).
Proof.
  split; [|split].
  - assert (Hname : PyStr.base_name_of "/data/p01/T2W_axial.nii" "T2W_axial.nii")
      by (split; [reflexivity|right; now exists "/data/p01"]).
    pose proof (proj2 (sequence_type_from_file_name demo_loader
                         "/data/p01/T2W_axial.nii" []) _ Hname) as H.
    stored_type H. subst st. eexists _, _. split; [reflexivity|]. split; [exact H1|].
    apply (H4 "t2w_axial.nii"). lowercase.
  - assert (Hname : PyStr.base_name_of "/data/t2/adc.nii" "adc.nii")
      by (split; [reflexivity|right; now exists "/data/t2"]).
    pose proof (proj2 (sequence_type_from_file_name demo_loader
                         "/data/t2/adc.nii" []) _ Hname) as H.
    stored_type H. subst st. eexists _, _. split; [reflexivity|]. split; [exact H1|].
    apply (H4 "adc.nii"). lowercase.
  - assert (Hname : PyStr.base_name_of (String.append "/data/p01/" dotted_name) dotted_name)
      by (split; [reflexivity|right; now exists "/data/p01"]).
    pose proof (proj2 (sequence_type_from_file_name demo_loader
                         (String.append "/data/p01/" dotted_name) []) _ Hname) as H.
    stored_type H. subst st. eexists _, _. split; [reflexivity|]. exact H1.
Defined.

Lemma save_witness :
  Forall (fun f => exists l d, f = VRef l /\ objects demo_world !! l = Some (ODict d)
                               /\ dict_has "array" d = true)
         [VRef 6%nat; VRef 10%nat]
  /\ Forall (has_no_array
               (objects (after (save_current_case (fun _ => true) "/tmp" demo_str
                                  (Some "/tmp/case.json") "2024-01-01T10:05:00")
                               demo_world)))
            [VRef 6%nat; VRef 10%nat].
Proof.
  split.
  - repeat constructor; eexists _, _; (split; [reflexivity|]); split; reflexivity.
  - eapply (save_removes_arrays_from_live_case (fun _ => true) "/tmp" demo_str
              (Some "/tmp/case.json") "/tmp/case.json" "2024-01-01T10:05:00"
              demo_world 2%nat _ 0%nat).
    + reflexivity.
    + reflexivity.
    + reflexivity.
    + reflexivity.
    + reflexivity.
    + repeat constructor; eexists _, _; split; reflexivity.
    + reflexivity.
    + reflexivity.
Defined.

(** C10, where the arrays stay: the demo case saved to a path that cannot
    be opened. The call returns [False] and the two file records of the
    current case still have their ['array']. *)
Lemma save_keeps_arrays_when_open_fails :
  objects demo_world !! 0%nat = Some (OList [VRef 6%nat; VRef 10%nat])
  /\ fst (save_current_case (fun _ => false) "/tmp" demo_str
            (Some "/out/case.json") "2024-01-01T10:05:00" demo_world) = Ok false
  /\ Forall (fun f => exists l d,
                f = VRef l
                /\ objects (after (save_current_case (fun _ => false) "/tmp" demo_str
                                     (Some "/out/case.json") "2024-01-01T10:05:00")
                                  demo_world) !! l = Some (ODict d)
                /\ dict_has "array" d = true)
            [VRef 6%nat; VRef 10%nat].
Proof.
  split; [reflexivity|]. split; [reflexivity|].
  repeat constructor; eexists _, _; (split; [reflexivity|]); split; reflexivity.
Qed.

(** *** C6: a case with prediction results *)

(** The dictionary that [PredictionWorker._process_results] returns, as an
    object of the heap: ['segmentation'] is the ndarray of the mask. *)
Definition lesion_literal (l : Prediction.lesion) : tree :=
  TDict [("id", TInt (Prediction.lesion_id l));
         ("volume_mm3", TFloat (Prediction.volume_mm3 l));
         ("max_diameter_mm", TFloat (Prediction.max_diameter_mm l));
         ("centroid", TList (map TFloat (Prediction.centroid l)));
         ("probability", TFloat (Prediction.probability l));
         ("severity", TStr (Prediction.severity l))].

Definition results_object (r : Prediction.results) : M heap value :=
  let* segmentation := alloc OArray in
  let* lesions := build (TList (map lesion_literal (Prediction.lesions r))) in
  alloc (ODict [("segmentation", segmentation);
                ("lesions", lesions);
                ("num_lesions", VInt (Z.of_nat (Prediction.num_lesions r)));
                ("has_significant_lesion", VBool (Prediction.has_significant_lesion r));
                ("total_lesion_volume",
                 match Prediction.total_lesion_volume r with
                 | Prediction.Int n => VInt n
                 | Prediction.Float f => VFloat f
                 end);
                ("prediction_date", VStr (Prediction.prediction_date r))]).

(** The demo case after a prediction has been attached to it with
    [set_current_case_prediction_results]. *)
Definition predicted_world : world :=
  match Prediction._process_results Prediction.demo_components Prediction.demo_mean
          Prediction.demo_runtime Prediction.demo_probability "2024-01-01 10:02:00" with
  | Some r =>
      match on_heap (results_object r) demo_world with
      | (Ok results, w) =>
          after (set_current_case_prediction_results results "2024-01-01T10:02:00") w
      | (Raise _, w) => w
      end
  | None => demo_world
  end.

Definition demo_save (w : world) : result bool * world :=
  save_current_case (fun _ => true) "/tmp" demo_str
    (Some "/tmp/case.json") "2024-01-01T10:05:00" w.

(** Without prediction results the demo case is saved and reloaded with
    the same id, name, files and metadata, and no ['array']. *)
Example round_trip_without_prediction :
  exists w1 case2 w2,
    demo_save demo_world = (Ok true, w1)
    /\ load_case_from_file "/tmp/case.json" w1 = (Ok case2, w2)
    /\ Forall (fun key => view w2 case2 key = view w1 (VRef 2%nat) key
                           /\ exists t, view w2 case2 key = Ok t)
              ["id"; "name"; "files"; "metadata"]
    /\ view w2 case2 "files"
       = Ok (TList [TDict [("path", TStr "/data/p01/T2W_axial.nii");
                           ("format", TStr ".nii");
                           ("loaded_with", TStr "SimpleITK");
                           ("metadata",
                            TDict [("dimensions", TList [TInt 4; TInt 4; TInt 2]);
                                   ("0010|0020 PatientID", TStr "P-17")]);
                           ("sequence_type", TStr "t2w")];
                    TDict [("path", TStr "/data/p01/adc.nii");
                           ("format", TStr ".nii");
                           ("loaded_with", TStr "SimpleITK");
                           ("metadata",
                            TDict [("dimensions", TList [TInt 4; TInt 4; TInt 2]);
                                   ("0010|0020 PatientID", TStr "P-17")]);
                           ("sequence_type", TStr "adc")]]).
Proof.
  eexists _, _, _. split; [vm_compute; reflexivity|].
  split; [vm_compute; reflexivity|].
  split; [|vm_compute; reflexivity].
  repeat constructor; try (vm_compute; reflexivity); eexists; vm_compute; reflexivity.
Qed.

Lemma saved_case_witness :
  exists doc case2 w2,
    disk (snd (demo_save demo_world)) !! "/tmp/case.json" = Some (Document doc)
    /\ load_case_from_file "/tmp/case.json" (snd (demo_save demo_world)) = (Ok case2, w2)
    /\ cases w2 = cases demo_world ++ [case2]
    /\ current_case_index w2 = Z.of_nat (length (cases demo_world))
    /\ dump (length (objects w2)) (objects w2) case2 = Ok doc
    /\ (forall key, key <> "has_changes" ->
                    view w2 case2 key = view (snd (demo_save demo_world)) (VRef 2%nat) key)
    /\ Forall (fun key => exists t,
                  view (snd (demo_save demo_world)) (VRef 2%nat) key = Ok t)
              ["id"; "name"; "files"; "metadata"]
    /\ exists ts, view w2 case2 "files" = Ok (TList ts) /\ Forall without_array ts.
Proof.
  eapply (saved_case_is_reloaded (fun _ => true) "/tmp" demo_str
            (Some "/tmp/case.json") "/tmp/case.json" "2024-01-01T10:05:00"
            demo_world 2%nat _ 0%nat).
  - reflexivity.
  - reflexivity.
  - reflexivity.
  - reflexivity.
  - reflexivity.
  - repeat constructor; eexists _, _; split; reflexivity.
  - reflexivity.
  - apply keys_once_forallb. vm_compute. reflexivity.
  - repeat constructor.
  - vm_compute. reflexivity.
Defined.

(** The demo case after [update_current_case_metadata]: it has unsaved
    changes. *)
Definition edited_world : world :=
  after (update_current_case_metadata (VRef 1%nat) "2024-01-01T10:03:00") demo_world.

Lemma has_changes_witness :
  view (snd (demo_save edited_world)) (VRef 2%nat) "has_changes" = Ok (TBool false)
  /\ exists case2 w2,
       load_case_from_file "/tmp/case.json" (snd (demo_save edited_world)) = (Ok case2, w2)
       /\ view w2 case2 "has_changes" = Ok (TBool true).
Proof.
  eapply (saved_document_keeps_has_changes (fun _ => true) "/tmp" demo_str
            (Some "/tmp/case.json") "/tmp/case.json" "2024-01-01T10:05:00"
            edited_world 2%nat _ 0%nat).
  - reflexivity.
  - reflexivity.
  - reflexivity.
  - reflexivity.
  - reflexivity.
  - repeat constructor; eexists _, _; split; reflexivity.
  - reflexivity.
  - apply keys_once_forallb. vm_compute. reflexivity.
  - repeat constructor.
  - reflexivity.
  - vm_compute. reflexivity.
Defined.

(** The demo case with its prediction: the save returns [False], the
    file is left without a document and cannot be loaded. *)
Lemma prediction_save_witness :
  exists w1 msg w2,
    demo_save predicted_world = (Ok false, w1)
    /\ disk w1 !! "/tmp/case.json" = Some Truncated
    /\ load_case_from_file "/tmp/case.json" w1 = (Raise (ValueError msg), w2)
    /\ cases w2 = cases predicted_world
    /\ current_case_index w2 = current_case_index predicted_world.
Proof.
  eapply (save_with_prediction_results_fails (fun _ => true) "/tmp" demo_str
            (Some "/tmp/case.json") "/tmp/case.json" "2024-01-01T10:05:00"
            predicted_world 2%nat _ 0%nat).
  - reflexivity.
  - reflexivity.
  - reflexivity.
  - reflexivity.
  - reflexivity.
  - repeat constructor; eexists _, _; split; reflexivity.
  - reflexivity.
  - reflexivity.
  - reflexivity.
  - reflexivity.
  - reflexivity.
  - reflexivity.
Defined.

End CaseManager.

(* ===================================================================== *)
(** ** The prediction controller: [PredictionController.start_prediction] *)
(* ===================================================================== *)

Module Controller.
Import Py.
Local Open Scope py_scope.
Local Open Scope string_scope.
Local Open Scope list_scope.

(** A [QThread]: [isRunning()] holds from [start()] until [run] returns. *)
Inductive thread_state : Type :=
  | Created
  | Running
  | Finished.

(** The controller, with every worker thread it has created so far;
    [worker] is [self.worker], the index of the last one. *)
Record controller : Type := {
  model_path : string;
  last_results : value;
  worker : option nat;
  threads : list thread_state
}.

Definition is_running (s : controller) (i : nat) : bool :=
  match threads s !! i with
  | Some Running => true
  | _ => false
  end.

(** The number of workers that are running. *)
Definition count_running (ts : list thread_state) : nat :=
  length (List.filter (fun t => match t with Running => true | _ => false end) ts).

Definition running_workers (s : controller) : nat := count_running (threads s).

Section Start.

(** [TORCH_AVAILABLE], [MONAI_AVAILABLE], [os.path.exists],
    [config.MODELS_DIR]. *)
Variable TORCH_AVAILABLE MONAI_AVAILABLE : bool.
Variable path_exists : string -> bool.
Variable MODELS_DIR : string.

(** [PredictionController.__init__] *)
Definition init : controller :=
  {| model_path := PyStr.join MODELS_DIR "prostate_segmentation_model.pth";
     last_results := VNone;
     worker := None;
     threads := [] |}.

(** [not case_data or 'files' not in case_data], on the heap the case
    lives in. *)
Definition no_case (h : heap) (case_data : value) : result bool :=
  match truthy case_data h with
  | (Ok true, _) =>
      match contains "files" case_data h with
      | (Ok b, _) => Ok (negb b)
      | (Raise e, _) => Raise e
      end
  | (Ok false, _) => Ok true
  | (Raise e, _) => Raise e
  end.

(** [self.worker and self.worker.isRunning()] *)
Definition busy (s : controller) : bool :=
  match worker s with
  | Some i => is_running s i
  | None => false
  end.

Definition set_model_path (p : string) : M controller unit :=
  fun s => (Ok tt, {| model_path := p; last_results := last_results s;
                      worker := worker s; threads := threads s |}).

(** [self.worker = PredictionWorker(case_data, self.model_path)] *)
Definition new_worker : M controller nat :=
  fun s => (Ok (length (threads s)),
            {| model_path := model_path s; last_results := last_results s;
               worker := Some (length (threads s));
               threads := threads s ++ [Created] |}).

(** [QThread.start()]: nothing happens if the thread is running. *)
Definition start (i : nat) : M controller unit :=
  fun s => (Ok tt,
            {| model_path := model_path s; last_results := last_results s;
               worker := worker s;
               threads := match threads s !! i with
                          | Some Running => threads s
                          | Some _ => <[i := Running]> (threads s)
                          | None => threads s
                          end |}).

Definition get : M controller controller := fun s => (Ok s, s).

(** The check that the model file exists, falling back on the sample
    model. *)
Definition ensure_model : M controller unit :=
  let* s := get in
  if path_exists (model_path s) then ret tt
  else
    set_model_path (PyStr.join MODELS_DIR "sample_model.pth") ;;
    let* s := get in
    if path_exists (model_path s) then ret tt
    else raise (ValueError "No se encontró el modelo").

(** [start_prediction], called with [case_data] on the heap [h]. *)
Definition start_prediction (h : heap) (case_data : value) : M controller unit :=
  if negb TORCH_AVAILABLE || negb MONAI_AVAILABLE then
    raise (ValueError "PyTorch o MONAI no están disponibles")
  else
    match no_case h case_data with
    | Raise e => raise e
    | Ok true => raise (ValueError "No hay caso cargado para predicción")
    | Ok false =>
        let* s := get in
        if busy s then raise (ValueError "Ya hay una predicción en proceso")
        else
          ensure_model ;;
          let* i := new_worker in
          start i
    end.

(** [on_prediction_completed] *)
Definition on_prediction_completed (results : value) : M controller unit :=
  fun s => (Ok tt, {| model_path := model_path s; last_results := results;
                      worker := worker s; threads := threads s |}).

(** [on_prediction_failed] only passes the message on. *)
Definition on_prediction_failed (error_message : string) : M controller unit :=
  ret tt.

Definition clear_results : M controller unit :=
  fun s => (Ok tt, {| model_path := model_path s; last_results := VNone;
                      worker := worker s; threads := threads s |}).

(** The [run] method of worker [i] returns, with a result or after
    reporting an error: the thread is no longer running. *)
Definition worker_finished (i : nat) : M controller unit :=
  fun s => (Ok tt,
            {| model_path := model_path s; last_results := last_results s;
               worker := worker s;
               threads := match threads s !! i with
                          | Some Running => <[i := Finished]> (threads s)
                          | _ => threads s
                          end |}).

(** What can happen to the controller. *)
Inductive event : Type :=
  | Start_prediction (h : heap) (case_data : value)
  | Worker_finished (i : nat)
  | Prediction_completed (results : value)
  | Prediction_failed (error_message : string)
  | Clear_results.

Definition step (e : event) (s : controller) : controller :=
  match e with
  | Start_prediction h case_data => snd (start_prediction h case_data s)
  | Worker_finished i => snd (worker_finished i s)
  | Prediction_completed results => snd (on_prediction_completed results s)
  | Prediction_failed msg => snd (on_prediction_failed msg s)
  | Clear_results => snd (clear_results s)
  end.

Definition run (es : list event) (s : controller) : controller :=
  fold_left (fun s e => step e s) es s.

(** While the current worker runs, [start_prediction] raises and changes
    nothing. *)
Lemma start_prediction_while_running h case_data s :
  busy s = true -> exists e, start_prediction h case_data s = (Raise e, s).
Proof.
  intros Hbusy. unfold start_prediction.
  destruct (negb TORCH_AVAILABLE || negb MONAI_AVAILABLE); [eexists; reflexivity|].
  destruct (no_case h case_data) as [[|]|e]; try (eexists; reflexivity).
  unfold bind, get. rewrite Hbusy. eexists. reflexivity.
Qed.

Lemma count_running_app ts ts' :
  count_running (ts ++ ts') = (count_running ts + count_running ts')%nat.
Proof. unfold count_running. now rewrite List.filter_app, length_app. Qed.

Lemma count_running_finish ts i :
  ts !! i = Some Running ->
  S (count_running (<[i := Finished]> ts)) = count_running ts.
Proof.
  revert i. induction ts as [|t ts IH]; intros [|i]; cbn; try discriminate.
  - now intros [= ->].
  - intros H. specialize (IH i H). unfold count_running in *.
    change (<[S i := Finished]> (t :: ts)) with (t :: <[i := Finished]> ts).
    cbn [List.filter]. destruct t; cbn [length]; rewrite <- IH; reflexivity.
Qed.

(** At most one worker runs, and if one does it is the current one. *)
Definition one_worker (s : controller) : Prop :=
  (count_running (threads s) <= 1)%nat
  /\ (busy s = false -> count_running (threads s) = 0%nat).

Lemma init_one_worker : one_worker init.
Proof. split; cbn; lia. Qed.

Lemma insert_created (ts : list thread_state) :
  <[length ts := Running]> (ts ++ [Created]) = ts ++ [Running].
Proof. induction ts as [|t ts IH]; cbn; [reflexivity|]. f_equal. exact IH. Qed.

Lemma ensure_model_threads s :
  threads (snd (ensure_model s)) = threads s /\ worker (snd (ensure_model s)) = worker s.
Proof.
  unfold ensure_model, bind, get, set_model_path. cbn.
  destruct (path_exists (model_path s)); cbn; [now split|].
  destruct (path_exists _); now split.
Qed.

Lemma start_prediction_one_worker h case_data s :
  one_worker s -> one_worker (snd (start_prediction h case_data s)).
Proof.
  intros Hs. pose proof Hs as [Hle Hidle]. unfold start_prediction.
  destruct (negb TORCH_AVAILABLE || negb MONAI_AVAILABLE); [exact Hs|].
  destruct (no_case h case_data) as [[|]|e]; try exact Hs.
  unfold bind at 1. unfold get at 1.
  destruct (busy s) eqn:Hbusy; [exact Hs|].
  specialize (Hidle eq_refl).
  unfold bind at 1.
  pose proof (ensure_model_threads s) as [Ht Hw].
  destruct (ensure_model s) as [[[]|e] s1]; cbn [snd] in Ht, Hw.
  - unfold bind, new_worker, start. cbn.
    rewrite list_lookup_middle by reflexivity. cbn [threads].
    rewrite insert_created, Ht.
    unfold one_worker, busy, is_running. cbn [worker threads].
    rewrite count_running_app, Hidle. cbn.
    rewrite list_lookup_middle by reflexivity.
    split; [lia|discriminate].
  - cbn [snd]. unfold one_worker. rewrite Ht, Hidle. split; [lia|reflexivity].
Qed.

Lemma worker_finished_one_worker i s :
  one_worker s -> one_worker (snd (worker_finished i s)).
Proof.
  intros [Hle Hidle]. unfold worker_finished. cbn.
  destruct (threads s !! i) as [[| |]|] eqn:E; try now split.
  pose proof (count_running_finish _ _ E) as Hc.
  unfold one_worker. cbn [threads]. split; [lia|]. intros _. lia.
Qed.

Lemma step_one_worker e s : one_worker s -> one_worker (step e s).
Proof.
  intros H. destruct e; cbn [step].
  - now apply start_prediction_one_worker.
  - now apply worker_finished_one_worker.
  - exact H.
  - exact H.
  - exact H.
Qed.

Lemma run_one_worker es s : one_worker s -> one_worker (run es s).
Proof.
  revert s. induction es as [|e es IH]; intros s H; cbn; [exact H|].
  apply IH. now apply step_one_worker.
Qed.

(** C7: a call of [start_prediction] made while the worker started before
    is still running raises an error and leaves the controller as it was:
    no second worker is created or started. When the libraries are there
    and a case is given, the error is the one that says a prediction is in
    process. After every sequence of calls and of workers finishing, at
    most one worker is running. *)
Theorem one_prediction_at_a_time :
  (forall h case_data s i,
      worker s = Some i -> threads s !! i = Some Running ->
      exists e, start_prediction h case_data s = (Raise e, s))
  /\ (forall h case_data s i,
        worker s = Some i -> threads s !! i = Some Running ->
        TORCH_AVAILABLE = true -> MONAI_AVAILABLE = true ->
        no_case h case_data = Ok false ->
        start_prediction h case_data s
        = (Raise (ValueError "Ya hay una predicción en proceso"), s))
  /\ (forall es, (running_workers (run es init) <= 1)%nat).
Proof.
  split; [|split].
  - intros h case_data s i Hw Hr. apply start_prediction_while_running.
    unfold busy, is_running. now rewrite Hw, Hr.
  - intros h case_data s i Hw Hr Ht Hm Hcase. unfold start_prediction.
    rewrite Ht, Hm, Hcase. cbn [negb orb].
    unfold bind, get, busy, is_running. now rewrite Hw, Hr.
  - intros es. apply (run_one_worker es init init_one_worker).
Qed.

End Start.

(** A session: a prediction is started on a case, a second call arrives
    while it runs, and a third after it has finished. *)
Definition demo_heap : heap := [ODict [("files", VRef 1%nat)]; OList [VNone]].

Lemma one_prediction_witness :
  let s1 := step true true (fun _ => true) "/models"
              (Start_prediction demo_heap (VRef 0%nat))
              (init "/models") in
  threads s1 = [Running]
  /\ start_prediction true true (fun _ => true) "/models" demo_heap (VRef 0%nat) s1
     = (Raise (ValueError "Ya hay una predicción en proceso"), s1)
  /\ threads (run true true (fun _ => true) "/models"
                 [Worker_finished 0; Start_prediction demo_heap (VRef 0%nat)] s1)
     = [Finished; Running].
Proof.
  intros s1. split; [reflexivity|]. split; [|reflexivity].
  apply (proj1 (proj2 (one_prediction_at_a_time true true (fun _ => true) "/models"))
           demo_heap (VRef 0%nat) s1 0%nat); reflexivity.
Defined.

End Controller.

(* ===================================================================== *)
(** ** Prediction post-processing: order and size *)
(* ===================================================================== *)

Module PredictionFacts.
Import PyFloat Prediction.

(** A comparison that holds is between numbers. *)
Lemma ltb_not_nan x y :
  PrimFloat.ltb x y = true -> is_nan x = false /\ is_nan y = false.
Proof.
  intros H. split.
  - destruct (is_nan x) eqn:E; [|reflexivity]. now rewrite ltb_nan_l in H.
  - destruct (is_nan y) eqn:E; [|reflexivity]. now rewrite ltb_nan_r in H.
Qed.

Lemma leb_not_nan x y :
  PrimFloat.leb x y = true -> is_nan x = false /\ is_nan y = false.
Proof.
  unfold is_nan. rewrite FloatAxioms.leb_spec, !FloatAxioms.eqb_spec. intros H.
  assert (Hx : Prim2SF x <> S754_nan).
  { intros E. rewrite E in H. discriminate. }
  assert (Hy : Prim2SF y <> S754_nan).
  { intros E. rewrite E in H. unfold SFleb in H.
    now rewrite SFcompare_nan_r in H. }
  now rewrite !SF_self_eqb.
Qed.

(** What is above a bound stays above it when it grows. *)
Lemma gt_leb_trans x y t :
  gt x t = true -> PrimFloat.leb x y = true -> gt y t = true.
Proof.
  unfold gt. intros Hgt Hle.
  destruct (ltb_not_nan _ _ Hgt) as [Ht Hx].
  destruct (leb_not_nan _ _ Hle) as [_ Hy].
  rewrite ltb_rank in * by assumption. rewrite leb_rank in Hle by assumption.
  unfold rank_ltb in *.
  destruct (lex3 (rank t) (rank x)) eqn:E1; try discriminate.
  destruct (lex3 (rank x) (rank y)) eqn:E2; try discriminate.
  - apply lex3_eq in E2. now rewrite <- E2, E1.
  - now rewrite (lex3_lt_trans _ _ _ E1 E2).
Qed.

(** The three severities in order. *)
Definition severity_level (s : string) : nat :=
  if String.eqb s "Alta" then 2 else if String.eqb s "Media" then 1 else 0.

(** The classification never goes down when the volume and the mean
    probability go up, whatever the NumPy. *)
Theorem severity_is_monotone (rt : runtime) (v p v' p' : float) :
  PrimFloat.leb v v' = true -> PrimFloat.leb p p' = true ->
  (severity_level (classify rt v p) <= severity_level (classify rt v' p'))%nat.
Proof.
  intros Hv Hp. unfold classify. rewrite literal_0_75.
  set (t6 := literal rt 0.6).
  pose proof (fun t H => gt_leb_trans v v' t H Hv) as Mv.
  pose proof (fun t H => gt_leb_trans p p' t H Hp) as Mp.
  specialize (Mv 500%float) as V5. specialize (Mv 200%float) as V2.
  specialize (Mp 0.75%float) as P75. specialize (Mp t6) as P6.
  destruct (gt v 500), (gt p 0.75), (gt v 200), (gt p t6);
  try specialize (V5 eq_refl); try specialize (V2 eq_refl);
  try specialize (P75 eq_refl); try specialize (P6 eq_refl);
  destruct (gt v' 500), (gt p' 0.75), (gt v' 200), (gt p' t6);
  try discriminate; cbn; lia.
Qed.

Lemma classify_alta rt v p :
  classify rt v p = "Alta"%string -> gt v 500 = true /\ gt p 0.75 = true.
Proof.
  unfold classify. rewrite literal_0_75.
  destruct (gt v 500), (gt p 0.75); cbn [andb]; try (now split);
    destruct (gt v 200 || gt p (literal rt 0.6)); discriminate.
Qed.

(** When a result has a significant lesion, its first lesion, the
    largest, has a volume above 500 mm3. *)
Theorem significant_result_starts_with_a_large_lesion cc lm rt prob now r :
  _process_results cc lm rt prob now = Some r ->
  Forall (fun l => is_nan (volume_mm3 l) = false) (lesions r) ->
  has_significant_lesion r = true ->
  exists first rest,
    lesions r = first :: rest
    /\ gt (volume_mm3 first) 500 = true
    /\ Forall (fun l => ge (volume_mm3 first) (volume_mm3 l) = true) rest.
Proof.
  intros Hr Hnum Hsig.
  destruct (process_results_lesions _ _ _ _ _ _ Hr) as (ls & Hls & Hsort & _ & _ & Hs & _).
  rewrite Hs in Hsig. apply existsb_exists in Hsig as (l & Hl & Halta).
  apply String.eqb_eq in Halta.
  assert (Hcl : Forall (fun l => severity l = classify rt (volume_mm3 l) (probability l))
                       (lesions r)).
  { rewrite Hsort. eapply Permutation_Forall; [symmetry; apply PyList.sort_perm|].
    eapply label_order_Forall; [exact Hls|]. reflexivity. }
  assert (Hbig : gt (volume_mm3 l) 500 = true).
  { rewrite List.Forall_forall in Hcl. rewrite (Hcl l Hl) in Halta.
    now apply classify_alta in Halta. }
  assert (Hsorted : StronglySorted (fun a b => ge (volume_mm3 a) (volume_mm3 b) = true)
                                   (lesions r)).
  { rewrite Hsort. apply sort_by_volume_descending.
    eapply Permutation_Forall; [apply (PyList.sort_perm volume_lt true)|].
    fold (sort_by_volume ls). rewrite <- Hsort. exact Hnum. }
  destruct (lesions r) as [|first rest]; [destruct Hl|].
  exists first, rest. split; [reflexivity|].
  inversion Hsorted as [|? ? _ Hfirst]; subst. split; [|exact Hfirst].
  destruct Hl as [->|Hl]; [exact Hbig|].
  rewrite List.Forall_forall in Hfirst. specialize (Hfirst l Hl).
  now apply (gt_leb_trans (volume_mm3 l)).
Qed.

Lemma monotone_witness :
  (severity_level (classify demo_runtime 300 0.5)
   <= severity_level (classify demo_runtime 600 0.8))%nat
  /\ (severity_level (classify recent_runtime 300 0.5)
      <= severity_level (classify recent_runtime 600 0.8))%nat.
Proof.
  split.
  - apply (severity_is_monotone demo_runtime 300 0.5 600 0.8); reflexivity.
  - apply (severity_is_monotone recent_runtime 300 0.5 600 0.8); reflexivity.
Defined.

Lemma large_lesion_witness :
  exists r first rest,
    _process_results demo_components demo_mean demo_runtime demo_probability
                     "2024-01-01 10:00:00" = Some r
    /\ lesions r = first :: rest
    /\ lesion_id first = 2
    /\ gt (volume_mm3 first) 500 = true
    /\ Forall (fun l => ge (volume_mm3 first) (volume_mm3 l) = true) rest.
Proof.
  destruct (significant_result_starts_with_a_large_lesion
              demo_components demo_mean demo_runtime demo_probability
              "2024-01-01 10:00:00" _ eq_refl) as (first & rest & E & Hbig & Hrest).
  - repeat constructor.
  - reflexivity.
  - eexists _, first, rest. split; [reflexivity|]. split; [exact E|].
    split; [now injection E as <- _|]. now split.
Defined.

End PredictionFacts.

(* ===================================================================== *)
(** ** The case manager: what its methods do to a case *)
(* ===================================================================== *)

Module CaseFacts.
Import Py CaseManager.
Local Open Scope py_scope.
Local Open Scope string_scope.
Local Open Scope list_scope.
Local Open Scope Z_scope.

(** *** Open cases and the current case *)

(** The current case is the last case of the list, and there is none
    when the list is empty. *)
Definition current_is_last (w : world) : Prop :=
  current_case_index w = Z.of_nat (length (cases w)) - 1.

Definition state_ok (w : world) : Prop := current_is_last w /\ cases_are_objects w.

Lemma state_ok_manager_ok w : state_ok w -> manager_ok w.
Proof.
  unfold state_ok, current_is_last. intros [H Hc]. split; [|exact Hc].
  unfold index_valid. revert H.
  destruct (cases w); intros H; [left|right]; cbn [length] in *; lia.
Qed.

Lemma keeps_state_ok {A} (m : M world A) w :
  keeps_cases m -> state_ok w -> state_ok (after m w).
Proof.
  intros Hm [Hi Hc]. destruct (Hm w) as [H1 H2].
  unfold state_ok, current_is_last, cases_are_objects, after. now rewrite H1, H2.
Qed.

Lemma appends_state_ok (m : M world value) w :
  appends_case m -> state_ok w -> state_ok (after m w).
Proof.
  intros Hm [Hi Hc]. specialize (Hm w). unfold after.
  destruct (m w) as [[c|e] w1]; cbn.
  - destruct Hm as (H1 & H2 & H3).
    unfold state_ok, current_is_last, cases_are_objects. rewrite H1, H2. split.
    + rewrite length_app. cbn. lia.
    + apply List.Forall_app. split; [exact Hc|]. now constructor.
  - destruct Hm as [H1 H2].
    unfold state_ok, current_is_last, cases_are_objects. now rewrite H1, H2.
Qed.

Lemma close_current_case_state_ok w : state_ok w -> state_ok (after close_current_case w).
Proof.
  intros Hs. pose proof (close_current_case_ok w (state_ok_manager_ok w Hs)) as [_ Hobj].
  split; [|exact Hobj]. destruct Hs as [Hi _].
  unfold current_is_last, after, close_current_case in *. cbn in *.
  destruct (no_current_case _ _) eqn:E; cbn; [exact Hi|].
  apply no_current_case_false in E.
  set (i := current_case_index w) in *. set (cs := cases w) in *.
  assert (Hlen : length (firstn (Z.to_nat i) cs ++ skipn (S (Z.to_nat i)) cs)
                 = (length cs - 1)%nat) by (apply removal_length; lia).
  rewrite Hlen.
  destruct (Z.of_nat (length cs - 1) =? 0) eqn:E0; cbn.
  - cbn [cases current_case_index]. apply Z.eqb_eq in E0. rewrite Hlen. lia.
  - apply Z.eqb_neq in E0.
    destruct (i >=? Z.of_nat (length cs - 1)) eqn:E1; cbn;
      cbn [cases current_case_index]; rewrite Hlen.
    + lia.
    + rewrite Z.geb_leb, Z.leb_gt in E1. lia.
Qed.

Lemma nth_error_last {A} (xs : list A) (d : A) :
  xs <> [] -> nth_error xs (length xs - 1) = Some (List.last xs d).
Proof.
  induction xs as [|x xs IH]; [easy|]. intros _.
  destruct xs as [|y xs]; [reflexivity|].
  change (List.last (x :: y :: xs) d) with (List.last (y :: xs) d).
  rewrite <- IH by discriminate. cbn [length].
  replace (S (S (length xs)) - 1)%nat with (S (length xs)) by lia.
  replace (S (length xs) - 1)%nat with (length xs) by lia. reflexivity.
Qed.

Section Reachable.

Variable load_medical_image : string -> option image_info.
Variable can_open_for_writing : string -> bool.
Variable TEMP_DIR : string.
Variable py_str : heap -> value -> string.

Let run := run load_medical_image can_open_for_writing TEMP_DIR py_str.
Let run_all := run_all load_medical_image can_open_for_writing TEMP_DIR py_str.

Lemma run_state_ok c w : state_ok w -> state_ok (run c w).
Proof.
  intros H. destruct c; cbn [run CaseManager.run].
  - now apply appends_state_ok; [apply load_case_appends|].
  - now apply keeps_state_ok; [apply keeps_get_case_count|].
  - now apply keeps_state_ok; [apply keeps_get_current_case|].
  - now apply close_current_case_state_ok.
  - split; [reflexivity|constructor].
  - now apply keeps_state_ok; [apply keeps_has_open_cases|].
  - now apply keeps_state_ok; [apply keeps_current_case_has_changes|].
  - now apply keeps_state_ok; [apply keeps_save_current_case|].
  - now apply appends_state_ok; [apply load_case_from_file_appends|].
  - now apply keeps_state_ok; [apply keeps_add_file|].
  - now apply keeps_state_ok; [apply keeps_update_metadata|].
  - now apply keeps_state_ok; [apply keeps_set_prediction|].
  - now apply keeps_state_ok; [apply keeps_get_prediction|].
  - now apply keeps_state_ok; [apply keeps_get_file_paths|].
  - now apply keeps_state_ok; [apply keeps_remove_file|].
Qed.

Lemma run_all_state_ok cs w : state_ok w -> state_ok (run_all cs w).
Proof.
  revert w. induction cs as [|c cs IH]; intros w H; cbn; [exact H|].
  apply IH. now apply run_state_ok.
Qed.

(** After every sequence of calls of the manager's methods, starting
    from [__init__], the current case is the last case of the list: the
    index is the length of the list minus one, which is [-1] exactly when
    no case is open, and [get_current_case()] returns the case opened
    last among those still open. [has_open_cases()] is [True] exactly
    when [get_current_case()] returns a case, and [False] exactly when it
    returns [None]. *)
Theorem current_case_is_the_last_case (calls : list call) :
  let w := run_all calls init in
  current_case_index w = Z.of_nat (length (cases w)) - 1
  /\ fst (get_current_case w) = Ok (List.last (cases w) VNone)
  /\ (fst (has_open_cases w) = Ok true
      <-> exists c, fst (get_current_case w) = Ok c /\ c <> VNone)
  /\ (fst (has_open_cases w) = Ok false <-> fst (get_current_case w) = Ok VNone).
Proof.
  intros w.
  assert (Hs : state_ok w).
  { apply run_all_state_ok. split; [reflexivity|constructor]. }
  pose proof (get_current_case_none w (state_ok_manager_ok w Hs)) as Hnone.
  destruct Hs as [Hi Hobj]. unfold current_is_last in Hi.
  assert (Hopen : fst (has_open_cases w) = Ok (0 <? Z.of_nat (length (cases w))))
    by reflexivity.
  assert (Hcur : fst (get_current_case w) = Ok (List.last (cases w) VNone)).
  { unfold get_current_case. cbn. destruct (no_current_case _ _) eqn:E; cbn.
    - destruct (cases w) as [|c cs] eqn:Ecs; [reflexivity|].
      exfalso. enough (no_current_case (current_case_index w) (c :: cs) = false)
        by congruence.
      apply no_current_case_false. rewrite Hi. cbn [length]. lia.
    - apply no_current_case_false in E.
      unfold case_at, index_list.
      replace ((0 <=? current_case_index w)
               && (current_case_index w <? Z.of_nat (length (cases w))))
        with true by (symmetry; apply andb_true_iff; split;
                      [apply Z.leb_le|apply Z.ltb_lt]; lia).
      replace (Z.to_nat (current_case_index w)) with (length (cases w) - 1)%nat by lia.
      rewrite (nth_error_last _ VNone); [reflexivity|].
      intros H0. rewrite H0 in E. cbn in E. lia. }
  split; [exact Hi|]. split; [exact Hcur|]. split.
  - rewrite Hopen. split.
    + intros [= H]. apply Z.ltb_lt in H.
      exists (List.last (cases w) VNone). split; [exact Hcur|].
      intros Hl. rewrite Hl in Hcur. apply Hnone in Hcur. lia.
    + intros (c' & Hc' & Hne). f_equal. apply Z.ltb_lt.
      destruct (cases w) as [|c cs]; [|cbn [length]; lia].
      exfalso. apply Hne. rewrite Hcur in Hc'. now injection Hc'.
  - rewrite Hopen, Hnone. split.
    + intros [= H]. apply Z.ltb_ge in H. lia.
    + intros H. f_equal. apply Z.ltb_ge. lia.
Qed.

End Reachable.

(** *** Closing the current case *)

Lemma nth_error_removal {A} (xs : list A) (i j : nat) :
  nth_error (firstn i xs ++ skipn (S i) xs) j
  = if (j <? i)%nat then nth_error xs j else nth_error xs (S j).
Proof.
  destruct (Nat.ltb_spec j i) as [Hlt|Hge].
  - destruct (Nat.le_gt_cases (length xs) i) as [Hlen|Hlen].
    + rewrite firstn_all2, skipn_all2, app_nil_r by lia. reflexivity.
    + rewrite nth_error_app1 by (rewrite length_firstn; lia).
      rewrite nth_error_firstn.
      now replace (j <? i)%nat with true by (symmetry; apply Nat.ltb_lt; lia).
  - destruct (Nat.le_gt_cases (length xs) i) as [Hlen|Hlen].
    + rewrite firstn_all2, skipn_all2, app_nil_r by lia.
      transitivity (@None A); [|symmetry]; apply nth_error_None; lia.
    + rewrite nth_error_app2 by (rewrite length_firstn; lia).
      rewrite length_firstn, nth_error_skipn. f_equal. lia.
Qed.

(** [close_current_case] removes the current case from the list and
    nothing else. If it was the only case the index becomes [-1]; if it
    was the last of several, the case before it becomes current; otherwise
    the index stays and the case that followed becomes current. *)
Theorem close_current_case_moves_to_neighbour (w : world) :
  0 <= current_case_index w < Z.of_nat (length (cases w)) ->
  let i := current_case_index w in
  let n := Z.of_nat (length (cases w)) in
  let w' := after close_current_case w in
  cases w' = firstn (Z.to_nat i) (cases w) ++ skipn (S (Z.to_nat i)) (cases w)
  /\ current_case_index w' = (if n =? 1 then -1 else if i =? n - 1 then n - 2 else i)
  /\ (i < n - 1 ->
      fst (get_current_case w') = fst (case_at (cases w) (i + 1) w))
  /\ (1 < n -> i = n - 1 ->
      fst (get_current_case w') = fst (case_at (cases w) (i - 1) w))
  /\ objects w' = objects w
  /\ disk w' = disk w.
Proof.
  intros Hi i n w'.
  assert (Hno : no_current_case i (cases w) = false) by now apply no_current_case_false.
  assert (Hlen : length (firstn (Z.to_nat i) (cases w) ++ skipn (S (Z.to_nat i)) (cases w))
                 = (length (cases w) - 1)%nat) by (apply removal_length; lia).
  assert (Hw' : w' = {| objects := objects w;
                        cases := firstn (Z.to_nat i) (cases w)
                                 ++ skipn (S (Z.to_nat i)) (cases w);
                        current_case_index :=
                          if n =? 1 then -1 else if i =? n - 1 then n - 2 else i;
                        disk := disk w |}).
  { unfold w', after, close_current_case. cbn. fold i. rewrite Hno. cbn.
    rewrite Hlen.
    replace (Z.of_nat (length (cases w) - 1)) with (n - 1) by (unfold n; lia).
    destruct (Z.eqb_spec (n - 1) 0) as [E0|E0]; cbn.
    - now replace (n =? 1) with true by (symmetry; apply Z.eqb_eq; lia).
    - replace (n =? 1) with false by (symmetry; apply Z.eqb_neq; lia).
      destruct (Z.eqb_spec i (n - 1)) as [E1|E1].
      + replace (i >=? n - 1) with true by (symmetry; rewrite Z.geb_leb; apply Z.leb_le; lia).
        cbn. f_equal. lia.
      + now replace (i >=? n - 1) with false
          by (symmetry; rewrite Z.geb_leb; apply Z.leb_gt; unfold n; lia). }
  rewrite Hw'. cbn [cases current_case_index objects disk].
  split; [reflexivity|]. split; [reflexivity|].
  assert (Hget : forall j, 0 <= j < n - 1 ->
            fst (get_current_case
                   {| objects := objects w;
                      cases := firstn (Z.to_nat i) (cases w)
                               ++ skipn (S (Z.to_nat i)) (cases w);
                      current_case_index := j; disk := disk w |})
            = match nth_error (firstn (Z.to_nat i) (cases w)
                               ++ skipn (S (Z.to_nat i)) (cases w)) (Z.to_nat j) with
              | Some c => Ok c
              | None => Raise IndexError
              end).
  { intros j Hj. unfold get_current_case. cbn.
    replace (no_current_case j _) with false
      by (symmetry; apply no_current_case_false; rewrite Hlen; unfold n in Hj; lia).
    unfold case_at, index_list. rewrite Hlen.
    replace ((0 <=? j) && (j <? Z.of_nat (length (cases w) - 1))) with true
      by (symmetry; apply andb_true_iff; split;
          [apply Z.leb_le|apply Z.ltb_lt]; unfold n in Hj; lia).
    now destruct (nth_error _ _). }
  assert (Hat : forall j, 0 <= j < n ->
            fst (case_at (cases w) j w)
            = match nth_error (cases w) (Z.to_nat j) with
              | Some c => Ok c
              | None => Raise IndexError
              end).
  { intros j Hj. unfold case_at, index_list. fold n.
    replace ((0 <=? j) && (j <? n)) with true
      by (symmetry; apply andb_true_iff; split; [apply Z.leb_le|apply Z.ltb_lt]; lia).
    now destruct (nth_error _ _). }
  split; [|split; [|now split]].
  - intros Hlt.
    replace (n =? 1) with false by (symmetry; apply Z.eqb_neq; lia).
    replace (i =? n - 1) with false by (symmetry; apply Z.eqb_neq; lia).
    rewrite Hget, Hat by lia. rewrite nth_error_removal.
    rewrite Nat.ltb_irrefl. now replace (Z.to_nat (i + 1)) with (S (Z.to_nat i)) by lia.
  - intros Hn Hlast.
    replace (n =? 1) with false by (symmetry; apply Z.eqb_neq; lia).
    replace (i =? n - 1) with true by (symmetry; apply Z.eqb_eq; lia).
    rewrite Hget, Hat by lia. rewrite nth_error_removal.
    replace (Z.to_nat (n - 2) <? Z.to_nat i)%nat with true
      by (symmetry; apply Nat.ltb_lt; lia).
    now replace (i - 1) with (n - 2) by lia.
Qed.

(** *** Working on the current case *)

(** The first lines of every method that needs a current case. *)
Lemma enter_current_case {A} (k : value -> M world A) (otherwise : M world A) w c :
  no_current_case (current_case_index w) (cases w) = false ->
  index_list (cases w) (current_case_index w) = Some c ->
  (let* i := get_index in
   let* cs := get_cases in
   if no_current_case i cs then otherwise
   else let* current_case := case_at cs i in k current_case) w
  = k c w.
Proof.
  intros Hcur Hcase. unfold bind, get_index, get_cases. cbn.
  rewrite Hcur. unfold case_at. now rewrite Hcase.
Qed.

Lemma without_current_case {A} (k : value -> M world A) (otherwise : M world A) w :
  no_current_case (current_case_index w) (cases w) = true ->
  (let* i := get_index in
   let* cs := get_cases in
   if no_current_case i cs then otherwise
   else let* current_case := case_at cs i in k current_case) w
  = otherwise w.
Proof. intros Hcur. unfold bind, get_index, get_cases. cbn. now rewrite Hcur. Qed.

(** The world with another heap. *)
Lemma with_objects_same w : with_objects (objects w) w = w.
Proof. now destruct w. Qed.

(** [touch]: the two lines that mark the case as modified. *)
Lemma touch_run (h : heap) lc cd t :
  h !! lc = Some (ODict cd) ->
  touch (VRef lc) t h
  = (Ok tt, <[lc := ODict (dict_set "has_changes" (VBool true)
                             (dict_set "modified_date" (VStr t) cd))]> h).
Proof.
  intros Hlc. unfold touch.
  erewrite bind_ok by (apply setitem_dict, Hlc).
  erewrite setitem_dict
    by (apply list_lookup_insert_eq; now apply lookup_lt_Some in Hlc).
  now rewrite list_insert_insert_eq.
Qed.

(** What [touch] leaves in the case dictionary. *)
Definition touched (t : string) (cd : dict) : dict :=
  dict_set "has_changes" (VBool true) (dict_set "modified_date" (VStr t) cd).

Lemma touched_get t cd k :
  dict_get k (touched t cd)
  = if String.eqb k "has_changes" then Some (VBool true)
    else if String.eqb k "modified_date" then Some (VStr t)
    else dict_get k cd.
Proof.
  unfold touched.
  destruct (String.eqb_spec k "has_changes") as [->|H1]; [apply dict_get_set_eq|].
  rewrite dict_get_set_ne by congruence.
  destruct (String.eqb_spec k "modified_date") as [->|H2]; [apply dict_get_set_eq|].
  now rewrite dict_get_set_ne by congruence.
Qed.

(** *** Prediction results of a case *)

(** [set_current_case_prediction_results] stores the dictionary it is
    given, not a copy, under ['prediction_results'] and marks the case as
    modified; [get_current_case_prediction_results] then returns that same
    dictionary. Without a current case the first returns [False] and
    changes nothing and the second returns [None], as it does for a case
    that has no results yet. *)
Theorem prediction_results_are_stored_by_reference :
  (forall results t w lc cd,
      no_current_case (current_case_index w) (cases w) = false ->
      index_list (cases w) (current_case_index w) = Some (VRef lc) ->
      objects w !! lc = Some (ODict cd) ->
      let w' := {| objects := <[lc := ODict (touched t (dict_set "prediction_results"
                                                         results cd))]> (objects w);
                   cases := cases w;
                   current_case_index := current_case_index w;
                   disk := disk w |} in
      set_current_case_prediction_results results t w = (Ok true, w')
      /\ get_current_case_prediction_results w' = (Ok results, w')
      /\ current_case_has_changes w' = (Ok (VBool true), w'))
  /\ (forall results t w,
        no_current_case (current_case_index w) (cases w) = true ->
        set_current_case_prediction_results results t w = (Ok false, w)
        /\ get_current_case_prediction_results w = (Ok VNone, w))
  /\ (forall w lc cd,
        no_current_case (current_case_index w) (cases w) = false ->
        index_list (cases w) (current_case_index w) = Some (VRef lc) ->
        objects w !! lc = Some (ODict cd) ->
        dict_get "prediction_results" cd = None ->
        fst (get_current_case_prediction_results w) = Ok VNone).
Proof.
  split; [|split].
  - intros results t w lc cd Hcur Hcase Hlc w'.
    assert (Hlt : (lc < length (objects w))%nat) by now apply lookup_lt_Some in Hlc.
    assert (Hlc' : objects w' !! lc
                   = Some (ODict (touched t (dict_set "prediction_results" results cd))))
      by now apply list_lookup_insert_eq.
    split; [|split].
    + unfold set_current_case_prediction_results.
      rewrite (enter_current_case _ _ w (VRef lc) Hcur Hcase).
      erewrite bind_ok.
      2:{ apply on_heap_run. erewrite bind_ok by (apply setitem_dict, Hlc).
          apply touch_run. now apply list_lookup_insert_eq. }
      cbn. unfold w'. now rewrite list_insert_insert_eq.
    + unfold get_current_case_prediction_results.
      rewrite (enter_current_case _ _ w' (VRef lc) Hcur Hcase).
      unfold on_heap, get_default. cbn [object_of]. rewrite Hlc'.
      rewrite touched_get. cbn. now rewrite dict_get_set_eq.
    + unfold current_case_has_changes.
      rewrite (enter_current_case _ _ w' (VRef lc) Hcur Hcase).
      unfold on_heap, get_default. cbn [object_of]. rewrite Hlc'.
      now rewrite touched_get.
  - intros results t w Hcur. split.
    + unfold set_current_case_prediction_results. now rewrite without_current_case.
    + unfold get_current_case_prediction_results. now rewrite without_current_case.
  - intros w lc cd Hcur Hcase Hlc Hnone.
    unfold get_current_case_prediction_results.
    rewrite (enter_current_case _ _ w (VRef lc) Hcur Hcase).
    unfold on_heap, get_default. cbn [object_of]. now rewrite Hlc, Hnone.
Qed.

(** *** Saves that do not write *)

(** [save_current_case] returns [False] and changes nothing when there
    is no current case. When the file cannot be opened it returns [False]
    and leaves the disk, the file records and ['has_changes'] alone, but
    the case has already got its new ['modified_date']. When no path is
    given and the case has no ['id'], the [KeyError] of the line that
    builds the default path is raised to the caller: that line is not
    inside the [try]. *)
Theorem save_current_case_without_writing
    (can_open_for_writing : string -> bool) (TEMP_DIR : string)
    (py_str : heap -> value -> string) :
  (forall file_path t w,
      no_current_case (current_case_index w) (cases w) = true ->
      save_current_case can_open_for_writing TEMP_DIR py_str file_path t w = (Ok false, w))
  /\ (forall file_path p t w lc cd,
        no_current_case (current_case_index w) (cases w) = false ->
        index_list (cases w) (current_case_index w) = Some (VRef lc) ->
        objects w !! lc = Some (ODict cd) ->
        fst (resolve_path TEMP_DIR py_str file_path (VRef lc) w) = Ok p ->
        can_open_for_writing p = false ->
        save_current_case can_open_for_writing TEMP_DIR py_str file_path t w
        = (Ok false,
           {| objects := <[lc := ODict (dict_set "modified_date" (VStr t) cd)]> (objects w);
              cases := cases w;
              current_case_index := current_case_index w;
              disk := disk w |}))
  /\ (forall file_path t w lc cd,
        no_current_case (current_case_index w) (cases w) = false ->
        index_list (cases w) (current_case_index w) = Some (VRef lc) ->
        objects w !! lc = Some (ODict cd) ->
        dict_get "id" cd = None ->
        file_path = None \/ file_path = Some "" ->
        save_current_case can_open_for_writing TEMP_DIR py_str file_path t w
        = (Raise KeyError, w)).
Proof.
  split; [|split].
  - intros file_path t w Hcur. unfold save_current_case.
    now rewrite without_current_case.
  - intros file_path p t w lc cd Hcur Hcase Hlc Hpath Hopen.
    unfold save_current_case.
    rewrite (enter_current_case _ _ w (VRef lc) Hcur Hcase).
    erewrite bind_ok by (apply (resolve_path_run _ _ _ _ cd); [exact Hlc|exact Hpath]).
    unfold try_except.
    erewrite bind_ok by (apply on_heap_run, setitem_dict, Hlc).
    erewrite bind_raise; [reflexivity|].
    unfold open_for_writing. rewrite Hopen. reflexivity.
  - intros file_path t w lc cd Hcur Hcase Hlc Hid Hfp.
    unfold save_current_case.
    rewrite (enter_current_case _ _ w (VRef lc) Hcur Hcase).
    assert (Hd : default_path TEMP_DIR py_str (VRef lc) w
                 = (Raise KeyError, with_objects (objects w) w)).
    { unfold default_path. erewrite bind_raise; [reflexivity|].
      apply on_heap_run. unfold getitem. cbn [object_of]. now rewrite Hlc, Hid. }
    rewrite with_objects_same in Hd.
    erewrite bind_raise; [reflexivity|].
    unfold resolve_path. destruct Hfp as [-> | ->]; exact Hd.
Qed.

(** *** Removing a file *)

(** [remove_file_from_current_case] checks the index against the list:
    a negative index, or one that is not below the number of files,
    gives [False] and changes nothing (a negative index never counts from
    the end). Otherwise exactly that file record leaves the list, the case
    is marked as modified, and the method returns [True]. *)
Theorem remove_file_checks_the_index file_index t w lc cd lf fs :
  no_current_case (current_case_index w) (cases w) = false ->
  index_list (cases w) (current_case_index w) = Some (VRef lc) ->
  objects w !! lc = Some (ODict cd) ->
  dict_get "files" cd = Some (VRef lf) ->
  objects w !! lf = Some (OList fs) ->
  (file_index < 0 \/ Z.of_nat (length fs) <= file_index ->
   remove_file_from_current_case file_index t w = (Ok false, w))
  /\ (0 <= file_index < Z.of_nat (length fs) ->
      let i := Z.to_nat file_index in
      remove_file_from_current_case file_index t w
      = (Ok true,
         {| objects := <[lc := ODict (touched t cd)]>
                         (<[lf := OList (firstn i fs ++ skipn (S i) fs)]> (objects w));
            cases := cases w;
            current_case_index := current_case_index w;
            disk := disk w |})).
Proof.
  intros Hcur Hcase Hlc Hfiles Hlf.
  assert (Hne : lf <> lc) by (intros ->; congruence).
  assert (Hstart :
    remove_file_from_current_case file_index t w
    = (if (file_index <? 0) || (file_index >=? Z.of_nat (length fs)) then ret false
       else on_heap (let* files := getitem (VRef lc) "files" in
                     delitem_int files (Z.to_nat file_index) ;;
                     touch (VRef lc) t) ;; ret true) w).
  { unfold remove_file_from_current_case.
    rewrite (enter_current_case _ _ w (VRef lc) Hcur Hcase).
    erewrite bind_ok
      by (apply on_heap_run; apply (getitem_dict _ _ cd); [exact Hlc|exact Hfiles]).
    rewrite with_objects_same.
    erewrite bind_ok.
    2:{ apply on_heap_run. unfold len. cbn [object_of]. now rewrite Hlf. }
    now rewrite with_objects_same. }
  rewrite Hstart. split.
  - intros Hout.
    replace ((file_index <? 0) || (file_index >=? Z.of_nat (length fs))) with true;
      [reflexivity|].
    symmetry. apply orb_true_iff. rewrite Z.ltb_lt, Z.geb_leb, Z.leb_le. lia.
  - intros Hin i.
    replace ((file_index <? 0) || (file_index >=? Z.of_nat (length fs))) with false.
    2:{ symmetry. apply orb_false_iff. rewrite Z.ltb_ge, Z.geb_leb, Z.leb_gt. lia. }
    erewrite bind_ok; [reflexivity|].
    apply on_heap_run.
    erewrite bind_ok by (apply (getitem_dict _ _ cd); [exact Hlc|exact Hfiles]).
    erewrite bind_ok.
    2:{ unfold delitem_int. cbn [object_of]. rewrite Hlf.
        replace (Z.to_nat file_index <? length fs)%nat with true
          by (symmetry; apply Nat.ltb_lt; lia).
        reflexivity. }
    apply touch_run. rewrite list_lookup_insert_ne by exact Hne. exact Hlc.
Qed.

(** *** Adding a file *)

(** The record [_process_file] makes for a file the loader can read: a
    new dictionary at the end of the heap. *)
Lemma process_file_run (load_medical_image : string -> option image_info) p info h :
  load_medical_image p = Some info ->
  exists ext l d,
    _process_file load_medical_image p h = (Ok (VRef l), h ++ ext)
    /\ (length h <= l)%nat
    /\ (h ++ ext) !! l = Some (ODict d)
    /\ dict_get "path" d = Some (VStr p)
    /\ dict_get "format" d = Some (VStr (image_format info))
    /\ dict_get "loaded_with" d = Some (VStr (image_loaded_with info))
    /\ dict_get "sequence_type" d
       = Some (VStr (sequence_type_of_name (PyStr.lower (PyStr.basename p))))
    /\ (exists a, dict_get "array" d = Some a
                  /\ if image_has_array info
                     then exists la, a = VRef la /\ (h ++ ext) !! la = Some OArray
                     else a = VNone).
Proof.
  intros Hload. unfold _process_file. rewrite Hload. unfold build_file_info.
  set (h1 := if image_has_array info then h ++ [OArray] else h).
  set (array := if image_has_array info then VRef (length h) else VNone).
  assert (Harray : (if image_has_array info then alloc OArray else ret VNone) h
                   = (Ok array, h1)).
  { unfold h1, array. now destruct (image_has_array info). }
  assert (Hh1 : exists e0, h1 = h ++ e0
                           /\ if image_has_array info then e0 = [OArray] else e0 = []).
  { unfold h1. destruct (image_has_array info); [now exists [OArray]|].
    exists []. now rewrite app_nil_r. }
  destruct Hh1 as (e0 & Hh1 & He0).
  destruct (build_dict_spec (image_metadata info) h1) as (lm & dm & e1 & Hb & Hlm & _ & Hge).
  set (d0 := [("path", VStr p); ("format", VStr (image_format info));
              ("loaded_with", VStr (image_loaded_with info)); ("array", array);
              ("metadata", VRef lm)]).
  set (st := VStr (sequence_type_of_name (PyStr.lower (PyStr.basename p)))).
  exists (e0 ++ e1 ++ [ODict (dict_set "sequence_type" st d0)]),
         (length (h1 ++ e1)), (dict_set "sequence_type" st d0).
  assert (Heq : h ++ e0 ++ e1 ++ [ODict (dict_set "sequence_type" st d0)]
                = (h1 ++ e1) ++ [ODict (dict_set "sequence_type" st d0)]).
  { rewrite Hh1. now rewrite <- !app_assoc. }
  rewrite Heq.
  split; [|split; [|split; [|repeat split; try reflexivity]]].
  - erewrite bind_ok.
    2:{ erewrite bind_ok by exact Harray. erewrite bind_ok by exact Hb. reflexivity. }
    erewrite bind_ok by (apply setitem_dict, lookup_alloc_new).
    cbn [ret]. now rewrite insert_last.
  - rewrite Hh1, !length_app. lia.
  - apply lookup_alloc_new.
  - exists array. split; [reflexivity|]. unfold array.
    destruct (image_has_array info); [|reflexivity].
    exists (length h). split; [reflexivity|]. subst e0.
    rewrite Hh1, <- !app_assoc. apply list_lookup_middle. reflexivity.
Qed.

(** [add_file_to_current_case] raises [ValueError] without a current
    case, and also when the loader cannot read the file, in which case the
    case is left as it was, unmarked. When the loader reads the file, its
    record, with the sequence type of its name, is appended to the
    ['files'] of the current case, the case is marked as modified and the
    method returns [True]. *)
Theorem add_file_outcomes (load_medical_image : string -> option image_info) :
  (forall p t w,
      no_current_case (current_case_index w) (cases w) = true ->
      add_file_to_current_case load_medical_image p t w
      = (Raise (ValueError "No hay caso actual"), w))
  /\ (forall p t w c,
        no_current_case (current_case_index w) (cases w) = false ->
        index_list (cases w) (current_case_index w) = Some c ->
        load_medical_image p = None ->
        add_file_to_current_case load_medical_image p t w
        = (Raise (ValueError "No se pudo añadir el archivo"), w))
  /\ (forall p t w lc cd lf fs info,
        no_current_case (current_case_index w) (cases w) = false ->
        index_list (cases w) (current_case_index w) = Some (VRef lc) ->
        objects w !! lc = Some (ODict cd) ->
        dict_get "files" cd = Some (VRef lf) ->
        objects w !! lf = Some (OList fs) ->
        load_medical_image p = Some info ->
        exists ext l d,
          add_file_to_current_case load_medical_image p t w
          = (Ok true,
             {| objects := <[lc := ODict (touched t cd)]>
                             (<[lf := OList (fs ++ [VRef l])]> (objects w ++ ext));
                cases := cases w;
                current_case_index := current_case_index w;
                disk := disk w |})
          /\ (length (objects w) <= l)%nat
          /\ (objects w ++ ext) !! l = Some (ODict d)
          /\ dict_get "path" d = Some (VStr p)
          /\ dict_get "sequence_type" d
             = Some (VStr (sequence_type_of_name (PyStr.lower (PyStr.basename p))))).
Proof.
  split; [|split].
  - intros p t w Hcur. unfold add_file_to_current_case.
    now rewrite without_current_case.
  - intros p t w c Hcur Hcase Hload. unfold add_file_to_current_case.
    rewrite (enter_current_case _ _ w c Hcur Hcase).
    unfold try_except. erewrite bind_raise; [reflexivity|].
    rewrite <- (with_objects_same w) at 2. apply on_heap_run.
    erewrite bind_raise; [reflexivity|].
    unfold _process_file. now rewrite Hload.
  - intros p t w lc cd lf fs info Hcur Hcase Hlc Hfiles Hlf Hload.
    destruct (process_file_run load_medical_image p info (objects w) Hload)
      as (ext & l & d & Hrun & Hl & Hd & Hpath & _ & _ & Hseq & _).
    assert (Hne : lf <> lc) by (intros ->; congruence).
    exists ext, l, d. split; [|now repeat split].
    unfold add_file_to_current_case.
    rewrite (enter_current_case _ _ w (VRef lc) Hcur Hcase).
    unfold try_except. erewrite bind_ok; [reflexivity|].
    apply on_heap_run.
    erewrite bind_ok by exact Hrun.
    erewrite bind_ok
      by (apply (getitem_dict _ _ cd); [apply lookup_app_l_Some, Hlc|exact Hfiles]).
    erewrite bind_ok by (apply append_list, lookup_app_l_Some, Hlf).
    apply touch_run. rewrite list_lookup_insert_ne by exact Hne.
    apply lookup_app_l_Some, Hlc.
Qed.

(** *** Updating the metadata *)

Lemma dict_get_absent k (d : dict) : ~ In k (map fst d) -> dict_get k d = None.
Proof.
  induction d as [|[k' v'] d IH]; cbn; [reflexivity|]. intros H.
  destruct (String.eqb_spec k k') as [->|Hne]; [tauto|]. apply IH. tauto.
Qed.

(** [d.update(other)]: the entries of [other] win. *)
Lemma dict_get_update k (other : dict) : forall d,
  NoDup (map fst other) ->
  dict_get k (dict_update d other)
  = match dict_get k other with
    | Some v => Some v
    | None => dict_get k d
    end.
Proof.
  unfold dict_update. induction other as [|[k' v'] other IH]; intros d Hnd; cbn.
  - reflexivity.
  - apply NoDup_cons in Hnd as [Hk' Hnd]. rewrite IH by exact Hnd. cbn.
    destruct (String.eqb_spec k k') as [->|Hne].
    + rewrite dict_get_absent by (intros H; now apply Hk', list_elem_of_In).
      apply dict_get_set_eq.
    + destruct (dict_get k other); [reflexivity|]. apply dict_get_set_ne. congruence.
Qed.

(** [update_current_case_metadata] merges the dictionary it is given
    into the ['metadata'] of the current case: a key of the argument gets
    the argument's value, every other key keeps its own; the case is
    marked as modified. Without a current case it returns [False] and
    changes nothing; with [None] as the argument the [TypeError] of
    [dict.update] reaches the caller and the case is not marked. *)
Theorem update_metadata_merges :
  (forall lu ud t w lc cd lm md,
      no_current_case (current_case_index w) (cases w) = false ->
      index_list (cases w) (current_case_index w) = Some (VRef lc) ->
      objects w !! lc = Some (ODict cd) ->
      dict_get "metadata" cd = Some (VRef lm) ->
      objects w !! lm = Some (ODict md) ->
      lm <> lc ->
      objects w !! lu = Some (ODict ud) ->
      NoDup (map fst ud) ->
      exists md',
        update_current_case_metadata (VRef lu) t w
        = (Ok true,
           {| objects := <[lc := ODict (touched t cd)]> (<[lm := ODict md']> (objects w));
              cases := cases w;
              current_case_index := current_case_index w;
              disk := disk w |})
        /\ forall k, dict_get k md' = match dict_get k ud with
                                      | Some v => Some v
                                      | None => dict_get k md
                                      end)
  /\ (forall metadata t w,
        no_current_case (current_case_index w) (cases w) = true ->
        update_current_case_metadata metadata t w = (Ok false, w))
  /\ (forall t w lc cd lm md,
        no_current_case (current_case_index w) (cases w) = false ->
        index_list (cases w) (current_case_index w) = Some (VRef lc) ->
        objects w !! lc = Some (ODict cd) ->
        dict_get "metadata" cd = Some (VRef lm) ->
        objects w !! lm = Some (ODict md) ->
        update_current_case_metadata VNone t w = (Raise TypeError, w)).
Proof.
  split; [|split].
  - intros lu ud t w lc cd lm md Hcur Hcase Hlc Hmeta Hlm Hne Hlu Hnd.
    exists (dict_update md ud). split; [|intros k; now apply dict_get_update].
    unfold update_current_case_metadata.
    rewrite (enter_current_case _ _ w (VRef lc) Hcur Hcase).
    erewrite bind_ok; [reflexivity|].
    apply on_heap_run.
    erewrite bind_ok by (apply (getitem_dict _ _ cd); [exact Hlc|exact Hmeta]).
    erewrite bind_ok.
    2:{ unfold update. cbn [object_of]. now rewrite Hlm, Hlu. }
    apply touch_run. now rewrite list_lookup_insert_ne.
  - intros metadata t w Hcur. unfold update_current_case_metadata.
    now rewrite without_current_case.
  - intros t w lc cd lm md Hcur Hcase Hlc Hmeta Hlm.
    unfold update_current_case_metadata.
    rewrite (enter_current_case _ _ w (VRef lc) Hcur Hcase).
    erewrite bind_raise; [reflexivity|].
    rewrite <- (with_objects_same w) at 2. apply on_heap_run.
    erewrite bind_ok by (apply (getitem_dict _ _ cd); [exact Hlc|exact Hmeta]).
    erewrite bind_raise; [reflexivity|].
    unfold update. cbn [object_of]. now rewrite Hlm.
Qed.

(** *** What [load_case_from_file] checks *)

Lemma build_items_keys kvs : forall h d h',
  build_items build kvs h = (Ok d, h') -> map fst d = map fst kvs.
Proof.
  induction kvs as [|kv kvs IH]; intros h d h'; cbn [build_items].
  - now intros [= <- _].
  - unfold bind at 1. destruct (build (snd kv) h) as [[v|e] h1]; [|discriminate].
    unfold bind at 1. fold (build_items build).
    destruct (build_items build kvs h1) as [[d1|e] h2] eqn:E; [|discriminate].
    intros [= <- _]. cbn. f_equal. now apply (IH h1 d1 h2).
Qed.

Lemma dict_set_has k k' v d :
  dict_has k (dict_set k' v d) = String.eqb k k' || dict_has k d.
Proof.
  unfold dict_has. destruct (String.eqb_spec k k') as [->|Hne].
  - now rewrite dict_get_set_eq.
  - rewrite dict_get_set_ne by congruence. reflexivity.
Qed.

Lemma dict_update_has k (other : dict) : forall d,
  dict_has k (dict_update d other)
  = dict_has k d || existsb (fun kv => String.eqb k (fst kv)) other.
Proof.
  unfold dict_update. induction other as [|[k' v'] other IH]; intros d; cbn.
  - now rewrite orb_false_r.
  - rewrite IH, dict_set_has. cbn.
    destruct (String.eqb k k'), (dict_has k d); reflexivity.
Qed.

Lemma entry_none_keys k kvs :
  entry k kvs = None -> existsb (fun kv : string * value => String.eqb k (fst kv))
                          (map (fun kt => (fst kt, VNone)) kvs) = false.
Proof.
  induction kvs as [|[k' t] kvs IH]; cbn; [reflexivity|].
  destruct (String.eqb k k'); [discriminate|]. exact IH.
Qed.

Lemma existsb_keys k (d d' : dict) :
  map fst d = map fst d' ->
  existsb (fun kv => String.eqb k (fst kv)) d
  = existsb (fun kv => String.eqb k (fst kv)) d'.
Proof.
  revert d'. induction d as [|kv d IH]; intros [|kv' d']; cbn; try discriminate;
    [reflexivity|].
  intros [= H1 H2]. rewrite H1. f_equal. now apply IH.
Qed.

Lemma all_in_false keys k h c :
  In k keys ->
  (forall k', exists b, contains k' c h = (Ok b, h)) ->
  contains k c h = (Ok false, h) ->
  all_in keys c h = (Ok false, h).
Proof.
  intros Hin Hall Hk. induction keys as [|k0 keys IH]; [easy|].
  cbn [all_in]. destruct (Hall k0) as [b Hb]. erewrite bind_ok by exact Hb.
  destruct b; [|reflexivity].
  destruct Hin as [->|Hin]; [congruence|]. now apply IH.
Qed.

(** [load_case_from_file] raises [ValueError] and leaves the case list,
    the index and the disk alone when the file is missing, holds no JSON
    document, or holds an object without one of ['id'], ['name'],
    ['files'], ['metadata']. The check is [key in case] and nothing else:
    an object that has the four keys becomes the current case whatever
    their values are. *)
Theorem load_case_from_file_checks_keys_only :
  (forall p w,
      disk w !! p = None \/ disk w !! p = Some Truncated ->
      load_case_from_file p w = (Raise (ValueError "No se pudo cargar el caso"), w))
  /\ (forall p w kvs k,
        disk w !! p = Some (Document (TDict kvs)) ->
        In k ["id"; "name"; "files"; "metadata"] ->
        entry k kvs = None ->
        exists h',
          load_case_from_file p w
          = (Raise (ValueError "No se pudo cargar el caso"), with_objects h' w))
  /\ (forall p w kvs,
        disk w !! p = Some (Document (TDict kvs)) ->
        is_json (TDict kvs) = true ->
        distinct_keys (TDict kvs) = true ->
        Forall (fun k => entry k kvs <> None) ["id"; "name"; "files"; "metadata"] ->
        exists l d h',
          load_case_from_file p w
          = (Ok (VRef l),
             {| objects := h';
                cases := cases w ++ [VRef l];
                current_case_index := Z.of_nat (length (cases w));
                disk := disk w |})
          /\ h' !! l = Some (ODict d)
          /\ map fst d = map fst kvs).
Proof.
  split; [|split].
  - intros p w Hdisk. unfold load_case_from_file, try_except, bind, json_load.
    now destruct Hdisk as [-> | ->].
  - intros p w kvs k Hdisk Hin Hnone.
    unfold load_case_from_file, try_except.
    destruct (is_json (TDict kvs)) eqn:Hj.
    2:{ exists (objects w). rewrite with_objects_same.
        unfold bind, json_load. now rewrite Hdisk, Hj. }
    destruct (build_items build kvs (objects w)) as [[d|e] h1] eqn:Hb.
    2:{ exfalso.
        assert (IH : Forall (fun kv => forall h, exists v h',
                                build (snd kv) h = (Ok v, h') /\ built h v h') kvs).
        { apply List.Forall_forall. intros kv _. apply build_spec. }
        destruct (build_items_spec kvs IH (objects w)) as (d & h2 & Hd & _). congruence. }
    set (h2 := h1 ++ [ODict (dict_update [] d)]).
    assert (S1 : json_load p w = (Ok (VRef (length h1)), with_objects h2 w)).
    { unfold json_load. rewrite Hdisk, Hj. apply on_heap_run.
      cbn [build]. erewrite bind_ok by exact Hb. reflexivity. }
    assert (Hl : h2 !! length h1 = Some (ODict (dict_update [] d))) by apply lookup_alloc_new.
    assert (S2 : on_heap (all_in ["id"; "name"; "files"; "metadata"] (VRef (length h1)))
                   (with_objects h2 w) = (Ok false, with_objects h2 w)).
    { apply on_heap_again. apply (all_in_false _ k); [exact Hin| |].
      - intros k'. eexists. apply (contains_dict _ _ _ _ Hl).
      - rewrite (contains_dict _ _ _ _ Hl). do 2 f_equal.
        rewrite dict_update_has. cbn [dict_has dict_get orb].
        rewrite (existsb_keys k d (map (fun kt => (fst kt, VNone)) kvs)).
        + now apply entry_none_keys.
        + rewrite (build_items_keys _ _ _ _ Hb), map_map. reflexivity. }
    exists h2. erewrite bind_ok by exact S1. erewrite bind_ok by exact S2. reflexivity.
  - intros p w kvs Hdisk Hj Hk Hkeys.
    destruct (load_case_from_file_document p w kvs Hdisk Hj Hk Hkeys)
      as (l & d & ext & Hload & Hl & Hent).
    exists l, d, (objects w ++ ext). split; [|split; [exact Hl|]].
    + rewrite Hload. do 3 f_equal. rewrite length_app. cbn. lia.
    + clear -Hent. induction Hent as [|kv kt d kvs [H _] _ IH]; [reflexivity|].
      cbn. now rewrite H, IH.
Qed.

(** *** The files of a loaded case *)

(** A record of the file [p]: a dictionary with the path and the sequence
    type of its name. *)
Definition is_file_of (h : heap) (p : string) (f : value) : Prop :=
  exists l d,
    f = VRef l /\ h !! l = Some (ODict d)
    /\ dict_get "path" d = Some (VStr p)
    /\ dict_get "sequence_type" d
       = Some (VStr (sequence_type_of_name (PyStr.lower (PyStr.basename p)))).

(** The paths the loader can read, in the order given. *)
Definition readable (load_medical_image : string -> option image_info)
    (ps : list string) : list string :=
  List.filter (fun p => match load_medical_image p with Some _ => true | None => false end)
              ps.

Lemma is_file_of_frame (h h' : heap) p f :
  (forall l o, h !! l = Some (ODict o) -> h' !! l = Some (ODict o)) ->
  is_file_of h p f -> is_file_of h' p f.
Proof. intros Hf (l & d & -> & Hl & H1 & H2). exists l, d. auto. Qed.

(** The loop of [load_case] on a case at [lc] whose ['files'] is the list
    at [n0]: the records of the readable paths are appended in order, and
    nothing else that was on the heap changes. *)
Lemma load_loop_content (load_medical_image : string -> option image_info)
    (n0 lc : loc) (cd : dict) ps : forall (h : heap) vs,
  h !! lc = Some (ODict cd) ->
  dict_get "files" cd = Some (VRef n0) ->
  h !! n0 = Some (OList vs) ->
  exists h' new,
    for_each ps (load_one load_medical_image (VRef lc)) h = (Ok tt, h')
    /\ h' !! n0 = Some (OList (vs ++ new))
    /\ Forall2 (fun f p => is_file_of h' p f) new (readable load_medical_image ps)
    /\ (forall l, (l < length h)%nat -> l <> n0 -> h' !! l = h !! l)
    /\ (length h <= length h')%nat.
Proof.
  induction ps as [|p ps IH]; intros h vs Hlc Hfiles Hn0.
  - exists h, []. rewrite app_nil_r. repeat split; trivial.
  - assert (Hne : n0 <> lc) by (intros ->; congruence).
    cbn [for_each readable List.filter]. fold (readable load_medical_image ps).
    destruct (load_medical_image p) as [info|] eqn:Hload.
    + destruct (process_file_run load_medical_image p info h Hload)
        as (ext & l & d & Hrun & Hl & Hd & Hpath & _ & _ & Hseq & _).
      set (h1 := <[n0 := OList (vs ++ [VRef l])]> (h ++ ext)).
      assert (Hone : load_one load_medical_image (VRef lc) p h = (Ok tt, h1)).
      { unfold load_one, try_except.
        erewrite bind_ok by exact Hrun.
        erewrite bind_ok
          by (apply (getitem_dict _ _ cd); [apply lookup_app_l_Some, Hlc|exact Hfiles]).
        erewrite append_list by (apply lookup_app_l_Some, Hn0). reflexivity. }
      assert (Hlen0 : (n0 < length h)%nat) by now apply lookup_lt_Some in Hn0.
      assert (Hlen1 : length h1 = length (h ++ ext)) by apply length_insert.
      assert (Hlc1 : h1 !! lc = Some (ODict cd)).
      { unfold h1. rewrite list_lookup_insert_ne by exact Hne.
        apply lookup_app_l_Some, Hlc. }
      assert (Hn01 : h1 !! n0 = Some (OList (vs ++ [VRef l]))).
      { apply list_lookup_insert_eq. rewrite length_app. lia. }
      destruct (IH h1 (vs ++ [VRef l]) Hlc1 Hfiles Hn01)
        as (h' & new & Hloop & Hn0' & Hnew & Hframe & Hlen).
      exists h', (VRef l :: new). split; [|split; [|split; [|split]]].
      * now erewrite bind_ok by exact Hone.
      * now rewrite <- app_assoc in Hn0'.
      * constructor; [|exact Hnew]. exists l, d. split; [reflexivity|].
        split; [|now split].
        rewrite Hframe.
        -- unfold h1. rewrite list_lookup_insert_ne by lia. exact Hd.
        -- rewrite Hlen1. now apply lookup_lt_Some in Hd.
        -- lia.
      * intros l' Hl' Hne'. rewrite Hframe; [|rewrite Hlen1, length_app; lia|exact Hne'].
        unfold h1. rewrite list_lookup_insert_ne by congruence.
        now apply lookup_app_l.
      * rewrite Hlen1, length_app in Hlen. lia.
    + assert (Hone : load_one load_medical_image (VRef lc) p h = (Ok tt, h)).
      { unfold load_one, try_except, _process_file. now rewrite Hload. }
      destruct (IH h vs Hlc Hfiles Hn0) as (h' & new & Hloop & Hrest).
      exists h', new. split; [|exact Hrest].
      now erewrite bind_ok by exact Hone.
Qed.

(** Reading a heap does not change it. *)
Lemma getitem_reads c k h r h' : getitem c k h = (r, h') -> h' = h.
Proof.
  unfold getitem. destruct (object_of h c) as [[d|vs|vs| ]|];
    try destruct (dict_get k d); now intros [= _ <-].
Qed.

Lemma iterate_reads c h r h' : iterate c h = (r, h') -> h' = h.
Proof.
  unfold iterate. destruct (object_of h c) as [[d|vs|vs| ]|]; try (now intros [= _ <-]).
  destruct c; now intros [= _ <-].
Qed.

Lemma truthy_reads v h r h' : truthy v h = (r, h') -> h' = h.
Proof.
  unfold truthy. destruct v; try (now intros [= _ <-]).
  destruct (h !! l) as [[d|vs|vs| ]|]; now intros [= _ <-].
Qed.

Lemma contains_reads k c h r h' : contains k c h = (r, h') -> h' = h.
Proof.
  unfold contains. destruct (object_of h c) as [[d|vs|vs| ]|]; try (now intros [= _ <-]).
  destruct c; now intros [= _ <-].
Qed.

Lemma getitem_int_reads c i h r h' : getitem_int c i h = (r, h') -> h' = h.
Proof.
  unfold getitem_int. destruct (object_of h c) as [[d|vs|vs| ]|];
    try destruct (index_list vs i); try (now intros [= _ <-]).
  destruct c; try (now intros [= _ <-]).
  destruct (index_list _ i); now intros [= _ <-].
Qed.

Lemma setitem_frame c k v (h : heap) r h' :
  setitem c k v h = (r, h') ->
  forall l, c <> VRef l -> h' !! l = h !! l.
Proof.
  unfold setitem. intros H l Hl.
  destruct c as [ | | | | |l0];
    try (destruct (object_of h _) as [[ | | | ]|]; injection H as _ <-; reflexivity).
  cbn [object_of] in H. destruct (h !! l0) as [[d|vs|vs| ]|]; injection H as _ <-;
    try reflexivity.
  apply list_lookup_insert_ne. congruence.
Qed.

(** [_extract_case_metadata] writes to the ['metadata'] of the case and
    to nothing else. *)
Lemma extract_field_frame case metadata needles field (h : heap) r h' lm :
  extract_field case metadata needles field h = (r, h') ->
  getitem case "metadata" h = (Ok (VRef lm), h) ->
  forall l, l <> lm -> h' !! l = h !! l.
Proof.
  unfold extract_field. intros H Hm l Hl. unfold bind in H.
  destruct (iterate metadata h) as [[keys|e] h1] eqn:E1;
    pose proof (iterate_reads _ _ _ _ E1) as ->; [|now injection H as _ <-].
  destruct (match find_key needles keys with
            | Some key => getitem metadata key
            | None => ret VNone
            end h) as [[found|e] h2] eqn:E2.
  2:{ injection H as _ <-. destruct (find_key needles keys);
        [now rewrite (getitem_reads _ _ _ _ _ E2)|discriminate]. }
  assert (h2 = h) as ->.
  { destruct (find_key needles keys); [now apply (getitem_reads _ _ _ _ _ E2)|].
    now injection E2 as _ <-. }
  destruct (truthy found h) as [[b|e] h3] eqn:E3;
    pose proof (truthy_reads _ _ _ _ E3) as ->; [|now injection H as _ <-].
  destruct b; [|now injection H as _ <-].
  rewrite Hm in H. apply (setitem_frame _ _ _ _ _ _ H). congruence.
Qed.

Lemma extract_case_metadata_frame lc (h : heap) r h' lm :
  _extract_case_metadata (VRef lc) h = (r, h') ->
  getitem (VRef lc) "metadata" h = (Ok (VRef lm), h) ->
  lc <> lm ->
  forall l, l <> lm -> h' !! l = h !! l.
Proof.
  unfold _extract_case_metadata. intros H Hm Hc l Hl. unfold bind in H.
  set (case := VRef lc) in *.
  destruct (getitem case "files" h) as [[files|e] h1] eqn:E1;
    pose proof (getitem_reads _ _ _ _ _ E1) as ->; [|now injection H as _ <-].
  destruct (truthy files h) as [[b|e] h2] eqn:E2;
    pose proof (truthy_reads _ _ _ _ E2) as ->; [|now injection H as _ <-].
  destruct b; cbn [negb] in H; [|now injection H as _ <-].
  rewrite E1 in H.
  destruct (getitem_int files 0 h) as [[first|e] h3] eqn:E3;
    pose proof (getitem_int_reads _ _ _ _ _ E3) as ->; [|now injection H as _ <-].
  destruct (contains "metadata" first h) as [[has|e] h4] eqn:E4;
    pose proof (contains_reads _ _ _ _ _ E4) as ->; [|now injection H as _ <-].
  destruct has; [|now injection H as _ <-].
  destruct (getitem first "metadata" h) as [[metadata|e] h5] eqn:E5;
    pose proof (getitem_reads _ _ _ _ _ E5) as ->; [|now injection H as _ <-].
  destruct (extract_field case metadata ["patientid"; "patient id"] "patient_id" h)
    as [[[]|e] h6] eqn:E6.
  - pose proof (extract_field_frame _ _ _ _ _ _ _ _ E6 Hm) as F6.
    assert (Hm6 : getitem case "metadata" h6 = (Ok (VRef lm), h6)).
    { revert Hm. unfold getitem, case. cbn [object_of]. rewrite (F6 lc Hc).
      destruct (h !! lc) as [[d| | | ]|]; try discriminate.
      destruct (dict_get "metadata" d); [|discriminate]. now intros [= ->]. }
    rewrite (extract_field_frame _ _ _ _ _ _ _ _ H Hm6 l Hl). now apply F6.
  - injection H as _ <-. now apply (extract_field_frame _ _ _ _ _ _ _ _ E6 Hm).
Qed.

(** [load_case] on a list of paths that is not empty. *)
Lemma load_case_content (load_medical_image : string -> option image_info)
    p ps a b c w :
  let n0 := length (objects w) in
  let lc := S (S n0) in
  exists (h' : heap) (fs : list value),
    Forall2 (fun f q => is_file_of h' q f) fs (readable load_medical_image (p :: ps))
    /\ h' !! n0 = Some (OList fs)
    /\ h' !! lc = Some (ODict (case_dict n0 (p :: ps) a b c))
    /\ (forall l, (l < n0)%nat -> h' !! l = objects w !! l)
    /\ load_case load_medical_image (p :: ps) a b c w
       = match fs with
         | [] => (Raise (ValueError
                    "No se pudo procesar ninguno de los archivos proporcionados"),
                  with_objects h' w)
         | _ :: _ =>
             (Ok (VRef lc),
              {| objects := h';
                 cases := cases w ++ [VRef lc];
                 current_case_index := Z.of_nat (length (cases w));
                 disk := disk w |})
         end.
Proof.
  intros n0 lc.
  set (cd := case_dict n0 (p :: ps) a b c).
  set (h0 := objects w ++ [OList []; ODict []; ODict cd]).
  destruct (lookup_three (objects w) (OList []) (ODict []) (ODict cd)) as (H0 & H1 & H2).
  fold n0 h0 in H0, H1, H2. fold lc in H2.
  assert (Hlen0 : length h0 = S lc) by (unfold h0, lc, n0; rewrite length_app; cbn; lia).
  destruct (load_loop_content load_medical_image n0 lc cd (p :: ps) h0 [] H2 eq_refl H0)
    as (h1 & new & Hloop & Hn01 & Hnew & Hframe & Hlen1).
  cbn [app] in Hn01.
  assert (Hlc1 : h1 !! lc = Some (ODict cd)).
  { rewrite Hframe; [exact H2|lia|unfold lc; lia]. }
  assert (Hm1 : h1 !! S n0 = Some (ODict [])).
  { rewrite Hframe; [exact H1|unfold lc in *; lia|lia]. }
  assert (Hold1 : forall l, (l < n0)%nat -> h1 !! l = objects w !! l).
  { intros l Hl. rewrite Hframe; [|unfold lc in *; lia|lia].
    unfold h0. now apply lookup_app_l. }
  assert (Hfiles : getitem (VRef lc) "files" h1 = (Ok (VRef n0), h1))
    by now apply (getitem_dict h1 _ cd).
  assert (Htruthy : truthy (VRef n0) h1 = (Ok (negb (Nat.eqb (length new) 0)), h1))
    by now apply truthy_list.
  assert (Hrun :
    load_case load_medical_image (p :: ps) a b c w
    = (if negb (negb (Nat.eqb (length new) 0)) then
         raise (ValueError "No se pudo procesar ninguno de los archivos proporcionados")
       else
         on_heap (_extract_case_metadata (VRef lc)) ;;
         let* cs := get_cases in
         set_cases (cs ++ [VRef lc]) ;;
         let* cs := get_cases in
         set_index (Z.of_nat (length cs) - 1) ;;
         ret (VRef lc)) (with_objects h1 w)).
  { unfold load_case.
    erewrite bind_ok by (apply on_heap_run, new_case_run). fold n0 cd lc.
    erewrite bind_ok by (apply on_heap_run; cbn [objects with_objects]; exact Hloop).
    erewrite bind_ok by (apply on_heap_run; cbn [objects with_objects]; exact Hfiles).
    erewrite bind_ok by (apply on_heap_run; cbn [objects with_objects]; exact Htruthy).
    reflexivity. }
  destruct new as [|f vs].
  - exists h1, []. split; [exact Hnew|]. repeat split; trivial.
  - (* the metadata step returns *)
    pose proof (new_case_under_construction (p :: ps) a b c (objects w)) as Hu.
    fold n0 cd h0 in Hu.
    destruct (load_loop_spec load_medical_image n0 cd eq_refl (p :: ps) h0 [] Hu)
      as (h1' & new' & Hloop' & Hu1 & _).
    pose proof (eq_trans (eq_sym Hloop') Hloop) as Heq. injection Heq as ->.
    assert (new' = f :: vs) as ->.
    { destruct Hu1 as (Hn & _). cbn [app] in Hn. rewrite Hn01 in Hn. now injection Hn. }
    destruct (extract_case_metadata_spec n0 cd eq_refl eq_refl h1 f vs Hu1)
      as (h2 & Hextract & Hlc2).
    assert (Hmeta : getitem (VRef lc) "metadata" h1 = (Ok (VRef (S n0)), h1))
      by now apply (getitem_dict h1 _ cd).
    assert (Hframe2 : forall l, l <> S n0 -> h2 !! l = h1 !! l).
    { apply (extract_case_metadata_frame lc h1 _ h2 (S n0) Hextract Hmeta).
      unfold lc. lia. }
    exists h2, (f :: vs). split; [|split; [|split; [|split]]].
    + eapply Forall2_impl; [exact Hnew|]. intros g q (l & d & -> & Hl & Hp & Hs).
      exists l, d. split; [reflexivity|]. split; [|now split].
      rewrite Hframe2; [exact Hl|]. intros ->. rewrite Hm1 in Hl.
      injection Hl as <-. discriminate.
    + rewrite Hframe2 by lia. exact Hn01.
    + exact Hlc2.
    + intros l Hl. rewrite Hframe2 by lia. now apply Hold1.
    + rewrite Hrun. cbn [length Nat.eqb negb].
      erewrite bind_ok by (apply on_heap_again; exact Hextract).
      cbn. rewrite length_app. cbn. do 3 f_equal. lia.
Qed.

(** When at least one of the files can be read, the case [load_case]
    returns holds the records of the readable files, in the order of the
    paths given and each with the sequence type of its name; unreadable
    files are skipped. The case is a new dictionary with the id, the name,
    the two dates, ['has_changes'] [False] and no prediction results, and
    no object that was on the heap before is changed. *)
Theorem load_case_keeps_the_readable_files
    (load_medical_image : string -> option image_info) ps a b c w :
  Exists (fun p => load_medical_image p <> None) ps ->
  let n0 := length (objects w) in
  let lc := S (S n0) in
  exists (h' : heap) (fs : list value),
    load_case load_medical_image ps a b c w
    = (Ok (VRef lc),
       {| objects := h';
          cases := cases w ++ [VRef lc];
          current_case_index := Z.of_nat (length (cases w));
          disk := disk w |})
    /\ h' !! lc = Some (ODict [("id", VStr (String.append "case_" a));
                               ("name", VStr (_generate_case_name ps));
                               ("files", VRef n0);
                               ("metadata", VRef (S n0));
                               ("created_date", VStr b);
                               ("modified_date", VStr c);
                               ("has_changes", VBool false)])
    /\ h' !! n0 = Some (OList fs)
    /\ Forall2 (fun f q => is_file_of h' q f) fs (readable load_medical_image ps)
    /\ (forall l, (l < n0)%nat -> h' !! l = objects w !! l).
Proof.
  intros Hex n0 lc. destruct ps as [|p ps]; [now apply Exists_nil in Hex|].
  destruct (load_case_content load_medical_image p ps a b c w)
    as (h' & fs & Hfs & Hn0 & Hlc & Hold & Hrun).
  fold n0 lc in Hn0, Hlc, Hold, Hrun.
  exists h', fs. destruct fs as [|f fs].
  - exfalso. apply List.Exists_exists in Hex as (q & Hq & Hload).
    assert (Hin : In q (readable load_medical_image (p :: ps))).
    { apply List.filter_In. split; [exact Hq|]. now destruct (load_medical_image q). }
    apply Forall2_length in Hfs. destruct (readable _ _); [destruct Hin|discriminate].
  - repeat split; assumption.
Qed.

(** *** The paths of one sequence type *)

(** The sequence type [_process_file] gives to the path [p]. *)
Definition sequence_type_of_path (p : string) : string :=
  sequence_type_of_name (PyStr.lower (PyStr.basename p)).

Lemma paths_of_type_run s (h : heap) fs : forall ps,
  Forall2 (fun f q => is_file_of h q f) fs ps ->
  paths_of_type s fs h
  = (Ok (map VStr (List.filter (fun q => String.eqb s (sequence_type_of_path q)) ps)), h).
Proof.
  induction fs as [|f fs IH]; intros ps Hfs; inversion Hfs as [|? q ? qs Hf Hrest]; subst.
  - reflexivity.
  - destruct Hf as (l & d & -> & Hl & Hpath & Hseq).
    cbn [paths_of_type List.filter].
    assert (Hget : get_default (VRef l) "sequence_type" VNone h
                   = (Ok (VStr (sequence_type_of_path q)), h)).
    { unfold get_default. cbn [object_of]. now rewrite Hl, Hseq. }
    erewrite bind_ok by exact Hget. cbn [is_str].
    destruct (String.eqb s (sequence_type_of_path q)).
    + erewrite bind_ok by (apply (getitem_dict _ _ d); [exact Hl|exact Hpath]).
      erewrite bind_ok by (apply IH, Hrest). reflexivity.
    + now apply IH.
Qed.

(** After [load_case], [get_file_paths_by_sequence(s)] returns, in a new
    list, the readable paths among those given whose name has the
    sequence type [s], in the order given. *)
Theorem loaded_paths_by_sequence
    (load_medical_image : string -> option image_info) ps a b c w s :
  Exists (fun p => load_medical_image p <> None) ps ->
  s <> "" ->
  let w1 := after (load_case load_medical_image ps a b c) w in
  get_file_paths_by_sequence s w1
  = (Ok (VRef (length (objects w1))),
     with_objects
       (objects w1
        ++ [OList (map VStr
                     (List.filter (fun q => String.eqb s (sequence_type_of_path q))
                                  (readable load_medical_image ps)))])
       w1).
Proof.
  intros Hex _ w1. destruct ps as [|p ps]; [now apply Exists_nil in Hex|].
  destruct (load_case_content load_medical_image p ps a b c w)
    as (h' & fs & Hfs & Hn0 & Hlc & _ & Hrun).
  destruct fs as [|f fs].
  { exfalso. apply List.Exists_exists in Hex as (q & Hq & Hload).
    assert (Hin : In q (readable load_medical_image (p :: ps))).
    { apply List.filter_In. split; [exact Hq|]. now destruct (load_medical_image q). }
    apply Forall2_length in Hfs. destruct (readable _ _); [destruct Hin|discriminate]. }
  set (n0 := length (objects w)) in *. set (lc := S (S n0)) in *.
  assert (Hw1 : w1 = {| objects := h'; cases := cases w ++ [VRef lc];
                        current_case_index := Z.of_nat (length (cases w));
                        disk := disk w |}).
  { unfold w1, after. now rewrite Hrun. }
  rewrite Hw1. cbn [objects].
  assert (Hcur : no_current_case (Z.of_nat (length (cases w))) (cases w ++ [VRef lc])
                 = false).
  { apply no_current_case_false. rewrite length_app. cbn. lia. }
  assert (Hcase : index_list (cases w ++ [VRef lc]) (Z.of_nat (length (cases w)))
                  = Some (VRef lc)).
  { unfold index_list. rewrite length_app. cbn [length].
    replace ((0 <=? Z.of_nat (length (cases w)))
             && (Z.of_nat (length (cases w)) <? Z.of_nat (length (cases w) + 1)))
      with true by (symmetry; apply andb_true_iff; split;
                    [apply Z.leb_le|apply Z.ltb_lt]; lia).
    rewrite Nat2Z.id, nth_error_app2 by lia. now rewrite Nat.sub_diag. }
  unfold get_file_paths_by_sequence.
  rewrite (enter_current_case _ _ _ (VRef lc)); [|exact Hcur|exact Hcase].
  apply on_heap_run. cbn [objects].
  erewrite bind_ok by (apply (getitem_dict _ _ _ _ _ Hlc); reflexivity).
  erewrite bind_ok by (apply iterate_list, Hn0).
  erewrite bind_ok by (apply paths_of_type_run, Hfs).
  reflexivity.
Qed.

(** *** A session *)

(** A second case opened after the one of [demo_world]. *)
Definition two_cases : world :=
  after (load_case demo_loader demo_paths
           "20240101_100500" "2024-01-01T10:05:00" "2024-01-01T10:05:00") demo_world.

Lemma close_witness :
  cases two_cases = [VRef 2%nat; VRef 13%nat]
  /\ cases (after close_current_case two_cases) = [VRef 2%nat]
  /\ current_case_index (after close_current_case two_cases) = 0
  /\ fst (get_current_case (after close_current_case two_cases)) = Ok (VRef 2%nat).
Proof.
  destruct (close_current_case_moves_to_neighbour two_cases) as (H1 & H2 & _ & H4 & _).
  { vm_compute. split; [discriminate|reflexivity]. }
  split; [reflexivity|]. split; [exact H1|]. split; [exact H2|].
  rewrite H4; reflexivity.
Defined.

Lemma prediction_results_witness :
  exists w',
    set_current_case_prediction_results (VRef 1%nat) "2024-01-01T10:02:00" demo_world
    = (Ok true, w')
    /\ get_current_case_prediction_results w' = (Ok (VRef 1%nat), w')
    /\ current_case_has_changes w' = (Ok (VBool true), w')
    /\ get_current_case_prediction_results init = (Ok VNone, init)
    /\ fst (get_current_case_prediction_results demo_world) = Ok VNone.
Proof.
  destruct prediction_results_are_stored_by_reference as (H1 & H2 & H3).
  destruct (H1 (VRef 1%nat) "2024-01-01T10:02:00" demo_world 2%nat _
              eq_refl eq_refl eq_refl) as (Ha & Hb & Hc).
  eexists. split; [exact Ha|]. split; [exact Hb|]. split; [exact Hc|]. split.
  - apply (H2 VNone ""). reflexivity.
  - eapply (H3 demo_world 2%nat); reflexivity.
Defined.

(** A case dictionary without an ['id']. *)
Definition nameless_world : world :=
  {| objects := [ODict [("name", VStr "Caso")]];
     cases := [VRef 0%nat];
     current_case_index := 0;
     disk := ∅ |}.

Lemma no_write_witness :
  save_current_case (fun _ => false) "/tmp" demo_str None "2024-01-01T10:02:00" init
  = (Ok false, init)
  /\ fst (save_current_case (fun _ => false) "/tmp" demo_str (Some "/out/case.json")
            "2024-01-01T10:02:00" demo_world) = Ok false
  /\ disk (after (save_current_case (fun _ => false) "/tmp" demo_str
                    (Some "/out/case.json") "2024-01-01T10:02:00") demo_world)
     = disk demo_world
  /\ save_current_case (fun _ => true) "/tmp" demo_str None "2024-01-01T10:02:00"
       nameless_world
     = (Raise KeyError, nameless_world).
Proof.
  destruct (save_current_case_without_writing (fun _ => false) "/tmp" demo_str)
    as (H1 & H2 & _).
  destruct (save_current_case_without_writing (fun _ => true) "/tmp" demo_str)
    as (_ & _ & H3).
  split; [now apply H1|].
  pose proof (H2 (Some "/out/case.json") "/out/case.json" "2024-01-01T10:02:00"
                demo_world 2%nat _ eq_refl eq_refl eq_refl eq_refl eq_refl) as E.
  split; [now rewrite E|]. split; [unfold after; now rewrite E|].
  eapply (H3 None _ nameless_world 0%nat); try reflexivity. now left.
Defined.

Lemma remove_file_witness :
  remove_file_from_current_case (-1) "2024-01-01T10:02:00" demo_world
  = (Ok false, demo_world)
  /\ remove_file_from_current_case 2 "2024-01-01T10:02:00" demo_world
     = (Ok false, demo_world)
  /\ fst (remove_file_from_current_case 0 "2024-01-01T10:02:00" demo_world) = Ok true
  /\ objects (after (remove_file_from_current_case 0 "2024-01-01T10:02:00") demo_world)
       !! 0%nat
     = Some (OList [VRef 10%nat]).
Proof.
  assert (H : forall i, _) by
    (intros i; exact (remove_file_checks_the_index i "2024-01-01T10:02:00" demo_world
                        2%nat _ 0%nat _ eq_refl eq_refl eq_refl eq_refl eq_refl)).
  split; [apply (proj1 (H (-1))); left; reflexivity|].
  split; [apply (proj1 (H 2)); right; vm_compute; discriminate|].
  assert (E := proj2 (H 0)). cbv zeta in E. unfold after.
  rewrite E by (vm_compute; split; [discriminate|reflexivity]).
  split; reflexivity.
Defined.

Lemma add_file_witness :
  add_file_to_current_case demo_loader "/data/p01/dwi.nii" "2024-01-01T10:02:00" init
  = (Raise (ValueError "No hay caso actual"), init)
  /\ add_file_to_current_case demo_loader "/data/p01/missing.nii" "2024-01-01T10:02:00"
       demo_world
     = (Raise (ValueError "No se pudo añadir el archivo"), demo_world)
  /\ fst (add_file_to_current_case demo_loader "/data/p01/dwi.nii" "2024-01-01T10:02:00"
            demo_world) = Ok true.
Proof.
  destruct (add_file_outcomes demo_loader) as (H1 & H2 & H3).
  split; [now apply H1|]. split; [now eapply H2|].
  destruct (H3 "/data/p01/dwi.nii" "2024-01-01T10:02:00" demo_world 2%nat _ 0%nat _ _
              eq_refl eq_refl eq_refl eq_refl eq_refl eq_refl)
    as (ext & l & d & E & _).
  now rewrite E.
Defined.

Lemma update_metadata_witness :
  (exists w' md',
      update_current_case_metadata (VRef 5%nat) "2024-01-01T10:02:00" demo_world
      = (Ok true, w')
      /\ objects w' !! 1%nat = Some (ODict md')
      /\ dict_get "patient_id" md' = Some (VStr "P-17")
      /\ dict_get "dimensions" md' = Some (VRef 4%nat))
  /\ update_current_case_metadata (VRef 5%nat) "2024-01-01T10:02:00" init = (Ok false, init)
  /\ update_current_case_metadata VNone "2024-01-01T10:02:00" demo_world
     = (Raise TypeError, demo_world).
Proof.
  destruct update_metadata_merges as (H1 & H2 & H3).
  split; [|split; [now apply H2|now eapply (H3 _ demo_world 2%nat _ 1%nat)]].
  edestruct (H1 5%nat) with (t := "2024-01-01T10:02:00") (w := demo_world)
                             (lc := 2%nat) (lm := 1%nat) as (md' & E & Hk).
  - reflexivity.
  - reflexivity.
  - reflexivity.
  - reflexivity.
  - reflexivity.
  - discriminate.
  - reflexivity.
  - apply (bool_decide_unpack _). reflexivity.
  - eexists _, md'. split; [exact E|]. split; [reflexivity|].
    split; [now rewrite Hk|now rewrite Hk].
Defined.

(** A disk with two documents: one has the four keys, with values that
    make no case; the other has no ['files']. *)
Definition odd_files : world :=
  {| objects := [];
     cases := [];
     current_case_index := -1;
     disk := <["/odd.json" := Document (TDict [("id", TInt 7); ("name", TNone);
                                                ("files", TNone); ("metadata", TStr "")])]>
            (<["/short.json" := Document (TDict [("id", TStr "c"); ("name", TStr "n");
                                                  ("metadata", TDict [])])]>
             (<["/cut.json" := Truncated]> ∅)) |}.

Lemma load_file_witness :
  load_case_from_file "/none.json" odd_files
  = (Raise (ValueError "No se pudo cargar el caso"), odd_files)
  /\ load_case_from_file "/cut.json" odd_files
     = (Raise (ValueError "No se pudo cargar el caso"), odd_files)
  /\ fst (load_case_from_file "/short.json" odd_files)
     = Raise (ValueError "No se pudo cargar el caso")
  /\ cases (after (load_case_from_file "/short.json") odd_files) = []
  /\ (exists l, fst (load_case_from_file "/odd.json" odd_files) = Ok (VRef l)
                /\ cases (after (load_case_from_file "/odd.json") odd_files) = [VRef l]).
Proof.
  destruct load_case_from_file_checks_keys_only as (H1 & H2 & H3).
  split; [apply H1; now left|]. split; [apply H1; now right|].
  destruct (H2 "/short.json" odd_files _ "files" eq_refl) as (h' & E).
  { cbn. tauto. }
  { reflexivity. }
  unfold after. rewrite E. split; [reflexivity|]. split; [reflexivity|].
  destruct (H3 "/odd.json" odd_files _ eq_refl eq_refl eq_refl) as (l & d & h2 & E2 & _).
  { repeat constructor; discriminate. }
  exists l. now rewrite E2.
Defined.

Lemma readable_files_witness :
  exists h' fs,
    load_case demo_loader demo_paths "20240101_100000" "2024-01-01T10:00:00"
              "2024-01-01T10:00:00" init
    = (Ok (VRef 2%nat),
       {| objects := h'; cases := [VRef 2%nat]; current_case_index := 0; disk := ∅ |})
    /\ h' !! 0%nat = Some (OList fs)
    /\ Forall2 (fun f q => is_file_of h' q f) fs
               ["/data/p01/T2W_axial.nii"; "/data/p01/adc.nii"].
Proof.
  destruct (load_case_keeps_the_readable_files demo_loader demo_paths
              "20240101_100000" "2024-01-01T10:00:00" "2024-01-01T10:00:00" init)
    as (h' & fs & E & _ & Hfs & Hall & _).
  - apply Exists_cons_hd. discriminate.
  - exists h', fs. split; [exact E|]. split; [exact Hfs|exact Hall].
Defined.

Lemma paths_by_sequence_witness :
  exists l h',
    get_file_paths_by_sequence "adc" demo_world = (Ok (VRef l), with_objects h' demo_world)
    /\ h' !! l = Some (OList [VStr "/data/p01/adc.nii"]).
Proof.
  pose proof (loaded_paths_by_sequence demo_loader demo_paths
                "20240101_100000" "2024-01-01T10:00:00" "2024-01-01T10:00:00" init "adc")
    as E.
  cbv zeta in E. fold demo_world in E.
  eexists _, _. split.
  - apply E; [apply Exists_cons_hd|]; discriminate.
  - reflexivity.
Defined.

(** *** The metadata of a case *)

(** What one search of [_extract_case_metadata] finds in the metadata
    [dm] of the first file: the value under the first key, in the order
    of the dictionary, whose lower-cased name contains one of the
    needles. The search stops there, whatever the value is. *)
Definition found_in (needles : list string) (dm : dict) : value :=
  match find_key needles (map (fun kv => VStr (fst kv)) dm) with
  | Some key => match dict_get key dm with Some v => v | None => VNone end
  | None => VNone
  end.

(** [if found: metadata[field] = found] on the dictionary [mc]. *)
Definition stored (field : string) (found : value) (is_true : bool) (mc : dict) : dict :=
  if is_true then dict_set field found mc else mc.

Lemma extract_field_run (h : heap) lc cd lmc mc lm dm needles field b :
  h !! lc = Some (ODict cd) ->
  dict_get "metadata" cd = Some (VRef lmc) ->
  h !! lmc = Some (ODict mc) ->
  h !! lm = Some (ODict dm) ->
  truthy (found_in needles dm) h = (Ok b, h) ->
  extract_field (VRef lc) (VRef lm) needles field h
  = (Ok tt, if b then <[lmc := ODict (dict_set field (found_in needles dm) mc)]> h else h).
Proof.
  intros Hlc Hmeta Hmc Hlm Htrue. unfold extract_field.
  erewrite bind_ok by (apply iterate_dict, Hlm).
  assert (Hfound :
    (match find_key needles (map (fun kv => VStr (fst kv)) dm) with
     | Some key => getitem (VRef lm) key
     | None => ret VNone
     end) h = (Ok (found_in needles dm), h)).
  { unfold found_in. destruct (find_key _ _) as [key|] eqn:Hkey; [|reflexivity].
    destruct (find_key_get _ _ _ Hkey) as [v Hv]. rewrite Hv.
    now apply (getitem_dict h lm dm). }
  erewrite bind_ok by exact Hfound.
  erewrite bind_ok by exact Htrue.
  destruct b; [|reflexivity].
  erewrite bind_ok by (apply (getitem_dict h lc cd); [exact Hlc|exact Hmeta]).
  now apply setitem_dict.
Qed.

(** [_extract_case_metadata] looks at the first file record only. It
    stores under ['patient_id'] the value of the first key of that
    record's metadata whose lower-cased name contains 'patientid' or
    'patient id', and under ['study_date'] the value of the first key that
    contains 'study date' or 'studydate', each only if the value is true:
    when the first matching key holds an empty value, nothing is stored,
    even if a later key matches too. Nothing else on the heap changes. *)
Theorem case_metadata_comes_from_the_first_file
    (h : heap) lc cd lf l fs d lm dm lmc mc b1 b2 :
  h !! lc = Some (ODict cd) ->
  dict_get "files" cd = Some (VRef lf) ->
  dict_get "metadata" cd = Some (VRef lmc) ->
  h !! lf = Some (OList (VRef l :: fs)) ->
  h !! l = Some (ODict d) ->
  dict_get "metadata" d = Some (VRef lm) ->
  h !! lm = Some (ODict dm) ->
  h !! lmc = Some (ODict mc) ->
  lmc <> lm -> lmc <> lc ->
  let patient_id := found_in ["patientid"; "patient id"] dm in
  let study_date := found_in ["study date"; "studydate"] dm in
  match patient_id with VRef _ => False | _ => True end ->
  match study_date with VRef _ => False | _ => True end ->
  fst (truthy patient_id h) = Ok b1 ->
  fst (truthy study_date h) = Ok b2 ->
  _extract_case_metadata (VRef lc) h
  = (Ok tt,
     if b1 || b2
     then <[lmc := ODict (stored "study_date" study_date b2
                            (stored "patient_id" patient_id b1 mc))]> h
     else h).
Proof.
  intros Hlc Hfiles Hmeta Hlf Hl Hdm Hlm Hlmc Hne1 Hne2 patient_id study_date
         Hp Hs Hb1 Hb2.
  assert (Himm : forall v (h1 h2 : heap), match v with VRef _ => False | _ => True end ->
                 truthy v h2 = (fst (truthy v h1), h2)).
  { intros v h1 h2 Hv. destruct v; try reflexivity. destruct Hv. }
  unfold _extract_case_metadata.
  erewrite bind_ok by (apply (getitem_dict h lc cd); [exact Hlc|exact Hfiles]).
  erewrite bind_ok by (apply truthy_list, Hlf). cbn [length Nat.eqb negb].
  erewrite bind_ok by (apply (getitem_dict h lc cd); [exact Hlc|exact Hfiles]).
  erewrite bind_ok by (eapply getitem_int_first, Hlf).
  erewrite bind_ok by (apply contains_dict, Hl).
  unfold dict_has. rewrite Hdm.
  erewrite bind_ok by (apply (getitem_dict h l d); [exact Hl|exact Hdm]).
  erewrite bind_ok.
  2:{ apply (extract_field_run h lc cd lmc mc lm dm _ _ b1); try assumption.
      fold patient_id. rewrite (Himm _ h h Hp), Hb1. reflexivity. }
  set (h1 := if b1 then <[lmc := ODict (dict_set "patient_id" patient_id mc)]> h else h).
  assert (Hlc1 : h1 !! lc = Some (ODict cd)).
  { unfold h1. destruct b1; [|exact Hlc]. rewrite list_lookup_insert_ne; congruence. }
  assert (Hlm1 : h1 !! lm = Some (ODict dm)).
  { unfold h1. destruct b1; [|exact Hlm]. rewrite list_lookup_insert_ne; congruence. }
  assert (Hlmc1 : h1 !! lmc = Some (ODict (stored "patient_id" patient_id b1 mc))).
  { unfold h1, stored. destruct b1; [|exact Hlmc].
    apply list_lookup_insert_eq. now apply lookup_lt_Some in Hlmc. }
  rewrite (extract_field_run h1 lc cd lmc _ lm dm _ _ b2 Hlc1 Hmeta Hlmc1 Hlm1).
  2:{ fold study_date. rewrite (Himm _ h h1 Hs), Hb2. reflexivity. }
  fold study_date. f_equal. unfold h1, stored.
  destruct b1, b2; cbn [orb]; try reflexivity.
  now rewrite list_insert_insert_eq.
Qed.

(** A case whose first file has an empty patient id, a second key that
    would match, and a study date. *)
Definition first_file_heap : heap :=
  [OList [VRef 3%nat];
   ODict [];
   ODict [("id", VStr "case_1"); ("name", VStr "Caso p01"); ("files", VRef 0%nat);
          ("metadata", VRef 1%nat)];
   ODict [("path", VStr "/data/p01/t2w.nii"); ("metadata", VRef 4%nat)];
   ODict [("0010|0020 PatientID", VStr ""); ("Other Patient ID", VStr "P-9");
          ("0008|0020 Study Date", VStr "20240101")]].

Lemma case_metadata_witness :
  _extract_case_metadata (VRef 2%nat) first_file_heap
  = (Ok tt, <[1%nat := ODict [("study_date", VStr "20240101")]]> first_file_heap).
Proof.
  apply (case_metadata_comes_from_the_first_file first_file_heap 2%nat _ 0%nat 3%nat []
           _ 4%nat _ 1%nat [] false true eq_refl eq_refl eq_refl eq_refl eq_refl eq_refl
           eq_refl eq_refl);
    try discriminate; try exact I; reflexivity.
Defined.

End CaseFacts.

(* ===================================================================== *)
(** ** The name of a case: [CaseManager._generate_case_name] *)
(* ===================================================================== *)

Module CaseName.
Import Py CaseManager.
Local Open Scope list_scope.
Local Open Scope string_scope.

Abbreviation plain := PyStr.plain.

Lemma head_of_plain f : plain f -> PyStr.head_of f = "".
Proof. unfold plain. destruct f as [|c f]; [reflexivity|]. cbn [PyStr.head_of]. now intros ->. Qed.

Lemma head_of_app pre f : plain f -> PyStr.head_of (pre ++ "/" ++ f) = pre ++ "/".
Proof.
  intros Hf. induction pre as [|c pre IH].
  - change ("" ++ "/" ++ f) with (String "/" f). cbn [PyStr.head_of].
    rewrite PyStr.contains_slash_head. now rewrite head_of_plain.
  - change (String c pre ++ "/" ++ f) with (String c (pre ++ "/" ++ f)).
    cbn [PyStr.head_of]. rewrite PyStr.contains_slash_cons. now rewrite IH.
Qed.

(** A name that is not empty has a character that is not a slash. *)
Lemma plain_not_slashes d : plain d -> d <> "" -> PyStr.all_slashes d = false.
Proof.
  unfold plain. destruct d as [|c d]; [easy|]. intros H _. cbn [PyStr.all_slashes].
  destruct (Ascii.eqb_spec c "/") as [->|Hc]; [|reflexivity].
  exfalso. rewrite PyStr.contains_slash_head in H. discriminate.
Qed.

Lemma all_slashes_app x y :
  PyStr.all_slashes (x ++ y) = PyStr.all_slashes x && PyStr.all_slashes y.
Proof.
  induction x as [|c x IH]; [reflexivity|].
  change (String c x ++ y) with (String c (x ++ y)). cbn [PyStr.all_slashes].
  now rewrite IH, andb_assoc.
Qed.

Lemma rstrip_slashes_after x d :
  plain d -> d <> "" -> PyStr.rstrip_slashes (x ++ d ++ "/") = x ++ d.
Proof.
  intros Hd Hne.
  assert (Hd' : forall d, plain d -> d <> "" -> PyStr.rstrip_slashes (d ++ "/") = d).
  { clear. intros d. induction d as [|c d IH]; [easy|]. intros Hd _.
    change (String c d ++ "/") with (String c (d ++ "/")). cbn [PyStr.rstrip_slashes].
    pose proof (plain_not_slashes (String c d) Hd ltac:(discriminate)) as Hns.
    change (PyStr.all_slashes (String c (d ++ "/"))) with (PyStr.all_slashes (String c d ++ "/")).
    rewrite all_slashes_app, Hns. cbn [andb].
    destruct d as [|c' d]; [reflexivity|]. f_equal. apply IH; [|discriminate].
    unfold plain in *. cbn [PyStr.contains] in Hd.
    destruct (PyStr.starts_with "/" (String c (String c' d))); [discriminate|exact Hd]. }
  induction x as [|c x IH]; [now apply Hd'|].
  change (String c x ++ d ++ "/") with (String c (x ++ d ++ "/")).
  cbn [PyStr.rstrip_slashes].
  change (PyStr.all_slashes (String c (x ++ d ++ "/")))
    with (PyStr.all_slashes (String c x ++ d ++ "/")).
  rewrite !all_slashes_app, (plain_not_slashes d Hd Hne), andb_false_r. cbn [andb].
  now rewrite IH.
Qed.

Lemma dirname_folder x d f :
  plain d -> d <> "" -> plain f -> PyStr.dirname (x ++ d ++ "/" ++ f) = x ++ d.
Proof.
  intros Hd Hne Hf. unfold PyStr.dirname.
  rewrite <- (PyStr.append_assoc x d ("/" ++ f)).
  rewrite head_of_app by exact Hf. rewrite (PyStr.append_assoc x d "/").
  rewrite !all_slashes_app, (plain_not_slashes d Hd Hne), andb_false_r. cbn [andb].
  now apply rstrip_slashes_after.
Qed.

(** A case is named after the folder of its first file, and after the
    first file itself, without its last extension, when the path names no
    folder: a bare file name, or a file in the root directory. The other
    paths play no part. *)
Theorem case_name_is_the_folder_of_the_first_file :
  (forall pre d f rest,
      plain d -> d <> "" -> plain f ->
      _generate_case_name ((pre ++ "/" ++ d ++ "/" ++ f) :: rest) = "Caso " ++ d)
  /\ (forall d f rest,
        plain d -> d <> "" -> plain f ->
        _generate_case_name ((d ++ "/" ++ f) :: rest) = "Caso " ++ d)
  /\ (forall f rest,
        plain f ->
        _generate_case_name (f :: rest) = "Caso " ++ PyStr.splitext_root f
        /\ _generate_case_name (("/" ++ f) :: rest) = "Caso " ++ PyStr.splitext_root f).
Proof.
  split; [|split].
  - intros pre d f rest Hd Hne Hf. unfold _generate_case_name.
    rewrite <- (PyStr.append_assoc pre "/" (d ++ "/" ++ f)).
    rewrite dirname_folder by assumption. rewrite (PyStr.append_assoc pre "/" d).
    rewrite PyStr.basename_app by exact Hd.
    destruct (String.eqb_spec d ""); [contradiction|reflexivity].
  - intros d f rest Hd Hne Hf. unfold _generate_case_name.
    change (d ++ "/" ++ f) with ("" ++ d ++ "/" ++ f).
    rewrite (dirname_folder "" d f) by assumption.
    change ("" ++ d) with d. rewrite PyStr.basename_plain by exact Hd.
    destruct (String.eqb_spec d ""); [contradiction|reflexivity].
  - intros f rest Hf. unfold _generate_case_name, PyStr.dirname. split.
    + rewrite head_of_plain by exact Hf. cbn [PyStr.all_slashes PyStr.basename String.eqb negb].
      now rewrite PyStr.basename_plain.
    + change ("/" ++ f) with ("" ++ "/" ++ f).
      rewrite (head_of_app "" f) by exact Hf.
      change ("" ++ "/") with "/". cbn [PyStr.all_slashes Ascii.eqb Bool.eqb andb].
      change (PyStr.basename "/") with "". cbn [String.eqb negb].
      now rewrite (PyStr.basename_app "" f).
Qed.

Lemma case_name_witness :
  _generate_case_name ["/data/p01/T2W_axial.nii"; "/data/p02/adc.nii"] = "Caso p01"
  /\ _generate_case_name ["p01/adc.nii"] = "Caso p01"
  /\ _generate_case_name ["adc.nii.gz"] = "Caso adc.nii"
  /\ _generate_case_name ["/adc.nii.gz"] = "Caso adc.nii".
Proof.
  destruct case_name_is_the_folder_of_the_first_file as (H1 & H2 & H3).
  split; [exact (H1 "/data" "p01" "T2W_axial.nii" _ eq_refl ltac:(discriminate) eq_refl)|].
  split; [exact (H2 "p01" "adc.nii" _ eq_refl ltac:(discriminate) eq_refl)|].
  split; [exact (proj1 (H3 "adc.nii.gz" [] eq_refl))|exact (proj2 (H3 "adc.nii.gz" [] eq_refl))].
Defined.

End CaseName.

(* ===================================================================== *)
(** ** The results of the last prediction: [PredictionController.save_results] *)
(* ===================================================================== *)

Module Results.
Import Py CaseManager.
Local Open Scope py_scope.
Local Open Scope string_scope.
Local Open Scope list_scope.
Local Open Scope Z_scope.

(** [has_results]: [self.last_results is not None] *)
Definition has_results (s : Controller.controller) : bool :=
  match Controller.last_results s with VNone => false | _ => true end.

(** [get_results] *)
Definition get_results (s : Controller.controller) : value := Controller.last_results s.

(** The dictionary literal of [save_results]: five entries of
    [self.last_results], read in this order. *)
Definition results_to_save (last_results : value) : M heap value :=
  let* lesions := getitem last_results "lesions" in
  let* num_lesions := getitem last_results "num_lesions" in
  let* has_significant_lesion := getitem last_results "has_significant_lesion" in
  let* total_lesion_volume := getitem last_results "total_lesion_volume" in
  let* prediction_date := getitem last_results "prediction_date" in
  alloc (ODict [("lesions", lesions);
                ("num_lesions", num_lesions);
                ("has_significant_lesion", has_significant_lesion);
                ("total_lesion_volume", total_lesion_volume);
                ("prediction_date", prediction_date)]).

(** [save_results], on the heap and the disk the case manager works on. *)
Definition save_results (can_open_for_writing : string -> bool) (file_path : string)
    (s : Controller.controller) : M world bool :=
  let* some := on_heap (truthy (Controller.last_results s)) in
  if negb some then ret false
  else
    try_except
      (let* results_to_save := on_heap (results_to_save (Controller.last_results s)) in
       open_for_writing can_open_for_writing file_path ;;
       json_dump results_to_save file_path ;;
       ret true)
      (fun _ => ret false).

(** What is written for the results [r] of [_process_results]. *)
Definition results_document (r : Prediction.results) : tree :=
  TDict [("lesions", TList (map lesion_literal (Prediction.lesions r)));
         ("num_lesions", TInt (Z.of_nat (Prediction.num_lesions r)));
         ("has_significant_lesion", TBool (Prediction.has_significant_lesion r));
         ("total_lesion_volume",
          match Prediction.total_lesion_volume r with
          | Prediction.Int n => TInt n
          | Prediction.Float f => TFloat f
          end);
         ("prediction_date", TStr (Prediction.prediction_date r))].

(** The controller after the worker has delivered [results]. *)
Definition completed (results : value) (s : Controller.controller) : Controller.controller :=
  snd (Controller.on_prediction_completed results s).

Lemma lesions_literal_json ls :
  is_json (TList (map lesion_literal ls)) = true
  /\ distinct_keys (TList (map lesion_literal ls)) = true.
Proof.
  cbn [is_json distinct_keys]. induction ls as [|l ls [IH1 IH2]]; [now split|].
  cbn [map forallb]. rewrite IH1, IH2. split.
  - unfold lesion_literal. cbn [is_json forallb snd]. rewrite !andb_true_r.
    induction (Prediction.centroid l); [reflexivity|exact IHl0].
  - unfold lesion_literal at 1. cbn [distinct_keys forallb snd map fst].
    rewrite !andb_true_r. apply andb_true_iff. split; [reflexivity|].
    induction (Prediction.centroid l); [reflexivity|exact IHl0].
Qed.

Lemma getitem_missing h l d k :
  h !! l = Some (ODict d) -> dict_get k d = None ->
  getitem (VRef l) k h = (Raise KeyError, h).
Proof. intros Hl Hk. unfold getitem. cbn. now rewrite Hl, Hk. Qed.

(** The five entries are read without changing the heap; a missing one
    raises [KeyError] before anything is allocated. *)
Lemma results_to_save_missing h l d k :
  h !! l = Some (ODict d) ->
  In k ["lesions"; "num_lesions"; "has_significant_lesion"; "total_lesion_volume";
        "prediction_date"] ->
  dict_get k d = None ->
  results_to_save (VRef l) h = (Raise KeyError, h).
Proof.
  intros Hl Hin Hk. unfold results_to_save.
  destruct (dict_get "lesions" d) eqn:E1;
    [erewrite bind_ok by (eapply getitem_dict; eassumption)
    |erewrite bind_raise; [reflexivity|now apply (getitem_missing h l d)]].
  destruct (dict_get "num_lesions" d) eqn:E2;
    [erewrite bind_ok by (eapply getitem_dict; eassumption)
    |erewrite bind_raise; [reflexivity|now apply (getitem_missing h l d)]].
  destruct (dict_get "has_significant_lesion" d) eqn:E3;
    [erewrite bind_ok by (eapply getitem_dict; eassumption)
    |erewrite bind_raise; [reflexivity|now apply (getitem_missing h l d)]].
  destruct (dict_get "total_lesion_volume" d) eqn:E4;
    [erewrite bind_ok by (eapply getitem_dict; eassumption)
    |erewrite bind_raise; [reflexivity|now apply (getitem_missing h l d)]].
  destruct (dict_get "prediction_date" d) eqn:E5;
    [erewrite bind_ok by (eapply getitem_dict; eassumption)
    |erewrite bind_raise; [reflexivity|now apply (getitem_missing h l d)]].
  cbn in Hin. intuition (subst; congruence).
Qed.

Lemma results_to_save_run h l d v1 v2 v3 v4 v5 :
  h !! l = Some (ODict d) ->
  dict_get "lesions" d = Some v1 ->
  dict_get "num_lesions" d = Some v2 ->
  dict_get "has_significant_lesion" d = Some v3 ->
  dict_get "total_lesion_volume" d = Some v4 ->
  dict_get "prediction_date" d = Some v5 ->
  results_to_save (VRef l) h
  = (Ok (VRef (length h)),
     h ++ [ODict [("lesions", v1); ("num_lesions", v2); ("has_significant_lesion", v3);
                  ("total_lesion_volume", v4); ("prediction_date", v5)]]).
Proof.
  intros Hl H1 H2 H3 H4 H5. unfold results_to_save.
  repeat erewrite bind_ok by (eapply getitem_dict; eassumption). reflexivity.
Qed.

Lemma same_objects w : with_objects (objects w) w = w.
Proof. now destruct w. Qed.

Lemma truthy_dict (h : heap) l d :
  h !! l = Some (ODict d) -> truthy (VRef l) h = (Ok (negb (Nat.eqb (length d) 0)), h).
Proof. intros Hl. unfold truthy. now rewrite Hl. Qed.

(** [save_results] returns [False] and writes nothing when there are no
    results ([None], or an empty dictionary), when the results lack one of
    the five entries it saves (the dictionary is built before the file is
    opened, so the file is not even emptied), and when the file cannot be
    opened. *)
Theorem save_results_refuses (can_open_for_writing : string -> bool) :
  (forall p s w,
      Controller.last_results s = VNone ->
      save_results can_open_for_writing p s w = (Ok false, w))
  /\ (forall p s w l,
        Controller.last_results s = VRef l ->
        objects w !! l = Some (ODict []) ->
        save_results can_open_for_writing p s w = (Ok false, w))
  /\ (forall p s w l d k,
        Controller.last_results s = VRef l ->
        objects w !! l = Some (ODict d) ->
        In k ["lesions"; "num_lesions"; "has_significant_lesion"; "total_lesion_volume";
              "prediction_date"] ->
        dict_get k d = None ->
        save_results can_open_for_writing p s w = (Ok false, w))
  /\ (forall p s w l d,
        Controller.last_results s = VRef l ->
        objects w !! l = Some (ODict d) ->
        can_open_for_writing p = false ->
        fst (save_results can_open_for_writing p s w) = Ok false
        /\ disk (snd (save_results can_open_for_writing p s w)) = disk w).
Proof.
  assert (Hmissing : forall p s w l d k,
      Controller.last_results s = VRef l ->
      objects w !! l = Some (ODict d) ->
      In k ["lesions"; "num_lesions"; "has_significant_lesion"; "total_lesion_volume";
            "prediction_date"] ->
      dict_get k d = None ->
      save_results can_open_for_writing p s w = (Ok false, w)).
  { intros p s w l d k Hs Hl Hin Hk. unfold save_results. rewrite Hs.
    rewrite <- (same_objects w) at 2.
    erewrite bind_ok by (apply on_heap_run, truthy_dict, Hl). rewrite same_objects.
    destruct (negb (Nat.eqb (length d) 0)); [|reflexivity]. cbn [negb].
    unfold try_except. erewrite bind_raise; [reflexivity|].
    rewrite <- (same_objects w) at 2. apply on_heap_run.
    now apply (results_to_save_missing _ l d k). }
  split; [|split; [|split; [exact Hmissing|]]].
  - intros p s w Hs. unfold save_results. rewrite Hs. now destruct w.
  - intros p s w l Hs Hl. unfold save_results. rewrite Hs.
    rewrite <- (same_objects w) at 2.
    erewrite bind_ok by (apply on_heap_run, truthy_dict, Hl). now rewrite same_objects.
  - intros p s w l d Hs Hl Hopen.
    destruct (dict_get "lesions" d) as [v1|] eqn:E1;
      [|rewrite (Hmissing p s w l d "lesions"); cbn; tauto].
    destruct (dict_get "num_lesions" d) as [v2|] eqn:E2;
      [|rewrite (Hmissing p s w l d "num_lesions"); cbn; tauto].
    destruct (dict_get "has_significant_lesion" d) as [v3|] eqn:E3;
      [|rewrite (Hmissing p s w l d "has_significant_lesion"); cbn; tauto].
    destruct (dict_get "total_lesion_volume" d) as [v4|] eqn:E4;
      [|rewrite (Hmissing p s w l d "total_lesion_volume"); cbn; tauto].
    destruct (dict_get "prediction_date" d) as [v5|] eqn:E5;
      [|rewrite (Hmissing p s w l d "prediction_date"); cbn; tauto].
    assert (E : exists h', save_results can_open_for_writing p s w
                           = (Ok false, with_objects h' w)).
    { unfold save_results. rewrite Hs.
      erewrite bind_ok by (apply on_heap_run, truthy_dict, Hl).
      destruct (negb (Nat.eqb (length d) 0)); [|now eexists]. cbn [negb].
      unfold try_except.
      erewrite bind_ok.
      2:{ apply on_heap_again. now apply (results_to_save_run _ l d v1 v2 v3 v4 v5). }
      eexists. erewrite bind_raise; [reflexivity|].
      unfold open_for_writing. rewrite Hopen. reflexivity. }
    destruct E as [h' ->]. now split.
Qed.

(** The results of [_process_results], delivered by the worker, are
    saved: [save_results] returns [True] and the file holds the lesions
    and the four summary entries, without the ['segmentation'] mask. No
    case is touched. *)
Theorem results_are_saved_without_the_mask
    (can_open_for_writing : string -> bool) p (r : Prediction.results) s w :
  can_open_for_writing p = true ->
  exists results w1 w2,
    on_heap (results_object r) w = (Ok results, w1)
    /\ save_results can_open_for_writing p (completed results s) w1 = (Ok true, w2)
    /\ disk w2 = <[p := Document (results_document r)]> (disk w)
    /\ cases w2 = cases w
    /\ current_case_index w2 = current_case_index w
    /\ entry "segmentation" match results_document r with TDict kvs => kvs | _ => [] end
       = None.
Proof.
  intros Hopen.
  destruct (lesions_literal_json (Prediction.lesions r)) as [Hj Hk].
  destruct (build_dump _ Hj Hk (objects w ++ [OArray])) as (lv & ext & Hb & Hd).
  set (h0 := (objects w ++ [OArray]) ++ ext) in *.
  set (D := [("segmentation", VRef (length (objects w)));
             ("lesions", lv);
             ("num_lesions", VInt (Z.of_nat (Prediction.num_lesions r)));
             ("has_significant_lesion", VBool (Prediction.has_significant_lesion r));
             ("total_lesion_volume",
              match Prediction.total_lesion_volume r with
              | Prediction.Int n => VInt n
              | Prediction.Float f => VFloat f
              end);
             ("prediction_date", VStr (Prediction.prediction_date r))]).
  set (h1 := h0 ++ [ODict D]).
  assert (Hobj : results_object r (objects w) = (Ok (VRef (length h0)), h1)).
  { unfold results_object. unfold alloc at 1. unfold bind at 1.
    erewrite bind_ok by exact Hb. reflexivity. }
  assert (Hl : h1 !! length h0 = Some (ODict D)) by apply lookup_alloc_new.
  set (D5 := [("lesions", lv);
              ("num_lesions", VInt (Z.of_nat (Prediction.num_lesions r)));
              ("has_significant_lesion", VBool (Prediction.has_significant_lesion r));
              ("total_lesion_volume",
               match Prediction.total_lesion_volume r with
               | Prediction.Int n => VInt n
               | Prediction.Float f => VFloat f
               end);
              ("prediction_date", VStr (Prediction.prediction_date r))]).
  set (h2 := h1 ++ [ODict D5]).
  assert (Hdump : dump (length h2) h2 (VRef (length h1)) = Ok (results_document r)).
  { unfold h2 at 1. rewrite length_app. cbn [length]. rewrite Nat.add_1_r.
    apply (dump_dict _ _ _ D5); [apply lookup_alloc_new|].
    eexists. split; [reflexivity|].
    assert (Hles : dump (length h1) h2 lv
                   = Ok (TList (map lesion_literal (Prediction.lesions r)))).
    { apply (dump_fuel (length ext)).
      - unfold h2, h1. rewrite <- app_assoc. apply Hd.
      - unfold h1, h0. rewrite !length_app. lia. }
    repeat constructor; cbn [fst snd]; try exact Hles;
      try (now rewrite (dump_immediate _ 0)).
    destruct (Prediction.total_lesion_volume r); now rewrite (dump_immediate _ 0). }
  eexists (VRef (length h0)), (with_objects h1 w), _.
  split; [now apply on_heap_run|]. split; [|split; [|split; [|split]]].
  - unfold save_results, completed. cbn [Controller.on_prediction_completed snd
                                          Controller.last_results].
    erewrite bind_ok by (apply on_heap_again, (truthy_dict _ _ D), Hl).
    change (negb (negb (Nat.eqb (length D) 0))) with false. cbv iota.
    unfold try_except.
    erewrite bind_ok.
    2:{ apply on_heap_again. apply (results_to_save_run _ _ D); [exact Hl|..]; reflexivity. }
    fold D5. fold h2.
    erewrite bind_ok.
    2:{ unfold open_for_writing. rewrite Hopen. reflexivity. }
    erewrite bind_ok.
    2:{ unfold json_dump. cbn [objects with_objects]. rewrite Hdump. reflexivity. }
    reflexivity.
  - cbn. now rewrite insert_insert_eq.
  - reflexivity.
  - reflexivity.
  - reflexivity.
Qed.

(** The results of the demo prediction. *)
Definition demo_results : Prediction.results :=
  match Prediction._process_results Prediction.demo_components Prediction.demo_mean
          Prediction.demo_runtime Prediction.demo_probability "2024-01-01 10:02:00" with
  | Some r => r
  | None => {| Prediction.segmentation := []; Prediction.lesions := [];
               Prediction.num_lesions := 0; Prediction.has_significant_lesion := false;
               Prediction.total_lesion_volume := Prediction.Int 0;
               Prediction.prediction_date := "" |}
  end.

Lemma save_results_witness :
  exists results w1 w2,
    on_heap (results_object demo_results) demo_world = (Ok results, w1)
    /\ save_results (fun _ => true) "/out/results.json"
         (completed results (Controller.init "/models")) w1 = (Ok true, w2)
    /\ disk w2 = <["/out/results.json" := Document (results_document demo_results)]>
                   (disk demo_world)
    /\ cases w2 = cases demo_world.
Proof.
  destruct (results_are_saved_without_the_mask (fun _ => true) "/out/results.json"
              demo_results (Controller.init "/models") demo_world eq_refl)
    as (results & w1 & w2 & H1 & H2 & H3 & H4 & _).
  exists results, w1, w2.
  split; [exact H1|]. split; [exact H2|]. split; [exact H3|exact H4].
Defined.

Lemma no_results_witness :
  save_results (fun _ => true) "/out/results.json" (Controller.init "/models") demo_world
  = (Ok false, demo_world)
  /\ save_results (fun _ => true) "/out/results.json"
       (completed (VRef 1%nat) (Controller.init "/models")) demo_world
     = (Ok false, demo_world)
  /\ fst (save_results (fun _ => false) "/out/results.json"
            (completed (VRef 2%nat) (Controller.init "/models")) demo_world)
     = Ok false.
Proof.
  destruct (save_results_refuses (fun _ => true)) as (H1 & _ & H3 & _).
  destruct (save_results_refuses (fun _ => false)) as (_ & _ & _ & H4).
  split; [now apply H1|]. split.
  - eapply (H3 _ _ demo_world 1%nat _ "lesions"); try reflexivity. now left.
  - now eapply (H4 _ _ demo_world 2%nat).
Defined.

End Results.

(* ===================================================================== *)
(** ** The worker thread: [PredictionWorker.run] *)
(* ===================================================================== *)

Module Worker.
Import Py.
Local Open Scope py_scope.
Local Open Scope string_scope.
Local Open Scope list_scope.
Local Open Scope Z_scope.

(** The three signals of the worker. [prediction_result] carries the
    processed results, or [None]. The text of [prediction_error] is [msg],
    followed by [str(e)] when the message reports the exception [e]. *)
Inductive signal : Type :=
  | Progress_update (n : Z)
  | Prediction_error (msg : string) (e : option exn)
  | Prediction_result (results : option Prediction.results).

(** The statements of the worker run on the signals emitted so far. *)
Definition emit (s : signal) : M (list signal) unit := fun tr => (Ok tt, tr ++ [s]).

(** A computation that emits nothing. *)
Definition quiet {A} (r : result A) : M (list signal) A := fun tr => (r, tr).

(** [v.lower()] *)
Definition str_lower (v : value) : M heap value :=
  match v with
  | VStr s => ret (VStr (PyStr.lower s))
  | _ => raise AttributeError
  end.

(** The body of the loop of [_prepare_data] over the file records;
    [acc] is [(t2w_file, adc_file)]. *)
Definition pick (acc : value * value) (file_info : value) : M heap (value * value) :=
  let* sequence_type := get_default file_info "sequence_type" (VStr "") in
  let* sequence_type := str_lower sequence_type in
  if is_str "t2w" sequence_type then
    let* path := getitem file_info "path" in ret (path, snd acc)
  else if is_str "adc" sequence_type then
    let* path := getitem file_info "path" in ret (fst acc, path)
  else ret acc.

Fixpoint pick_all (file_infos : list value) (acc : value * value)
  : M heap (value * value) :=
  match file_infos with
  | [] => ret acc
  | file_info :: rest => let* acc := pick acc file_info in pick_all rest acc
  end.

(** The search for the T2W and the ADC file in [case_data['files']]. *)
Definition select_files (case_data : value) : M heap (value * value) :=
  let* files := getitem case_data "files" in
  let* file_infos := iterate files in
  pick_all file_infos (VNone, VNone).

(** [any(abs(a[i] - b[i]) > 10 for i in range(3))] on two size tuples. *)
Fixpoint any_index (a b : list Z) (indices : list Z) : result bool :=
  match indices with
  | [] => Ok false
  | i :: rest =>
      match index_list a i, index_list b i with
      | Some x, Some y => if 10 <? Z.abs (x - y) then Ok true else any_index a b rest
      | _, _ => Raise IndexError
      end
  end.

Definition sizes_differ (t2w_size adc_size : list Z) : result bool :=
  any_index t2w_size adc_size [0; 1; 2].

Section Run.

(** The libraries and the files are parameters.
    [read_size p] is [sitk.ReadImage(p).GetSize()]; [to_tensors] stands
    for the conversion of the two images into the input tensor;
    [load_state] for building the network and loading its weights;
    [infer] for the sliding-window inference, the softmax and the
    extraction of the lesion channel. [processing_error] is what
    SimpleITK raises when the post-processing fails, and [emit_none]
    what PyQt does when [None] is emitted on a signal declared with
    [dict]. *)
Variable TORCH_AVAILABLE MONAI_AVAILABLE SITK_AVAILABLE : bool.
Variable h : heap.
Variable case_data : value.
Variable model_path : string.
Variable read_size : value -> result (list Z).
Variable to_tensors : value -> value -> result unit.
Variable path_exists : string -> bool.
Variable load_state : string -> result unit.
Variable infer : value -> value -> result Prediction.volume.
Variable connected_components : Prediction.volume -> option (list Prediction.label_shape).
Variable label_mean : Prediction.volume -> Z -> float.
Variable rt : Prediction.runtime.
Variable now : string.
Variable processing_error : exn.
Variable emit_none : result unit.

(** Reading the case: the worker changes nothing on the heap. *)
Definition read {A} (m : M heap A) : M (list signal) A := quiet (fst (m h)).

(** [_prepare_data]: the two paths, or [None]. *)
Definition _prepare_data : M (list signal) (option (value * value)) :=
  try_except
    (let* files := read (select_files case_data) in
     let t2w_file := fst files in
     let adc_file := snd files in
     let* has_t2w := read (truthy t2w_file) in
     let* missing := if negb has_t2w then ret true
                     else let* has_adc := read (truthy adc_file) in ret (negb has_adc) in
     if missing then
       emit (Prediction_error "Se requieren secuencias T2W y ADC para la predicción" None) ;;
       ret None
     else
       let* t2w_size := quiet (read_size t2w_file) in
       let* adc_size := quiet (read_size adc_file) in
       let* differ := quiet (sizes_differ t2w_size adc_size) in
       if differ then
         emit (Prediction_error
                 "Las secuencias T2W y ADC tienen dimensiones muy diferentes" None) ;;
         ret None
       else
         quiet (to_tensors t2w_file adc_file) ;;
         ret (Some (t2w_file, adc_file)))
    (fun e =>
       emit (Prediction_error "Error preparando datos: " (Some e)) ;;
       ret None).

(** [_load_model]: whether a model came back. *)
Definition _load_model : M (list signal) bool :=
  try_except
    (if negb (path_exists model_path) then
       emit (Prediction_error
               (String.append "Archivo de modelo no encontrado: " model_path) None) ;;
       ret false
     else
       quiet (load_state model_path) ;;
       ret true)
    (fun e =>
       emit (Prediction_error "Error cargando modelo: " (Some e)) ;;
       ret false).

(** [_perform_prediction] *)
Definition _perform_prediction (data : value * value)
  : M (list signal) (option Prediction.volume) :=
  try_except
    (let* lesion_probability := quiet (infer (fst data) (snd data)) in
     ret (Some lesion_probability))
    (fun e =>
       emit (Prediction_error "Error realizando predicción: " (Some e)) ;;
       ret None).

(** [_process_results]: subscripting [None] raises [TypeError] inside the
    [try]. *)
Definition _process_results (prediction_result : option Prediction.volume)
  : M (list signal) (option Prediction.results) :=
  try_except
    (match prediction_result with
     | None => raise TypeError
     | Some lesion_probability =>
         match Prediction._process_results connected_components label_mean rt
                 lesion_probability now with
         | Some results => ret (Some results)
         | None => raise processing_error
         end
     end)
    (fun e =>
       emit (Prediction_error "Error procesando resultados: " (Some e)) ;;
       ret None).

(** [self.prediction_result.emit(final_results)] *)
Definition emit_result (final_results : option Prediction.results) : M (list signal) unit :=
  match final_results with
  | Some results => emit (Prediction_result (Some results))
  | None => quiet emit_none ;; emit (Prediction_result None)
  end.

(** [run] *)
Definition run : M (list signal) unit :=
  try_except
    (if negb TORCH_AVAILABLE || negb MONAI_AVAILABLE || negb SITK_AVAILABLE then
       emit (Prediction_error
               "No se pueden realizar predicciones porque faltan dependencias" None)
     else
       let* no_case := quiet (Controller.no_case h case_data) in
       if no_case then emit (Prediction_error "No hay caso cargado para predicción" None)
       else
         emit (Progress_update 5) ;;
         let* prepared_data := _prepare_data in
         match prepared_data with
         | None =>
             emit (Prediction_error "No se pudieron preparar los datos para predicción" None)
         | Some data =>
             emit (Progress_update 30) ;;
             let* model := _load_model in
             if negb model then emit (Prediction_error "No se pudo cargar el modelo de IA" None)
             else
               emit (Progress_update 50) ;;
               let* prediction_result := _perform_prediction data in
               emit (Progress_update 80) ;;
               let* final_results := _process_results prediction_result in
               emit (Progress_update 100) ;;
               emit_result final_results
         end)
    (fun e =>
       emit (Prediction_error "Error en predicción: " (Some e))).

(** *** What a run emits *)

Definition is_error (s : signal) : bool :=
  match s with Prediction_error _ _ => true | _ => false end.

Definition progress_of (tr : list signal) : list Z :=
  flat_map (fun s => match s with Progress_update n => [n] | _ => [] end) tr.

(** A stage that fails says so once and returns [None]; a stage that
    succeeds emits nothing; no stage raises. *)
Definition stage {A} (m : M (list signal) (option A)) : Prop :=
  forall tr,
    (exists a, m tr = (Ok (Some a), tr))
    \/ (exists msg e, m tr = (Ok None, tr ++ [Prediction_error msg e])).

Lemma prepare_data_stage : stage _prepare_data.
Proof.
  intros tr. unfold _prepare_data, try_except, bind, read, quiet, emit, ret.
  destruct (fst (select_files case_data h)) as [[t2w_file adc_file]|e]; cbn [fst snd];
    [|right; eauto 6].
  destruct (fst (truthy t2w_file h)) as [[|]|e]; cbn [negb]; [|right; eauto 6|right; eauto 6].
  destruct (fst (truthy adc_file h)) as [[|]|e]; cbn [negb]; [|right; eauto 6|right; eauto 6].
  destruct (read_size t2w_file) as [t2w_size|e]; [|right; eauto 6].
  destruct (read_size adc_file) as [adc_size|e]; [|right; eauto 6].
  destruct (sizes_differ t2w_size adc_size) as [[|]|e]; [right; eauto 6| |right; eauto 6].
  destruct (to_tensors t2w_file adc_file) as [[]|e]; [left; eauto|right; eauto 6].
Qed.

Lemma load_model_stage tr :
  _load_model tr = (Ok true, tr)
  \/ exists msg e, _load_model tr = (Ok false, tr ++ [Prediction_error msg e]).
Proof.
  unfold _load_model, try_except, bind, quiet, emit, ret.
  destruct (path_exists model_path); cbn [negb]; [|right; eauto 6].
  destruct (load_state model_path) as [[]|e]; [now left|right; eauto 6].
Qed.

Lemma perform_prediction_stage data : stage (_perform_prediction data).
Proof.
  intros tr. unfold _perform_prediction, try_except, bind, quiet, emit, ret.
  destruct (infer (fst data) (snd data)) as [v|e]; [left; eauto|right; eauto 6].
Qed.

Lemma process_results_stage prediction_result : stage (_process_results prediction_result).
Proof.
  intros tr. unfold _process_results, try_except, bind, emit, ret, raise.
  destruct prediction_result as [prob|]; [|right; eauto 6].
  destruct (Prediction._process_results _ _ _ _ _); [left; eauto|right; eauto 6].
Qed.

(** The ways a run can go. *)
Inductive outcome : list signal -> Prop :=
  | Refused msg e : outcome [Prediction_error msg e]
  | Not_prepared msg1 e1 msg2 e2 :
      outcome [Progress_update 5; Prediction_error msg1 e1; Prediction_error msg2 e2]
  | No_model msg1 e1 msg2 e2 :
      outcome [Progress_update 5; Progress_update 30;
               Prediction_error msg1 e1; Prediction_error msg2 e2]
  | Predicted results :
      outcome [Progress_update 5; Progress_update 30; Progress_update 50;
               Progress_update 80; Progress_update 100;
               Prediction_result (Some results)]
  | Not_processed msg e last :
      last = Prediction_result None \/ (exists msg' e', last = Prediction_error msg' e') ->
      outcome [Progress_update 5; Progress_update 30; Progress_update 50;
               Progress_update 80; Prediction_error msg e; Progress_update 100; last]
  | Not_predicted msg1 e1 msg2 e2 last :
      last = Prediction_result None \/ (exists msg' e', last = Prediction_error msg' e') ->
      outcome [Progress_update 5; Progress_update 30; Progress_update 50;
               Prediction_error msg1 e1; Progress_update 80; Prediction_error msg2 e2;
               Progress_update 100; last].

(** What the last lines of [run] emit when there are no results. *)
Definition after_failure : signal :=
  match emit_none with
  | Ok _ => Prediction_result None
  | Raise e => Prediction_error "Error en predicción: " (Some e)
  end.

Lemma after_failure_last :
  after_failure = Prediction_result None
  \/ exists msg' e', after_failure = Prediction_error msg' e'.
Proof. unfold after_failure. destruct emit_none; [now left|right; eauto 6]. Qed.

Lemma run_outcome : exists tr, run [] = (Ok tt, tr) /\ outcome tr.
Proof.
  unfold run, try_except.
  destruct (negb TORCH_AVAILABLE || negb MONAI_AVAILABLE || negb SITK_AVAILABLE).
  { eexists. split; [reflexivity|constructor]. }
  unfold bind at 1. unfold quiet at 1.
  destruct (Controller.no_case h case_data) as [[|]|e];
    try (eexists; split; [reflexivity|constructor]).
  unfold bind at 1. unfold emit at 1. cbn [app].
  unfold bind at 1.
  destruct (prepare_data_stage [Progress_update 5]) as [[data ->]|(msg & e & ->)].
  2:{ eexists. split; [reflexivity|constructor]. }
  unfold bind at 1. unfold emit at 1. cbn [app].
  unfold bind at 1.
  destruct (load_model_stage [Progress_update 5; Progress_update 30]) as [->|(msg & e & ->)].
  2:{ eexists. split; [reflexivity|constructor]. }
  cbn [negb]. unfold bind at 1. unfold emit at 1. cbn [app].
  unfold bind at 1.
  destruct (perform_prediction_stage data
              [Progress_update 5; Progress_update 30; Progress_update 50])
    as [[prob ->]|(msg1 & e1 & ->)]; cbn [app];
    unfold bind at 1; unfold emit at 1; cbn [app]; unfold bind at 1.
  - destruct (process_results_stage (Some prob)
                [Progress_update 5; Progress_update 30; Progress_update 50;
                 Progress_update 80]) as [[r ->]|(msg & e & ->)]; cbn [app];
      unfold bind at 1; unfold emit at 1; cbn [app].
    + eexists. split; [reflexivity|constructor].
    + pose proof after_failure_last as Hlast. unfold after_failure in *.
      unfold emit_result, bind, quiet, emit.
      destruct emit_none; (eexists; split; [reflexivity|now constructor]).
  - destruct (process_results_stage None
                [Progress_update 5; Progress_update 30; Progress_update 50;
                 Prediction_error msg1 e1; Progress_update 80]) as [[r H]|(msg & e & ->)].
    { exfalso. unfold _process_results, try_except, raise, bind, emit in H. discriminate. }
    cbn [app]. unfold bind at 1; unfold emit at 1; cbn [app].
    pose proof after_failure_last as Hlast. unfold after_failure in *.
    unfold emit_result, bind, quiet, emit.
    destruct emit_none; (eexists; split; [reflexivity|now constructor]).
Qed.

(** *** Particular runs *)

(** When every stage succeeds the run emits the five progress values and
    then the results [_process_results] computes from what the model
    infers on the T2W and the ADC file found in the case. *)
Theorem run_success t2w_file adc_file t2w_size adc_size lesion_probability results :
  TORCH_AVAILABLE = true -> MONAI_AVAILABLE = true -> SITK_AVAILABLE = true ->
  Controller.no_case h case_data = Ok false ->
  fst (select_files case_data h) = Ok (t2w_file, adc_file) ->
  fst (truthy t2w_file h) = Ok true ->
  fst (truthy adc_file h) = Ok true ->
  read_size t2w_file = Ok t2w_size ->
  read_size adc_file = Ok adc_size ->
  sizes_differ t2w_size adc_size = Ok false ->
  to_tensors t2w_file adc_file = Ok tt ->
  path_exists model_path = true ->
  load_state model_path = Ok tt ->
  infer t2w_file adc_file = Ok lesion_probability ->
  Prediction._process_results connected_components label_mean rt
    lesion_probability now = Some results ->
  run [] = (Ok tt, map Progress_update [5; 30; 50; 80; 100]
                   ++ [Prediction_result (Some results)]).
Proof.
  intros Ht Hm Hs Hcase Hsel Ht2w Hadc Hs1 Hs2 Hdiff Htens Hexists Hload Hinfer Hproc.
  unfold run, try_except, _prepare_data, _load_model, _perform_prediction,
    _process_results, emit_result, try_except, bind, read, quiet, emit, ret.
  rewrite Ht, Hm, Hs. cbn [negb orb]. rewrite Hcase, Hsel. cbn [fst snd].
  rewrite Ht2w, Hadc. cbn [negb]. rewrite Hs1, Hs2, Hdiff, Htens, Hexists. cbn [negb].
  rewrite Hload. cbn [negb fst snd]. rewrite Hinfer, Hproc. reflexivity.
Qed.

(** When the inference fails after the data and the model were prepared,
    the run goes on: it emits 80, fails again on the missing prediction,
    emits 100, and ends by emitting [None] as the results. *)
Theorem run_failed_inference t2w_file adc_file t2w_size adc_size e :
  TORCH_AVAILABLE = true -> MONAI_AVAILABLE = true -> SITK_AVAILABLE = true ->
  Controller.no_case h case_data = Ok false ->
  fst (select_files case_data h) = Ok (t2w_file, adc_file) ->
  fst (truthy t2w_file h) = Ok true ->
  fst (truthy adc_file h) = Ok true ->
  read_size t2w_file = Ok t2w_size ->
  read_size adc_file = Ok adc_size ->
  sizes_differ t2w_size adc_size = Ok false ->
  to_tensors t2w_file adc_file = Ok tt ->
  path_exists model_path = true ->
  load_state model_path = Ok tt ->
  infer t2w_file adc_file = Raise e ->
  run [] = (Ok tt,
            [Progress_update 5; Progress_update 30; Progress_update 50;
             Prediction_error "Error realizando predicción: " (Some e);
             Progress_update 80;
             Prediction_error "Error procesando resultados: " (Some TypeError);
             Progress_update 100;
             after_failure]).
Proof.
  intros Ht Hm Hs Hcase Hsel Ht2w Hadc Hs1 Hs2 Hdiff Htens Hexists Hload Hinfer.
  unfold run, try_except, _prepare_data, _load_model, _perform_prediction,
    _process_results, emit_result, after_failure, try_except, bind, read, quiet, emit,
    ret, raise.
  rewrite Ht, Hm, Hs. cbn [negb orb]. rewrite Hcase, Hsel. cbn [fst snd].
  rewrite Ht2w, Hadc. cbn [negb]. rewrite Hs1, Hs2, Hdiff, Htens, Hexists. cbn [negb].
  rewrite Hload. cbn [negb fst snd]. rewrite Hinfer. cbn [app].
  destruct emit_none; reflexivity.
Qed.

End Run.

(** A run never raises. The progress values it emits are the first few
    of 5, 30, 50, 80, 100, in this order. Either it emits the five of
    them and then the results, and no error; or it emits at least one
    error and no results. *)
Theorem run_reports_results_or_an_error
    (TORCH_AVAILABLE MONAI_AVAILABLE SITK_AVAILABLE : bool)
    (h : heap) (case_data : value) (model_path : string)
    (read_size : value -> result (list Z)) (to_tensors : value -> value -> result unit)
    (path_exists : string -> bool) (load_state : string -> result unit)
    (infer : value -> value -> result Prediction.volume)
    (connected_components : Prediction.volume -> option (list Prediction.label_shape))
    (label_mean : Prediction.volume -> Z -> float) (rt : Prediction.runtime)
    (now : string) (processing_error : exn) (emit_none : result unit) :
  exists tr,
    run TORCH_AVAILABLE MONAI_AVAILABLE SITK_AVAILABLE h case_data model_path
        read_size to_tensors path_exists load_state infer connected_components
        label_mean rt now processing_error emit_none [] = (Ok tt, tr)
    /\ (exists k, progress_of tr = firstn k [5; 30; 50; 80; 100])
    /\ ((exists results,
           tr = map Progress_update [5; 30; 50; 80; 100]
                ++ [Prediction_result (Some results)])
        \/ (existsb is_error tr = true
            /\ forall results, ~ In (Prediction_result (Some results)) tr)).
Proof.
  destruct (run_outcome TORCH_AVAILABLE MONAI_AVAILABLE SITK_AVAILABLE h case_data
              model_path read_size to_tensors path_exists load_state infer
              connected_components label_mean rt now processing_error emit_none)
    as (tr & Hrun & Hout).
  exists tr. split; [exact Hrun|].
  destruct Hout as [msg e|msg1 e1 msg2 e2|msg1 e1 msg2 e2|results|msg e last Hlast
                    |msg1 e1 msg2 e2 last Hlast].
  - split; [now exists 0%nat|]. right. split; [reflexivity|].
    intros r [H|[]]; discriminate.
  - split; [now exists 1%nat|]. right. split; [reflexivity|].
    intros r H. cbn in H. intuition discriminate.
  - split; [now exists 2%nat|]. right. split; [reflexivity|].
    intros r H. cbn in H. intuition discriminate.
  - split; [now exists 5%nat|]. left. now exists results.
  - split.
    + exists 5%nat. destruct Hlast as [->|(msg' & e' & ->)]; reflexivity.
    + right. split; [reflexivity|].
      intros r H. cbn in H. destruct Hlast as [->|(msg' & e' & ->)]; intuition discriminate.
  - split.
    + exists 5%nat. destruct Hlast as [->|(msg' & e' & ->)]; reflexivity.
    + right. split; [reflexivity|].
      intros r H. cbn in H. destruct Hlast as [->|(msg' & e' & ->)]; intuition discriminate.
Qed.

(** *** The files a prediction reads *)

Lemma last_cons {A} (x : A) (xs : list A) (d : A) :
  List.last (x :: xs) d = List.last xs x.
Proof.
  revert x d. induction xs as [|y xs IH]; intros x d; [reflexivity|].
  change (List.last (x :: y :: xs) d) with (List.last (y :: xs) d).
  now rewrite !IH.
Qed.

(** The six sequence types are lower-case already. *)
Lemma lower_sequence_type name :
  PyStr.lower (CaseManager.sequence_type_of_name name)
  = CaseManager.sequence_type_of_name name.
Proof.
  unfold CaseManager.sequence_type_of_name.
  repeat match goal with
         | |- context [if ?b then _ else _] => destruct b
         end; reflexivity.
Qed.

(** On file records as [_process_file] makes them, the loop keeps the
    last path of each of the two types. *)
Lemma pick_all_last (h : heap) fs : forall ps acc,
  Forall2 (fun f q => CaseFacts.is_file_of h q f) fs ps ->
  pick_all fs acc h
  = (Ok (List.last
           (map VStr (List.filter
                        (fun q => String.eqb "t2w" (CaseFacts.sequence_type_of_path q)) ps))
           (fst acc),
         List.last
           (map VStr (List.filter
                        (fun q => String.eqb "adc" (CaseFacts.sequence_type_of_path q)) ps))
           (snd acc)),
     h).
Proof.
  induction fs as [|f fs IH]; intros ps acc Hfs;
    inversion Hfs as [|? q ? qs Hf Hrest]; subst.
  - now destruct acc.
  - destruct Hf as (l & d & -> & Hl & Hpath & Hseq).
    cbn [pick_all List.filter].
    assert (Hget : get_default (VRef l) "sequence_type" (VStr "") h
                   = (Ok (VStr (CaseFacts.sequence_type_of_path q)), h)).
    { unfold get_default. cbn [object_of]. now rewrite Hl, Hseq. }
    assert (Hpick : pick acc (VRef l) h
                    = (Ok (if String.eqb "t2w" (CaseFacts.sequence_type_of_path q)
                           then (VStr q, snd acc)
                           else if String.eqb "adc" (CaseFacts.sequence_type_of_path q)
                                then (fst acc, VStr q)
                                else acc), h)).
    { unfold pick. erewrite CaseManager.bind_ok by exact Hget.
      unfold str_lower. erewrite CaseManager.bind_ok by reflexivity.
      unfold CaseFacts.sequence_type_of_path. rewrite lower_sequence_type.
      cbn [is_str].
      destruct (String.eqb "t2w" _);
        [now erewrite CaseManager.bind_ok by (apply (CaseManager.getitem_dict _ _ d); [exact Hl|exact Hpath])|].
      destruct (String.eqb "adc" _);
        [now erewrite CaseManager.bind_ok by (apply (CaseManager.getitem_dict _ _ d); [exact Hl|exact Hpath])|].
      reflexivity. }
    erewrite CaseManager.bind_ok by exact Hpick. rewrite (IH qs) by exact Hrest.
    destruct (String.eqb_spec "t2w" (CaseFacts.sequence_type_of_path q)) as [E|E].
    + rewrite <- E. cbn [String.eqb Ascii.eqb Bool.eqb fst snd map].
      now rewrite last_cons.
    + destruct (String.eqb "adc" (CaseFacts.sequence_type_of_path q));
        cbn [fst snd map]; now rewrite ?last_cons.
Qed.

(** A prediction on a case that [load_case] has just made looks, among
    the files that could be read, for the last one whose name gives the
    type t2w and the last one whose name gives the type adc. When there
    is none of one of the two types, a run with torch, MONAI and SimpleITK
    available stops after progress 5 with two errors. A run without one
    of the three libraries emits the error about the dependencies and
    nothing else, whatever the case holds. *)
Theorem prediction_needs_a_t2w_and_an_adc_file
    (load_medical_image : string -> option CaseManager.image_info) ps a b c w :
  Exists (fun p => load_medical_image p <> None) ps ->
  let w1 := CaseManager.after (CaseManager.load_case load_medical_image ps a b c) w in
  let h1 := CaseManager.objects w1 in
  let case := VRef (S (S (length (CaseManager.objects w)))) in
  let of_type s :=
    List.filter (fun q => String.eqb s (CaseFacts.sequence_type_of_path q))
                (CaseFacts.readable load_medical_image ps) in
  fst (CaseManager.load_case load_medical_image ps a b c w) = Ok case
  /\ select_files case h1
     = (Ok (List.last (map VStr (of_type "t2w")) VNone,
            List.last (map VStr (of_type "adc")) VNone), h1)
  /\ (of_type "t2w" = [] \/ of_type "adc" = [] ->
      forall model_path read_size to_tensors path_exists load_state infer
             connected_components label_mean rt now processing_error emit_none,
        run true true true h1 case model_path read_size to_tensors path_exists
            load_state infer connected_components label_mean rt now
            processing_error emit_none []
        = (Ok tt,
           [Progress_update 5;
            Prediction_error "Se requieren secuencias T2W y ADC para la predicción" None;
            Prediction_error "No se pudieron preparar los datos para predicción" None]))
  /\ (forall torch monai sitk,
        torch && monai && sitk = false ->
        forall model_path read_size to_tensors path_exists load_state infer
               connected_components label_mean rt now processing_error emit_none,
          run torch monai sitk h1 case model_path read_size to_tensors path_exists
              load_state infer connected_components label_mean rt now
              processing_error emit_none []
          = (Ok tt,
             [Prediction_error
                "No se pueden realizar predicciones porque faltan dependencias" None])).
Proof.
  intros Hex w1 h1 case of_type.
  destruct ps as [|p ps]; [now apply Exists_nil in Hex|].
  destruct (CaseFacts.load_case_content load_medical_image p ps a b c w)
    as (h' & fs & Hfs & Hn0 & Hlc & _ & Hrun).
  destruct fs as [|f fs].
  { exfalso. apply List.Exists_exists in Hex as (q & Hq & Hload).
    assert (Hin : In q (CaseFacts.readable load_medical_image (p :: ps))).
    { apply List.filter_In. split; [exact Hq|]. now destruct (load_medical_image q). }
    apply Forall2_length in Hfs. destruct (CaseFacts.readable _ _); [destruct Hin|discriminate]. }
  assert (Hh1 : h1 = h') by (unfold h1, w1, CaseManager.after; now rewrite Hrun).
  fold case in Hlc, Hrun. rewrite Hh1.
  assert (Hsel : select_files case h'
                 = (Ok (List.last (map VStr (of_type "t2w")) VNone,
                        List.last (map VStr (of_type "adc")) VNone), h')).
  { unfold select_files.
    erewrite CaseManager.bind_ok
      by (apply (CaseManager.getitem_dict _ _ _ _ _ Hlc); reflexivity).
    erewrite CaseManager.bind_ok by (apply CaseManager.iterate_list, Hn0).
    now rewrite (pick_all_last h' (f :: fs) _ (VNone, VNone) Hfs). }
  split; [now rewrite Hrun|]. split; [exact Hsel|]. split.
  2:{ intros torch monai sitk Hdeps. intros.
      unfold run, try_except, emit.
      destruct torch, monai, sitk; try discriminate Hdeps; reflexivity. }
  intros Hmissing model_path read_size to_tensors path_exists load_state infer
         connected_components label_mean rt now processing_error emit_none.
  assert (Hcase : Controller.no_case h' case = Ok false).
  { unfold Controller.no_case, truthy, contains, case. cbn [object_of]. now rewrite Hlc. }
  unfold run, try_except, _prepare_data, try_except, bind, read, quiet, emit, ret.
  cbn [negb orb]. rewrite Hcase, Hsel. cbn [fst snd app].
  destruct Hmissing as [E|E]; rewrite E; cbn [map List.last truthy fst negb app];
    [reflexivity|].
  destruct (List.last (map VStr (of_type "t2w")) VNone) eqn:El; cbn [truthy fst];
    try reflexivity.
  - destruct b0; reflexivity.
  - destruct (negb (n =? 0)); reflexivity.
  - destruct (negb (PrimFloat.eqb f0 0)); reflexivity.
  - destruct (negb (String.eqb s "")); reflexivity.
  - exfalso. clear -El. induction (of_type "t2w") as [|q qs IH]; [discriminate|].
    cbn [map] in El. rewrite last_cons in El.
    destruct qs; [discriminate|]. apply IH. cbn [map] in *. now rewrite last_cons in *. 
Qed.

(** *** A session *)

(** The worker on the demo case, with a model that infers the demo
    probabilities, or fails. *)
Definition demo_run (infer : value -> value -> result Prediction.volume)
  : result unit * list signal :=
  run true true true (CaseManager.objects CaseManager.demo_world) (VRef 2%nat)
      "/models/prostate_segmentation_model.pth"
      (fun _ => Ok [4; 4; 2]) (fun _ _ => Ok tt) (fun _ => true) (fun _ => Ok tt)
      infer Prediction.demo_components Prediction.demo_mean Prediction.demo_runtime
      "2024-01-01 10:02:00" (ValueError "sitk") (Raise TypeError) [].

Lemma run_success_witness :
  demo_run (fun _ _ => Ok Prediction.demo_probability)
  = (Ok tt, map Progress_update [5; 30; 50; 80; 100]
            ++ [Prediction_result (Some Results.demo_results)]).
Proof.
  apply (run_success true true true (CaseManager.objects CaseManager.demo_world)
           (VRef 2%nat) "/models/prostate_segmentation_model.pth"
           (fun _ => Ok [4; 4; 2]) (fun _ _ => Ok tt) (fun _ => true) (fun _ => Ok tt)
           (fun _ _ => Ok Prediction.demo_probability)
           Prediction.demo_components Prediction.demo_mean Prediction.demo_runtime
           "2024-01-01 10:02:00" (ValueError "sitk") (Raise TypeError)
           (VStr "/data/p01/T2W_axial.nii") (VStr "/data/p01/adc.nii")
           [4; 4; 2] [4; 4; 2] Prediction.demo_probability Results.demo_results);
    reflexivity.
Defined.

Lemma failed_inference_witness :
  demo_run (fun _ _ => Raise OSError)
  = (Ok tt,
     [Progress_update 5; Progress_update 30; Progress_update 50;
      Prediction_error "Error realizando predicción: " (Some OSError);
      Progress_update 80;
      Prediction_error "Error procesando resultados: " (Some TypeError);
      Progress_update 100;
      Prediction_error "Error en predicción: " (Some TypeError)]).
Proof.
  apply (run_failed_inference true true true (CaseManager.objects CaseManager.demo_world)
           (VRef 2%nat) "/models/prostate_segmentation_model.pth"
           (fun _ => Ok [4; 4; 2]) (fun _ _ => Ok tt) (fun _ => true) (fun _ => Ok tt)
           (fun _ _ => Raise OSError)
           Prediction.demo_components Prediction.demo_mean Prediction.demo_runtime
           "2024-01-01 10:02:00" (ValueError "sitk") (Raise TypeError)
           (VStr "/data/p01/T2W_axial.nii") (VStr "/data/p01/adc.nii")
           [4; 4; 2] [4; 4; 2] OSError);
    reflexivity.
Defined.

(** A case with a T2W file only. *)
Definition t2w_only : CaseManager.world :=
  CaseManager.after
    (CaseManager.load_case CaseManager.demo_loader ["/data/p02/t2w.nii"]
       "20240101_110000" "2024-01-01T11:00:00" "2024-01-01T11:00:00")
    CaseManager.init.

Lemma missing_adc_witness :
  select_files (VRef 2%nat) (CaseManager.objects t2w_only)
  = (Ok (VStr "/data/p02/t2w.nii", VNone), CaseManager.objects t2w_only)
  /\ run true true true (CaseManager.objects t2w_only) (VRef 2%nat)
         "/models/prostate_segmentation_model.pth"
         (fun _ => Ok [4; 4; 2]) (fun _ _ => Ok tt) (fun _ => true) (fun _ => Ok tt)
         (fun _ _ => Ok Prediction.demo_probability)
         Prediction.demo_components Prediction.demo_mean Prediction.demo_runtime
         "2024-01-01 10:02:00" (ValueError "sitk") (Raise TypeError) []
     = (Ok tt,
        [Progress_update 5;
         Prediction_error "Se requieren secuencias T2W y ADC para la predicción" None;
         Prediction_error "No se pudieron preparar los datos para predicción" None])
  /\ run true true false (CaseManager.objects t2w_only) (VRef 2%nat)
         "/models/prostate_segmentation_model.pth"
         (fun _ => Ok [4; 4; 2]) (fun _ _ => Ok tt) (fun _ => true) (fun _ => Ok tt)
         (fun _ _ => Ok Prediction.demo_probability)
         Prediction.demo_components Prediction.demo_mean Prediction.demo_runtime
         "2024-01-01 10:02:00" (ValueError "sitk") (Raise TypeError) []
     = (Ok tt,
        [Prediction_error
           "No se pueden realizar predicciones porque faltan dependencias" None]).
Proof.
  destruct (prediction_needs_a_t2w_and_an_adc_file CaseManager.demo_loader
              ["/data/p02/t2w.nii"] "20240101_110000" "2024-01-01T11:00:00"
              "2024-01-01T11:00:00" CaseManager.init) as (_ & Hsel & Hrun & Hdeps).
  - apply Exists_cons_hd. discriminate.
  - split; [exact Hsel|]. split; [apply Hrun; now right|].
    now apply (Hdeps true true false).
Defined.

End Worker.

(* ===================================================================== *)
(** ** Reading an image file: [app/utils/image_loader.py] *)
(* ===================================================================== *)

Module ImageLoader.
Import Py.
Local Open Scope string_scope.
Local Open Scope list_scope.

(** [os.path.splitext(name)[1]] for a name without a slash: from the last
    dot on, unless nothing but dots comes before it. *)
Fixpoint from_last_dot (s : string) : option string :=
  match s with
  | EmptyString => None
  | String c s' =>
      match from_last_dot s' with
      | Some e => Some e
      | None => if Ascii.eqb c "." then Some s else None
      end
  end.

Definition splitext_ext (name : string) : string :=
  match PyStr.before_last_dot name, from_last_dot name with
  | Some r, Some e => if PyStr.all_dots r then "" else e
  | _, _ => ""
  end.

(** [os.path.splitext(p)]: the extension is looked for in the last
    component of the path. *)
Definition splitext (p : string) : string * string :=
  (String.append (PyStr.head_of p) (PyStr.splitext_root (PyStr.basename p)),
   splitext_ext (PyStr.basename p)).

(** The lines of [load_medical_image] that determine ['format']. *)
Definition format_of (file_path : string) : string :=
  let ext := PyStr.lower (snd (splitext file_path)) in
  if String.eqb ext ".gz" then
    let prev_ext := snd (splitext (fst (splitext file_path))) in
    String.append (PyStr.lower prev_ext) ext
  else ext.

(** The reader the VTK branch chooses. *)
Inductive vtk_reader : Type :=
  | vtkMetaImageReader
  | vtkNIFTIImageReader
  | vtkDICOMImageReader
  | vtkImageReader2.

Definition reader_for (ext : string) : vtk_reader :=
  if String.eqb ext ".mha" || String.eqb ext ".mhd" then vtkMetaImageReader
  else if String.eqb ext ".nii" || String.eqb ext ".nii.gz" then vtkNIFTIImageReader
  else if String.eqb ext ".dcm" then vtkDICOMImageReader
  else vtkImageReader2.

Section Loader.

(** The file system and the libraries are parameters: [path_exists] is
    [os.path.exists], [_check_module m] tells whether [m] can be
    imported, and each reader gives the metadata dictionary its branch
    builds, or [None] when something in the branch raises. [stat] gives
    the size and the modification time of an existing file. *)
Variable path_exists : string -> bool.
Variable _check_module : string -> bool.
Variable sitk_read : string -> option (list (string * tree)).
Variable nib_read : string -> option (list (string * tree)).
Variable vtk_read : vtk_reader -> string -> option (list (string * tree)).
Variable stat : string -> list (string * tree).

(** [load_medical_image] *)
Definition load_medical_image (file_path : string) : option CaseManager.image_info :=
  if negb (path_exists file_path) then None
  else
    let ext := format_of file_path in
    let result loaded_with has_array metadata :=
      Some {| CaseManager.image_format := ext;
              CaseManager.image_loaded_with := loaded_with;
              CaseManager.image_has_array := has_array;
              CaseManager.image_metadata := metadata |} in
    match (if _check_module "SimpleITK" then sitk_read file_path else None) with
    | Some metadata => result "SimpleITK" true metadata
    | None =>
        match (if _check_module "nibabel"
                  && (String.eqb ext ".nii" || String.eqb ext ".nii.gz")
               then nib_read file_path else None) with
        | Some metadata => result "nibabel" true metadata
        | None =>
            match (if _check_module "vtk" then vtk_read (reader_for ext) file_path
                   else None) with
            | Some metadata => result "VTK" true metadata
            | None => result "basic_info" false (stat file_path)
            end
        end
    end.

(** [check_dependencies]: whether the critical modules are there, and the
    modules that are missing. *)
Definition critical_deps : list string := ["PyQt5"; "numpy"; "vtk"].
Definition optional_deps : list string :=
  ["SimpleITK"; "monai"; "torch"; "nibabel"; "matplotlib"; "reportlab"].

Definition missing (deps : list string) : list string :=
  List.filter (fun dep => negb (_check_module dep)) deps.

Definition check_dependencies : bool * list string :=
  let missing_critical := missing critical_deps in
  let missing_optional := missing optional_deps in
  match missing_critical with
  | _ :: _ => (false, missing_critical)
  | [] => (true, missing_optional)
  end.

Lemma existing_file_is_loaded_or_not p :
  (exists info, load_medical_image p = Some info /\ path_exists p = true)
  \/ (load_medical_image p = None /\ path_exists p = false).
Proof.
  unfold load_medical_image. destruct (path_exists p); cbn [negb]; [left|now right].
  cbv zeta.
  destruct (if _check_module "SimpleITK" then _ else _); [eauto|].
  destruct (if _check_module "nibabel" && _ then _ else _); [eauto|].
  destruct (if _check_module "vtk" then _ else _); eauto.
Qed.

(** A file that exists is always loaded: [load_medical_image] returns
    [None] only for a path that does not exist. The backends are tried in
    the order SimpleITK, nibabel, VTK, and the first that is installed and
    reads the file gives ['loaded_with'] and the metadata; nibabel is only
    tried on [.nii] and [.nii.gz]. When none reads the file the result is
    ['basic_info'] with the size and the date of the file, and this is
    the only result without the voxels. *)
Theorem existing_file_is_always_loaded (p : string) :
  let by_sitk := _check_module "SimpleITK" = true /\ sitk_read p <> None in
  let by_nibabel :=
    _check_module "nibabel" = true
    /\ (format_of p = ".nii" \/ format_of p = ".nii.gz")
    /\ nib_read p <> None in
  let by_vtk :=
    _check_module "vtk" = true /\ vtk_read (reader_for (format_of p)) p <> None in
  (load_medical_image p = None <-> path_exists p = false)
  /\ (path_exists p = true ->
      exists info,
        load_medical_image p = Some info
        /\ CaseManager.image_format info = format_of p
        /\ (CaseManager.image_loaded_with info = "SimpleITK" <-> by_sitk)
        /\ (CaseManager.image_loaded_with info = "nibabel"
            <-> ~ by_sitk /\ by_nibabel)
        /\ (CaseManager.image_loaded_with info = "VTK"
            <-> ~ by_sitk /\ ~ by_nibabel /\ by_vtk)
        /\ (CaseManager.image_loaded_with info = "basic_info"
            <-> ~ by_sitk /\ ~ by_nibabel /\ ~ by_vtk)
        /\ (CaseManager.image_loaded_with info = "SimpleITK" ->
            sitk_read p = Some (CaseManager.image_metadata info))
        /\ (CaseManager.image_loaded_with info = "nibabel" ->
            nib_read p = Some (CaseManager.image_metadata info))
        /\ (CaseManager.image_loaded_with info = "VTK" ->
            vtk_read (reader_for (format_of p)) p = Some (CaseManager.image_metadata info))
        /\ (CaseManager.image_loaded_with info = "basic_info" ->
            CaseManager.image_metadata info = stat p)
        /\ (CaseManager.image_loaded_with info = "basic_info"
            <-> CaseManager.image_has_array info = false)
        /\ In (CaseManager.image_loaded_with info)
              ["SimpleITK"; "nibabel"; "VTK"; "basic_info"]).
Proof.
  intros by_sitk by_nibabel by_vtk. unfold load_medical_image.
  destruct (path_exists p); cbn [negb].
  2:{ split; [now split|discriminate]. }
  split; [split; [|discriminate]|].
  { cbv zeta.
    destruct (if _check_module "SimpleITK" then _ else _); [discriminate|].
    destruct (if _check_module "nibabel" && _ then _ else _); [discriminate|].
    destruct (if _check_module "vtk" then _ else _); discriminate. }
  intros _.
  assert (Hnifti : String.eqb (format_of p) ".nii" || String.eqb (format_of p) ".nii.gz"
                   = true <-> format_of p = ".nii" \/ format_of p = ".nii.gz").
  { rewrite orb_true_iff, !String.eqb_eq. tauto. }
  assert (Hs : (if _check_module "SimpleITK" then sitk_read p else None) <> None
               <-> by_sitk).
  { unfold by_sitk. destruct (_check_module "SimpleITK"); intuition congruence. }
  assert (Hn : (if _check_module "nibabel"
                   && (String.eqb (format_of p) ".nii"
                       || String.eqb (format_of p) ".nii.gz")
                then nib_read p else None) <> None
               <-> by_nibabel).
  { unfold by_nibabel. rewrite <- Hnifti.
    destruct (_check_module "nibabel"),
      (String.eqb (format_of p) ".nii" || String.eqb (format_of p) ".nii.gz");
      cbn [andb]; intuition congruence. }
  assert (Hv : (if _check_module "vtk" then vtk_read (reader_for (format_of p)) p
                else None) <> None
               <-> by_vtk).
  { unfold by_vtk. destruct (_check_module "vtk"); intuition congruence. }
  clearbody by_sitk by_nibabel by_vtk. cbv zeta.
  destruct (if _check_module "SimpleITK" then sitk_read p else None) as [md1|] eqn:R1.
  { assert (Hm : sitk_read p = Some md1)
      by (destruct (_check_module "SimpleITK"); [exact R1|discriminate]).
    assert (by_sitk) by (apply Hs; discriminate).
    eexists. split; [reflexivity|].
    cbn [CaseManager.image_format CaseManager.image_loaded_with
         CaseManager.image_has_array CaseManager.image_metadata].
    repeat split; intros; try discriminate; try tauto; try assumption. now left. }
  assert (~ by_sitk) by (rewrite <- Hs; intros H; now apply H).
  destruct (if _check_module "nibabel" && _ then nib_read p else None) as [md2|] eqn:R2.
  { assert (Hm : nib_read p = Some md2)
      by (destruct (_check_module "nibabel" && _); [exact R2|discriminate]).
    assert (by_nibabel) by (apply Hn; discriminate).
    eexists. split; [reflexivity|].
    cbn [CaseManager.image_format CaseManager.image_loaded_with
         CaseManager.image_has_array CaseManager.image_metadata].
    repeat split; intros; try discriminate; try tauto; try assumption.
    right. now left. }
  assert (~ by_nibabel) by (rewrite <- Hn; intros H'; now apply H').
  destruct (if _check_module "vtk" then _ else None) as [md3|] eqn:R3.
  { assert (Hm : vtk_read (reader_for (format_of p)) p = Some md3)
      by (destruct (_check_module "vtk"); [exact R3|discriminate]).
    assert (by_vtk) by (apply Hv; discriminate).
    eexists. split; [reflexivity|].
    cbn [CaseManager.image_format CaseManager.image_loaded_with
         CaseManager.image_has_array CaseManager.image_metadata].
    repeat split; intros; try discriminate; try tauto; try assumption.
    right. right. now left. }
  assert (~ by_vtk) by (rewrite <- Hv; intros H'; now apply H').
  eexists. split; [reflexivity|].
  cbn [CaseManager.image_format CaseManager.image_loaded_with
       CaseManager.image_has_array CaseManager.image_metadata].
  repeat split; intros; try discriminate; try tauto; try assumption.
  right. right. right. now left.
Qed.

(** [check_dependencies] answers [True] exactly when the three critical
    modules can be imported. The list it returns holds, in the order of
    the source, the critical modules that are missing when there is one,
    and otherwise the optional modules that are missing: a missing
    optional module is not reported while a critical one is missing. *)
Theorem check_dependencies_reports_one_kind :
  let ok := fst check_dependencies in
  let reported := snd check_dependencies in
  (ok = true <-> Forall (fun dep => _check_module dep = true) critical_deps)
  /\ (ok = false -> reported = missing critical_deps /\ reported <> [])
  /\ (ok = true -> reported = missing optional_deps)
  /\ Forall (fun dep => _check_module dep = false) reported.
Proof.
  intros ok reported. unfold ok, reported, check_dependencies.
  assert (Hmiss : forall deps, Forall (fun dep => _check_module dep = false) (missing deps)).
  { intros deps. apply List.Forall_forall. intros dep Hin.
    apply List.filter_In in Hin as [_ H]. now destruct (_check_module dep). }
  assert (Hall : missing critical_deps = []
                 <-> Forall (fun dep => _check_module dep = true) critical_deps).
  { unfold missing, critical_deps. cbn [List.filter].
    destruct (_check_module "PyQt5") eqn:E1, (_check_module "numpy") eqn:E2,
      (_check_module "vtk") eqn:E3; cbn [negb];
      (split; [intros H; try discriminate; repeat constructor; assumption
              |intros H; try reflexivity; exfalso;
               repeat match goal with
                      | H : Forall _ (_ :: _) |- _ => inversion H; clear H; subst
                      end; congruence]). }
  destruct (missing critical_deps) as [|d ds] eqn:E; cbn [fst snd].
  - split; [split; [intros _; now apply Hall|reflexivity]|].
    split; [discriminate|]. split; [reflexivity|]. apply Hmiss.
  - split; [split; [discriminate|intros H; apply Hall in H; discriminate]|].
    split; [now split|]. split; [discriminate|]. rewrite <- E. apply Hmiss.
Qed.

End Loader.

(** *** The case manager with this loader *)

Lemma readable_existing path_exists _check_module sitk_read nib_read vtk_read stat ps :
  CaseFacts.readable
    (load_medical_image path_exists _check_module sitk_read nib_read vtk_read stat) ps
  = List.filter path_exists ps.
Proof.
  unfold CaseFacts.readable. apply List.filter_ext. intros p.
  destruct (existing_file_is_loaded_or_not path_exists _check_module sitk_read nib_read
              vtk_read stat p) as [(info & -> & ->)|[-> ->]]; reflexivity.
Qed.

(** With this loader [load_case] opens a case as soon as one of the paths
    exists, whatever the files hold: the case has one record for every
    path that exists, in the order given. It raises [ValueError], and
    opens nothing, exactly when no path exists. *)
Theorem load_case_takes_every_existing_file
    path_exists _check_module sitk_read nib_read vtk_read stat ps a b c w :
  let load :=
    load_medical_image path_exists _check_module sitk_read nib_read vtk_read stat in
  let n0 := length (CaseManager.objects w) in
  (Forall (fun p => path_exists p = false) ps ->
   exists msg w',
     CaseManager.load_case load ps a b c w = (Raise (ValueError msg), w')
     /\ CaseManager.cases w' = CaseManager.cases w
     /\ CaseManager.current_case_index w' = CaseManager.current_case_index w)
  /\ (Exists (fun p => path_exists p = true) ps ->
      exists h' fs,
        CaseManager.load_case load ps a b c w
        = (Ok (VRef (S (S n0))),
           {| CaseManager.objects := h';
              CaseManager.cases := CaseManager.cases w ++ [VRef (S (S n0))];
              CaseManager.current_case_index := Z.of_nat (length (CaseManager.cases w));
              CaseManager.disk := CaseManager.disk w |})
        /\ h' !! n0 = Some (OList fs)
        /\ Forall2 (fun f q => CaseFacts.is_file_of h' q f) fs (List.filter path_exists ps)).
Proof.
  intros load n0.
  destruct ps as [|p ps].
  { split; [intros _; eexists _, _; split; [reflexivity|now split]|].
    intros H. now apply Exists_nil in H. }
  destruct (CaseFacts.load_case_content load p ps a b c w)
    as (h' & fs & Hfs & Hn0 & _ & _ & Hrun).
  fold n0 in Hn0, Hrun.
  unfold load in Hfs. rewrite readable_existing in Hfs. fold load in Hrun.
  split.
  - intros Hnone.
    assert (E : List.filter path_exists (p :: ps) = []).
    { clear -Hnone. induction Hnone as [|q qs Hq _ IH]; [reflexivity|].
      cbn [List.filter]. now rewrite Hq. }
    rewrite E in Hfs. inversion Hfs; subst.
    eexists _, _. split; [exact Hrun|]. now split.
  - intros Hex. exists h', fs. destruct fs as [|f fs].
    + exfalso. apply List.Exists_exists in Hex as (q & Hq & Hload).
      assert (Hin : In q (List.filter path_exists (p :: ps)))
        by (apply List.filter_In; now split).
      apply Forall2_length in Hfs.
      destruct (List.filter path_exists (p :: ps)); [destruct Hin|discriminate].
    + now split.
Qed.

(** *** A session *)

(** A machine with nibabel and VTK but without SimpleITK, on which
    nibabel cannot read the files and VTK reads what is not NIfTI. *)
Definition demo_modules (m : string) : bool := negb (String.eqb m "SimpleITK").

Definition demo_load : string -> option CaseManager.image_info :=
  load_medical_image (fun p => negb (PyStr.contains "missing" p)) demo_modules
    (fun _ => None) (fun _ => None)
    (fun r _ => match r with
                | vtkNIFTIImageReader => None
                | _ => Some [("dimensions", TTuple [TInt 4; TInt 4; TInt 2])]
                end)
    (fun _ => [("file_size", TInt 1024); ("last_modified", TFloat 0)]).

(** The same machine with a nibabel that reads the files. *)
Definition nifti_load : string -> option CaseManager.image_info :=
  load_medical_image (fun p => negb (PyStr.contains "missing" p)) demo_modules
    (fun _ => None) (fun _ => Some [("dimensions", TTuple [TInt 4; TInt 4; TInt 2])])
    (fun r _ => match r with
                | vtkNIFTIImageReader => None
                | _ => Some [("dimensions", TTuple [TInt 4; TInt 4; TInt 2])]
                end)
    (fun _ => [("file_size", TInt 1024); ("last_modified", TFloat 0)]).

Lemma loaded_witness :
  demo_load "/data/p01/missing.nii" = None
  /\ (exists info,
        demo_load "/data/p01/ADC.NII.GZ" = Some info
        /\ CaseManager.image_format info = ".nii.gz"
        /\ CaseManager.image_loaded_with info = "basic_info"
        /\ CaseManager.image_has_array info = false)
  /\ (exists info,
        demo_load "/data/p01/t2w.mha" = Some info
        /\ CaseManager.image_loaded_with info = "VTK")
  /\ (exists info,
        nifti_load "/data/p01/ADC.NII.GZ" = Some info
        /\ CaseManager.image_loaded_with info = "nibabel"
        /\ CaseManager.image_has_array info = true)
  /\ (exists info,
        nifti_load "/data/p01/t2w.mha" = Some info
        /\ CaseManager.image_loaded_with info = "VTK").
Proof.
  split; [reflexivity|]. split; [|split; [|split]].
  - destruct (existing_file_is_always_loaded
                (fun p => negb (PyStr.contains "missing" p)) demo_modules
                (fun _ => None) (fun _ => None)
                (fun r _ => match r with
                            | vtkNIFTIImageReader => None
                            | _ => Some [("dimensions", TTuple [TInt 4; TInt 4; TInt 2])]
                            end)
                (fun _ => [("file_size", TInt 1024); ("last_modified", TFloat 0)])
                "/data/p01/ADC.NII.GZ") as (_ & H).
    destruct (H eq_refl) as (info & Hload & Hfmt & _ & _ & _ & Hbasic & _ & _ & _ & _ & Harr & _).
    exists info. split; [exact Hload|]. split; [now rewrite Hfmt|].
    assert (Hb : CaseManager.image_loaded_with info = "basic_info").
    { apply Hbasic. split; [now intros [? _]|]. split; [now intros (_ & _ & ?)|].
      now intros [_ ?]. }
    split; [exact Hb|]. now apply Harr.
  - eexists. split; reflexivity.
  - destruct (existing_file_is_always_loaded
                (fun p => negb (PyStr.contains "missing" p)) demo_modules
                (fun _ => None)
                (fun _ => Some [("dimensions", TTuple [TInt 4; TInt 4; TInt 2])])
                (fun r _ => match r with
                            | vtkNIFTIImageReader => None
                            | _ => Some [("dimensions", TTuple [TInt 4; TInt 4; TInt 2])]
                            end)
                (fun _ => [("file_size", TInt 1024); ("last_modified", TFloat 0)])
                "/data/p01/ADC.NII.GZ") as (_ & H).
    destruct (H eq_refl) as (info & Hload & _ & _ & Hnib & _).
    exists info. split; [exact Hload|].
    assert (Hn : CaseManager.image_loaded_with info = "nibabel").
    { apply Hnib. split; [now intros [? _]|]. split; [reflexivity|].
      split; [now right|discriminate]. }
    split; [exact Hn|]. injection Hload as <-. reflexivity.
  - destruct (existing_file_is_always_loaded
                (fun p => negb (PyStr.contains "missing" p)) demo_modules
                (fun _ => None)
                (fun _ => Some [("dimensions", TTuple [TInt 4; TInt 4; TInt 2])])
                (fun r _ => match r with
                            | vtkNIFTIImageReader => None
                            | _ => Some [("dimensions", TTuple [TInt 4; TInt 4; TInt 2])]
                            end)
                (fun _ => [("file_size", TInt 1024); ("last_modified", TFloat 0)])
                "/data/p01/t2w.mha") as (_ & H).
    destruct (H eq_refl) as (info & Hload & _ & _ & _ & Hvtk & _).
    exists info. split; [exact Hload|].
    apply Hvtk. split; [now intros [? _]|].
    split; [intros (_ & [?|?] & _); discriminate|]. split; [reflexivity|discriminate].
Defined.

Lemma existing_files_witness :
  exists h' fs,
    CaseManager.load_case demo_load
      ["/data/p01/t2w.mha"; "/data/p01/missing.nii"; "/data/p01/notes.txt"]
      "20240101_100000" "2024-01-01T10:00:00" "2024-01-01T10:00:00" CaseManager.init
    = (Ok (VRef 2%nat),
       {| CaseManager.objects := h'; CaseManager.cases := [VRef 2%nat];
          CaseManager.current_case_index := 0; CaseManager.disk := ∅ |})
    /\ h' !! 0%nat = Some (OList fs)
    /\ Forall2 (fun f q => CaseFacts.is_file_of h' q f) fs
               ["/data/p01/t2w.mha"; "/data/p01/notes.txt"].
Proof.
  apply (load_case_takes_every_existing_file
           (fun p => negb (PyStr.contains "missing" p)) demo_modules
           (fun _ => None) (fun _ => None)
           (fun r _ => match r with
                       | vtkNIFTIImageReader => None
                       | _ => Some [("dimensions", TTuple [TInt 4; TInt 4; TInt 2])]
                       end)
           (fun _ => [("file_size", TInt 1024); ("last_modified", TFloat 0)])
           ["/data/p01/t2w.mha"; "/data/p01/missing.nii"; "/data/p01/notes.txt"]
           "20240101_100000" "2024-01-01T10:00:00" "2024-01-01T10:00:00" CaseManager.init).
  apply Exists_cons_hd. reflexivity.
Defined.

Lemma dependencies_witness :
  check_dependencies demo_modules = (true, ["SimpleITK"])
  /\ check_dependencies (fun m => String.eqb m "PyQt5") = (false, ["numpy"; "vtk"]).
Proof.
  pose proof (check_dependencies_reports_one_kind demo_modules) as (_ & _ & H1 & _).
  pose proof (check_dependencies_reports_one_kind (fun m => String.eqb m "PyQt5"))
    as (_ & H2 & _).
  cbv zeta in H1, H2. split.
  - rewrite (surjective_pairing (check_dependencies demo_modules)).
    now rewrite H1 by reflexivity.
  - rewrite (surjective_pairing (check_dependencies _)).
    destruct (H2 eq_refl) as [-> _]. reflexivity.
Defined.

End ImageLoader.

(* ===================================================================== *)
(** ** The report dialog: [ReportDialog._generate_conclusion_text] *)
(* ===================================================================== *)

Module Report.
Import Py.
Local Open Scope py_scope.
Local Open Scope string_scope.
Local Open Scope list_scope.
Local Open Scope Z_scope.

(** The four texts [_generate_conclusion_text] can return; the last two
    are f-strings that print [num_lesions].
    - [No_results]: "No hay resultados de predicción disponibles."
    - [No_lesions]: "No se detectaron lesiones sospechosas. Se recomienda
      seguimiento rutinario."
    - [Significant n]: "Se detectaron n lesión(es), incluyendo al menos una
      con alta probabilidad de ser clínicamente significativa. Se
      recomienda correlación con hallazgos clínicos y considerar biopsia
      dirigida."
    - [Low_probability n]: "Se detectaron n lesión(es) de baja
      probabilidad. Se recomienda seguimiento en 6 meses para evaluar
      cambios." *)
Inductive conclusion : Type :=
  | No_results
  | No_lesions
  | Significant (num_lesions : value)
  | Low_probability (num_lesions : value).

(** [v == 0] *)
Definition equals_zero (v : value) : bool :=
  match v with
  | VInt n => n =? 0
  | VFloat f => PrimFloat.eqb f 0
  | VBool b => negb b
  | _ => false
  end.

(** [_generate_conclusion_text], on [self.prediction_results]. *)
Definition _generate_conclusion_text (prediction_results : value) : M heap conclusion :=
  let* some := truthy prediction_results in
  if negb some then ret No_results
  else
    let* num_lesions := get_default prediction_results "num_lesions" (VInt 0) in
    let* has_significant :=
      get_default prediction_results "has_significant_lesion" (VBool false) in
    if equals_zero num_lesions then ret No_lesions
    else
      let* significant := truthy has_significant in
      if significant then ret (Significant num_lesions)
      else ret (Low_probability num_lesions).

(** A lesion that is large and probable: above 500 mm3 and above 0.75. *)
Definition large_and_probable (l : Prediction.lesion) : bool :=
  PyFloat.gt (Prediction.volume_mm3 l) 500 && PyFloat.gt (Prediction.probability l) 0.75.

Lemma classify_alta_iff rt v p :
  String.eqb (Prediction.classify rt v p) "Alta" = PyFloat.gt v 500 && PyFloat.gt p 0.75.
Proof.
  unfold Prediction.classify. rewrite Prediction.literal_0_75.
  destruct (PyFloat.gt v 500 && PyFloat.gt p 0.75); [reflexivity|].
  now destruct (PyFloat.gt v 200 || PyFloat.gt p (Prediction.literal rt 0.6)).
Qed.

(** On the results of [_process_results] the conclusion follows the
    lesions: without lesions it says that none was found; it recommends
    a biopsy exactly when some lesion is above 500 mm3 and above 0.75;
    in every other case it speaks of lesions of low probability, whatever
    their severity is. It never says that there are no results. *)
Theorem conclusion_follows_the_lesions cc lm rt prob now r (h : heap) :
  Prediction._process_results cc lm rt prob now = Some r ->
  exists results h1,
    CaseManager.results_object r h = (Ok results, h1)
    /\ _generate_conclusion_text results h1
       = (Ok (if Nat.eqb (length (Prediction.lesions r)) 0 then No_lesions
              else if existsb large_and_probable (Prediction.lesions r)
                   then Significant (VInt (Z.of_nat (length (Prediction.lesions r))))
                   else Low_probability (VInt (Z.of_nat (length (Prediction.lesions r))))),
          h1).
Proof.
  intros Hr.
  destruct (Prediction.process_results_lesions _ _ _ _ _ _ Hr)
    as (ls & Hls & Hsort & _ & Hnum & Hsig & _).
  assert (Hcl : Forall (fun l => Prediction.severity l
                                 = Prediction.classify rt (Prediction.volume_mm3 l)
                                                       (Prediction.probability l))
                       (Prediction.lesions r)).
  { rewrite Hsort. eapply Permutation_Forall; [symmetry; apply PyList.sort_perm|].
    eapply Prediction.label_order_Forall; [exact Hls|]. reflexivity. }
  assert (Hsig' : Prediction.has_significant_lesion r
                  = existsb large_and_probable (Prediction.lesions r)).
  { rewrite Hsig. clear -Hcl. induction Hcl as [|l ls Hl _ IH]; [reflexivity|].
    cbn [existsb]. rewrite IH, Hl, classify_alta_iff. reflexivity. }
  destruct (CaseManager.build_spec
              (TList (map CaseManager.lesion_literal (Prediction.lesions r)))
              (h ++ [OArray])) as (lv & h0 & Hb & _).
  eexists _, _. split.
  { unfold CaseManager.results_object. unfold alloc at 1. unfold bind at 1.
    erewrite CaseManager.bind_ok by exact Hb. reflexivity. }
  unfold _generate_conclusion_text.
  erewrite CaseManager.bind_ok
    by (unfold truthy; rewrite CaseManager.lookup_alloc_new; reflexivity).
  cbn [length Nat.eqb negb].
  erewrite CaseManager.bind_ok
    by (unfold get_default; cbn [object_of]; rewrite CaseManager.lookup_alloc_new;
        reflexivity).
  erewrite CaseManager.bind_ok
    by (unfold get_default; cbn [object_of]; rewrite CaseManager.lookup_alloc_new;
        reflexivity).
  cbn [equals_zero]. rewrite Hnum, <- Hsig'.
  destruct (length (Prediction.lesions r)) as [|n] eqn:E; [reflexivity|].
  replace (Z.of_nat (S n) =? 0) with false by (symmetry; apply Z.eqb_neq; lia).
  cbn [Nat.eqb truthy]. unfold bind.
  now destruct (Prediction.has_significant_lesion r).
Qed.

(** Without results ([None] or an empty dictionary) the text says that
    there are none. With results that have no ['num_lesions'] the count
    defaults to 0 and the text says that no lesion was found, even when
    ['has_significant_lesion'] is [True]. *)
Theorem conclusion_needs_the_lesion_count :
  (forall h, _generate_conclusion_text VNone h = (Ok No_results, h))
  /\ (forall (h : heap) l,
        h !! l = Some (ODict []) ->
        _generate_conclusion_text (VRef l) h = (Ok No_results, h))
  /\ (forall (h : heap) l d,
        h !! l = Some (ODict d) -> d <> [] ->
        dict_get "num_lesions" d = None ->
        _generate_conclusion_text (VRef l) h = (Ok No_lesions, h)).
Proof.
  split; [reflexivity|]. split.
  - intros h l Hl. unfold _generate_conclusion_text, bind, truthy. now rewrite Hl.
  - intros h l d Hl Hne Hnum. unfold _generate_conclusion_text.
    erewrite CaseManager.bind_ok by (apply Results.truthy_dict, Hl).
    destruct d as [|kv d']; [contradiction|]. cbn [length Nat.eqb negb].
    unfold bind, get_default. cbn [object_of]. rewrite Hl, Hnum. rewrite Hl.
    now destruct (dict_get "has_significant_lesion" (kv :: d')).
Qed.

Lemma no_count_witness :
  _generate_conclusion_text VNone [] = (Ok No_results, [])
  /\ _generate_conclusion_text (VRef 0%nat) [ODict []] = (Ok No_results, [ODict []])
  /\ _generate_conclusion_text (VRef 0%nat)
       [ODict [("has_significant_lesion", VBool true)]]
     = (Ok No_lesions, [ODict [("has_significant_lesion", VBool true)]]).
Proof.
  destruct conclusion_needs_the_lesion_count as (H1 & H2 & H3).
  split; [apply H1|]. split; [now apply H2|].
  now apply (H3 _ 0%nat [("has_significant_lesion", VBool true)]).
Defined.

Lemma conclusion_witness :
  exists results h1,
    CaseManager.results_object Results.demo_results [] = (Ok results, h1)
    /\ _generate_conclusion_text results h1 = (Ok (Significant (VInt 3)), h1).
Proof.
  destruct (conclusion_follows_the_lesions
              Prediction.demo_components Prediction.demo_mean Prediction.demo_runtime
              Prediction.demo_probability "2024-01-01 10:02:00" Results.demo_results []
              eq_refl) as (results & h1 & H1 & H2).
  exists results, h1. split; [exact H1|exact H2].
Defined.

End Report.
